(* ===== verification/_CoqProject ===== *)
-Q . S2P
Prelude.v
GoString.v
GoText.v
Base64.v
GoTime.v
GoFloat.v
Mcc.v
Errors.v
Currency.v
Money.v
Dedup.v
GoHttp.v
BankData.v
Retry.v
Client.v
UserAgent.v
Options.v
Limiter.v
Endpoint.v
Business.v
BusinessApi.v
Statement.v
KeyCache.v
Signature.v
Keys.v
CorpAuth.v
Acquiring.v
Enums.v
Webhook.v
OpenApi.v
Corporate.v
InstMoney.v
InstTypes.v
Installment.v
ObTypes.v
Delivery.v
Iter.v
BusinessIter.v
Basket.v
AcqErrors.v
AcqApi.v
Uri.v
AcqDedup.v
Resolve.v
OpenBanking.v
Jar.v
Paths.v
Tracing.v
TracedClient.v
FakeServer.v
Interfaces.v
EndToEnd.v
Scenarios.v
KeyedLimiter.v
Effects.v
AcqIter.v
Reconcile.v
