(* ===== verification/Prelude.v ===== *)
(** * go-monobank-sdk: a verification library

    The SDK is a set of HTTP clients of one bank over a shared core. This
    library translates the core and the clients, file by file, and proves what
    each promises. It reads like the code: a struct is a Record, a method a
    Definition with the guards and early returns of its source, an error a value
    of [result], and a definition keeps the name of the function it models
    (with the type in front where two packages share a name).

    ** How the program is put together

    A client of one of the APIs (bank, personal, corporate, business, acquiring,
    Open Banking) builds a request and hands it to [Client.Do] (client.go), which
    resolves its URL against the base URL, sets the default headers, runs the
    authorizer, buffers the body and sends it through the retry loop (retry.go)
    and, once per attempt, the rate limiter (ratelimit.go), the request hook, the
    HTTP transport, the response hook and the decoder. The jar and installment
    clients use [http.Client] alone. Two webhook handlers (webhook/handler.go,
    acquiring/handler.go) go the other way: they verify, deduplicate and deliver
    the events the bank posts. Money, currency and merchant codes are value types
    every client shares.

    ** Files

    Foundations: [Prelude] (64-bit integers, time, tactics), [GoString], [GoText]
    (UTF-8, escaping, big-endian integers), [Base64] (base64, hex, PEM writing),
    [GoTime] (calendar), [GoFloat] (float64 as SpecFloat), [Errors] (error values,
    errors.Is and errors.As, APIError), [GoHttp] (requests, responses, and the
    classes [World] and [NetLib] of the environment).

    Core of the root package: [Currency] (currency/currency.go), [Money]
    (money/money.go), [Mcc] (mcc/mcc.go), [Retry] (retry.go), [Client]
    (client.go), [Options] (options.go), [UserAgent] (useragent.go), [Limiter]
    (ratelimit.go, one call after the other), [KeyedLimiter] (ratelimit.go, calls
    that wait while others come and the sweeper runs), [Endpoint] (what every
    endpoint method does around Do).

    Webhooks: [Signature] (webhook/signature.go, acquiring/webhook.go), [KeyCache]
    (the cached server key of both handlers), [Dedup] (webhook/dedup.go),
    [AcqDedup] (acquiring/dedup.go), [Webhook] (both handlers, webhook/parse.go),
    [Delivery] (deliveries that interleave).

    Open API: [BankData] (bank/data.go), [Statement] (bank/statement.go and the
    range methods of personal/ and corporate/), [Keys] (auth/corporate.go,
    auth/pubkey.go, bank/serverkey.go), [CorpAuth] (auth/), [OpenApi]
    (bank/client.go, bank/currency.go, personal/), [Corporate] (corporate/).

    Business: [Business] (business/types.go, logvalue.go), [BusinessApi] (its
    endpoints), [BusinessIter] (iter.go, idempotency.go), [Iter] (loops shared
    with acquiring).

    Acquiring: [Acquiring] (types.go, lifecycle.go and the records of the
    endpoint files), [AcqApi] (endpoints), [AcqErrors] (errors.go), [AcqIter]
    (paging), [Basket] (basket.go), [Reconcile] (reconcile.go), [Enums] (the
    values of the string types, with those of business/types.go).

    Others: [InstMoney], [InstTypes], [Installment] (installment/), [ObTypes],
    [OpenBanking] (openbanking/), [Jar] (jar/jar.go), [Tracing]
    (otelmonobank/otel.go), [TracedClient] (a client with the hooks installed),
    [FakeServer] (monobanktest/).

    Across clients: [Interfaces] (the API interface of every package and its client
    as an instance), [Effects] (how often a payment goes out), [Uri] (what a
    server reads from a URI), [Resolve] (dot segments), [Paths] (what they do to
    the older clients), [EndToEnd] (a client, a handler and the fake bank
    composed), [Scenarios] (the clients against the presets of the fake bank).

    ** State, effects and the environment

    Effects are state passing: an operation that sends, waits, reads the clock or
    calls back takes the world and returns the next one. The world is a type
    variable with the class [World]; a theorem holds of every instance, and the
    witnesses run on [Net], a transport that replays a list of answers and keeps
    what it was sent. Code outside the repository is a class as well: [NetLib]
    (net/url, net/http dates), [Crypto], [Signing], [KeyLib], [InstCrypto],
    [TLSLib] (signatures, hashes, curve and key parsing), [JSON] (encoding/json
    at a type), [GoArch] (float to integer conversion out of range). Their laws,
    where a theorem needs one, are in a class of laws of their own. The interfaces
    of the clients are records of operations ([Interfaces]), and an invariant every
    call of [Do] keeps is lifted to every operation of an interface. A mutex is
    modelled by running the critical section as one step; sections of several
    goroutines interleave in [Delivery] (deliveries of one handler),
    [KeyedLimiter] (callers and the sweeper over one heap of buckets) and
    [Tracing] (the spans of calls in flight).

    ** What is shown

    - The transport: what is sent and to which host, how often, when a call must
      not be repeated, how long it sleeps between attempts ([Client], [Retry],
      [Effects]); which configurations and requests are refused ([Options],
      [Client]). The rate limiter is written over an abstract number type: its
      theorems are about rationals, where no window admits more than the burst
      and the refill, a call whose context allows the wait is served ([Limiter]),
      and the keyed limiter is one limiter per key as long as no caller outstays
      the eviction time, and not beyond ([KeyedLimiter]); the same definitions
      run on float64, where [Wait_float_short] and [keyed_float_differs] show
      from which magnitudes on the code's doubles part from this.
    - The handlers: an event reaches the callback only with a valid signature,
      fresh, and not twice in sequence ([Webhook]); the deduplication set is an
      LRU ([Dedup], a refinement of a list); what concurrency adds to it
      ([Delivery]).
    - Completeness of paging: every row of a statement, list or registry is
      delivered, in order and once, and exactly when it is not ([Statement],
      [BusinessIter], [AcqIter]).
    - Authorization: whatever operations of an interface are called, no request of
      a personal, business or acquiring client leaves without its token, and every
      corporate request carries a signature the bank accepts for the operation's
      own actor and path ([Interfaces]); every Open Banking request its id and
      mandatory headers, without which nothing is sent ([OpenBanking]); every
      installment call that passes its checks sends one request with the HMAC of
      its own bytes ([Installment]); keys are read and written exactly ([Keys]).
    - Values: exactness and overflow of amounts ([Money], [InstMoney], [Basket],
      over the lemmas of [GoFloat] on float operations that round nothing),
      round trips of codes, dates, cursors, identifiers and signatures.
    - Redaction: what a log line may depend on ([BankData], [Business]).
    - Tracing: however calls interleave, a span started is open for one request
      or ended once, and a response that names its request is attributed to it
      ([Tracing]); a client with the hooks installed sends, waits and returns
      what it does without them ([TracedClient]).
    - Test doubles: the longest registered prefix serves, a sequence plays in
      order, and what the signer signs verifies ([FakeServer]); a handler that takes
      its key from the fake bank delivers exactly what the signer signed, and one
      whose cached key was rotated away recovers by one fetch ([EndToEnd]); the
      clients read back what the presets were given, a range once per window
      ([Scenarios]).
    - Reconciliation: a poll ends, with the state or the reason ([Reconcile]);
      the statement diff reports every disagreement and nothing else.

    Where the code falls short of its documentation the counterexample is a
    theorem too, next to the theorem it limits ([ParseMajor_silent_overflow],
    [DrainWindow_full_second_loses], [StatementAll_gaps], [concurrent_delivery_twice],
    [eviction_refills], [installment_money_lax], [dot_identifiers_move],
    [network_path_leaves], [expectedTotal_misrounds], [tracing_blames_last],
    [waiting_calls_split_the_limit] and others).

    ** Bounds and fuel

    Go's [int], [int64] and [time.Duration] are [Z] with the wrap-around written
    at each operation that can overflow; a float64 is a SpecFloat. Loops whose
    end depends on data take fuel and return [None] when it runs out, and a
    theorem gives an amount that is enough: the attempts of the policy for
    [Retry.run], the length of the input for [Keys.decodePrivateKey], the number
    of pages and windows for the iterators, the ticks before the deadline for
    [Reconcile.PollInvoice]. Strings are byte strings.

    ** Not modelled

    Parsing of URLs, PEM, ASN.1 and certificates, and JSON text beyond the shapes
    the SDK writes itself, which are classes; the TCP listener under the fake
    bank ([httptest]) and [Close], which stops it; the text of log records (a
    logger is given an event with what the code puts in it); and examples/, programs
    that only call the clients. [UserAgent] computes the version string; [Do] takes
    it as an argument. *)

From stdpp Require Export base numbers list strings gmap fin_maps.
From Stdlib Require Export ZArith Lia.

#[export] Set Default Goal Selector "!".
#[global] Open Scope Z_scope.

(** ** Machine integers

    Go's [int], [int64] and [time.Duration] are 64-bit two's-complement
    integers; arithmetic on them wraps.  They are kept as [Z] with the
    wrap-around written out at each operation that can overflow. *)

Declare Scope go_scope.
Delimit Scope go_scope with go.

Definition max_int64 : Z := 9223372036854775807.
Definition min_int64 : Z := -9223372036854775808.
Definition two64 : Z := 18446744073709551616.

(** The representative of [z] modulo [2^64] in [[min_int64, max_int64]]. *)
Definition wrap64 (z : Z) : Z := (z - min_int64) mod two64 + min_int64.
Definition uint64 (z : Z) : Z := z mod two64.
Definition in64 (z : Z) : Prop := min_int64 <= z <= max_int64.

(** Saturation, as [time.Time.Sub] does on a difference that does not fit. *)
Definition sat64 (z : Z) : Z := Z.max min_int64 (Z.min max_int64 z).

Notation "a +! b" := (wrap64 (a + b)) (at level 50, left associativity) : go_scope.
Notation "a -! b" := (wrap64 (a - b)) (at level 50, left associativity) : go_scope.
Notation "a *! b" := (wrap64 (a * b)) (at level 40, left associativity) : go_scope.
Notation "-! a" := (wrap64 (- a)) (at level 35, right associativity) : go_scope.

#[global] Instance in64_dec z : Decision (in64 z).
Proof. unfold in64. apply _. Defined.

(** ** Durations and instants

    A [time.Duration] is a count of nanoseconds; a [time.Time] is modelled by
    its count of nanoseconds since the Unix epoch, the zero [time.Time] being
    1 January of year 1. *)

Definition Nanosecond : Z := 1.
Definition Millisecond : Z := 1000000.
Definition Second : Z := 1000000000.
Definition Minute : Z := 60 * Second.
Definition Hour : Z := 60 * Minute.

Definition zero_time : Z := -62135596800 * Second.
Definition IsZero (t : Z) : bool := t =? zero_time.
Definition Unix (t : Z) : Z := t / Second.
Definition time_Sub (t u : Z) : Z := sat64 (t - u).

(** [x != nil], for a pointer. *)
Definition isSome {A} (x : option A) : bool := match x with Some _ => true | None => false end.

(** ** Tactics *)

(** Case analysis on everything the goal is stuck on. *)
Ltac go_cases := repeat (case_match; simplify_eq/=).

(** Arithmetic with the 64-bit constants in sight. *)
Ltac lia64 :=
  unfold in64, sat64, max_int64, min_int64, two64, Millisecond, Hour, Minute, Second in *; lia.

Create HintDb mono.
Create Rewrite HintDb mono.

(** ** Lemmas on machine integers *)

Lemma wrap64_in64 z : in64 (wrap64 z).
Proof.
  unfold wrap64, in64, min_int64, max_int64, two64.
  pose proof (Z.mod_pos_bound (z - -9223372036854775808) 18446744073709551616). lia.
Qed.

Lemma wrap64_id z : in64 z → wrap64 z = z.
Proof. intros H. unfold wrap64. rewrite Z.mod_small; lia64. Qed.

Lemma wrap64_eq z : ∃ k, wrap64 z = z + k * two64.
Proof.
  unfold wrap64. exists (- ((z - min_int64) / two64)).
  pose proof (Z.div_mod (z - min_int64) two64). lia64.
Qed.

Lemma wrap64_cong z k : wrap64 (z + k * two64) = wrap64 z.
Proof.
  unfold wrap64. replace (z + k * two64 - min_int64) with (z - min_int64 + k * two64) by lia.
  rewrite Z.mod_add by lia64. reflexivity.
Qed.

Lemma wrap64_wrap_l a b : wrap64 (wrap64 a + b) = wrap64 (a + b).
Proof.
  destruct (wrap64_eq a) as [k ->].
  replace (a + k * two64 + b) with (a + b + k * two64) by lia. apply wrap64_cong.
Qed.

Lemma wrap64_uint64 a : wrap64 (uint64 a) = wrap64 a.
Proof.
  unfold uint64. rewrite Z.mod_eq by lia64.
  replace (a - two64 * (a / two64)) with (a + (- (a / two64)) * two64) by lia. apply wrap64_cong.
Qed.

Lemma sat64_in64 z : in64 (sat64 z).
Proof. lia64. Qed.

Lemma sat64_id z : in64 z → sat64 z = z.
Proof. lia64. Qed.

Lemma sat64_mono a b : a <= b → sat64 a <= sat64 b.
Proof. lia64. Qed.

#[export] Hint Resolve wrap64_in64 sat64_in64 : mono.
#[export] Hint Rewrite wrap64_id sat64_id using (first [assumption | lia64]) : mono.

(** ** Lemmas on lists *)

Section ListFacts.
Context {A : Type}.
Implicit Types (l : list A) (P : A → Prop).

Lemma filter_all l P `{!∀ x, Decision (P x)} : Forall P l → filter P l = l.
Proof.
  induction 1 as [|x l Hx Hl IH]; [done|]. rewrite filter_cons_True by done. by rewrite IH.
Qed.

Lemma filter_none l P `{!∀ x, Decision (P x)} : Forall (λ x, ¬ P x) l → filter P l = [].
Proof.
  induction 1 as [|x l Hx Hl IH]; [done|]. by rewrite filter_cons_False.
Qed.

Lemma last_is_nth l (d : A) : l ≠ [] → last l = Some (List.last l d).
Proof. induction l as [|x [|y l] IH]; [done|done|]. intros _. by rewrite last_cons_cons, IH. Qed.

End ListFacts.
