(* ===== verification/GoString.v ===== *)
(** * Go strings and [strconv]

    A Go [string] is a sequence of bytes: [String.string] (a list of 8-bit
    [ascii]).  This file models what the SDK uses of [strings] and [strconv]:
    slicing, byte search, trimming, decimal parsing and decimal printing. *)
From S2P Require Import Prelude.
From stdpp Require Export pretty.
From Stdlib Require Export Ascii.

#[global] Open Scope string_scope.
#[global] Open Scope list_scope.
#[global] Open Scope Z_scope.

(** ** Bytes, slices, search *)

Definition byte_of (a : Ascii.ascii) : Z := Z.of_N (Ascii.N_of_ascii a).
Definition slen (s : string) : Z := Z.of_nat (String.length s).

(** [s[:n]] and [s[n:]]. *)
Fixpoint str_take (n : nat) (s : string) : string :=
  match n, s with
  | S n, String a s => String a (str_take n s)
  | _, _ => ""
  end.
Fixpoint str_drop (n : nat) (s : string) : string :=
  match n, s with
  | O, _ => s
  | S n, String _ s => str_drop n s
  | S _, EmptyString => ""
  end.

(** [strings.IndexByte]: the first index of the byte, or -1. *)
Fixpoint IndexByte_from (i : Z) (s : string) (b : Ascii.ascii) : Z :=
  match s with
  | EmptyString => -1
  | String a s => if Ascii.eqb a b then i else IndexByte_from (i + 1) s b
  end.
Definition IndexByte (s : string) (b : Ascii.ascii) : Z := IndexByte_from 0 s b.

(** ** Decimal integers *)

Definition is_digit (a : Ascii.ascii) : bool := (48 <=? byte_of a) && (byte_of a <=? 57).
Definition digit_val (a : Ascii.ascii) : Z := byte_of a - 48.

(** The value of a digit string read after [acc], [None] on any other byte. *)
Fixpoint parse_digits (acc : Z) (s : string) : option Z :=
  match s with
  | EmptyString => Some acc
  | String a s => if is_digit a then parse_digits (acc * 10 + digit_val a) s else None
  end.

Fixpoint all_digits (s : string) : bool :=
  match s with
  | EmptyString => true
  | String a s => is_digit a && all_digits s
  end.

(** [strconv.ParseInt(s, 10, 64)] and [strconv.Atoi] (a 64-bit [int]): an
    optional sign, at least one digit, and a value in range; the error values
    are not told apart. *)
Definition ParseInt (s : string) : option Z :=
  let '(neg, d) := match s with
                   | String "+"%char d => (false, d)
                   | String "-"%char d => (true, d)
                   | _ => (false, s)
                   end in
  match d with
  | EmptyString => None
  | _ => match parse_digits 0 d with
         | None => None
         | Some n => let v := if neg : bool then - n else n in
                     if bool_decide (in64 v) then Some v else None
         end
  end.
Definition Atoi (s : string) : option Z := ParseInt s.

(** [strconv.Itoa] and [strconv.FormatInt(z, 10)]. *)
Definition Itoa (z : Z) : string := pretty z.

(** An integer literal of JSON (no plus sign, no leading zero) as
    [json.Unmarshal] reads it into an [int64]; fractions, exponents and values
    out of range are errors there. *)
Definition json_int (s : string) : option Z :=
  let d := match s with String "-"%char d => d | _ => s end in
  match d with
  | String "0"%char (String _ _) => None
  | String "+"%char _ => None
  | _ => ParseInt s
  end.

(** The white space JSON allows around a value. *)
Definition json_space (a : Ascii.ascii) : bool :=
  let x := byte_of a in (x =? 32) || (x =? 9) || (x =? 10) || (x =? 13).
Fixpoint json_trim_left (s : string) : string :=
  match s with
  | EmptyString => ""
  | String a s' => if json_space a then json_trim_left s' else s
  end.
Fixpoint json_trim_right (s : string) : string :=
  match s with
  | EmptyString => ""
  | String a s' =>
      match json_trim_left s with
      | EmptyString => ""
      | _ => String a (json_trim_right s')
      end
  end.
Definition json_trim (s : string) : string := json_trim_right (json_trim_left s).

(** ** [strings.TrimSpace]

    The white space of [unicode.IsSpace], by its UTF-8 encodings. *)
Definition space1 (a : Ascii.ascii) : bool :=
  let x := byte_of a in ((9 <=? x) && (x <=? 13)) || (x =? 32).
(** U+0085 and U+00A0. *)
Definition space2 (a b : Ascii.ascii) : bool :=
  (byte_of a =? 194) && ((byte_of b =? 133) || (byte_of b =? 160)).
(** U+1680, U+2000..U+200A, U+2028, U+2029, U+202F, U+205F, U+3000. *)
Definition space3 (a b c : Ascii.ascii) : bool :=
  let x := byte_of a in let y := byte_of b in let z := byte_of c in
  ((x =? 225) && (y =? 154) && (z =? 128)) ||
  ((x =? 226) && (y =? 128) &&
     (((128 <=? z) && (z <=? 138)) || (z =? 168) || (z =? 169) || (z =? 175))) ||
  ((x =? 226) && (y =? 129) && (z =? 159)) ||
  ((x =? 227) && (y =? 128) && (z =? 128)).

Fixpoint trim_left (s : string) : string :=
  match s with
  | EmptyString => ""
  | String a s1 =>
      if space1 a then trim_left s1 else
      match s1 with
      | EmptyString => s
      | String b s2 =>
          if space2 a b then trim_left s2 else
          match s2 with
          | EmptyString => s
          | String c s3 => if space3 a b c then trim_left s3 else s
          end
      end
  end.

(** Cut where the rest of the string is white space only. *)
Fixpoint trim_right (s : string) : string :=
  match s with
  | EmptyString => ""
  | String a s1 =>
      match trim_left s with
      | EmptyString => ""
      | _ => String a (trim_right s1)
      end
  end.

Definition TrimSpace (s : string) : string := trim_right (trim_left s).

(** ** Lemmas *)

Lemma str_app_cons a s t : String a s +:+ t = String a (s +:+ t).
Proof. done. Qed.

Lemma str_app_nil t : "" +:+ t = t.
Proof. done. Qed.

Lemma str_take_drop n s : str_take n s +:+ str_drop n s = s.
Proof.
  revert s; induction n as [|n IH]; intros [|a s]; simpl; try done.
  rewrite str_app_cons. f_equal. apply IH.
Qed.

Lemma str_take_length n s :
  (n <= String.length s)%nat → String.length (str_take n s) = n.
Proof. revert s; induction n as [|n IH]; intros [|a s]; simpl; try lia. intros. rewrite IH; lia. Qed.

Lemma str_take_app s t : str_take (String.length s) (s +:+ t) = s.
Proof.
  induction s as [|a s IH]; simpl; [by destruct t|]. f_equal. apply IH.
Qed.

Lemma str_drop_app s t : str_drop (String.length s) (s +:+ t) = t.
Proof. induction s as [|a s IH]; simpl; [by destruct t|]. apply IH. Qed.

Lemma str_drop_app_S s a t : str_drop (S (String.length s)) (s +:+ String a t) = t.
Proof. induction s as [|b s IH]; simpl; [done|]. apply IH. Qed.

Lemma str_app_length s t : String.length (s +:+ t) = (String.length s + String.length t)%nat.
Proof. induction s as [|a s IH]; [done|]. rewrite str_app_cons. simpl. by rewrite IH. Qed.

Lemma str_app_inj s s' t t' :
  String.length s = String.length s' → s +:+ t = s' +:+ t' → s = s' ∧ t = t'.
Proof.
  revert s'. induction s as [|a s IH]; intros [|a' s'] Hl He; simpl in *; try done.
  rewrite !str_app_cons in He. injection He as -> He. injection Hl as Hl.
  destruct (IH s' Hl He) as [-> ->]. done.
Qed.

Lemma slen_app s t : slen (s +:+ t) = slen s + slen t.
Proof.
  unfold slen. induction s as [|a s IH]; [done|]. rewrite str_app_cons. cbn [String.length]. lia.
Qed.

Lemma slen_nonneg s : 0 <= slen s.
Proof. unfold slen. lia. Qed.

Lemma str_app_nil_r s : s +:+ "" = s.
Proof. induction s as [|a s IH]; [done|]. rewrite str_app_cons. congruence. Qed.

Lemma str_app_assoc s t u : (s +:+ t) +:+ u = s +:+ (t +:+ u).
Proof. induction s as [|a s IH]; [done|]. rewrite !str_app_cons. congruence. Qed.

Lemma digit_val_bounds a : is_digit a = true → 0 <= digit_val a <= 9.
Proof. unfold is_digit, digit_val. lia. Qed.

Lemma parse_digits_app acc s t :
  parse_digits acc (s +:+ t) = parse_digits acc s ≫= λ n, parse_digits n t.
Proof. revert acc; induction s as [|a s IH]; intros acc; [done|]. rewrite str_app_cons. simpl. case_match; [apply IH|done]. Qed.

Lemma parse_digits_Some acc s :
  all_digits s = true → is_Some (parse_digits acc s).
Proof.
  revert acc; induction s as [|a s IH]; intros acc; simpl; [eauto|].
  destruct (is_digit a); simpl; [apply IH|done].
Qed.

Lemma parse_digits_all acc s n : parse_digits acc s = Some n → all_digits s = true.
Proof.
  revert acc; induction s as [|a s IH]; intros acc; simpl; [done|].
  destruct (is_digit a); simpl; [apply IH|done].
Qed.

(** Starting from [b] instead of [a] adds [(b - a)] shifted by the length. *)
Lemma parse_digits_shift a b s n :
  parse_digits a s = Some n → parse_digits b s = Some (n + (b - a) * 10 ^ slen s).
Proof.
  revert a b; induction s as [|c s IH]; intros a b; simpl.
  - intros [= ->]. f_equal. change (slen "") with 0. lia.
  - destruct (is_digit c); [|done]. intros H.
    erewrite (IH _ (b * 10 + digit_val c)) by exact H. f_equal.
    change (slen (String c s)) with (Z.of_nat (S (String.length s))).
    unfold slen. rewrite Nat2Z.inj_succ, Z.pow_succ_r by lia. lia.
Qed.

Lemma parse_digits_bounds a s n :
  0 <= a → parse_digits a s = Some n → a * 10 ^ slen s <= n < (a + 1) * 10 ^ slen s.
Proof.
  revert a; induction s as [|c s IH]; intros a Ha; simpl.
  - intros [= ->]. change (slen "") with 0. lia.
  - destruct (is_digit c) eqn:Hc; [|done]. intros H. apply digit_val_bounds in Hc.
    apply IH in H; [|lia].
    change (slen (String c s)) with (Z.of_nat (S (String.length s))).
    unfold slen in *. rewrite Nat2Z.inj_succ, Z.pow_succ_r by lia. nia.
Qed.

Lemma parse_digits_ge a s n : 0 <= a → parse_digits a s = Some n → a <= n.
Proof.
  intros Ha Hp. destruct (parse_digits_bounds a s n Ha Hp) as [Hlo _].
  assert (0 < 10 ^ slen s) by (apply Z.pow_pos_nonneg; [lia|apply slen_nonneg]). nia.
Qed.

Lemma digit_step_ge a c s n :
  0 <= a → is_digit c = true → parse_digits (a * 10 + digit_val c) s = Some n →
  a * 10 + digit_val c <= n ∧ 0 <= digit_val c <= 9.
Proof.
  intros Ha Hc Hp. apply digit_val_bounds in Hc as ?. split; [|done].
  apply parse_digits_ge in Hp; lia.
Qed.

(** *** Printing then parsing *)

Lemma pretty_N_char_digit (d : N) :
  (d < 10)%N → is_digit (pretty_N_char d) = true ∧ digit_val (pretty_N_char d) = Z.of_N d.
Proof.
  intros Hd.
  assert (d = 0 ∨ d = 1 ∨ d = 2 ∨ d = 3 ∨ d = 4 ∨ d = 5 ∨ d = 6 ∨ d = 7 ∨ d = 8 ∨ d = 9)%N
    as Hc by lia.
  by destruct_or! Hc; subst.
Qed.

Lemma parse_pretty_N_go (x : N) s :
  parse_digits 0 (pretty_N_go x s) = parse_digits (Z.of_N x) s.
Proof.
  revert s; induction (N.lt_wf_0 x) as [x _ IH]; intros s.
  destruct (decide (0 < x)%N) as [Hx|Hx].
  2: { replace x with 0%N by lia. done. }
  rewrite pretty_N_go_step by done.
  rewrite IH by (apply N.div_lt; lia). cbn [parse_digits].
  destruct (pretty_N_char_digit (x `mod` 10)%N) as [-> ->]; [apply N.mod_lt; lia|].
  f_equal. pose proof (N.div_mod x 10). lia.
Qed.

Lemma parse_pretty_N (x : N) : parse_digits 0 (pretty x) = Some (Z.of_N x).
Proof.
  unfold pretty, pretty_N. case_decide; [by subst|]. by rewrite parse_pretty_N_go.
Qed.

Lemma pretty_N_nonempty (x : N) : pretty x ≠ "".
Proof.
  intros H. destruct (decide (x = 0%N)) as [->|Hx]; [done|].
  pose proof (parse_pretty_N x) as Hp. rewrite H in Hp. simpl in Hp. simplify_eq. lia.
Qed.

Lemma Itoa_nonneg z : 0 <= z → Itoa z = pretty (Z.to_N z).
Proof. by destruct z. Qed.

Lemma Itoa_neg z : z < 0 → Itoa z = String "-" (pretty (Z.to_N (- z))).
Proof. by destruct z. Qed.

Lemma parse_Itoa z : 0 <= z → parse_digits 0 (Itoa z) = Some z.
Proof. intros Hz. rewrite Itoa_nonneg by done. rewrite parse_pretty_N. f_equal. lia. Qed.

Lemma all_digits_Itoa z : 0 <= z → all_digits (Itoa z) = true.
Proof. intros Hz. eapply parse_digits_all, parse_Itoa, Hz. Qed.

Lemma all_digits_cons a s : all_digits (String a s) = true → is_digit a = true.
Proof. simpl. by destruct (is_digit a). Qed.

Lemma digit_not_sign a : is_digit a = true → a ≠ "+"%char ∧ a ≠ "-"%char.
Proof. intros H. split; intros ->; done. Qed.

(** On an unsigned digit string [ParseInt] is [parse_digits] with a range check. *)
Lemma ParseInt_range s n :
  s ≠ "" → parse_digits 0 s = Some n → ParseInt s = if bool_decide (in64 n) then Some n else None.
Proof.
  intros Hs Hp. unfold ParseInt. destruct s as [|a s]; [done|].
  pose proof (digit_not_sign a (all_digits_cons a s (parse_digits_all _ _ _ Hp))) as [H1 H2].
  assert ((match String a s with
           | String "+"%char d => (false, d)
           | String "-"%char d => (true, d)
           | _ => (false, String a s) end) = (false, String a s)) as ->.
  { destruct a as [[] [] [] [] [] [] [] []]; done. }
  by rewrite Hp.
Qed.

Lemma ParseInt_digits s n :
  s ≠ "" → parse_digits 0 s = Some n → in64 n → ParseInt s = Some n.
Proof. intros Hs Hp Hn. by rewrite (ParseInt_range s n), bool_decide_true. Qed.

Lemma ParseInt_neg_digits s n :
  s ≠ "" → parse_digits 0 s = Some n → in64 (- n) → ParseInt (String "-" s) = Some (- n).
Proof.
  intros Hs Hp Hn. unfold ParseInt. destruct s as [|a s]; [done|].
  rewrite Hp. by rewrite bool_decide_true.
Qed.

Lemma ParseInt_in64 s n : ParseInt s = Some n → in64 n.
Proof. unfold ParseInt. intros H. go_cases; by eapply bool_decide_eq_true_1. Qed.

Lemma Atoi_Itoa z : in64 z → Atoi (Itoa z) = Some z.
Proof.
  intros Hz. unfold Atoi. destruct (decide (0 <= z)).
  - apply ParseInt_digits; [|by apply parse_Itoa|done].
    rewrite Itoa_nonneg by done. apply pretty_N_nonempty.
  - rewrite Itoa_neg by lia.
    rewrite (ParseInt_neg_digits _ (- z)); [f_equal; lia|apply pretty_N_nonempty| |].
    + rewrite parse_pretty_N. f_equal. lia.
    + by rewrite Z.opp_involutive.
Qed.

(** *** Trimming *)

Lemma digit_not_space a :
  is_digit a = true →
  space1 a = false ∧ (∀ b, space2 a b = false) ∧ (∀ b c, space3 a b c = false).
Proof. unfold is_digit, space1, space2, space3. intros H. repeat split; intros; lia. Qed.

Lemma trim_left_digit a s : is_digit a = true → trim_left (String a s) = String a s.
Proof.
  intros (H1 & H2 & H3)%digit_not_space. simpl. rewrite H1.
  destruct s as [|b s]; [done|]. rewrite H2. destruct s as [|c s]; [done|]. by rewrite H3.
Qed.

Lemma trim_right_digits s : all_digits s = true → trim_right s = s.
Proof.
  induction s as [|a s IH]; [done|]. intros H. pose proof (all_digits_cons _ _ H) as Ha.
  cbn [trim_right]. rewrite trim_left_digit by done.
  f_equal. apply IH. simpl in H. by rewrite Ha in H.
Qed.

Lemma TrimSpace_digits s : all_digits s = true → TrimSpace s = s.
Proof.
  intros H. unfold TrimSpace. destruct s as [|a s]; [done|].
  rewrite trim_left_digit by (by eapply all_digits_cons). by apply trim_right_digits.
Qed.

(** *** JSON integers *)

Lemma digit_not_json_space a : is_digit a = true → json_space a = false.
Proof. unfold is_digit, json_space. intros. lia. Qed.

Lemma json_trim_right_digits s : all_digits s = true → json_trim_right s = s.
Proof.
  induction s as [|a s IH]; [done|]. intros H. pose proof (all_digits_cons _ _ H) as Ha.
  cbn [json_trim_right json_trim_left]. rewrite digit_not_json_space by done.
  f_equal. apply IH. simpl in H. by rewrite Ha in H.
Qed.

Lemma json_trim_Itoa z : json_trim (Itoa z) = Itoa z.
Proof.
  destruct (decide (0 <= z)) as [Hz|Hz].
  - pose proof (all_digits_Itoa z Hz) as H. unfold json_trim.
    destruct (Itoa z) as [|a s]; [done|]. simpl json_trim_left.
    rewrite digit_not_json_space by (by eapply all_digits_cons). by apply json_trim_right_digits.
  - rewrite Itoa_neg by lia. pose proof (all_digits_Itoa (- z)) as H.
    rewrite Itoa_nonneg in H by lia. unfold json_trim. simpl. f_equal.
    apply json_trim_right_digits, H. lia.
Qed.

(** The digits printed for a positive number do not start with a zero. *)
Lemma pretty_N_go_head (x : N) s :
  (0 < x)%N → ∃ a t, pretty_N_go x s = String a t ∧ a ≠ "0"%char ∧ is_digit a = true.
Proof.
  revert s; induction (N.lt_wf_0 x) as [x _ IH]; intros s Hx.
  rewrite pretty_N_go_step by done.
  destruct (decide (0 < x `div` 10)%N) as [Hd|Hd].
  { apply IH; [apply N.div_lt; lia|done]. }
  assert (x `div` 10 = 0)%N as H0 by (by apply N.le_0_r, N.nlt_ge).
  assert (x `mod` 10 = x)%N as Hm by (pose proof (N.div_mod x 10); rewrite H0 in *; lia).
  rewrite H0. assert (x < 10)%N by (rewrite <- Hm; by apply N.mod_lt).
  rewrite Hm. eexists _, _. split; [reflexivity|].
  destruct (pretty_N_char_digit x) as [Ha Hv]; [done|].
  split; [|done]. intros Heq. rewrite Heq in Hv. change (digit_val "0") with 0 in Hv. lia.
Qed.

Lemma json_int_pretty (x : N) :
  json_int (pretty x) = ParseInt (pretty x) ∧
  json_int (String "-" (pretty x)) = ParseInt (String "-" (pretty x)).
Proof.
  destruct (decide (x = 0%N)) as [->|Hx]; [done|].
  assert (pretty x = pretty_N_go x "") as -> by (unfold pretty, pretty_N; by case_decide).
  destruct (pretty_N_go_head x "") as (a & t & -> & Ha & Hd); [lia|].
  destruct a as [[] [] [] [] [] [] [] []]; done.
Qed.

Lemma json_int_Itoa z : in64 z → json_int (Itoa z) = Some z.
Proof.
  intros Hz. rewrite <- (Atoi_Itoa z) by done. unfold Atoi.
  destruct (decide (0 <= z)).
  - rewrite Itoa_nonneg by done. apply json_int_pretty.
  - rewrite Itoa_neg by lia. apply json_int_pretty.
Qed.

#[export] Hint Resolve slen_nonneg digit_val_bounds : mono.
