(* ===== verification/GoText.v ===== *)
(** * Text encodings of the standard library the SDK relies on

    UTF-8 decoding as a conversion to [[]rune], [url.PathEscape], the standard
    base64 decoding, and big-endian byte strings. *)
From S2P Require Import Prelude GoString.

(** ** UTF-8 *)

Definition byte_at (s : string) (i : nat) : Z :=
  match String.get i s with Some a => byte_of a | None => -1 end.
Definition is_cont (b : Z) : bool := (128 <=? b) && (b <=? 191).

Definition RuneError : Z := 65533.

(** [utf8.DecodeRuneInString] of a non-empty string: the rune and its width;
    an invalid sequence yields [RuneError] over one byte. *)
Definition decode_rune (s : string) : Z * nat :=
  let b0 := byte_at s 0 in let b1 := byte_at s 1 in
  let b2 := byte_at s 2 in let b3 := byte_at s 3 in
  if b0 <? 128 then (b0, 1%nat)
  else if (194 <=? b0) && (b0 <=? 223) && is_cont b1 then
    ((b0 - 192) * 64 + (b1 - 128), 2%nat)
  else if (224 <=? b0) && (b0 <=? 239) && is_cont b1 && is_cont b2 &&
          negb ((b0 =? 224) && (b1 <? 160)) && negb ((b0 =? 237) && (159 <? b1)) then
    ((b0 - 224) * 4096 + (b1 - 128) * 64 + (b2 - 128), 3%nat)
  else if (240 <=? b0) && (b0 <=? 244) && is_cont b1 && is_cont b2 && is_cont b3 &&
          negb ((b0 =? 240) && (b1 <? 144)) && negb ((b0 =? 244) && (143 <? b1)) then
    ((b0 - 240) * 262144 + (b1 - 128) * 4096 + (b2 - 128) * 64 + (b3 - 128), 4%nat)
  else (RuneError, 1%nat).

Fixpoint runes_fuel (n : nat) (s : string) : list Z :=
  match n with
  | O => []
  | S n => match s with
           | "" => []
           | _ => let '(r, w) := decode_rune s in r :: runes_fuel n (str_drop w s)
           end
  end.

(** [[]rune(s)]: every rune takes at least a byte. *)
Definition runes (s : string) : list Z := runes_fuel (String.length s) s.

Definition ascii_of_Z (z : Z) : Ascii.ascii := Ascii.ascii_of_N (Z.to_N z).
Definition byte_string (l : list Z) : string := String.string_of_list_ascii (ascii_of_Z <$> l).

(** [string(r)] of a rune. *)
Definition rune_string (r : Z) : string :=
  if (r <? 0) || (1114111 <? r) || ((55296 <=? r) && (r <=? 57343)) then byte_string [239; 191; 189]
  else if r <? 128 then byte_string [r]
  else if r <? 2048 then byte_string [192 + r / 64; 128 + r mod 64]
  else if r <? 65536 then byte_string [224 + r / 4096; 128 + (r / 64) mod 64; 128 + r mod 64]
  else byte_string [240 + r / 262144; 128 + (r / 4096) mod 64; 128 + (r / 64) mod 64; 128 + r mod 64].

(** [strings.Repeat]. *)
Fixpoint Repeat (s : string) (n : nat) : string :=
  match n with O => "" | S n => s +:+ Repeat s n end.

(** ** url.PathEscape *)

Definition in_range (a b c : Z) : bool := (a <=? c) && (c <=? b).

(** [shouldEscape(c, encodePathSegment)], negated. *)
Definition segment_safe (a : Ascii.ascii) : bool :=
  let c := byte_of a in
  in_range 97 122 c || in_range 65 90 c || in_range 48 57 c ||
  (c =? 45) || (c =? 95) || (c =? 46) || (c =? 126) ||                         (* - _ . ~ *)
  (c =? 36) || (c =? 38) || (c =? 43) || (c =? 61) || (c =? 58) || (c =? 64).  (* $ & + = : @ *)

Definition upper_hex (n : Z) : Ascii.ascii := ascii_of_Z (if n <? 10 then 48 + n else 55 + n).

Fixpoint PathEscape (s : string) : string :=
  match s with
  | "" => ""
  | String a s =>
      if segment_safe a then String a (PathEscape s)
      else String "%" (String (upper_hex (byte_of a / 16)) (String (upper_hex (byte_of a mod 16)) (PathEscape s)))
  end.

Definition unhex (a : Ascii.ascii) : option Z :=
  let c := byte_of a in
  if in_range 48 57 c then Some (c - 48)
  else if in_range 97 102 c then Some (c - 87)
  else if in_range 65 70 c then Some (c - 55)
  else None.

(** [url.PathUnescape]. *)
Fixpoint PathUnescape (s : string) : option string :=
  match s with
  | "" => Some ""
  | String "%" (String h (String l s)) =>
      match unhex h, unhex l, PathUnescape s with
      | Some h, Some l, Some r => Some (String (ascii_of_Z (h * 16 + l)) r)
      | _, _, _ => None
      end
  | String "%" _ => None
  | String a s => String a <$> PathUnescape s
  end.

(** ** base64.StdEncoding.DecodeString *)

Definition b64_val (a : Ascii.ascii) : option Z :=
  let c := byte_of a in
  if in_range 65 90 c then Some (c - 65)
  else if in_range 97 122 c then Some (c - 71)
  else if in_range 48 57 c then Some (c + 4)
  else if c =? 43 then Some 62
  else if c =? 47 then Some 63
  else None.

Definition is_newline (a : Ascii.ascii) : bool := (byte_of a =? 10) || (byte_of a =? 13).

(** Quanta of four characters; padding only in the last one. *)
Fixpoint b64_quanta (l : list Ascii.ascii) : option (list Z) :=
  match l with
  | [] => Some []
  | a :: b :: c :: d :: rest =>
      match b64_val a, b64_val b with
      | Some va, Some vb =>
          match b64_val c, b64_val d with
          | Some vc, Some vd =>
              match b64_quanta rest with
              | Some r => Some (va * 4 + vb / 16 :: (vb mod 16) * 16 + vc / 4 :: (vc mod 4) * 64 + vd :: r)
              | None => None
              end
          | Some vc, None => if bool_decide (d = "="%char ∧ rest = []) then
                               Some [va * 4 + vb / 16; (vb mod 16) * 16 + vc / 4] else None
          | None, _ => if bool_decide (c = "="%char ∧ d = "="%char ∧ rest = []) then
                         Some [va * 4 + vb / 16] else None
          end
      | _, _ => None
      end
  | _ => None
  end.

(** Newlines are skipped; trailing bits of the last quantum are ignored. *)
Definition b64_DecodeString (s : string) : option string :=
  byte_string <$> b64_quanta (filter (λ a, is_newline a = false) (String.list_ascii_of_string s)).

(** ** Big-endian integers *)

(** [new(big.Int).SetBytes(b)]. *)
Definition SetBytes (b : string) : Z :=
  fold_left (λ acc a, acc * 256 + byte_of a) (String.list_ascii_of_string b) 0.

(** [b.Bytes()] of a non-negative integer: big-endian, without leading zeros. *)
Fixpoint be_bytes_fuel (n : nat) (z : Z) (acc : list Z) : list Z :=
  match n with
  | O => acc
  | S n => if z <=? 0 then acc else be_bytes_fuel n (z / 256) (z mod 256 :: acc)
  end.
Definition be_bytes (z : Z) : list Z := be_bytes_fuel (Z.to_nat (Z.log2 z / 8 + 1)) z [].

(** ** Lemmas *)

Lemma byte_of_bound a : 0 <= byte_of a < 256.
Proof. unfold byte_of. pose proof (Ascii.N_ascii_bounded a). lia. Qed.

Lemma ascii_of_byte a : ascii_of_Z (byte_of a) = a.
Proof. unfold ascii_of_Z, byte_of. rewrite N2Z.id. apply Ascii.ascii_N_embedding. Qed.

Lemma byte_of_ascii z : 0 <= z < 256 → byte_of (ascii_of_Z z) = z.
Proof. intros Hz. unfold ascii_of_Z, byte_of. rewrite Ascii.N_ascii_embedding; lia. Qed.

Lemma unhex_upper n : 0 <= n < 16 → unhex (upper_hex n) = Some n.
Proof.
  intros Hn. assert (n ∈ seqZ 0 16) as Hin by (apply elem_of_seqZ; lia). clear Hn.
  revert n Hin. apply Forall_forall. by apply (bool_decide_unpack _); vm_compute.
Qed.

(** Escaping is undone by unescaping: no two identifiers share a path. *)
Lemma PathUnescape_PathEscape s : PathUnescape (PathEscape s) = Some s.
Proof.
  induction s as [|a s IH]; [done|]. cbn [PathEscape]. destruct (segment_safe a) eqn:Ha.
  - assert (a ≠ "%"%char) as Hp by (intros ->; done).
    assert (PathUnescape (String a (PathEscape s)) = String a <$> PathUnescape (PathEscape s)) as ->.
    { destruct a as [[] [] [] [] [] [] [] []]; first [reflexivity|done]. }
    by rewrite IH.
  - cbn [PathUnescape]. pose proof (byte_of_bound a).
    pose proof (Z.div_mod (byte_of a) 16 ltac:(lia)). pose proof (Z.mod_pos_bound (byte_of a) 16 ltac:(lia)).
    rewrite !unhex_upper, IH by lia. f_equal. f_equal.
    replace (byte_of a / 16 * 16 + byte_of a mod 16) with (byte_of a) by lia. apply ascii_of_byte.
Qed.

(** The characters of a string. *)
Definition chars (s : string) : list Ascii.ascii := String.list_ascii_of_string s.

Lemma chars_app s t : chars (s +:+ t) = chars s ++ chars t.
Proof. induction s as [|a s IH]; [done|]. rewrite str_app_cons. change (a :: chars (s +:+ t) = a :: (chars s ++ chars t)). by rewrite IH. Qed.

(** An escaped segment holds no separator of the URL grammar. *)
Definition separator (a : Ascii.ascii) : Prop := a = "/"%char ∨ a = "?"%char ∨ a = "#"%char.

Lemma PathEscape_no_separator s : Forall (λ a, ¬ separator a) (chars (PathEscape s)).
Proof.
  assert (∀ n, 0 <= n < 16 → ¬ separator (upper_hex n)) as Hu.
  { intros n Hn. assert (n ∈ seqZ 0 16) as Hin by (apply elem_of_seqZ; lia). clear Hn.
    revert n Hin. apply Forall_forall. unfold separator. by apply (bool_decide_unpack _); vm_compute. }
  induction s as [|a s IH]; [constructor|]. cbn [PathEscape]. destruct (segment_safe a) eqn:Ha.
  - cbn. constructor; [|done]. intros [-> | [-> | ->]]; done.
  - cbn. pose proof (byte_of_bound a).
    pose proof (Z.div_mod (byte_of a) 16 ltac:(lia)). pose proof (Z.mod_pos_bound (byte_of a) 16 ltac:(lia)).
    constructor; [by intros [? | [? | ?]]|]. constructor; [apply Hu; lia|]. constructor; [apply Hu; lia|done].
Qed.
