(* ===== verification/Base64.v ===== *)
(** * base64, hexadecimal and PEM encoding

    [base64.StdEncoding.EncodeToString], [hex.EncodeToString] and
    [pem.EncodeToMemory] for a block without headers, and that
    [b64_DecodeString] undoes the first. *)
From S2P Require Import Prelude GoString GoText.

(** ** Definitions *)

Definition b64_char (v : Z) : Ascii.ascii :=
  ascii_of_Z (if v <? 26 then v + 65 else if v <? 52 then v + 71 else if v <? 62 then v - 4
              else if v =? 62 then 43 else 47).

Fixpoint b64_encode (l : list Z) : list Ascii.ascii :=
  match l with
  | [] => []
  | [a] => [b64_char (a / 4); b64_char ((a mod 4) * 16); "="%char; "="%char]
  | [a; b] => [b64_char (a / 4); b64_char ((a mod 4) * 16 + b / 16); b64_char ((b mod 16) * 4); "="%char]
  | a :: b :: c :: rest =>
      b64_char (a / 4) :: b64_char ((a mod 4) * 16 + b / 16) ::
      b64_char ((b mod 16) * 4 + c / 64) :: b64_char (c mod 64) :: b64_encode rest
  end.

(** The bytes of a string. *)
Definition bytes (s : string) : list Z := byte_of <$> chars s.

(** [base64.StdEncoding.EncodeToString]. *)
Definition b64_EncodeToString (s : string) : string := String.string_of_list_ascii (b64_encode (bytes s)).

Definition lower_hex (n : Z) : Ascii.ascii := ascii_of_Z (if n <? 10 then 48 + n else 87 + n).

(** [hex.Encode]. *)
Fixpoint hex_Encode (l : list Z) : string :=
  match l with
  | [] => ""
  | b :: l => String (lower_hex (b / 16)) (String (lower_hex (b mod 16)) (hex_Encode l))
  end.

(** Lines of at most 64 characters, each ended by a newline. *)
Fixpoint pem_lines (fuel : nat) (s : string) : string :=
  match fuel with
  | O => ""
  | S fuel => match s with
              | "" => ""
              | _ => str_take 64 s +:+ String "010" (pem_lines fuel (str_drop 64 s))
              end
  end.

(** [pem.EncodeToMemory(&pem.Block{Type: typ, Bytes: der})]. *)
Definition pem_EncodeToMemory (typ der : string) : string :=
  let body := b64_EncodeToString der in
  "-----BEGIN " +:+ typ +:+ "-----" +:+ String "010" (pem_lines (String.length body) body) +:+
  "-----END " +:+ typ +:+ "-----" +:+ String "010" "".

(** ** Lemmas *)

Lemma bytes_app s t : bytes (s +:+ t) = bytes s ++ bytes t.
Proof. unfold bytes. by rewrite chars_app, fmap_app. Qed.

Lemma length_bytes s : Z.of_nat (length (bytes s)) = slen s.
Proof.
  unfold bytes, slen. rewrite length_fmap. f_equal. induction s as [|a s IH]; [done|].
  change (S (length (chars s)) = S (String.length s)). by rewrite IH.
Qed.

Lemma bytes_bound s : Forall (λ b, 0 <= b < 256) (bytes s).
Proof. unfold bytes. apply Forall_fmap, Forall_forall. intros a _. apply byte_of_bound. Qed.

Lemma byte_string_of_bytes s : byte_string (bytes s) = s.
Proof.
  unfold byte_string, bytes, chars. rewrite <- list_fmap_compose.
  rewrite (list_fmap_ext _ id), list_fmap_id, String.string_of_list_ascii_of_string; [done|].
  intros i a _. apply ascii_of_byte.
Qed.

Lemma bytes_of_byte_string l : Forall (λ b, 0 <= b < 256) l → bytes (byte_string l) = l.
Proof.
  intros Hl. unfold bytes, byte_string, chars. rewrite String.list_ascii_of_string_of_list_ascii, <- list_fmap_compose.
  induction Hl as [|b l Hb Hl IH]; [done|]. rewrite fmap_cons, IH. cbn. by rewrite byte_of_ascii.
Qed.

Lemma b64_val_char v : 0 <= v < 64 → b64_val (b64_char v) = Some v ∧ is_newline (b64_char v) = false.
Proof.
  intros Hv. assert (v ∈ seqZ 0 64) as Hin by (apply elem_of_seqZ; lia). clear Hv.
  revert v Hin. apply Forall_forall. by apply (bool_decide_unpack _); vm_compute.
Qed.

Lemma b64_val_of_char v : 0 <= v < 64 → b64_val (b64_char v) = Some v.
Proof. intros Hv. by apply b64_val_char. Qed.

(** Three bytes at a time. *)
Lemma triples_ind (P : list Z → Prop) :
  P [] → (∀ a, P [a]) → (∀ a b, P [a; b]) → (∀ a b c l, P l → P (a :: b :: c :: l)) → ∀ l, P l.
Proof.
  intros H0 H1 H2 H3 l. assert (∀ n l, (length l <= n)%nat → P l) as H; [|by apply (H (length l))].
  clear l. induction n as [|n IH]; intros [|a [|b [|c l]]] Hl; simpl in Hl; try done; try lia.
  apply H3, IH. lia.
Qed.

(** A division by a literal, with what it satisfies. *)
Ltac zdiv a n :=
  pose proof (Z.div_mod a n ltac:(lia)); pose proof (Z.mod_pos_bound a n ltac:(lia)).

Lemma b64_sextets a b c : 0 <= a < 256 → 0 <= b < 256 → 0 <= c < 256 →
  0 <= a / 4 < 64 ∧ 0 <= (a mod 4) * 16 + b / 16 < 64 ∧ 0 <= (b mod 16) * 4 + c / 64 < 64 ∧ 0 <= c mod 64 < 64.
Proof. intros. zdiv a 4. zdiv b 16. zdiv c 64. lia. Qed.

Lemma b64_bytes a b c : 0 <= a < 256 → 0 <= b < 256 → 0 <= c < 256 →
  a / 4 * 4 + ((a mod 4) * 16 + b / 16) / 16 = a ∧
  (((a mod 4) * 16 + b / 16) mod 16) * 16 + ((b mod 16) * 4 + c / 64) / 4 = b ∧
  (((b mod 16) * 4 + c / 64) mod 4) * 64 + c mod 64 = c.
Proof.
  intros. zdiv a 4. zdiv b 16. zdiv c 64.
  assert (0 <= b / 16 < 16) as Hb by lia. assert (0 <= c / 64 < 4) as Hc by lia.
  rewrite (Z.div_add_l (a mod 4) 16), (Z.div_small (b / 16) 16) by lia.
  rewrite (Z.add_comm (a mod 4 * 16)), Z.mod_add, (Z.mod_small (b / 16) 16) by lia.
  rewrite (Z.div_add_l (b mod 16) 4), (Z.div_small (c / 64) 4) by lia.
  rewrite (Z.add_comm (b mod 16 * 4)), Z.mod_add, (Z.mod_small (c / 64) 4) by lia. lia.
Qed.

Lemma b64_quanta_encode l : Forall (λ b, 0 <= b < 256) l → b64_quanta (b64_encode l) = Some l.
Proof.
  induction l as [|a|a b|a b c l IH] using triples_ind; intros Hl; [done| | |].
  - apply Forall_cons in Hl as [Ha _].
    destruct (b64_sextets a 0 0) as (H1 & H2 & _ & _); try lia. destruct (b64_bytes a 0 0) as (E1 & _ & _); try lia.
    rewrite Z.div_0_l, Z.add_0_r in H2, E1 by lia.
    cbn [b64_encode b64_quanta]. rewrite !b64_val_of_char by lia.
    change (b64_val "=") with (@None Z). cbn [b64_quanta]. by rewrite bool_decide_true, E1.
  - apply Forall_cons in Hl as [Ha Hl]. apply Forall_cons in Hl as [Hb _].
    destruct (b64_sextets a b 0) as (H1 & H2 & H3 & _); try lia. destruct (b64_bytes a b 0) as (E1 & E2 & _); try lia.
    rewrite Z.div_0_l, Z.add_0_r in H3, E2 by lia.
    cbn [b64_encode b64_quanta]. rewrite !b64_val_of_char by lia.
    change (b64_val "=") with (@None Z). cbn [b64_quanta]. by rewrite bool_decide_true, E1, E2.
  - apply Forall_cons in Hl as [Ha Hl]. apply Forall_cons in Hl as [Hb Hl]. apply Forall_cons in Hl as [Hc Hl].
    destruct (b64_sextets a b c) as (H1 & H2 & H3 & H4); try lia.
    destruct (b64_bytes a b c) as (E1 & E2 & E3); try lia.
    cbn [b64_encode b64_quanta]. rewrite !b64_val_of_char by lia.
    rewrite IH by done. by rewrite E1, E2, E3.
Qed.

Lemma b64_char_no_newline v : 0 <= v < 64 → is_newline (b64_char v) = false.
Proof. intros Hv. by apply b64_val_char. Qed.

Lemma b64_encode_no_newline l :
  Forall (λ b, 0 <= b < 256) l → Forall (λ a, is_newline a = false) (b64_encode l).
Proof.
  induction l as [|a|a b|a b c l IH] using triples_ind; intros Hl; [constructor| | |];
    rewrite ?Forall_cons in Hl; destruct_and?; cbn [b64_encode].
  - destruct (b64_sextets a 0 0 ltac:(lia) ltac:(lia) ltac:(lia)) as (S1 & S2 & _). rewrite Z.div_0_l, Z.add_0_r in S2 by lia.
    repeat apply Forall_cons_2; try (by apply b64_char_no_newline); done.
  - destruct (b64_sextets a b 0 ltac:(lia) ltac:(lia) ltac:(lia)) as (S1 & S2 & S3 & _). rewrite Z.div_0_l, Z.add_0_r in S3 by lia.
    repeat apply Forall_cons_2; try (by apply b64_char_no_newline); done.
  - destruct (b64_sextets a b c ltac:(lia) ltac:(lia) ltac:(lia)) as (S1 & S2 & S3 & S4).
    do 4 (apply Forall_cons_2; [by apply b64_char_no_newline|]). by apply IH.
Qed.

(** Decoding what was encoded. *)
Lemma b64_Decode_Encode s : b64_DecodeString (b64_EncodeToString s) = Some s.
Proof.
  unfold b64_DecodeString, b64_EncodeToString. rewrite String.list_ascii_of_string_of_list_ascii.
  rewrite filter_all by apply b64_encode_no_newline, bytes_bound.
  rewrite b64_quanta_encode by apply bytes_bound. cbn. by rewrite byte_string_of_bytes.
Qed.

(** Four characters for every three bytes begun. *)
Lemma b64_encode_length l : Z.of_nat (length (b64_encode l)) = 4 * ((Z.of_nat (length l) + 2) / 3).
Proof.
  induction l as [|a|a b|a b c l IH] using triples_ind; [done|done|done|].
  cbn [b64_encode length]. zdiv (Z.of_nat (length l) + 2) 3.
  replace (Z.of_nat (S (S (S (length l)))) + 2) with (Z.of_nat (length l) + 2 + 1 * 3) by lia.
  rewrite Z.div_add by lia. lia.
Qed.

Lemma slen_b64 s : slen (b64_EncodeToString s) = 4 * ((slen s + 2) / 3).
Proof.
  unfold b64_EncodeToString. rewrite <- length_bytes. unfold bytes at 1, chars.
  rewrite String.list_ascii_of_string_of_list_ascii, length_fmap, b64_encode_length. by rewrite length_bytes.
Qed.
