(* ===== verification/GoTime.v ===== *)
(** * Calendar dates of package time

    [t.UTC().Format(...)] for the two layouts the SDK uses, through the civil
    date of a day count (proleptic Gregorian calendar). *)
From S2P Require Import Prelude GoString GoText.

(** Year, month, day of the day [z] days after 1 January 1970: the 400-year
    era that starts on a 1 March, then its centuries, four-year cycles and
    years, the last of each being the one a day longer. *)
Definition civil_from_days (z : Z) : Z * Z * Z :=
  let z := z + 719468 in
  let era := z / 146097 in
  let doe := z mod 146097 in
  let c := Z.min 3 (doe / 36524) in
  let r := doe - 36524 * c in
  let q := r / 1461 in
  let r := r - 1461 * q in
  let n := Z.min 3 (r / 365) in
  let doy := r - 365 * n in
  let yoe := 100 * c + 4 * q + n in
  let mp := (5 * doy + 2) / 153 in
  let d := doy - (153 * mp + 2) / 5 + 1 in
  let m := if mp <? 10 then mp + 3 else mp - 9 in
  let y := yoe + era * 400 + (if m <=? 2 then 1 else 0) in
  (y, m, d).

Definition days_from_civil (y m d : Z) : Z :=
  let y := if m <=? 2 then y - 1 else y in
  let era := y / 400 in
  let yoe := y mod 400 in
  let mp := if 2 <? m then m - 3 else m + 9 in
  let doy := (153 * mp + 2) / 5 + d - 1 in
  let doe := yoe * 365 + yoe / 4 - yoe / 100 + doy in
  era * 146097 + doe - 719468.

(** Decimal, padded with zeros to a width the sign does not count in. *)
Definition pad0 (w : nat) (n : Z) : string :=
  let s := Itoa (Z.abs n) in
  (if n <? 0 then "-" else "") +:+ Repeat "0" (w - String.length s) +:+ s.

(** [time.DateOnly]. *)
Definition format_date (t : Z) : string :=
  let '(y, m, d) := civil_from_days (Unix t / 86400) in
  pad0 4 y +:+ "-" +:+ pad0 2 m +:+ "-" +:+ pad0 2 d.

(** [time.daysIn]. *)
Definition is_leap (y : Z) : bool := (y mod 4 =? 0) && (negb (y mod 100 =? 0) || (y mod 400 =? 0)).
Definition days_in (m y : Z) : Z :=
  if m =? 2 then (if is_leap y then 29 else 28)
  else if (m =? 4) || (m =? 6) || (m =? 9) || (m =? 11) then 30 else 31.

(** A field of exactly [w] digits, and what follows it. *)
Definition fixed_digits (w : nat) (s : string) : option (Z * string) :=
  if (String.length s <? w)%nat then None
  else n ← parse_digits 0 (str_take w s); Some (n, str_drop w s).

Definition after_dash (s : string) : option string :=
  match s with String "-" s => Some s | _ => None end.

(** [time.Parse(time.DateOnly, s)]: the midnight of the day, in UTC. *)
Definition parse_date (s : string) : option Z :=
  '(y, s) ← fixed_digits 4 s; s ← after_dash s;
  '(m, s) ← fixed_digits 2 s; s ← after_dash s;
  '(d, s) ← fixed_digits 2 s;
  if negb (String.eqb s "") then None
  else if (m <? 1) || (12 <? m) then None
  else if (d <? 1) || (days_in m y <? d) then None
  else Some (days_from_civil y m d * 86400 * Second).

(** [t.UTC().Format(time.RFC3339)]. *)
Definition format_RFC3339 (t : Z) : string :=
  let s := Unix t mod 86400 in
  format_date t +:+ "T" +:+ pad0 2 (s / 3600) +:+ ":" +:+ pad0 2 (s / 60 mod 60) +:+ ":" +:+ pad0 2 (s mod 60) +:+ "Z".

(** ** Lemmas *)

Example epoch : format_RFC3339 0 = "1970-01-01T00:00:00Z".
Proof. by vm_compute. Qed.

Example leap_day : format_RFC3339 (1709210096 * Second) = "2024-02-29T12:34:56Z".
Proof. by vm_compute. Qed.

Example before_epoch : format_date (-1 * Second) = "1969-12-31".
Proof. by vm_compute. Qed.

(** The months of a year that starts in March: the day of the year is read back
    from month and day, the 29th of February is its 365th. *)
Definition month_ok (doy : Z) : Prop :=
  let mp := (5 * doy + 2) / 153 in
  let d := doy - (153 * mp + 2) / 5 + 1 in
  let m := if mp <? 10 then mp + 3 else mp - 9 in
  (153 * (if 2 <? m then m - 3 else m + 9) + 2) / 5 + d - 1 = doy ∧ 1 <= m ∧ m <= 12 ∧ 1 <= d ∧
  (m ≠ 2 → d <= days_in m 1) ∧ (m = 2 → d <= 28 ∨ (d = 29 ∧ doy = 365)).

#[local] Instance month_ok_dec doy : Decision (month_ok doy).
Proof. unfold month_ok. apply _. Defined.

Lemma month_spec doy : 0 <= doy < 366 → month_ok doy.
Proof.
  intros Hd. assert (doy ∈ seqZ 0 366) as Hin by (apply elem_of_seqZ; lia). clear Hd.
  revert doy Hin. apply Forall_forall. by apply (bool_decide_unpack _); vm_compute.
Qed.

Lemma min_div a n : 0 < n → 0 <= a < 4 * n + 1 → let k := Z.min 3 (a / n) in 0 <= k <= 3 ∧ n * k <= a ∧ (k < 3 → a < n * k + n) ∧ a <= n * k + n.
Proof. intros Hn Ha k. pose proof (Z.div_mod a n ltac:(lia)). pose proof (Z.mod_pos_bound a n ltac:(lia)). subst k. nia. Qed.

(** The last February of a four-year cycle: of the last cycle of a century only in the last century. *)
Lemma is_leap_feb era c q : 0 <= c <= 3 → 0 <= q <= 24 → (q = 24 → c = 3) →
  is_leap (100 * c + 4 * q + 3 + era * 400 + 1) = true.
Proof.
  intros Hc Hq H. unfold is_leap. set (y := _ + 1). apply andb_true_iff.
  assert (y mod 4 = 0) as ->.
  { unfold y. replace (_ + 1) with (0 + (25 * c + q + 1 + 100 * era) * 4) by lia. by rewrite Z.mod_add by lia. }
  split; [done|]. apply orb_true_iff. destruct (decide (q = 24)) as [->|].
  - right. specialize (H eq_refl). subst c. unfold y. replace (_ + 1) with (0 + (era + 1) * 400) by lia. by rewrite Z.mod_add by lia.
  - left. replace y with (4 * q + 4 + (c + 4 * era) * 100) by (unfold y; lia). rewrite Z.mod_add, Z.mod_small by lia.
    destruct (Z.eqb_spec (4 * q + 4) 0); [lia|done].
Qed.

(** The civil date of a day is a date of the calendar, and the day is read back from it. *)
Lemma civil_days z : let '(y, m, d) := civil_from_days z in
  days_from_civil y m d = z ∧ 1 <= m <= 12 ∧ 1 <= d <= days_in m y.
Proof.
  unfold civil_from_days. cbv zeta. pose proof (Z.div_mod (z + 719468) 146097 ltac:(lia)) as He.
  pose proof (Z.mod_pos_bound (z + 719468) 146097 ltac:(lia)) as Hr.
  set (era := (z + 719468) / 146097) in *. set (doe := (z + 719468) mod 146097) in *. clearbody era doe.
  pose proof (min_div doe 36524 ltac:(lia) ltac:(lia)) as Hc. cbv zeta in Hc. set (c := Z.min 3 (doe / 36524)) in *. clearbody c.
  set (r := doe - 36524 * c) in *.
  pose proof (Z.div_mod r 1461 ltac:(lia)) as Hq. pose proof (Z.mod_pos_bound r 1461 ltac:(lia)) as Hq'.
  set (q := r / 1461) in *. clearbody q.
  pose proof (min_div (r - 1461 * q) 365 ltac:(lia) ltac:(lia)) as Hn. cbv zeta in Hn.
  set (n := Z.min 3 ((r - 1461 * q) / 365)) in *. clearbody n.
  set (doy := r - 1461 * q - 365 * n) in *.
  pose proof (month_spec doy ltac:(lia)) as Hm. unfold month_ok in Hm. cbv zeta in Hm.
  set (mp := (5 * doy + 2) / 153) in *. set (m := if mp <? 10 then mp + 3 else mp - 9) in *.
  set (d := doy - (153 * mp + 2) / 5 + 1) in *. destruct Hm as (Hdoy & Hm1 & Hm2 & Hd1 & Hd2 & Hd3).
  clearbody m d. clear mp. set (yoe := 100 * c + 4 * q + n).
  assert (0 <= yoe < 400 ∧ yoe / 4 = 25 * c + q ∧ yoe / 100 = c) as (Hy & Hy4 & Hy100).
  { unfold yoe. split; [lia|]. split; symmetry; [apply Z.div_unique_pos with (r := n)|apply Z.div_unique_pos with (r := 4 * q + n)]; lia. }
  split.
  - unfold days_from_civil. cbv zeta.
    replace (if m <=? 2 then yoe + era * 400 + (if m <=? 2 then 1 else 0) - 1 else yoe + era * 400 + (if m <=? 2 then 1 else 0))
      with (yoe + era * 400) by (destruct (m <=? 2); lia).
    rewrite Z.mod_add, Z.div_add, Z.mod_small, Z.div_small, Hy4, Hy100 by lia. lia.
  - split; [lia|]. split; [lia|]. destruct (Z.eqb_spec m 2) as [->|Hm].
    2:{ unfold days_in in *. destruct (Z.eqb_spec m 2); [done|auto]. }
    unfold days_in. change (2 =? 2) with true. change (2 <=? 2) with true. cbn match.
    destruct (Hd3 eq_refl) as [Hd|[-> Hd]]; [by destruct (is_leap _); lia|].
    assert (n = 3) as -> by lia. unfold yoe. rewrite is_leap_feb; lia.
Qed.

(** A day of a four-digit year is read back from its text. *)
Lemma length_pretty_go (w : nat) x s : (x < 10 ^ N.of_nat w)%N → (String.length (pretty_N_go x s) <= w + String.length s)%nat.
Proof.
  revert x s. induction w as [|w IH]; intros x s Hx.
  { assert (x = 0%N) as -> by (cbn in Hx; lia). by rewrite pretty_N_go_0. }
  destruct (decide (x = 0%N)) as [->|Hn]; [rewrite pretty_N_go_0; lia|].
  rewrite pretty_N_go_step by lia. etrans; [apply IH|cbn; lia].
  rewrite Nat2N.inj_succ, N.pow_succ_r' in Hx. apply N.Div0.div_lt_upper_bound. lia.
Qed.

Lemma length_Itoa (w : nat) n : (1 <= w)%nat → 0 <= n < 10 ^ Z.of_nat w → (String.length (Itoa n) <= w)%nat.
Proof.
  intros Hw Hn. rewrite Itoa_nonneg by lia. unfold pretty, pretty_N. case_decide; [cbn; lia|].
  assert (Z.to_N n < 10 ^ N.of_nat w)%N as Hx.
  { apply N2Z.inj_lt. rewrite N2Z.inj_pow, Z2N.id by lia. rewrite nat_N_Z. change (Z.of_N 10) with 10. lia. }
  pose proof (length_pretty_go w _ "" Hx) as Hl. change (String.length "") with 0%nat in Hl. lia.
Qed.

Lemma parse_zeros k n s : parse_digits 0 s = Some n → parse_digits 0 (Repeat "0" k +:+ s) = Some n.
Proof. intros Hs. induction k as [|k IH]; [done|]. cbn [Repeat]. rewrite str_app_assoc. exact IH. Qed.

Lemma length_zeros k : String.length (Repeat "0" k) = k.
Proof. induction k as [|k IH]; [done|]. cbn [Repeat]. change (S (String.length (Repeat "0" k)) = S k). by rewrite IH. Qed.

Lemma fixed_pad0 (w : nat) n t : (1 <= w)%nat → 0 <= n < 10 ^ Z.of_nat w → fixed_digits w (pad0 w n +:+ t) = Some (n, t).
Proof.
  intros Hw Hn. pose proof (length_Itoa w n Hw Hn) as Hl. unfold pad0. rewrite Z.abs_eq by lia.
  assert ((n <? 0) = false) as -> by (apply Z.ltb_ge; lia). rewrite str_app_nil.
  set (p := Repeat _ _ +:+ _). assert (String.length p = w) as Hp.
  { unfold p. rewrite str_app_length, length_zeros. lia. }
  unfold fixed_digits. rewrite str_app_length, Hp. destruct (Nat.ltb_spec (w + String.length t) w); [lia|].
  rewrite <-Hp, str_take_app, str_drop_app. unfold p. by rewrite (parse_zeros _ n) by (apply parse_Itoa; lia).
Qed.

Lemma parse_format_date t :
  let '(y, m, d) := civil_from_days (Unix t / 86400) in
  0 <= y <= 9999 → parse_date (format_date t) = Some (Unix t / 86400 * 86400 * Second).
Proof.
  unfold format_date. pose proof (civil_days (Unix t / 86400)) as Hc. destruct (civil_from_days _) as [[y m] d].
  destruct Hc as (Hd & Hm & Hr). intros Hy. unfold parse_date.
  assert (d <= 31) by (unfold days_in in Hr; repeat case_match; lia).
  rewrite (fixed_pad0 4 y) by lia. cbn [mbind option_bind]. change ("-" +:+ ?s) with (String "-" s). cbn [after_dash mbind option_bind].
  rewrite (fixed_pad0 2 m) by lia. cbn [mbind option_bind]. change ("-" +:+ ?s) with (String "-" s). cbn [after_dash mbind option_bind].
  rewrite <-(str_app_nil_r (pad0 2 d)), (fixed_pad0 2 d) by lia. cbn [mbind option_bind String.eqb negb].
  destruct (Z.ltb_spec m 1); [lia|]. destruct (Z.ltb_spec 12 m); [lia|]. destruct (Z.ltb_spec d 1); [lia|].
  destruct (Z.ltb_spec (days_in m y) d); [lia|]. cbn [orb]. by rewrite Hd.
Qed.
