(* ===== verification/GoFloat.v ===== *)
(** * Go [float64]

    IEEE-754 binary64, through the executable reference semantics
    [SpecFloat] of the Standard Library (53 bits of precision, exponents below
    1024, rounding to nearest even): conversions from and to [int64], the four
    operations the SDK uses and comparisons.  Converting a float that does not
    fit to [int64] is implementation-dependent in Go; it is a class parameter.
    The second half proves that sums and products of floats are exact when they
    fit 53 bits, for the theorems that compare the code with exact arithmetic. *)
From S2P Require Import Prelude.
From Stdlib Require Export SpecFloat.

Definition float64 : Set := spec_float.

Definition float64_of_Z (z : Z) : float64 := binary_normalize 53 1024 z 0 false.
Definition f_add : float64 → float64 → float64 := SFadd 53 1024.
Definition f_sub : float64 → float64 → float64 := SFsub 53 1024.
Definition f_mul : float64 → float64 → float64 := SFmul 53 1024.
Definition f_div : float64 → float64 → float64 := SFdiv 53 1024.

(** The literals the code writes: [0], [0.5], [1], [100]. *)
Definition f_zero : float64 := S754_zero false.
Definition f_half : float64 := S754_finite false 4503599627370496 (-53).
Definition f_one : float64 := float64_of_Z 1.

Definition f_le (x y : float64) : bool := SFleb x y.
Definition f_lt (x y : float64) : bool := SFltb x y.
Definition f_ge (x y : float64) : bool := SFleb y x.
Definition f_gt (x y : float64) : bool := SFltb y x.
Definition f_eq (x y : float64) : bool := SFeqb x y.
Definition IsNaN (x : float64) : bool := match x with S754_nan => true | _ => false end.
Definition IsInf (x : float64) : bool := match x with S754_infinity _ => true | _ => false end.

(** [math.Pow10(n)], exact for the exponents [0 <= n <= 22] that occur. *)
Definition Pow10 (n : Z) : float64 := float64_of_Z (10 ^ n).

(** Truncation towards zero; [None] on an infinity or NaN. *)
Definition f_trunc (x : float64) : option Z :=
  match x with
  | S754_zero _ => Some 0
  | S754_finite s m e =>
      let a := if 0 <=? e then Zpos m * 2 ^ e else Zpos m / 2 ^ (- e) in
      Some (if s then - a else a)
  | _ => None
  end.

(** What the target architecture makes of an out-of-range conversion. *)
Class GoArch := { int64_out_of_range : float64 → Z }.

(** [int64(x)]. *)
Definition int64_of_float `{GoArch} (x : float64) : Z :=
  match f_trunc x with
  | Some z => if bool_decide (in64 z) then z else int64_out_of_range x
  | None => int64_out_of_range x
  end.

(** amd64: CVTTSD2SQ yields the "integer indefinite" value. *)
Definition amd64 : GoArch := {| int64_out_of_range _ := min_int64 |}.

(** [if r >= 0 { int64(r + 0.5) } else { int64(r - 0.5) }], the rounding idiom
    shared by the money and basket code. *)
Definition round_half_away `{GoArch} (r : float64) : Z :=
  if f_ge r f_zero then int64_of_float (f_add r f_half) else int64_of_float (f_sub r f_half).

(** [math.Round]: to the nearest integer, halves away from zero. *)
Definition math_Round (x : float64) : float64 :=
  match x with
  | S754_finite s m e =>
      if 0 <=? e then x
      else let q := (2 * Zpos m + 2 ^ (- e)) / 2 ^ (- e + 1) in
           float64_of_Z (if s then - q else q)
  | _ => x
  end.

(** ** Exact results

    Where a result has at most 53 significant bits, rounding does nothing: the
    operations compute the value they stand for. *)

(** [x] is the normal float64 whose value is [a * 2 ^ E]. *)
Definition is_dyadic (x : float64) (a E : Z) : Prop :=
  ∃ m e, x = S754_finite false m e ∧ 2 ^ 52 <= Zpos m < 2 ^ 53 ∧ -1074 <= e <= 971 ∧ -1074 <= E ∧
    Zpos m * 2 ^ (e + 1074) = a * 2 ^ (E + 1074).

Lemma digits2_log2 p : Zpos (digits2_pos p) = Z.log2 (Zpos p) + 1.
Proof. induction p as [p IH|p IH|]; cbn [digits2_pos]; [| |done]; destruct p; cbn in *; lia. Qed.

Lemma pow2_split a b : 0 <= a → 0 <= b → 2 ^ (a + b) = 2 ^ a * 2 ^ b.
Proof. intros. by apply Z.pow_add_r. Qed.

Ltac pow2_pos n := assert (0 < 2 ^ n) by (apply Z.pow_pos_nonneg; lia).

(** Cancelling a power of two. *)
Lemma pow2_cancel a b i j : 0 <= i <= j → a * 2 ^ j = b * 2 ^ i → b = a * 2 ^ (j - i).
Proof.
  intros Hi He. replace j with (j - i + i) in He by lia. rewrite pow2_split, Z.mul_assoc in He by lia.
  pow2_pos i. by apply Z.mul_reg_r in He; [|lia].
Qed.

(** Shifting right what was shifted left loses nothing. *)
Lemma shr_1_double a : 0 < a → shr_1 (Build_shr_record (2 * a) false false) = Build_shr_record a false false.
Proof. by destruct a. Qed.

Lemma iter_shr p a : 0 < a →
  iter_pos shr_1 p (Build_shr_record (a * 2 ^ Zpos p) false false) = Build_shr_record a false false.
Proof.
  revert a. induction p as [p IH|p IH|]; intros a Ha; cbn [iter_pos].
  - replace (a * 2 ^ Zpos p~1) with (2 * (a * 2 ^ Zpos p * 2 ^ Zpos p)).
    + rewrite shr_1_double by lia. by rewrite !IH by lia.
    + rewrite (Pos2Z.inj_xI p), Z.pow_add_r, <- (Z.add_diag (Zpos p)), Z.pow_add_r by lia. lia.
  - replace (a * 2 ^ Zpos p~0) with (a * 2 ^ Zpos p * 2 ^ Zpos p); [by rewrite !IH by lia|].
    rewrite (Pos2Z.inj_xO p), <- (Z.add_diag (Zpos p)), Z.pow_add_r by lia. lia.
  - rewrite Z.mul_comm. by apply shr_1_double.
Qed.

Lemma shr_fexp_normal c k E : 2 ^ 52 <= c < 2 ^ 53 → 0 <= k → -1074 <= E + k →
  shr_fexp 53 1024 (c * 2 ^ k) E loc_Exact = (Build_shr_record c false false, E + k).
Proof.
  intros Hc Hk HE. unfold shr_fexp, fexp, emin. cbn [shr_record_of_loc].
  assert (Zdigits2 (c * 2 ^ k) = 53 + k) as Hd.
  { assert (Z.log2 (c * 2 ^ k) = 52 + k) as Hl.
    { rewrite Z.log2_mul_pow2 by lia. rewrite (Z.log2_unique c 52); lia. }
    pow2_pos k. destruct (c * 2 ^ k) as [|p|p] eqn:He; [lia| |lia].
    cbn [Zdigits2]. rewrite digits2_log2. lia. }
  rewrite Hd. replace (_ `max` _ - E) with k by lia. destruct k as [|p|p]; [| |lia].
  - cbn [shr]. by rewrite Z.mul_1_r, Z.add_0_r.
  - cbn [shr]. rewrite iter_shr by lia. done.
Qed.

Lemma round_aux_exact c k E : 2 ^ 52 <= c < 2 ^ 53 → 0 <= k → -1074 <= E + k <= 971 →
  binary_round_aux 53 1024 false (c * 2 ^ k) E loc_Exact = S754_finite false (Z.to_pos c) (E + k).
Proof.
  intros Hc Hk HE. unfold binary_round_aux. rewrite shr_fexp_normal by lia.
  cbn [shr_m loc_of_shr_record round_nearest_even].
  pose proof (shr_fexp_normal c 0 (E + k) Hc) as H1. rewrite Z.mul_1_r, Z.add_0_r in H1.
  rewrite H1 by lia. cbn [shr_m]. destruct c as [|p|p]; [lia| |lia]. by rewrite (proj2 (Z.leb_le _ _)) by lia.
Qed.

Lemma pos_iter_xO m d : Zpos (Pos.iter xO m d) = Zpos m * 2 ^ Zpos d.
Proof.
  induction d as [|d IH] using Pos.peano_ind; [cbn; lia|].
  rewrite Pos.iter_succ, Pos2Z.inj_succ, Z.pow_succ_r by lia. lia.
Qed.

Lemma shl_align_value m e e' : e' <= e →
  Zpos (fst (shl_align m e e')) = Zpos m * 2 ^ (e - e') ∧ snd (shl_align m e e') = e'.
Proof.
  intros He. unfold shl_align. destruct (e' - e) as [|p|p] eqn:Hd; cbn [fst snd]; [|lia|].
  - replace (e - e') with 0 by lia. lia.
  - rewrite pos_iter_xO. by replace (e - e') with (Zpos p) by lia.
Qed.

(** Whatever has the value of a normal float is normalised to that float. *)
Lemma normalize_exact M E c e : 2 ^ 52 <= c < 2 ^ 53 → -1074 <= e <= 971 → -1074 <= E →
  M * 2 ^ (E + 1074) = c * 2 ^ (e + 1074) →
  binary_normalize 53 1024 M E false = S754_finite false (Z.to_pos c) e.
Proof.
  intros Hc He HE Hv. destruct (decide (E <= e)) as [Hl|Hl].
  - assert (M = c * 2 ^ (e - E)) as ->.
    { symmetry in Hv. apply pow2_cancel in Hv; [|lia]. by replace (e + 1074 - (E + 1074)) with (e - E) in Hv by lia. }
    pow2_pos (e - E). pose proof (round_aux_exact c (e - E) E Hc) as Hr.
    assert (Z.log2 (c * 2 ^ (e - E)) = 52 + (e - E)) as Hlog.
    { rewrite Z.log2_mul_pow2 by lia. rewrite (Z.log2_unique c 52); lia. }
    destruct (c * 2 ^ (e - E)) as [|p|p] eqn:Hp; [lia| |lia].
    cbn [binary_normalize]. unfold binary_round, fexp, emin. rewrite digits2_log2, Hlog.
    unfold shl_align. replace (_ `max` _ - E) with (e - E) by lia.
    destruct (e - E) as [|q|q] eqn:Hq; [| |lia]; rewrite Hr by lia; f_equal; lia.
  - assert (c = M * 2 ^ (E - e)) as ->.
    { apply pow2_cancel in Hv; [|lia]. by replace (E + 1074 - (e + 1074)) with (E - e) in Hv by lia. }
    pow2_pos (E - e). assert (0 < M) as HM by nia.
    assert (Z.log2 M + (E - e) = 52) as Hlog.
    { rewrite Z.add_comm, <- Z.log2_mul_pow2 by lia. apply Z.log2_unique; lia. }
    destruct M as [|p|p]; [lia| |lia]. cbn [binary_normalize]. unfold binary_round, fexp, emin.
    rewrite digits2_log2. replace (_ `max` _) with e by lia.
    destruct (shl_align_value p E e ltac:(lia)) as [Hm Hs].
    destruct (shl_align p E e) as [mz ez]. cbn [fst snd] in *. subst ez. rewrite Hm.
    pose proof (round_aux_exact (Zpos p * 2 ^ (E - e)) 0 e Hc) as Hr.
    rewrite Z.mul_1_r, Z.add_0_r in Hr. apply Hr; lia.
Qed.

Lemma normal_mantissa a : 0 < a < 2 ^ 53 → ∃ i, 0 <= i <= 52 ∧ 2 ^ 52 <= a * 2 ^ i < 2 ^ 53.
Proof.
  intros Ha. assert (0 <= Z.log2 a <= 52) as Hl.
  { split; [apply Z.log2_nonneg|]. apply Z.lt_succ_r, Z.log2_lt_pow2; lia. }
  exists (52 - Z.log2 a). split; [lia|]. destruct (Z.log2_spec a ltac:(lia)) as [H1 H2].
  replace (Z.succ (Z.log2 a)) with (Z.log2 a + 1) in H2 by lia.
  pow2_pos (52 - Z.log2 a).
  replace (2 ^ 52) with (2 ^ Z.log2 a * 2 ^ (52 - Z.log2 a)) by (rewrite <- pow2_split by lia; f_equal; lia).
  replace (2 ^ 53) with (2 ^ (Z.log2 a + 1) * 2 ^ (52 - Z.log2 a)) by (rewrite <- pow2_split by lia; f_equal; lia).
  nia.
Qed.

(** What is normalised to the value [a * 2 ^ E], when [a] has 53 bits. *)
Lemma normalize_dyadic M E' a E : 0 < a < 2 ^ 53 → -1000 <= E <= 900 → -1074 <= E' →
  M * 2 ^ (E' + 1074) = a * 2 ^ (E + 1074) → is_dyadic (binary_normalize 53 1024 M E' false) a E.
Proof.
  intros Ha HE HE' Hv. destruct (normal_mantissa a Ha) as (i & Hi & Hc).
  assert (a * 2 ^ (E + 1074) = a * 2 ^ i * 2 ^ (E - i + 1074)) as Heq.
  { rewrite <- Z.mul_assoc, <- pow2_split by lia. do 2 f_equal. lia. }
  rewrite (normalize_exact M E' (a * 2 ^ i) (E - i)); [|done|lia|lia|lia].
  exists (Z.to_pos (a * 2 ^ i)), (E - i). rewrite Z2Pos.id by lia. split_and!; first [done|lia].
Qed.

Lemma float64_of_Z_dyadic z : 0 < z < 2 ^ 53 → is_dyadic (float64_of_Z z) z 0.
Proof. intros Hz. by apply normalize_dyadic. Qed.

(** The same value with another exponent. *)
Lemma is_dyadic_shift x a E d : is_dyadic x a E → 0 <= d → -1074 <= E - d → is_dyadic x (a * 2 ^ d) (E - d).
Proof.
  intros (m & e & -> & Hm & He & HE & Hv) Hd HE'. exists m, e. split_and!; try done; try lia.
  rewrite Hv, <- Z.mul_assoc, <- pow2_split by lia. do 2 f_equal. lia.
Qed.

(** The sum and the product of two normal floats are exact when they fit 53 bits. *)
Lemma f_add_dyadic x y a b E : is_dyadic x a E → is_dyadic y b E → 0 < a + b < 2 ^ 53 → -1000 <= E <= 900 →
  is_dyadic (f_add x y) (a + b) E.
Proof.
  intros (m & e & -> & Hm & He & _ & Hv) (n & f & -> & Hn & Hf & _ & Hw) Hab HE.
  unfold f_add, SFadd. cbn [cond_Zopp].
  destruct (shl_align_value m e (e `min` f) ltac:(lia)) as [-> _].
  destruct (shl_align_value n f (e `min` f) ltac:(lia)) as [-> _].
  apply normalize_dyadic; try lia.
  rewrite Z.mul_add_distr_r, <- !Z.mul_assoc, <- !pow2_split by lia.
  replace (e - e `min` f + (e `min` f + 1074)) with (e + 1074) by lia.
  replace (f - e `min` f + (e `min` f + 1074)) with (f + 1074) by lia. lia.
Qed.

Lemma f_mul_dyadic x y a b E F : is_dyadic x a E → is_dyadic y b F → 0 < a * b < 2 ^ 53 →
  -900 <= E + F <= 800 → is_dyadic (f_mul x y) (a * b) (E + F).
Proof.
  intros (m & e & -> & Hm & He & HE & Hv) (n & f & -> & Hn & Hf & HF & Hw) Hab HEF.
  unfold f_mul, SFmul. cbn [xorb]. destruct (normal_mantissa (a * b) Hab) as (i & Hi & Hc).
  assert (Zpos m * Zpos n * 2 ^ (e + f + 2148) = a * b * 2 ^ i * 2 ^ (E + F - i + 2148)) as Heq.
  { replace (e + f + 2148) with ((e + 1074) + (f + 1074)) by lia.
    rewrite <- (Z.mul_assoc (a * b)), <- (pow2_split i) by lia.
    replace (i + (E + F - i + 2148)) with ((E + 1074) + (F + 1074)) by lia.
    rewrite (pow2_split (e + 1074)), (pow2_split (E + 1074)) by lia.
    transitivity (Zpos m * 2 ^ (e + 1074) * (Zpos n * 2 ^ (f + 1074))); [lia|]. rewrite Hv, Hw. lia. }
  assert (e + f <= E + F - i) as Hle.
  { apply Z.nlt_ge. intros Hlt. apply pow2_cancel in Heq; [|lia].
    set (d := e + f + 2148 - (E + F - i + 2148)) in *. pow2_pos d.
    pose proof (Z.mul_le_mono_nonneg (2 ^ 52) (Zpos m) (2 ^ 52) (Zpos n)).
    pose proof (Z.mul_le_mono_nonneg_l 1 (2 ^ d) (Zpos m * Zpos n)). lia. }
  set (k := E + F - i - (e + f)) in *.
  assert (Zpos m * Zpos n = a * b * 2 ^ i * 2 ^ k) as Hmn.
  { symmetry in Heq. apply pow2_cancel in Heq; [|lia].
    by replace (E + F - i + 2148 - (e + f + 2148)) with k in Heq by lia. }
  rewrite Pos2Z.inj_mul, Hmn, round_aux_exact by lia.
  exists (Z.to_pos (a * b * 2 ^ i)), (e + f + k). rewrite Z2Pos.id by lia. split_and!; try done; try lia.
  rewrite <- (Z.mul_assoc (a * b)), <- (pow2_split i) by lia. do 2 f_equal. lia.
Qed.

Lemma is_dyadic_pos x a E : is_dyadic x a E → 0 < a.
Proof.
  intros (m & e & -> & Hm & He & HE & Hv). pow2_pos (e + 1074). pow2_pos (E + 1074).
  pose proof (Z.mul_pos_pos (Zpos m) (2 ^ (e + 1074))). apply (Z.mul_pos_cancel_r _ (2 ^ (E + 1074))); lia.
Qed.

(** Truncation rounds the exact value down. *)
Lemma f_trunc_dyadic x a j : is_dyadic x a (- j) → 0 <= j → f_trunc x = Some (a / 2 ^ j).
Proof.
  intros (m & e & -> & Hm & He & HE & Hv) Hj. cbn [f_trunc]. f_equal. destruct (Z.leb_spec 0 e).
  - apply Z.div_unique_exact; [pow2_pos j; lia|].
    apply pow2_cancel in Hv; [|lia]. rewrite Hv. replace (e + 1074 - (- j + 1074)) with (e + j) by lia.
    rewrite pow2_split by lia. lia.
  - pow2_pos (- e). pow2_pos j. destruct (decide (- j <= e)) as [Hl|Hl].
    + apply pow2_cancel in Hv; [|lia]. rewrite Hv.
      replace (e + 1074 - (- j + 1074)) with (e + j) by lia. pow2_pos (e + j).
      replace j with (- e + (e + j)) at 2 by lia. rewrite (pow2_split (- e)), Z.div_mul_cancel_r by lia. done.
    + symmetry in Hv. apply pow2_cancel in Hv; [|lia]. rewrite Hv.
      replace (- j + 1074 - (e + 1074)) with (- j - e) by lia. pow2_pos (- j - e).
      replace (- e) with (j + (- j - e)) by lia. rewrite (pow2_split j), Z.div_mul_cancel_r by lia. done.
Qed.

Lemma f_half_dyadic j : 0 <= j <= 900 → is_dyadic f_half (2 ^ j) (- (j + 1)).
Proof.
  intros Hj. exists 4503599627370496%positive, (-53). split_and!; try done; try lia.
  rewrite <- pow2_split by lia. replace (Zpos 4503599627370496) with (2 ^ 52) by done.
  rewrite <- pow2_split by lia. f_equal. lia.
Qed.

(** ** Signs

    A product of positive floats and the float of a positive integer are never
    negative and never NaN. *)
Definition f_nonneg (x : float64) : Prop :=
  match x with S754_zero s | S754_infinity s | S754_finite s _ _ => s = false | S754_nan => False end.

Lemma shr_1_nonneg r : 0 <= shr_m r → 0 <= shr_m (shr_1 r).
Proof. destruct r as [[|[]|] ? ?]; cbn; lia. Qed.

Lemma iter_shr_nonneg p r : 0 <= shr_m r → 0 <= shr_m (iter_pos shr_1 p r).
Proof. revert r. induction p as [p IH|p IH|]; intros r Hr; cbn [iter_pos]; auto using shr_1_nonneg. Qed.

Lemma shr_fexp_nonneg m e l : 0 <= m → 0 <= shr_m (shr_fexp 53 1024 m e l).1.
Proof.
  intros Hm. unfold shr_fexp, shr. assert (0 <= shr_m (shr_record_of_loc m l)) by by destruct l as [|[]].
  case_match; cbn [fst]; [done|by apply iter_shr_nonneg|done].
Qed.

Lemma round_aux_nonneg m e l : 0 <= m → f_nonneg (binary_round_aux 53 1024 false m e l).
Proof.
  intros Hm. unfold binary_round_aux. pose proof (shr_fexp_nonneg m e l Hm) as H1.
  destruct (shr_fexp 53 1024 m e l) as [r e']. cbn [fst] in H1.
  assert (0 <= round_nearest_even (shr_m r) (loc_of_shr_record r)) as H2.
  { destruct (loc_of_shr_record r) as [|[]]; cbn; [lia| |lia|lia]. case_match; lia. }
  pose proof (shr_fexp_nonneg _ e' loc_Exact H2) as H3. destruct (shr_fexp 53 1024 _ e' loc_Exact) as [r' e''].
  cbn [fst] in H3. destruct (shr_m r'); [done| |lia]. by case_match.
Qed.

Lemma float64_of_Z_nonneg z : 0 <= z → f_nonneg (float64_of_Z z).
Proof.
  intros Hz. destruct z as [|p|p]; [done| |lia]. unfold float64_of_Z. cbn [binary_normalize]. unfold binary_round.
  case_match. by apply round_aux_nonneg.
Qed.

Lemma f_mul_nonneg x y : f_gt x f_zero = true → IsInf x = false → f_nonneg y → f_ge (f_mul x y) f_zero = true.
Proof.
  intros Hx Hi Hy. destruct x as [| | |[] m e]; try done. clear Hx.
  assert (∀ r, f_nonneg r → f_ge r f_zero = true) as Hr by (by intros [[]|[]| |[] ? ?]).
  apply Hr. destruct y as [s|s| |s n f]; cbn in Hy |- *; try done; [by subst s..|]. subst s.
  by apply round_aux_nonneg.
Qed.
