(* ===== verification/Mcc.v ===== *)
(** * Merchant category codes (mcc/mcc.go, the MCC accessors of bank/data.go)

    [Category] is the first-match switch of the source, after the override
    table for health.  Codes are Go [int]s. *)
From S2P Require Import Prelude.

Inductive Category :=
| Unknown | Agriculture | ContractedServices | Transport | Fuel | Utilities | Retail | Groceries
| Clothing | Entertainment | Restaurants | Hotels | Health | Education | ProfessionalServices
| Financial | MoneyTransfer | Government | Telecom | Charity.

#[global] Instance Category_eq_dec : EqDecision Category.
Proof. solve_decision. Defined.

(** The constants: a category as the string it is. *)
Definition Category_string (c : Category) : string :=
  match c with
  | Unknown => "Unknown" | Agriculture => "Agriculture" | ContractedServices => "ContractedServices"
  | Transport => "Transport" | Fuel => "Fuel" | Utilities => "Utilities" | Retail => "Retail"
  | Groceries => "Groceries" | Clothing => "Clothing" | Entertainment => "Entertainment"
  | Restaurants => "Restaurants" | Hotels => "Hotels" | Health => "Health" | Education => "Education"
  | ProfessionalServices => "ProfessionalServices" | Financial => "Financial"
  | MoneyTransfer => "MoneyTransfer" | Government => "Government" | Telecom => "Telecom"
  | Charity => "Charity"
  end.

#[global] Instance Category_string_inj : Inj (=) (=) Category_string.
Proof. by intros [] []. Qed.

Definition healthMCC : list Z :=
  [5122; 5292; 5295; 5912; 5975; 5976; 8011; 8021; 8031; 8041; 8042; 8043; 8044; 8049; 8050;
   8062; 8071; 8099].

Definition mem (c : Z) (l : list Z) : bool := existsb (Z.eqb c) l.
Definition within (lo hi c : Z) : bool := (lo <=? c) && (c <=? hi).

Definition Code_Category (c : Z) : Category :=
  if mem c healthMCC then Health
  else if c =? 4829 then MoneyTransfer
  else if mem c [4812; 4813; 4814; 4816; 4821; 4899] then Telecom
  else if mem c [5411; 5422; 5441; 5451; 5462; 5499] then Groceries
  else if mem c [5541; 5542; 5552; 5983] then Fuel
  else if within 5811 5814 c then Restaurants
  else if c =? 8398 then Charity
  else if within 1 1499 c then Agriculture
  else if within 1500 2999 c then ContractedServices
  else if within 3000 3499 c then Transport
  else if within 3500 3999 c then Hotels
  else if within 4000 4799 c then Transport
  else if within 4900 4999 c then Utilities
  else if within 5000 5599 c then Retail
  else if within 5600 5699 c then Clothing
  else if within 5700 5999 c then Retail
  else if within 6000 6999 c then Financial
  else if within 7000 7299 c then Hotels
  else if within 7800 7999 c then Entertainment
  else if within 8000 8099 c then Health
  else if within 8200 8299 c then Education
  else if within 8300 8999 c then ProfessionalServices
  else if within 9000 9999 c then Government
  else Unknown.

(** [validMCC] (bank/data.go). *)
Definition validMCC (n : Z) : bool := (1 <=? n) && (n <=? 9999).

(** [MCCCode] and [OriginalMCCCode] of a transaction, on the field they read. *)
Definition MCCCode (n : Z) : Z := if negb (validMCC n) then 0 else n.

(** The codes no branch claims. *)
Definition unclaimed (c : Z) : Prop :=
  c < 1 ∨ 9999 < c ∨ 7300 <= c <= 7799 ∨ 8100 <= c <= 8199 ∨
  4800 <= c <= 4899 ∧ c ∉ [4812; 4813; 4814; 4816; 4821; 4829; 4899].

#[global] Instance unclaimed_dec c : Decision (unclaimed c).
Proof. unfold unclaimed. apply _. Defined.

(** ** Lemmas *)

Lemma mem_in c l : mem c l = true ↔ c ∈ l.
Proof.
  unfold mem. rewrite existsb_exists. split.
  - intros (x & Hx & He). apply Z.eqb_eq in He as ->. by apply list_elem_of_In.
  - intros Hx. exists c. by rewrite <- list_elem_of_In, Z.eqb_refl.
Qed.

Lemma within_false lo hi c : c < lo ∨ hi < c → within lo hi c = false.
Proof. unfold within. lia. Qed.

Lemma mem_false c l lo hi : Forall (λ x, lo <= x <= hi) l → c < lo ∨ hi < c → mem c l = false.
Proof.
  intros Hl Hc. destruct (mem c l) eqn:Hm; [|done]. apply mem_in in Hm.
  rewrite Forall_forall in Hl. specialize (Hl c Hm). simpl in Hl. lia.
Qed.

(** Below 1 and above 9999 nothing is claimed. *)
Lemma Category_outside c : c < 1 ∨ 9999 < c → Code_Category c = Unknown.
Proof.
  intros Hc. unfold Code_Category.
  rewrite !(mem_false c _ 1 9999) by (done || by repeat constructor).
  rewrite !within_false by lia.
  destruct (Z.eqb_spec c 4829), (Z.eqb_spec c 8398); lia || done.
Qed.

(** The ten thousand codes in between are evaluated. *)
Definition row_ok (c : Z) : bool :=
  Bool.eqb (bool_decide (Code_Category c = Unknown)) (bool_decide (unclaimed c)) &&
  implb (mem c healthMCC) (bool_decide (Code_Category c = Health)).

Lemma table_ok : forallb row_ok (seqZ 1 9999) = true.
Proof. by vm_compute. Qed.

Lemma row_ok_true c : 1 <= c <= 9999 → row_ok c = true.
Proof.
  intros Hc. apply (proj1 (forallb_forall row_ok (seqZ 1 9999)) table_ok).
  apply list_elem_of_In, elem_of_seqZ. lia.
Qed.

(** ** Properties *)

(** A statement's MCC gets the category [Unknown] exactly when the code is
    outside 1..9999 (the negative and zero values of a wire glitch included) or
    in one of the three gaps of the range table; every code of the override
    table is [Health], whatever range contains it. *)
Theorem Category_unknown_iff n :
  (Code_Category (MCCCode n) = Unknown ↔ unclaimed n) ∧
  (n ∈ healthMCC → Code_Category (MCCCode n) = Health).
Proof.
  unfold MCCCode, validMCC.
  assert (1 <= n <= 9999 ∨ n < 1 ∨ 9999 < n) as [Hin|Hout] by lia.
  - rewrite (proj2 (Z.leb_le 1 n)), (proj2 (Z.leb_le n 9999)) by lia. simpl.
    pose proof (row_ok_true n Hin) as Ht. unfold row_ok in Ht.
    apply andb_true_iff in Ht as [H1 H2]. apply Bool.eqb_prop in H1. split.
    + by rewrite <- (bool_decide_eq_true (unclaimed n)), <- H1, bool_decide_eq_true.
    + intros Hm%mem_in. rewrite Hm in H2. by apply bool_decide_eq_true in H2.
  - assert ((if negb ((1 <=? n) && (n <=? 9999)) then 0 else n) = 0) as ->.
    { destruct (Z.leb_spec 1 n), (Z.leb_spec n 9999); simpl; lia. }
    split; [split; [intros _; unfold unclaimed; lia|done]|].
    intros Hm%mem_in. exfalso. rewrite (mem_false n _ 1 9999) in Hm; [done| |lia]. by repeat constructor.
Qed.
