(* ===== verification/Errors.v ===== *)
(** * Error values (client.go, retry.go)

    A Go [error] is a tree: a sentinel made by [errors.New] (compared by
    identity, here by its qualified name), an opaque error, an error wrapped
    with [%w], the transport's [*APIError], and the private
    [*transientStatus].  [errors.Is] and [errors.As] walk the tree. *)
From S2P Require Import Prelude GoString.

(** [APIError] (client.go). *)
Record APIError := mkAPIError {
  Method : string;
  URL : string;
  StatusCode : Z;
  ExpectedStatusCodes : list Z;
  ErrorDescription : string;
  ErrorCode : string;
  Body : string
}.

Inductive error :=
| ENew (name : string)
| EText (text : string)
| EWrap (ctx : string) (inner : error)
| EAPI (e : APIError)
| ETransient (code retryAfter : Z) (cause : error)
| EMaxBytes (limit : Z).

(** The result of a function returning [(T, error)] with one of them zero. *)
Inductive result (A : Type) :=
| Ok (x : A)
| Err (e : error).
Arguments Ok {A} x.
Arguments Err {A} e.

#[global] Instance result_ret : MRet result := λ A x, Ok x.
#[global] Instance result_bind : MBind result :=
  λ A B f m, match m with Ok x => f x | Err e => Err e end.
#[global] Instance result_fmap : FMap result :=
  λ A B f m, match m with Ok x => Ok (f x) | Err e => Err e end.

Definition is_Ok {A} (r : result A) : bool := match r with Ok _ => true | Err _ => false end.

(** The sentinels of client.go and the two of package context. *)
Definition ErrEmptyRequest : string := "monobank.ErrEmptyRequest".
Definition ErrInvalidURL : string := "monobank.ErrInvalidURL".
Definition ErrInsecureBaseURL : string := "monobank.ErrInsecureBaseURL".
Definition ErrUnauthorized : string := "monobank.ErrUnauthorized".
Definition ErrForbidden : string := "monobank.ErrForbidden".
Definition ErrNotFound : string := "monobank.ErrNotFound".
Definition ErrTooManyRequests : string := "monobank.ErrTooManyRequests".
Definition DeadlineExceeded : string := "context.DeadlineExceeded".
Definition Canceled : string := "context.Canceled".

(** The method [Is] of [APIError]. *)
Definition APIError_Is (e : APIError) (target : string) : bool :=
  if String.eqb target ErrUnauthorized then StatusCode e =? 401
  else if String.eqb target ErrForbidden then StatusCode e =? 403
  else if String.eqb target ErrNotFound then StatusCode e =? 404
  else if String.eqb target ErrTooManyRequests then StatusCode e =? 429
  else false.

(** [errors.Is(err, target)] for a sentinel [target]. *)
Fixpoint errors_Is (e : error) (target : string) : bool :=
  match e with
  | ENew n => String.eqb n target
  | EText _ | EMaxBytes _ => false
  | EWrap _ i => errors_Is i target
  | EAPI a => APIError_Is a target
  | ETransient _ _ c => errors_Is c target
  end.

(** [errors.As] at [*transientStatus]: its [retryAfter]. *)
Fixpoint errors_As_transient (e : error) : option Z :=
  match e with
  | EWrap _ i => errors_As_transient i
  | ETransient _ ra _ => Some ra
  | _ => None
  end.

(** [errors.As] at [*APIError]. *)
Fixpoint errors_As_APIError (e : error) : option APIError :=
  match e with
  | EWrap _ i => errors_As_APIError i
  | ETransient _ _ c => errors_As_APIError c
  | EAPI a => Some a
  | _ => None
  end.

(** [errors.As] at [*http.MaxBytesError]. *)
Fixpoint errors_As_MaxBytes (e : error) : bool :=
  match e with
  | EWrap _ i => errors_As_MaxBytes i
  | ETransient _ _ c => errors_As_MaxBytes c
  | EMaxBytes _ => true
  | _ => false
  end.

(** [truncate] (client.go). *)
Definition truncate (b : string) (n : Z) : string :=
  if slen b <=? n then b
  else str_take (Z.to_nat n) b +:+ String "226" (String "128" (String "166" "")).

(** The decimal list [%v] prints for [[]int]: [[200 204]]. *)
Definition format_ints (l : list Z) : string := "[" +:+ String.concat " " (Itoa <$> l) +:+ "]".

(** The method [Error] of [APIError]. *)
Definition APIError_Error (e : APIError) : string :=
  let detail := if String.eqb (ErrorDescription e) "" then truncate (Body e) 256
                else ErrorDescription e in
  Method e +:+ " " +:+ URL e +:+ ": HTTP " +:+ Itoa (StatusCode e) +:+
  " (expected " +:+ format_ints (ExpectedStatusCodes e) +:+ "): " +:+ detail.

(** ** Lemmas *)

Lemma Ok_inj {A} (x y : A) : Ok x = Ok y → x = y.
Proof. by intros [= ->]. Qed.

(** A transient status is seen through to the API error it carries. *)
Lemma transient_transparent code ra c target :
  errors_Is (ETransient code ra c) target = errors_Is c target ∧
  errors_As_APIError (ETransient code ra c) = errors_As_APIError c.
Proof. done. Qed.

Lemma truncate_short b n : slen b <= n → truncate b n = b.
Proof. unfold truncate. intros. by rewrite (proj2 (Z.leb_le _ _)). Qed.

Lemma truncate_length b n : 0 <= n → slen (truncate b n) <= n + 3.
Proof.
  intros Hn. unfold truncate. case_match; [lia|].
  rewrite slen_app. unfold slen at 1. rewrite str_take_length; [change (slen _) with 3; lia|].
  unfold slen in *. lia.
Qed.

#[export] Hint Rewrite truncate_short using lia : mono.
