(* ===== verification/Currency.v ===== *)
(** * ISO 4217 currency codes (currency/currency.go) *)
From S2P Require Import Prelude GoString.

(** [currency.Code], a Go [int]. *)
Definition Code : Set := Z.

Definition UAH : Z := 980.
Definition USD : Z := 840.
Definition EUR : Z := 978.
Definition GBP : Z := 826.
Definition PLN : Z := 985.
Definition CHF : Z := 756.
Definition JPY : Z := 392.
Definition CZK : Z := 203.
Definition CAD : Z := 124.
Definition AUD : Z := 36.
Definition CNY : Z := 156.
Definition BHD : Z := 48.
Definition JOD : Z := 400.
Definition KWD : Z := 414.
Definition OMR : Z := 512.
Definition TND : Z := 788.
Definition KRW : Z := 410.

(** The map [alpha3]. *)
Definition alpha3 : gmap Z string := list_to_map
  [ (UAH, "UAH"); (USD, "USD"); (EUR, "EUR"); (GBP, "GBP"); (PLN, "PLN"); (CHF, "CHF");
    (JPY, "JPY"); (CZK, "CZK"); (CAD, "CAD"); (AUD, "AUD"); (CNY, "CNY"); (BHD, "BHD");
    (JOD, "JOD"); (KWD, "KWD"); (OMR, "OMR"); (TND, "TND"); (KRW, "KRW") ].

(** [init]: the reverse map, filled by ranging over [alpha3]. *)
Definition fromAlpha3 : gmap string Z :=
  foldr (λ '(code, name) m, <[name := code]> m) ∅ (map_to_list alpha3).

(** A miss on a Go map returns the zero value and [false]. *)
Definition FromAlpha3 (s : string) : Z * bool :=
  match fromAlpha3 !! s with Some c => (c, true) | None => (0, false) end.

Definition Parse (s : string) : Z * bool :=
  match fromAlpha3 !! s with
  | Some c => (c, true)
  | None => match Atoi s with
            | Some n => if 0 <? n then (n, true) else (0, false)
            | None => (0, false)
            end
  end.

Definition Code_String (c : Z) : string :=
  match alpha3 !! c with Some s => s | None => Itoa c end.

Definition decimals : gmap Z Z := list_to_map
  [ (JPY, 0); (KRW, 0); (BHD, 3); (JOD, 3); (KWD, 3); (OMR, 3); (TND, 3) ].

Definition Decimals (c : Z) : Z :=
  match decimals !! c with Some d => d | None => 2 end.

Definition MinorPerMajor (c : Z) : Z :=
  match Decimals c with
  | 0 => 1
  | 1 => 10
  | 2 => 100
  | 3 => 1000
  | d => Nat.iter (Z.to_nat d) (λ p, wrap64 (p * 10)) 1
  end.

(** ** Lemmas *)

Lemma Decimals_cases c : Decimals c = 0 ∨ Decimals c = 2 ∨ Decimals c = 3.
Proof.
  unfold Decimals. destruct (decimals !! c) as [d|] eqn:H; [|auto].
  assert (Forall (λ p : Z * Z, p.2 = 0 ∨ p.2 = 2 ∨ p.2 = 3) (map_to_list decimals)) as Hf.
  { by apply (bool_decide_unpack _); vm_compute. }
  rewrite Forall_forall in Hf. apply elem_of_map_to_list in H. apply (Hf _ H).
Qed.

(** A known name reads back as its code. *)
Lemma fromAlpha3_alpha3 c s : alpha3 !! c = Some s → fromAlpha3 !! s = Some c.
Proof.
  intros H.
  assert (Forall (λ p : Z * string, fromAlpha3 !! p.2 = Some p.1) (map_to_list alpha3)) as Hf.
  { by apply (bool_decide_unpack _); vm_compute. }
  rewrite Forall_forall in Hf. apply elem_of_map_to_list in H. apply (Hf _ H).
Qed.

(** No alpha-3 name is a number. *)
Lemma fromAlpha3_digits s : all_digits s = true → fromAlpha3 !! s = None.
Proof.
  intros Hs. destruct (fromAlpha3 !! s) as [c|] eqn:H; [|done].
  assert (Forall (λ p : string * Z, all_digits p.1 = false) (map_to_list fromAlpha3)) as Hf.
  { by apply (bool_decide_unpack _); vm_compute. }
  rewrite Forall_forall in Hf. apply elem_of_map_to_list in H. apply Hf in H. simpl in H. congruence.
Qed.

Lemma MinorPerMajor_pos c : 0 < MinorPerMajor c.
Proof. unfold MinorPerMajor. by destruct (Decimals_cases c) as [-> | [-> | ->]]. Qed.

#[export] Hint Resolve MinorPerMajor_pos : mono.

(** ** Properties *)

(** Every positive code, known to the SDK or not, survives being printed by
    [Code.String] and read back by [currency.Parse]. *)
Theorem Parse_String c : 0 < c → in64 c → Parse (Code_String c) = (c, true).
Proof.
  intros Hpos H64. unfold Parse, Code_String. destruct (alpha3 !! c) as [s|] eqn:Hc.
  - by rewrite (fromAlpha3_alpha3 c s).
  - rewrite fromAlpha3_digits by (apply all_digits_Itoa; lia).
    rewrite Atoi_Itoa by done. by rewrite (proj2 (Z.ltb_lt _ _)).
Qed.

Lemma Parse_String_witness : (0 < 7777 ∧ in64 7777) ∧ Parse (Code_String 7777) = (7777, true).
Proof. split; [vm_compute; repeat split; discriminate|apply (Parse_String 7777); [lia|lia64]]. Defined.

(** [MinorPerMajor] is the power of ten that [Decimals] announces, on every
    code (the hand-written switch agrees with its own fallback loop). *)
Theorem MinorPerMajor_pow c :
  MinorPerMajor c = 10 ^ Decimals c ∧ 0 <= Decimals c <= 3.
Proof. unfold MinorPerMajor. by destruct (Decimals_cases c) as [-> | [-> | ->]]. Qed.
