(* ===== verification/Money.v ===== *)
(** * Typed money (money/money.go)

    [Money] is a pair of an [int64] count of minor units and a currency code.
    [Add], [Sub], [Neg], [Mul] wrap on 64 bits as the code does, with its own
    overflow checks; [ParseMajor] is the digit-by-digit parser; [FromMajor],
    [Scale] and [Major] work on [float64]. *)
From S2P Require Import Prelude GoString GoFloat Errors Currency.

Record Money := mkMoney { Minor : Z; MCode : Z }.

#[global] Instance Money_eq_dec : EqDecision Money.
Proof. solve_decision. Defined.

Definition ErrOverflow : string := "money.ErrOverflow".

Definition New (minor code : Z) : Money := mkMoney minor code.

Definition FromMajor `{GoArch} (major : float64) (code : Z) : Money :=
  let factor := Pow10 (Decimals code) in
  let r := f_mul major factor in
  mkMoney (round_half_away r) code.

Definition MoneyUAH `{GoArch} (major : float64) : Money := FromMajor major Currency.UAH.

Definition indexByte (s : string) (b : ascii) : Z :=
  (fix go (i : Z) (s : string) : Z :=
     match s with
     | EmptyString => -1
     | String a s => if Ascii.eqb a b then i else go (i + 1) s
     end) 0 s.

Definition digit (r : ascii) : result Z :=
  if is_digit r then Ok (digit_val r) else Err (EText "unexpected character %q").

(** The loop over the integer part, with its overflow test on each step. *)
Fixpoint parse_int_part (minor : Z) (s : string) : result Z :=
  match s with
  | EmptyString => Ok minor
  | String r s =>
      match digit r with
      | Err e => Err (EWrap "money: %q is not a valid amount" e)
      | Ok d =>
          let next := wrap64 (wrap64 (minor * 10) + d) in
          if next <? minor then Err (EWrap "%w: %q" (ENew ErrOverflow))
          else parse_int_part next s
      end
  end.

(** The loop over the fraction, which has no such test. *)
Fixpoint parse_frac_part (frac : Z) (s : string) : result Z :=
  match s with
  | EmptyString => Ok frac
  | String r s =>
      match digit r with
      | Err e => Err (EWrap "money: %q is not a valid amount" e)
      | Ok d => parse_frac_part (wrap64 (wrap64 (frac * 10) + d)) s
      end
  end.

(** [for range n { x *= 10 }]. *)
Definition times10 (n : Z) (x : Z) : Z := Nat.iter (Z.to_nat n) (λ m, wrap64 (m * 10)) x.

(** [ParseMajor] after the sign: split at the point, then read both parts. *)
Definition parse_unsigned (s : string) (code : Z) : result Z :=
  let i := indexByte s "." in
  let '(intPart, fracPart, hasFrac) :=
    if 0 <=? i then (str_take (Z.to_nat i) s, str_drop (Z.to_nat (i + 1)) s, true)
    else (s, "", false) in
  if String.eqb intPart "" && String.eqb fracPart "" then
    Err (EText "money: %q is not a valid amount")
  else
  let decimals := Decimals code in
  if decimals <? slen fracPart then
    Err (EText "money: %q has more than %d fractional digits for %s")
  else
  minor ← parse_int_part 0 intPart;
  let minor := times10 decimals minor in
  if hasFrac : bool then
    frac ← parse_frac_part 0 fracPart;
    let frac := times10 (decimals - slen fracPart) frac in
    Ok (wrap64 (minor + frac))
  else Ok minor.

Definition ParseMajor (s : string) (code : Z) : result Money :=
  match s with
  | EmptyString => Err (EText "money: empty major-unit string")
  | String c t =>
      let '(neg, u) := if Ascii.eqb c "+" then (false, t)
                       else if Ascii.eqb c "-" then (true, t)
                       else (false, s) in
      minor ← parse_unsigned u code;
      let minor := if neg : bool then wrap64 (- minor) else minor in
      Ok (mkMoney minor code)
  end.

Definition Money_IsZero (m : Money) : bool := Minor m =? 0.

Definition Money_Equal (m other : Money) : bool :=
  (Minor m =? Minor other) && (MCode m =? MCode other).

(** [bits.Add64] and [bits.Sub64] on the unsigned images, back to [int64]. *)
Definition Money_Add (m other : Money) : result Money :=
  if negb (MCode m =? MCode other) then
    Err (EText "money: cannot add %s + %s: different currencies")
  else
    let sum := wrap64 (uint64 (uint64 (Minor m) + uint64 (Minor other))) in
    if Bool.eqb (Minor m <? 0) (Minor other <? 0) && negb (Bool.eqb (Minor m <? 0) (sum <? 0))
    then Err (EWrap "%w: %d + %d" (ENew ErrOverflow))
    else Ok (mkMoney sum (MCode m)).

Definition Money_Sub (m other : Money) : result Money :=
  if negb (MCode m =? MCode other) then
    Err (EText "money: cannot sub %s - %s: different currencies")
  else
    let diff := wrap64 (uint64 (uint64 (Minor m) - uint64 (Minor other))) in
    if negb (Bool.eqb (Minor m <? 0) (Minor other <? 0)) && negb (Bool.eqb (Minor m <? 0) (diff <? 0))
    then Err (EWrap "%w: %d - %d" (ENew ErrOverflow))
    else Ok (mkMoney diff (MCode m)).

Definition Money_Neg (m : Money) : Money := mkMoney (wrap64 (- Minor m)) (MCode m).

(** Go's [/] on [int64] truncates towards zero and wraps on [min / -1]. *)
Definition Money_Mul (m : Money) (n : Z) : result Money :=
  if (Minor m =? 0) || (n =? 0) then Ok (mkMoney 0 (MCode m))
  else
    let prod := wrap64 (Minor m * n) in
    if ((Minor m =? min_int64) && (n =? -1)) || ((n =? min_int64) && (Minor m =? -1)) then
      Err (EWrap "%w: %d * %d" (ENew ErrOverflow))
    else if negb (wrap64 (Z.quot prod n) =? Minor m) then
      Err (EWrap "%w: %d * %d" (ENew ErrOverflow))
    else Ok (mkMoney prod (MCode m)).

Definition Scale `{GoArch} (m : Money) (factor : float64) : Money :=
  mkMoney (round_half_away (f_mul (float64_of_Z (Minor m)) factor)) (MCode m).

Definition Major (m : Money) : float64 :=
  let d := Decimals (MCode m) in
  if d =? 0 then float64_of_Z (Minor m)
  else f_div (float64_of_Z (Minor m)) (Pow10 d).

(** [fmt]'s [%.*f]: the exact binary value, rounded half-to-even at [prec]
    decimals, as the [strconv] printer does. *)
Definition div_half_even (a b : Z) : Z :=
  let q := a / b in
  let r := a mod b in
  if 2 * r <? b then q else if b <? 2 * r then q + 1 else if Z.even q then q else q + 1.

Definition pad_zeros (n : nat) (s : string) : string :=
  Nat.iter (n - String.length s) (λ s, String "0" s) s.

Definition put_point (prec : nat) (digits : string) : string :=
  match prec with
  | O => digits
  | _ => let d := pad_zeros (S prec) digits in
         let k := (String.length d - prec)%nat in
         str_take k d +:+ String "." (str_drop k d)
  end.

Definition format_f (x : float64) (prec : Z) : string :=
  let sign (b : bool) (s : string) := if b then String "-" s else s in
  match x with
  | S754_zero s => sign s (put_point (Z.to_nat prec) "0")
  | S754_nan => "NaN"
  | S754_infinity s => if s then "-Inf" else "+Inf"
  | S754_finite s m e =>
      let n := if 0 <=? e then Z.pos m * 2 ^ e * 10 ^ prec
               else div_half_even (Z.pos m * 10 ^ prec) (2 ^ (- e)) in
      sign s (put_point (Z.to_nat prec) (Itoa n))
  end.

Definition Money_String (m : Money) : string :=
  format_f (Major m) (Decimals (MCode m)) +:+ " " +:+ Code_String (MCode m).

Example Money_String_uah : Money_String (mkMoney 4250 UAH) = "42.50 UAH".
Proof. by vm_compute. Qed.
Example Money_String_cent : Money_String (mkMoney (-5) UAH) = "-0.05 UAH".
Proof. by vm_compute. Qed.
Example Money_String_jpy : Money_String (mkMoney 1200 JPY) = "1200 JPY".
Proof. by vm_compute. Qed.

(** [MarshalJSON] prints the bare minor units; [UnmarshalJSON] reads them into
    [Minor] and leaves the code alone ([null] is a no-op of [json.Unmarshal]). *)
Definition Money_MarshalJSON (m : Money) : string := Itoa (Minor m).
Definition Money_UnmarshalJSON (m : Money) (data : string) : result Money :=
  let d := json_trim data in
  if String.eqb d "null" then Ok m
  else match json_int d with
       | Some k => Ok (mkMoney k (MCode m))
       | None => Err (EText "json: cannot unmarshal into int64")
       end.

(** ** Lemmas *)

Definition wf_Money (m : Money) : Prop := in64 (Minor m).

Lemma uint64_add a b : wrap64 (uint64 (uint64 a + uint64 b)) = wrap64 (a + b).
Proof.
  rewrite wrap64_uint64. unfold uint64.
  rewrite (Z.mod_eq a), (Z.mod_eq b) by lia64.
  replace (_ + _) with (a + b + (- (a / two64) - b / two64) * two64) by lia.
  apply wrap64_cong.
Qed.

Lemma uint64_sub a b : wrap64 (uint64 (uint64 a - uint64 b)) = wrap64 (a - b).
Proof.
  rewrite wrap64_uint64. unfold uint64.
  rewrite (Z.mod_eq a), (Z.mod_eq b) by lia64.
  replace (a - two64 * (a / two64) - _) with (a - b + (- (a / two64) + b / two64) * two64) by lia.
  apply wrap64_cong.
Qed.

(** Off by at most one turn of the 64-bit circle. *)
Lemma wrap64_near z :
  - two64 <= z < two64 →
  wrap64 z = z ∧ in64 z ∨ wrap64 z = z - two64 ∧ max_int64 < z ∨ wrap64 z = z + two64 ∧ z < min_int64.
Proof.
  intros Hz. pose proof (wrap64_in64 z). destruct (wrap64_eq z) as [k Hk].
  assert (k = 0 ∨ k = -1 ∨ k = 1) as [-> | [-> | ->]] by lia64; lia64.
Qed.

(** Dividing the wrapped product back detects every overflow but the corner
    the code tests apart. *)
Lemma mul_check a n :
  in64 a → in64 n → n ≠ 0 → ¬ (a = min_int64 ∧ n = -1) → ¬ (n = min_int64 ∧ a = -1) →
  (wrap64 (Z.quot (wrap64 (a * n)) n) = a ↔ in64 (a * n)).
Proof.
  intros Ha Hn Hn0 Hc1 Hc2. split.
  - intros Hq. pose proof (wrap64_in64 (a * n)) as Hp.
    destruct (wrap64_eq (a * n)) as [k Hk].
    pose proof (Z.quot_rem' (wrap64 (a * n)) n) as Hqr.
    pose proof (Z.rem_bound_abs (wrap64 (a * n)) n Hn0) as Hr.
    set (q := Z.quot (wrap64 (a * n)) n) in *. set (r := Z.rem _ _) in *.
    set (w := wrap64 (a * n)) in *.
    assert (in64 q ∨ q = - min_int64) as [Hq64 | Hq64].
    { assert (Z.abs q <= Z.abs w) by (apply Z.abs_le; nia).
      unfold in64, min_int64, max_int64 in *. lia. }
    + rewrite wrap64_id in Hq by done. subst q. rewrite Hq in Hqr.
      assert (k = 0) as -> by (unfold in64, two64, min_int64, max_int64 in *; nia).
      by replace (a * n) with w by lia.
    + exfalso. rewrite Hq64 in Hq.
      assert (a = min_int64) as Ha' by (rewrite <- Hq; reflexivity).
      assert (n = -1) by (unfold in64, min_int64, max_int64 in *; nia). tauto.
  - intros Hp. rewrite (wrap64_id (a * n)) by done.
    rewrite Z.quot_mul by done. by apply wrap64_id.
Qed.

(** *** Reading decimals *)

Lemma digit_ok a : is_digit a = true → digit a = Ok (digit_val a).
Proof. unfold digit. by intros ->. Qed.

Lemma parse_int_part_digits minor s n :
  0 <= minor → parse_digits minor s = Some n → n <= max_int64 → parse_int_part minor s = Ok n.
Proof.
  revert minor; induction s as [|a s IH]; intros minor Hm; cbn [parse_digits parse_int_part].
  { by intros [= ->]. }
  destruct (is_digit a) eqn:Ha; [|done]. intros Hp Hn. rewrite digit_ok by done.
  destruct (digit_step_ge _ _ _ _ Hm Ha Hp).
  rewrite (wrap64_id (minor * 10)) by lia64. rewrite wrap64_id by lia64.
  rewrite (proj2 (Z.ltb_ge _ _)) by lia. apply IH; [lia|done|done].
Qed.

Lemma parse_int_part_all minor s n : parse_int_part minor s = Ok n → all_digits s = true.
Proof.
  revert minor; induction s as [|a s IH]; intros minor; cbn [parse_int_part all_digits]; [done|].
  unfold digit. destruct (is_digit a); [|done]. case_match; [done|]. apply IH.
Qed.

Lemma parse_frac_part_digits frac s n :
  0 <= frac → parse_digits frac s = Some n → n <= max_int64 → parse_frac_part frac s = Ok n.
Proof.
  revert frac; induction s as [|a s IH]; intros frac Hm; cbn [parse_digits parse_frac_part].
  { by intros [= ->]. }
  destruct (is_digit a) eqn:Ha; [|done]. intros Hp Hn. rewrite digit_ok by done.
  destruct (digit_step_ge _ _ _ _ Hm Ha Hp).
  rewrite (wrap64_id (frac * 10)) by lia64. rewrite wrap64_id by lia64.
  apply IH; [lia|done|done].
Qed.

Lemma parse_frac_part_all frac s n : parse_frac_part frac s = Ok n → all_digits s = true.
Proof.
  revert frac; induction s as [|a s IH]; intros frac; cbn [parse_frac_part all_digits]; [done|].
  unfold digit. destruct (is_digit a); [|done]. apply IH.
Qed.

Lemma iter_times10 (k : nat) x :
  in64 x → Nat.iter k (λ m, wrap64 (m * 10)) x = wrap64 (x * 10 ^ Z.of_nat k).
Proof.
  intros Hx. induction k as [|k IH].
  { rewrite Z.mul_1_r. by rewrite wrap64_id. }
  rewrite Nat.iter_succ, IH, Nat2Z.inj_succ, Z.pow_succ_r by lia.
  destruct (wrap64_eq (x * 10 ^ Z.of_nat k)) as [j ->].
  replace (_ * 10) with (x * (10 * 10 ^ Z.of_nat k) + (j * 10) * two64) by lia.
  apply wrap64_cong.
Qed.

Lemma times10_wrap n x : in64 x → 0 <= n → times10 n x = wrap64 (x * 10 ^ n).
Proof. intros. unfold times10. rewrite iter_times10 by done. by rewrite Z2Nat.id. Qed.

Lemma indexByte_dot ip fp : all_digits ip = true → indexByte (ip +:+ String "." fp) "." = slen ip.
Proof.
  unfold indexByte. enough (∀ i, all_digits ip = true →
    (fix go (i : Z) (s : string) : Z := match s with
      | EmptyString => -1 | String a s => if Ascii.eqb a "." then i else go (i + 1) s end) i
      (ip +:+ String "." fp) = i + slen ip) as H by (intros; by rewrite H).
  induction ip as [|a ip IH]; intros i Ha.
  { rewrite str_app_nil. change (slen "") with 0. simpl. lia. }
  rewrite str_app_cons. pose proof (all_digits_cons _ _ Ha) as Hd.
  destruct (Ascii.eqb_spec a "."); [by subst|].
  rewrite IH by (simpl in Ha; by rewrite Hd in Ha). unfold slen. cbn [String.length]. lia.
Qed.

Lemma indexByte_none s : all_digits s = true → indexByte s "." = -1.
Proof.
  unfold indexByte. generalize 0. induction s as [|a s IH]; intros i Ha; [done|].
  pose proof (all_digits_cons _ _ Ha) as Hd.
  destruct (Ascii.eqb_spec a "."); [by subst|].
  apply IH. simpl in Ha. by rewrite Hd in Ha.
Qed.

Lemma indexByte_split s b :
  0 <= indexByte s b →
  s = str_take (Z.to_nat (indexByte s b)) s +:+
      String b (str_drop (Z.to_nat (indexByte s b + 1)) s).
Proof.
  unfold indexByte.
  set (go := fix go (i : Z) (s : string) : Z := match s with
      | EmptyString => -1 | String a s => if Ascii.eqb a b then i else go (i + 1) s end).
  enough (∀ i, 0 <= i → 0 <= go i s → i <= go i s ∧
    s = str_take (Z.to_nat (go i s - i)) s +:+ String b (str_drop (Z.to_nat (go i s - i + 1)) s)) as H.
  { intros Hs. destruct (H 0) as [_ Heq]; [lia|done|]. by rewrite !Z.sub_0_r in Heq. }
  induction s as [|a s IH]; intros i Hi; simpl go; [lia|].
  destruct (Ascii.eqb_spec a b) as [->|Hne].
  { intros _. split; [lia|]. by rewrite Z.sub_diag. }
  intros Hg. destruct (IH (i + 1)) as [Hle Heq]; [lia|done|]. split; [lia|].
  replace (Z.to_nat (go (i + 1) s - i)) with (S (Z.to_nat (go (i + 1) s - (i + 1)))) by lia.
  replace (Z.to_nat (go (i + 1) s - i + 1)) with (S (Z.to_nat (go (i + 1) s - (i + 1) + 1))) by lia.
  cbn [str_take str_drop]. rewrite str_app_cons. by rewrite <- Heq.
Qed.

(** The value [ParseMajor] gives to an unsigned decimal, modulo [2^64]. *)
Lemma parse_unsigned_point ip fp code i f :
  parse_digits 0 ip = Some i → parse_digits 0 fp = Some f → ip ≠ "" ∨ fp ≠ "" →
  slen fp <= Decimals code → i <= max_int64 →
  parse_unsigned (ip +:+ String "." fp) code =
    Ok (wrap64 (i * 10 ^ Decimals code + f * 10 ^ (Decimals code - slen fp))).
Proof.
  intros Hi Hf Hne Hlen Hmax. unfold parse_unsigned.
  rewrite indexByte_dot by (by eapply parse_digits_all).
  pose proof (slen_nonneg ip). pose proof (slen_nonneg fp). pose proof (Decimals_cases code).
  rewrite (proj2 (Z.leb_le _ _)) by done.
  replace (Z.to_nat (slen ip)) with (String.length ip) by (unfold slen; lia).
  replace (Z.to_nat (slen ip + 1)) with (S (String.length ip)) by (unfold slen; lia).
  rewrite str_take_app, str_drop_app_S.
  assert (String.eqb ip "" && String.eqb fp "" = false) as ->.
  { apply andb_false_iff. rewrite !String.eqb_neq. exact Hne. }
  rewrite (proj2 (Z.ltb_ge _ _)) by done.
  destruct (parse_digits_bounds 0 fp f) as [Hf0 Hf1]; [lia|done|].
  assert (10 ^ slen fp <= 10 ^ 3) by (apply Z.pow_le_mono_r; lia).
  pose proof (parse_digits_ge 0 ip i ltac:(lia) Hi).
  rewrite (parse_int_part_digits 0 ip i) by (done || lia). cbn [mbind result_bind].
  rewrite (parse_frac_part_digits 0 fp f) by (done || lia64). cbn [mbind result_bind].
  rewrite !times10_wrap by lia64. f_equal.
  rewrite wrap64_wrap_l, Z.add_comm, wrap64_wrap_l. f_equal. lia.
Qed.

Lemma parse_unsigned_whole ip code i :
  parse_digits 0 ip = Some i → ip ≠ "" → i <= max_int64 →
  parse_unsigned ip code = Ok (wrap64 (i * 10 ^ Decimals code)).
Proof.
  intros Hi Hne Hmax. unfold parse_unsigned.
  rewrite indexByte_none by (by eapply parse_digits_all). cbn [Z.leb Z.compare].
  pose proof (Decimals_cases code). pose proof (parse_digits_ge 0 ip i ltac:(lia) Hi).
  destruct (String.eqb_spec ip ""); [done|]. cbn [andb].
  rewrite (proj2 (Z.ltb_ge _ _)) by (change (slen "") with 0; lia).
  rewrite (parse_int_part_digits 0 ip i) by (done || lia). cbn [mbind result_bind].
  by rewrite times10_wrap by lia64.
Qed.

(** A sign in front. *)
Definition signed (sg : string) (v : Z) : Z := if String.eqb sg "-" then - v else v.

Lemma ParseMajor_sign sg u code v :
  sg ∈ [""; "+"; "-"] → u ≠ "" → (∀ a t, u = String a t → a ≠ "+"%char ∧ a ≠ "-"%char) →
  parse_unsigned u code = Ok (wrap64 v) →
  ParseMajor (sg +:+ u) code = Ok (mkMoney (wrap64 (signed sg v)) code).
Proof.
  intros Hsg Hu Hhd Hp.
  assert (wrap64 (- wrap64 v) = wrap64 (- v)) as Hneg.
  { destruct (wrap64_eq v) as [k ->].
    replace (- (v + k * two64)) with (- v + - k * two64) by lia. apply wrap64_cong. }
  rewrite !elem_of_cons, elem_of_nil in Hsg. destruct Hsg as [-> | [-> | [-> | []]]].
  - rewrite str_app_nil. destruct u as [|a t]; [done|]. destruct (Hhd a t eq_refl).
    unfold ParseMajor.
    destruct (Ascii.eqb_spec a "+"); [done|]. destruct (Ascii.eqb_spec a "-"); [done|].
    by rewrite Hp.
  - change (("+" +:+ u)) with (String "+" u). unfold ParseMajor. cbn. by rewrite Hp.
  - change (("-" +:+ u)) with (String "-" u). unfold ParseMajor. cbn. rewrite Hp.
    cbn. by rewrite Hneg.
Qed.

Lemma parse_int_part_in64 minor s n : in64 minor → parse_int_part minor s = Ok n → in64 n.
Proof.
  revert minor; induction s as [|a s IH]; intros minor Hm; cbn [parse_int_part].
  { by intros [= <-]. }
  case_match; [|done]. case_match; [done|]. apply IH; auto with mono.
Qed.

Lemma times10_in64 n x : in64 x → in64 (times10 n x).
Proof. intros Hx. unfold times10. destruct (Z.to_nat n); [done|]. apply wrap64_in64. Qed.

Lemma parse_unsigned_accepts u code v :
  parse_unsigned u code = Ok v →
  in64 v ∧
  ((all_digits u = true ∧ u ≠ "") ∨
   ∃ ip fp, u = ip +:+ String "." fp ∧ all_digits ip = true ∧ all_digits fp = true ∧
     slen fp <= Decimals code ∧ (ip ≠ "" ∨ fp ≠ "")).
Proof.
  unfold parse_unsigned. destruct (Z.leb_spec 0 (indexByte u ".")) as [Hi|Hi].
  - pose proof (indexByte_split u "." Hi) as Hu.
    set (ip := str_take _ u) in *. set (fp := str_drop _ u) in *.
    destruct (String.eqb ip "" && String.eqb fp "") eqn:Hne; [done|].
    destruct (Z.ltb_spec (Decimals code) (slen fp)) as [|Hlen]; [done|].
    destruct (parse_int_part 0 ip) as [n|] eqn:Hn; [|done]. cbn [mbind result_bind].
    destruct (parse_frac_part 0 fp) as [f|] eqn:Hf; [|done]. cbn [mbind result_bind].
    intros [= <-]. split; [apply wrap64_in64|]. right. exists ip, fp.
    apply parse_int_part_all in Hn. apply parse_frac_part_all in Hf.
    apply andb_false_iff in Hne. rewrite !String.eqb_neq in Hne. done.
  - destruct (String.eqb_spec u "") as [|Hu]; [done|]. cbn [andb].
    destruct (Z.ltb_spec (Decimals code) (slen "")); [done|].
    destruct (parse_int_part 0 u) as [n|] eqn:Hn; [|done]. cbn [mbind result_bind].
    intros [= <-]. split.
    + eapply times10_in64, parse_int_part_in64, Hn. by vm_compute.
    + left. by apply parse_int_part_all in Hn.
Qed.

Lemma parse_unsigned_shape sg u code v :
  sg ∈ [""; "+"; "-"] → parse_unsigned u code = Ok v →
  ∃ sg' ip, sg' ∈ [""; "+"; "-"] ∧ all_digits ip = true ∧
    ((sg +:+ u = sg' +:+ ip ∧ ip ≠ "") ∨
     ∃ fp, sg +:+ u = sg' +:+ (ip +:+ String "." fp) ∧ all_digits fp = true ∧
           slen fp <= Decimals code ∧ (ip ≠ "" ∨ fp ≠ "")).
Proof.
  intros Hsg [_ [[Hu Hne] | (ip & fp & -> & Hip & Hfp & Hlen & Hne)]]%parse_unsigned_accepts.
  - exists sg, u. auto.
  - exists sg, ip. eauto 10.
Qed.

(** The sign tests on the wrapped sum and difference are exact. *)
Lemma add_overflow_check a b :
  in64 a → in64 b →
  Bool.eqb (a <? 0) (b <? 0) && negb (Bool.eqb (a <? 0) (wrap64 (a + b) <? 0)) =
    negb (bool_decide (in64 (a + b))).
Proof.
  intros. destruct (wrap64_near (a + b)) as [[-> ?] | [[-> ?] | [-> ?]]]; [lia64|..];
    case_bool_decide; lia64.
Qed.

Lemma sub_overflow_check a b :
  in64 a → in64 b →
  negb (Bool.eqb (a <? 0) (b <? 0)) && negb (Bool.eqb (a <? 0) (wrap64 (a - b) <? 0)) =
    negb (bool_decide (in64 (a - b))).
Proof.
  intros. destruct (wrap64_near (a - b)) as [[-> ?] | [[-> ?] | [-> ?]]]; [lia64|..];
    case_bool_decide; lia64.
Qed.

(** ** Properties *)

(** C4: [Add] and [Sub] are exact: on amounts of one currency the result is the
    mathematical sum (difference) exactly when it fits an [int64], and
    [ErrOverflow] otherwise, so the sign tests on the wrapped result miss no
    overflow and raise no false one; other currencies are an error. *)
Theorem Money_Add_Sub_exact m o :
  wf_Money m → wf_Money o →
  Money_Add m o =
    (if decide (MCode m = MCode o) then
       if decide (in64 (Minor m + Minor o)) then Ok (mkMoney (Minor m + Minor o) (MCode m))
       else Err (EWrap "%w: %d + %d" (ENew ErrOverflow))
     else Err (EText "money: cannot add %s + %s: different currencies")) ∧
  Money_Sub m o =
    (if decide (MCode m = MCode o) then
       if decide (in64 (Minor m - Minor o)) then Ok (mkMoney (Minor m - Minor o) (MCode m))
       else Err (EWrap "%w: %d - %d" (ENew ErrOverflow))
     else Err (EText "money: cannot sub %s - %s: different currencies")).
Proof.
  unfold wf_Money. intros Hm Ho. unfold Money_Add, Money_Sub. rewrite uint64_add, uint64_sub.
  rewrite add_overflow_check, sub_overflow_check by done.
  destruct (Z.eqb_spec (MCode m) (MCode o)) as [He|Hne]; cbn [negb];
    [rewrite !(decide_True (P := MCode m = MCode o)) by done
    |by rewrite !(decide_False (P := MCode m = MCode o)) by done].
  split; case_bool_decide; cbn [negb]; case_decide; try done; by rewrite wrap64_id.
Qed.

Lemma Money_Add_Sub_exact_witness :
  (wf_Money (mkMoney max_int64 980) ∧ wf_Money (mkMoney 1 980)) ∧
  Money_Add (mkMoney max_int64 980) (mkMoney 1 980) = Err (EWrap "%w: %d + %d" (ENew ErrOverflow)) ∧
  Money_Sub (mkMoney max_int64 980) (mkMoney 1 980) = Ok (mkMoney (max_int64 - 1) 980).
Proof.
  split; [split; unfold wf_Money, in64, min_int64, max_int64; simpl; lia|].
  exact (Money_Add_Sub_exact (mkMoney max_int64 980) (mkMoney 1 980)
           ltac:(by vm_compute) ltac:(by vm_compute)).
Defined.

(** [Mul] is exact: dividing the wrapped product back, with the corner case
    tested apart, reports [ErrOverflow] exactly when the mathematical product
    does not fit an [int64], and otherwise the result is that product. *)
Theorem Money_Mul_exact m n :
  wf_Money m → in64 n →
  Money_Mul m n =
    if decide (in64 (Minor m * n)) then Ok (mkMoney (Minor m * n) (MCode m))
    else Err (EWrap "%w: %d * %d" (ENew ErrOverflow)).
Proof.
  unfold wf_Money. intros Hm Hn. unfold Money_Mul. set (a := Minor m) in *.
  destruct (Z.eqb_spec a 0) as [->|Ha0]; [by case_decide|].
  destruct (Z.eqb_spec n 0) as [->|Hn0].
  { rewrite Z.mul_0_r. by case_decide. }
  cbn [orb]. pose proof (mul_check a n Hm Hn Hn0) as Hc.
  destruct (decide (a = min_int64 ∧ n = -1)) as [[-> ->]|Hc1].
  { by vm_compute. }
  destruct (decide (n = min_int64 ∧ a = -1)) as [[-> ->]|Hc2].
  { by vm_compute. }
  specialize (Hc Hc1 Hc2).
  assert (((a =? min_int64) && (n =? -1)) || ((n =? min_int64) && (a =? -1)) = false) as -> by lia.
  destruct (Z.eqb_spec (wrap64 (Z.quot (wrap64 (a * n)) n)) a) as [He|He]; cbn [negb];
    case_decide; try tauto. by rewrite wrap64_id.
Qed.

Lemma Money_Mul_exact_witness :
  (wf_Money (mkMoney 4500 980) ∧ in64 3) ∧ Money_Mul (mkMoney 4500 980) 3 = Ok (mkMoney 13500 980).
Proof.
  split; [split; unfold wf_Money, in64, min_int64, max_int64; simpl; lia|].
  exact (Money_Mul_exact (mkMoney 4500 980) 3 ltac:(by vm_compute) ltac:(by vm_compute)).
Defined.

(** C35: [ParseMajor] reads [sign digits . digits] (and [sign digits]), with at
    most the currency's decimals and an integer part of at most [2^63 - 1], as
    the exact number of minor units modulo [2^64]; so every amount that fits an
    [int64] is read exactly. A larger integer part is outside this theorem:
    it is [ErrOverflow], except where the wrapped digit loop still grows
    ([ParseMajor_silent_overflow]). *)
Theorem ParseMajor_value sg ip fp code i f :
  sg ∈ [""; "+"; "-"] → parse_digits 0 ip = Some i → parse_digits 0 fp = Some f →
  i <= max_int64 → slen fp <= Decimals code →
  (ip ≠ "" ∨ fp ≠ "" →
   ParseMajor (sg +:+ (ip +:+ String "." fp)) code =
     Ok (mkMoney (wrap64 (signed sg
       (i * 10 ^ Decimals code + f * 10 ^ (Decimals code - slen fp)))) code)) ∧
  (ip ≠ "" →
   ParseMajor (sg +:+ ip) code =
     Ok (mkMoney (wrap64 (signed sg (i * 10 ^ Decimals code))) code)).
Proof.
  intros Hsg Hi Hf Hmax Hlen.
  assert (∀ a t, ip = String a t → a ≠ "+"%char ∧ a ≠ "-"%char) as Hhd.
  { intros a t ->. eapply digit_not_sign, all_digits_cons, parse_digits_all, Hi. }
  split; intros Hne; apply ParseMajor_sign; try done.
  - by destruct ip.
  - intros a t. destruct ip as [|b ip]; [rewrite str_app_nil|rewrite str_app_cons]; intros [= <- <-];
      [done|by eapply Hhd].
  - by apply parse_unsigned_point.
  - by apply parse_unsigned_whole.
Qed.

Lemma ParseMajor_value_witness :
  ParseMajor ("-" +:+ ("3" +:+ String "." "5")) Currency.UAH = Ok (mkMoney (-350) 980).
Proof.
  eapply eq_trans;
    [apply (proj1 (ParseMajor_value "-" "3" "5" Currency.UAH 3 5
                     ltac:(set_solver) eq_refl eq_refl ltac:(by vm_compute) ltac:(by vm_compute)));
     left; discriminate
    |by vm_compute].
Defined.

(** What [ParseMajor] accepts is a decimal: an optional sign, digits, and
    optionally a point and at most the currency's number of digits, with at
    least one digit in all; every other string is an error. *)
Theorem ParseMajor_accepts s code m :
  ParseMajor s code = Ok m →
  MCode m = code ∧ in64 (Minor m) ∧
  ∃ sg ip, sg ∈ [""; "+"; "-"] ∧ all_digits ip = true ∧
    ((s = sg +:+ ip ∧ ip ≠ "") ∨
     ∃ fp, s = sg +:+ (ip +:+ String "." fp) ∧ all_digits fp = true ∧
           slen fp <= Decimals code ∧ (ip ≠ "" ∨ fp ≠ "")).
Proof.
  unfold ParseMajor. destruct s as [|c t]; [done|].
  destruct (Ascii.eqb_spec c "+") as [->|]; [|destruct (Ascii.eqb_spec c "-") as [->|]];
    (match goal with |- context [parse_unsigned ?u code] =>
       destruct (parse_unsigned u code) as [v|] eqn:Hv end); try done;
    cbn [mbind result_bind]; intros [= <-]; (split; [done|]); cbn [Minor];
    (split; [first [apply wrap64_in64 | by apply parse_unsigned_accepts in Hv as [? _]]|]).
  - by apply (parse_unsigned_shape "+" t code v ltac:(set_solver)).
  - by apply (parse_unsigned_shape "-" t code v ltac:(set_solver)).
  - by apply (parse_unsigned_shape "" (String c t) code v ltac:(set_solver)).
Qed.

Lemma ParseMajor_accepts_witness :
  ParseMajor "149.99" Currency.UAH = Ok (mkMoney 14999 980) ∧ in64 (Minor (mkMoney 14999 980)).
Proof.
  assert (ParseMajor "149.99" Currency.UAH = Ok (mkMoney 14999 980)) as H by by vm_compute.
  split; [exact H|exact (proj1 (proj2 (ParseMajor_accepts _ _ _ H)))].
Defined.

(** The overflow test of [ParseMajor] covers neither the shift into minor
    units nor every step of the integer loop: amounts beyond the [int64] range
    are read as other amounts, without an error. *)
Theorem ParseMajor_silent_overflow :
  ParseMajor "92233720368547758.08" Currency.UAH = Ok (mkMoney min_int64 980) ∧
  ParseMajor "100000000000000000" Currency.UAH = Ok (mkMoney (-8446744073709551616) 980) ∧
  ParseMajor "21000000000000000000" Currency.JPY = Ok (mkMoney 2553255926290448384 392).
Proof. by vm_compute. Qed.

(** The JSON form of an amount is its bare minor units, and reading it back
    restores them and leaves the currency of the target alone. *)
Theorem Money_json_roundtrip m n :
  wf_Money m → Money_UnmarshalJSON n (Money_MarshalJSON m) = Ok (mkMoney (Minor m) (MCode n)).
Proof.
  intros Hm. unfold Money_UnmarshalJSON, Money_MarshalJSON. rewrite json_trim_Itoa.
  destruct (String.eqb_spec (Itoa (Minor m)) "null") as [Hn|_].
  - pose proof (Atoi_Itoa (Minor m) Hm) as H. by rewrite Hn in H.
  - by rewrite json_int_Itoa.
Qed.

Lemma Money_json_roundtrip_witness :
  wf_Money (mkMoney (-350) 980) ∧
  Money_UnmarshalJSON (mkMoney 0 0) (Money_MarshalJSON (mkMoney (-350) 980)) = Ok (mkMoney (-350) 0).
Proof.
  assert (wf_Money (mkMoney (-350) 980)) as H by by vm_compute.
  split; [exact H|exact (Money_json_roundtrip _ (mkMoney 0 0) H)].
Defined.
