(* ===== verification/Dedup.v ===== *)
(** * The in-memory deduper (webhook/dedup.go, acquiring/dedup.go)

    [MemoryDeduper] is an LRU set of strings: a doubly linked list of elements
    ([container/list]) and an index from a string to its list element.  The
    two packages carry the same code, modelled once.  List elements are
    pointers: an element is a fresh identifier paired with its value, so the
    index holds element identifiers and never values.  The abstract
    specification is a list of strings, most recent first; the refinement
    relates every operation to it.  The interface [Deduper] with its laws is
    what the webhook handlers are proved against. *)
From S2P Require Import Prelude GoString.

(** ** [container/list] *)

(** [*list.Element], by identity. *)
Abbreviation element := positive (only parsing).

(** A [list.List], front first. *)
Abbreviation golist := (list (element * string)) (only parsing).

Definition list_Remove (e : element) (l : golist) : golist := filter (λ p, p.1 ≠ e) l.

Definition list_MoveToFront (e : element) (l : golist) : golist :=
  match list_find (λ p, p.1 = e) l with
  | Some (_, p) => p :: list_Remove e l
  | None => l
  end.

Definition list_Back (l : golist) : option (element * string) := last l.

(** ** The deduper *)

Record MemoryDeduper := mkDeduper {
  capacity : Z;
  order : golist;
  index : gmap string element;
  fresh : element            (* the next element identifier *)
}.

Definition NewMemoryDeduper (cap : Z) : MemoryDeduper :=
  mkDeduper (if cap <=? 0 then 1024 else cap) [] ∅ 1%positive.

Definition MemoryDeduper_Has (id : string) (d : MemoryDeduper) : bool * MemoryDeduper :=
  if String.eqb id "" then (false, d)
  else match index d !! id with
       | Some el => (true, mkDeduper (capacity d) (list_MoveToFront el (order d)) (index d) (fresh d))
       | None => (false, d)
       end.

Definition MemoryDeduper_Add (id : string) (d : MemoryDeduper) : MemoryDeduper :=
  if String.eqb id "" then d
  else match index d !! id with
       | Some el => mkDeduper (capacity d) (list_MoveToFront el (order d)) (index d) (fresh d)
       | None =>
           let '(ord, idx) :=
             if Z.of_nat (length (order d)) =? capacity d then
               match list_Back (order d) with
               | Some oldest => (list_Remove oldest.1 (order d), delete oldest.2 (index d))
               | None => (order d, index d)
               end
             else (order d, index d) in
           mkDeduper (capacity d) ((fresh d, id) :: ord) (<[id := fresh d]> idx) (Pos.succ (fresh d))
       end.

Definition MemoryDeduper_Len (d : MemoryDeduper) : Z := Z.of_nat (length (order d)).

(** ** The interface the handlers use *)

Class Deduper (D : Type) := {
  Has : string → D → bool * D;
  Add : string → D → D;
  (* the ids the deduper will report, and its representation invariant *)
  known : D → gset string;
  dd_wf : D → Prop
}.

Class DeduperLaws (D : Type) {DD : Deduper D} : Prop := {
  has_iff (id : string) (d : D) : dd_wf d → (Has id d).1 = true ↔ id ∈ known d;
  has_frame (id : string) (d : D) : dd_wf d → known (Has id d).2 = known d ∧ dd_wf (Has id d).2;
  add_new (id : string) (d : D) : dd_wf d → id ≠ "" → id ∈ known (Add id d);
  add_frame (id : string) (d : D) :
    dd_wf d → known (Add id d) ⊆ {[id]} ∪ known d ∧ dd_wf (Add id d);
  known_nonempty (d : D) : dd_wf d → "" ∉ known d
}.

(** A persistent deduper, as the doc comments recommend for production: a set. *)
#[export] Instance persistent_deduper : Deduper (gset string) := {|
  Has id d := (bool_decide (id ∈ d), d);
  Add id d := if String.eqb id "" then d else {[id]} ∪ d;
  known d := d;
  dd_wf d := "" ∉ d
|}.

(** ** The abstract LRU set *)

Definition lru_remove (id : string) (l : list string) : list string := filter (λ x, x ≠ id) l.

Definition lru_has (id : string) (l : list string) : bool * list string :=
  if bool_decide (id ∈ l) then (true, id :: lru_remove id l) else (false, l).

Definition lru_add (cap : Z) (id : string) (l : list string) : list string :=
  if String.eqb id "" then l
  else if bool_decide (id ∈ l) then id :: lru_remove id l
  else id :: (if Z.of_nat (length l) =? cap then removelast l else l).

(** The abstraction function and the representation invariant. *)
Definition ids (d : MemoryDeduper) : list string := (order d).*2.

Record deduper_wf (d : MemoryDeduper) : Prop := {
  wf_cap : 0 < capacity d;
  wf_len : Z.of_nat (length (order d)) <= capacity d;
  wf_elems : NoDup (order d).*1;
  wf_ids : NoDup (order d).*2;
  wf_nonempty : "" ∉ (order d).*2;
  wf_fresh : Forall (λ p, (p.1 < fresh d)%positive) (order d);
  wf_index (id : string) (e : element) : index d !! id = Some e ↔ (e, id) ∈ order d
}.

(** One call on a deduper, and runs of calls. *)
Inductive call :=
| CHas (id : string)
| CAdd (id : string).

Definition do_call (c : call) (d : MemoryDeduper) : MemoryDeduper :=
  match c with
  | CHas id => (MemoryDeduper_Has id d).2
  | CAdd id => MemoryDeduper_Add id d
  end.

Definition lru_call (cap : Z) (c : call) (l : list string) : list string :=
  match c with
  | CHas id => if String.eqb id "" then l else (lru_has id l).2
  | CAdd id => lru_add cap id l
  end.

Definition run_calls (cs : list call) (d : MemoryDeduper) : MemoryDeduper :=
  foldl (λ d c, do_call c d) d cs.

(** The ids that calls mention. *)
Definition mentioned (cs : list call) : gset string :=
  list_to_set ((λ c, match c with CHas id | CAdd id => id end) <$> cs).

(** ** Lemmas: the linked list *)

Section GoList.
Implicit Types (l : golist) (e : element) (id : string).

Lemma NoDup_fst_inj l e id1 id2 :
  NoDup l.*1 → (e, id1) ∈ l → (e, id2) ∈ l → id1 = id2.
Proof.
  induction l as [|[e' id'] l IH]; intros Hnd H1 H2; [by apply not_elem_of_nil in H1|].
  rewrite fmap_cons in Hnd. apply NoDup_cons in Hnd as [Hni Hnd].
  assert (∀ id, (e, id) ∈ l → e ∈ l.*1) as Hin.
  { intros id H. by apply (list_elem_of_fmap_2 fst) in H. }
  apply elem_of_cons in H1 as [H1|H1]; apply elem_of_cons in H2 as [H2|H2]; simplify_eq;
    [done|by apply Hin in H2|by apply Hin in H1|by apply IH].
Qed.

Lemma NoDup_snd_inj l e1 e2 id :
  NoDup l.*2 → (e1, id) ∈ l → (e2, id) ∈ l → e1 = e2.
Proof.
  induction l as [|[e' id'] l IH]; intros Hnd H1 H2; [by apply not_elem_of_nil in H1|].
  rewrite fmap_cons in Hnd. apply NoDup_cons in Hnd as [Hni Hnd].
  assert (∀ e, (e, id) ∈ l → id ∈ l.*2) as Hin.
  { intros e H. by apply (list_elem_of_fmap_2 snd) in H. }
  apply elem_of_cons in H1 as [H1|H1]; apply elem_of_cons in H2 as [H2|H2]; simplify_eq;
    [done|by apply Hin in H2|by apply Hin in H1|by apply IH].
Qed.

(** Removing an element removes its value from the ids, and no other. *)
Lemma Remove_ids l e id :
  NoDup l.*1 → NoDup l.*2 → (e, id) ∈ l → (list_Remove e l).*2 = lru_remove id l.*2.
Proof.
  unfold list_Remove, lru_remove. intros Hn1 Hn2 Hin.
  assert (∀ p, p ∈ l → p.1 ≠ e ↔ p.2 ≠ id) as Heq.
  { intros [e' id'] Hp. simpl. split; intros Hne ->; apply Hne.
    - by apply (NoDup_snd_inj l _ _ id).
    - by apply (NoDup_fst_inj l e). }
  clear Hn1 Hn2 Hin. induction l as [|p l IH]; [done|].
  assert (p.1 ≠ e ↔ p.2 ≠ id) as Hp by (apply Heq; left).
  assert ((filter (λ p, p.1 ≠ e) l).*2 = filter (λ x, x ≠ id) l.*2) as IH'.
  { apply IH. intros q Hq. apply Heq. by right. }
  rewrite fmap_cons. destruct (decide (p.1 ≠ e)) as [He|He].
  - rewrite (filter_cons_True (λ p : element * string, p.1 ≠ e)) by done. rewrite fmap_cons.
    rewrite (filter_cons_True (λ x : string, x ≠ id)) by tauto. by rewrite IH'.
  - rewrite (filter_cons_False (λ p : element * string, p.1 ≠ e)) by done. by rewrite (filter_cons_False (λ x : string, x ≠ id)) by tauto.
Qed.

Lemma MoveToFront_eq l e id :
  NoDup l.*1 → (e, id) ∈ l → list_MoveToFront e l = (e, id) :: list_Remove e l.
Proof.
  intros Hnd Hin. unfold list_MoveToFront.
  destruct (list_find (λ p, p.1 = e) l) as [[i [e' id']]|] eqn:Hf.
  - apply list_find_Some in Hf as (Hi & He & _). simpl in He. subst e'.
    apply list_elem_of_lookup_2 in Hi. by rewrite (NoDup_fst_inj l e id' id).
  - apply list_find_None in Hf. rewrite Forall_forall in Hf. by apply Hf in Hin.
Qed.

Lemma elem_of_Remove l e p : p ∈ list_Remove e l ↔ p ∈ l ∧ p.1 ≠ e.
Proof. unfold list_Remove. rewrite list_elem_of_filter. tauto. Qed.

Lemma sublist_Remove l e : list_Remove e l `sublist_of` l.
Proof. apply sublist_filter. Qed.

Lemma Remove_length l e id :
  NoDup l.*1 → (e, id) ∈ l → S (length (list_Remove e l)) = length l.
Proof.
  intros Hnd Hin. unfold list_Remove. induction l as [|[e' id'] l IH]; [by apply not_elem_of_nil in Hin|].
  rewrite fmap_cons in Hnd. apply NoDup_cons in Hnd as [Hni Hnd]. rewrite filter_cons. simpl in *.
  destruct (decide (e' = e)) as [->|Hne].
  - case_decide; [done|]. rewrite filter_all; [done|].
    apply Forall_forall. intros [e'' ?] Hq. simpl. intros ->. apply Hni.
    by apply (list_elem_of_fmap_2 fst) in Hq.
  - case_decide; [|done]. simpl. f_equal. apply IH; [done|].
    apply elem_of_cons in Hin as [[= -> ->]|]; done.
Qed.

(** Removing the back element is dropping the last one. *)
Lemma Remove_Back l p :
  NoDup l.*1 → list_Back l = Some p → list_Remove p.1 l = removelast l ∧ p ∈ l.
Proof.
  unfold list_Back, list_Remove. intros Hnd Hl. apply last_Some in Hl as [l' ->].
  rewrite removelast_last. rewrite fmap_app in Hnd. apply NoDup_app in Hnd as (_ & Hd & _).
  split; [|apply elem_of_app; right; by left].
  rewrite filter_app, filter_all, filter_cons_False; [|tauto|].
  { by rewrite filter_nil, app_nil_r. }
  apply Forall_forall. intros q Hq He. apply (Hd q.1); [by apply list_elem_of_fmap_2|].
  rewrite He. by left.
Qed.

End GoList.

(** ** Lemmas: the abstract LRU set *)

Lemma elem_of_lru_remove x id l : x ∈ lru_remove id l ↔ x ∈ l ∧ x ≠ id.
Proof. unfold lru_remove. rewrite list_elem_of_filter. tauto. Qed.

Lemma elem_of_lru_add cap id x l :
  x ∈ lru_add cap id l → x = id ∨ x ∈ l.
Proof.
  unfold lru_add. case_match; [auto|]. case_bool_decide; rewrite elem_of_cons.
  - rewrite elem_of_lru_remove. tauto.
  - intros [->|Hx]; [auto|]. right. case_match; [|done].
    destruct l as [|y l _] using rev_ind; [done|]. rewrite removelast_last in Hx.
    apply elem_of_app. by left.
Qed.

(** ** Lemmas: the representation invariant *)

Lemma index_elem d id e : deduper_wf d → index d !! id = Some e → (e, id) ∈ order d.
Proof. intros Hwf. apply wf_index, Hwf. Qed.

Lemma index_None d id : deduper_wf d → index d !! id = None ↔ id ∉ ids d.
Proof.
  intros Hwf. unfold ids. split.
  - intros Hn ([e id'] & -> & Hin)%list_elem_of_fmap. apply (wf_index d Hwf) in Hin. simpl in *. congruence.
  - intros Hni. destruct (index d !! id) as [e|] eqn:He; [|done].
    apply (index_elem d) in He; [|done]. by apply (list_elem_of_fmap_2 snd) in He.
Qed.

Lemma index_Some d id : deduper_wf d → is_Some (index d !! id) ↔ id ∈ ids d.
Proof.
  intros Hwf. rewrite <- not_eq_None_Some, index_None by done.
  split; [apply dec_stable|tauto].
Qed.

Lemma move_wf d id e :
  deduper_wf d → index d !! id = Some e →
  deduper_wf (mkDeduper (capacity d) (list_MoveToFront e (order d)) (index d) (fresh d)) ∧
  (list_MoveToFront e (order d)).*2 = id :: lru_remove id (ids d) ∧ id ∈ ids d.
Proof.
  intros Hwf He. apply (index_elem d) in He as Hin; [|done].
  destruct Hwf as [Hcap Hlen Hn1 Hn2 Hne Hfr Hix].
  rewrite (MoveToFront_eq _ _ id) by done.
  assert ((e, id) ∉ list_Remove e (order d)) as Hni by (intros [_ Hc]%elem_of_Remove; by apply Hc).
  split; [|split; [|by apply (list_elem_of_fmap_2 snd) in Hin]].
  - split; simpl.
    + done.
    + pose proof (Remove_length (order d) e id Hn1 Hin). lia.
    + constructor; [|eapply sublist_NoDup; [apply Hn1|apply (fmap_sublist fst), sublist_Remove]].
      intros ([? ?] & -> & [? ?]%elem_of_Remove)%list_elem_of_fmap. done.
    + rewrite (Remove_ids _ _ id) by done. constructor.
      * rewrite elem_of_lru_remove. tauto.
      * by apply NoDup_filter.
    + rewrite (Remove_ids _ _ id), elem_of_cons, elem_of_lru_remove by done.
      intros [<- | [? _]]; [|done]. apply Hne. by apply (list_elem_of_fmap_2 snd) in Hin.
    + constructor; [by apply (proj1 (Forall_forall _ _) Hfr) in Hin|].
      apply Forall_forall. intros p [Hp _]%elem_of_Remove. by apply (proj1 (Forall_forall _ _) Hfr) in Hp.
    + intros id' e'. rewrite elem_of_cons, elem_of_Remove, Hix. simpl. split; [|by intros [[= -> ->] | [? _]]].
      intros H'. destruct (decide (e' = e)) as [->|]; [|auto]. left.
      by rewrite (NoDup_fst_inj _ _ _ _ Hn1 H' Hin).
  - rewrite fmap_cons. by rewrite (Remove_ids _ _ id).
Qed.

(** Evicting the back element keeps the invariant and makes room. *)
Definition evict (d : MemoryDeduper) : MemoryDeduper :=
  if Z.of_nat (length (order d)) =? capacity d then
    match list_Back (order d) with
    | Some oldest =>
        mkDeduper (capacity d) (list_Remove oldest.1 (order d)) (delete oldest.2 (index d)) (fresh d)
    | None => d
    end
  else d.

Lemma evict_wf d :
  deduper_wf d →
  deduper_wf (evict d) ∧ Z.of_nat (length (order (evict d))) < capacity d ∧
  ids (evict d) = (if Z.of_nat (length (order d)) =? capacity d then removelast (ids d) else ids d) ∧
  capacity (evict d) = capacity d ∧ fresh (evict d) = fresh d.
Proof.
  intros Hwf. pose proof Hwf as [Hcap Hlen Hn1 Hn2 Hne Hfr Hix]. unfold evict.
  destruct (Z.eqb_spec (Z.of_nat (length (order d))) (capacity d)) as [Hfull|];
    [|split; [done|]; split; [lia|done]].
  destruct (list_Back (order d)) as [[e id]|] eqn:Hb.
  2: { apply last_None in Hb. rewrite Hb in Hfull. simpl in Hfull. lia. }
  destruct (Remove_Back _ _ Hn1 Hb) as [Hrl Hin]. simpl in Hrl.
  simpl. split; [|split; [|split; [|done]]].
  - split; simpl.
    + done.
    + pose proof (Remove_length (order d) e id Hn1 Hin). lia.
    + eapply sublist_NoDup; [apply Hn1|apply (fmap_sublist fst), sublist_Remove].
    + rewrite (Remove_ids _ _ id) by done. by apply NoDup_filter.
    + rewrite (Remove_ids _ _ id), elem_of_lru_remove by done. tauto.
    + apply Forall_forall. intros p [Hp _]%elem_of_Remove. by apply (proj1 (Forall_forall _ _) Hfr) in Hp.
    + intros id' e'. rewrite elem_of_Remove. simpl. split.
      * intros [Hne' He']%lookup_delete_Some. apply Hix in He'. split; [done|]. intros ->.
        apply Hne'. by apply (NoDup_fst_inj (order d) e).
      * intros [H' Hne']. apply lookup_delete_Some. split; [|by apply Hix]. intros ->.
        apply Hne'. by apply (NoDup_snd_inj (order d) _ _ id').
  - pose proof (Remove_length (order d) e id Hn1 Hin). lia.
  - unfold ids. simpl. rewrite Hrl. apply last_Some in Hb as [l ->].
    by rewrite fmap_app, fmap_cons, fmap_nil, !removelast_last.
Qed.

Lemma push_wf d id :
  deduper_wf d → Z.of_nat (length (order d)) < capacity d → id ≠ "" → id ∉ ids d →
  deduper_wf (mkDeduper (capacity d) ((fresh d, id) :: order d) (<[id := fresh d]> (index d))
                        (Pos.succ (fresh d))).
Proof.
  intros [Hcap Hlen Hn1 Hn2 Hne Hfr Hix] Hroom Hid Hni.
  rewrite Forall_forall in Hfr. split; simpl; try done.
  - lia.
  - constructor; [|done]. intros (p & Heq & Hin)%list_elem_of_fmap. apply Hfr in Hin. lia.
  - constructor; done.
  - rewrite elem_of_cons. intros [<-|]; done.
  - constructor; [simpl; lia|]. apply Forall_forall. intros p Hp%Hfr. lia.
  - intros id' e'. rewrite elem_of_cons, lookup_insert_Some. split.
    + intros [[-> ->]|[? He']]; [by left|right; by apply Hix].
    + intros [[= -> ->]|Hin]; [by left|]. right. split; [|by apply Hix]. intros ->.
      apply Hni. by apply (list_elem_of_fmap_2 snd) in Hin.
Qed.

Lemma Add_evict id d :
  id ≠ "" → index d !! id = None →
  MemoryDeduper_Add id d =
    mkDeduper (capacity (evict d)) ((fresh (evict d), id) :: order (evict d))
              (<[id := fresh (evict d)]> (index (evict d))) (Pos.succ (fresh (evict d))).
Proof.
  intros Hid Hi. unfold MemoryDeduper_Add, evict.
  destruct (String.eqb_spec id ""); [done|]. rewrite Hi.
  destruct (_ =? _); [|done]. by destruct (list_Back (order d)) as [[e x]|].
Qed.

(** ** Lemmas: the operations refine the abstract LRU set *)

Lemma New_wf cap : deduper_wf (NewMemoryDeduper cap).
Proof.
  unfold NewMemoryDeduper. split; simpl; try constructor; try (by case_match; lia).
  - set_solver.
  - intros H. by rewrite lookup_empty in H.
  - by intros ?%not_elem_of_nil.
Qed.

Lemma Has_refines id d :
  deduper_wf d →
  deduper_wf (MemoryDeduper_Has id d).2 ∧
  ((MemoryDeduper_Has id d).1, ids (MemoryDeduper_Has id d).2) =
    (if String.eqb id "" then (false, ids d) else lru_has id (ids d)) ∧
  capacity (MemoryDeduper_Has id d).2 = capacity d.
Proof.
  intros Hwf. unfold MemoryDeduper_Has, lru_has. destruct (String.eqb_spec id ""); [done|].
  destruct (index d !! id) as [e|] eqn:He; simpl.
  - destruct (move_wf d id e Hwf He) as (Hwf' & Hids & Hin). split; [done|]. split; [|done].
    rewrite bool_decide_true by done. unfold ids at 1. simpl. by rewrite Hids.
  - apply index_None in He; [|done]. split; [done|]. by rewrite bool_decide_false.
Qed.

Lemma Add_refines id d :
  deduper_wf d →
  deduper_wf (MemoryDeduper_Add id d) ∧
  ids (MemoryDeduper_Add id d) = lru_add (capacity d) id (ids d) ∧
  capacity (MemoryDeduper_Add id d) = capacity d.
Proof.
  intros Hwf. destruct (String.eqb_spec id "") as [->|Hid]; [done|].
  unfold lru_add. rewrite (proj2 (String.eqb_neq _ _)) by done.
  destruct (index d !! id) as [e|] eqn:He.
  - destruct (move_wf d id e Hwf He) as (Hwf' & Hids & Hin).
    unfold MemoryDeduper_Add. rewrite (proj2 (String.eqb_neq _ _)), He by done.
    split; [done|]. split; [|done]. by rewrite bool_decide_true.
  - rewrite Add_evict by done. apply index_None in He as Hni; [|done].
    destruct (evict_wf d Hwf) as (Hwf' & Hroom & Hids & Hcap & _).
    assert (id ∉ ids (evict d)) as Hni'.
    { rewrite Hids. case_match; [|done]. intros Hin. apply Hni.
      destruct (ids d) as [|x l _] using rev_ind; [done|]. rewrite removelast_last in Hin.
      apply elem_of_app. by left. }
    rewrite bool_decide_false by done.
    split; [apply push_wf; rewrite ?Hcap; done|]. split; [|done].
    unfold ids at 1. cbn [order]. rewrite fmap_cons. cbn [snd]. fold (ids (evict d)). rewrite Hids.
    unfold ids. by rewrite length_fmap.
Qed.

#[export] Hint Resolve New_wf : mono.

(** The in-memory deduper implements the interface of the handlers. *)
#[export] Instance memory_deduper : Deduper MemoryDeduper := {|
  Has := MemoryDeduper_Has;
  Add := MemoryDeduper_Add;
  known d := list_to_set (ids d);
  dd_wf := deduper_wf
|}.

#[export] Instance memory_deduper_laws : DeduperLaws MemoryDeduper.
Proof.
  split; simpl.
  - intros id d Hwf. destruct (Has_refines id d Hwf) as (_ & Heq & _).
    apply (f_equal fst) in Heq. simpl in Heq. rewrite Heq, elem_of_list_to_set.
    destruct (String.eqb_spec id "") as [->|]; simpl.
    + split; [done|]. intros Hin. by apply (wf_nonempty d Hwf) in Hin.
    + unfold lru_has. by case_bool_decide.
  - intros id d Hwf. destruct (Has_refines id d Hwf) as (Hwf' & Heq & _). split; [|done].
    apply (f_equal snd) in Heq. simpl in Heq. rewrite Heq.
    destruct (String.eqb_spec id ""); [done|]. unfold lru_has. case_bool_decide; [|done].
    apply set_eq. intros x. simpl. rewrite elem_of_union, elem_of_singleton, !elem_of_list_to_set,
      elem_of_lru_remove. destruct (decide (x = id)) as [->|]; tauto.
  - intros id d Hwf Hid. destruct (Add_refines id d Hwf) as (_ & -> & _).
    rewrite elem_of_list_to_set. unfold lru_add. rewrite (proj2 (String.eqb_neq _ _)) by done.
    case_bool_decide; left.
  - intros id d Hwf. destruct (Add_refines id d Hwf) as (Hwf' & -> & _). split; [|done].
    intros x. rewrite elem_of_union, elem_of_singleton, !elem_of_list_to_set. apply elem_of_lru_add.
  - intros d Hwf. rewrite elem_of_list_to_set. apply Hwf.
Qed.

#[export] Instance persistent_deduper_laws : DeduperLaws (gset string).
Proof.
  split; simpl.
  - intros id d _. by rewrite bool_decide_eq_true.
  - done.
  - intros id d _ Hid. rewrite (proj2 (String.eqb_neq _ _)) by done. set_solver.
  - intros id d Hd. destruct (String.eqb_spec id ""); set_solver.
  - done.
Qed.

(** ** Lemmas: runs of calls *)

Lemma run_calls_refines cs d :
  deduper_wf d →
  deduper_wf (run_calls cs d) ∧ capacity (run_calls cs d) = capacity d ∧
  ids (run_calls cs d) = foldl (λ l c, lru_call (capacity d) c l) (ids d) cs.
Proof.
  unfold run_calls. revert d. induction cs as [|c cs IH]; intros d Hwf; [done|]. simpl.
  assert (deduper_wf (do_call c d) ∧ capacity (do_call c d) = capacity d ∧
          ids (do_call c d) = lru_call (capacity d) c (ids d)) as (Hwf' & Hcap & Hids).
  { destruct c as [id|id]; simpl.
    - destruct (Has_refines id d Hwf) as (? & Heq & ?). split; [done|]. split; [done|].
      apply (f_equal snd) in Heq. simpl in Heq. rewrite Heq. by case_match.
    - destruct (Add_refines id d Hwf) as (? & ? & ?). done. }
  destruct (IH _ Hwf') as (? & Hcap' & Hids'). rewrite Hids', Hcap', Hcap, Hids. done.
Qed.

(** [id] is in the list with only members of [S] in front of it. *)
Definition behind (id : string) (S : gset string) (l : list string) : Prop :=
  ∃ l1 l2, l = l1 ++ id :: l2 ∧ NoDup l ∧ list_to_set l1 ⊆ S ∧ id ∉ S.

Lemma behind_touch id S x l :
  behind id S l → x ∈ l → behind id (S ∪ ({[x]} ∖ {[id]})) (x :: lru_remove x l).
Proof.
  intros (l1 & l2 & -> & Hnd & Hs & Hid) Hx. unfold lru_remove.
  apply NoDup_app in Hnd as Hd. destruct Hd as (Hn1 & Hd & Hn2).
  apply NoDup_cons in Hn2 as [Hni Hn2].
  assert (NoDup (x :: filter (λ y, y ≠ x) (l1 ++ id :: l2))) as Hnd'.
  { constructor; [rewrite list_elem_of_filter; tauto|by apply NoDup_filter]. }
  destruct (decide (x = id)) as [->|Hne].
  - exists [], (filter (λ y, y ≠ id) (l1 ++ id :: l2)). set_solver.
  - exists (x :: filter (λ y, y ≠ x) l1), (filter (λ y, y ≠ x) l2).
    rewrite filter_app in *. rewrite (filter_cons_True (λ y : string, y ≠ x)) in * by done.
    split; [done|]. split; [done|]. split; [|set_solver].
    intros y. rewrite elem_of_list_to_set, elem_of_cons, list_elem_of_filter. set_solver.
Qed.

Lemma behind_push id S x l :
  behind id S l → x ∉ l → behind id (S ∪ {[x]}) (x :: l).
Proof.
  intros (l1 & l2 & -> & Hnd & Hs & Hid) Hx. exists (x :: l1), l2.
  split; [done|]. split; [by constructor|]. split; [set_solver|].
  assert (x ≠ id) by (intros ->; apply Hx; set_solver). set_solver.
Qed.

(** Evicting the back of a full list keeps an id with fewer than [cap - 1]
    members of [S] in front of it. *)
Lemma behind_evict id S (cap : Z) l :
  behind id S l → Z.of_nat (size S) < cap - 1 → Z.of_nat (length l) = cap →
  behind id S (removelast l).
Proof.
  intros (l1 & l2 & -> & Hnd & Hs & Hid) Hsz Hlen.
  destruct l2 as [|y l2 _] using rev_ind.
  - exfalso. rewrite length_app in Hlen. simpl in Hlen.
    apply NoDup_app in Hnd as (Hn1 & _ & _).
    apply subseteq_size in Hs. rewrite size_list_to_set in Hs by done. lia.
  - exists l1, l2. rewrite app_comm_cons, app_assoc, removelast_last in *.
    split; [done|]. split; [|done].
    by apply NoDup_app in Hnd as (? & _ & _).
Qed.

Lemma behind_weaken id S S' l : behind id S l → S ⊆ S' → id ∉ S' → behind id S' l.
Proof. intros (l1 & l2 & ? & ? & ? & ?) ? ?. exists l1, l2. set_solver. Qed.

(** One call keeps [id] in the list while the other ids mentioned are few. *)
Lemma behind_call id M (cap : Z) c l :
  behind id M l → Z.of_nat (size M) < cap → Z.of_nat (length l) <= cap → id ≠ "" →
  (match c with CHas x | CAdd x => x = "" ∨ x = id ∨ x ∈ M end) →
  behind id M (lru_call cap c l).
Proof.
  intros Hb HM Hlen Hid Hc.
  assert (id ∉ M) as HidM by (by destruct Hb as (? & ? & ? & ? & ? & ?)).
  assert (∀ x, x = id ∨ x ∈ M → M ∪ ({[x]} ∖ {[id]}) ⊆ M) as Hsub by set_solver.
  assert (∀ x, x = "" ∨ x = id ∨ x ∈ M → x ≠ "" → x ∈ l → behind id M (x :: lru_remove x l)) as Ht.
  { intros x Hx Hx0 Hxl. eapply behind_weaken; [by apply behind_touch|apply Hsub; tauto|done]. }
  destruct c as [x|x]; simpl.
  - destruct (String.eqb_spec x ""); [done|]. unfold lru_has. case_bool_decide; [by apply Ht|done].
  - unfold lru_add. destruct (String.eqb_spec x ""); [done|]. case_bool_decide as Hxl; [by apply Ht|].
    assert (x ∈ M) as HxM.
    { destruct Hc as [?|[->|?]]; [done| |done]. exfalso. apply Hxl.
      destruct Hb as (l1 & l2 & -> & _). set_solver. }
    assert (behind id (M ∖ {[x]}) l) as Hb'.
    { destruct Hb as (l1 & l2 & -> & Hnd & Hs & _). exists l1, l2. set_solver. }
    assert (size M = S (size (M ∖ {[x]}))) as Hsz.
    { rewrite size_difference, size_singleton by set_solver.
      assert (size M ≠ 0%nat) by (intros Hz%size_empty_inv; set_solver). lia. }
    destruct (Z.eqb_spec (Z.of_nat (length l)) cap) as [Hfull|].
    + assert (behind id (M ∖ {[x]}) (removelast l)) as Hb2 by (apply (behind_evict _ _ cap); [done|lia|done]).
      eapply behind_weaken; [apply behind_push; [exact Hb2|]|set_solver|done].
      destruct l as [|y l _] using rev_ind; [done|]. rewrite removelast_last.
      intros Hin. apply Hxl, elem_of_app. by left.
    + eapply behind_weaken; [by apply behind_push|set_solver|done].
Qed.

Lemma lru_call_length cap c l :
  0 < cap → Z.of_nat (length l) <= cap → Z.of_nat (length (lru_call cap c l)) <= cap.
Proof.
  intros Hcap Hlen.
  assert (∀ x, x ∈ l → Z.of_nat (length (x :: lru_remove x l)) <= cap) as Ht.
  { intros x Hx. simpl. unfold lru_remove.
    assert (length (filter (λ y, y ≠ x) l) < length l)%nat; [|lia].
    eapply length_filter_lt; [exact Hx|tauto]. }
  destruct c as [x|x]; simpl.
  - case_match; [done|]. unfold lru_has. case_bool_decide; [by apply Ht|done].
  - unfold lru_add. case_match; [done|]. case_bool_decide; [by apply Ht|].
    destruct (Z.eqb_spec (Z.of_nat (length l)) cap) as [Hfull|]; simpl; [|lia].
    destruct l as [|y l _] using rev_ind; [simpl in *; lia|].
    rewrite removelast_last. rewrite length_app in Hlen. simpl in Hlen. lia.
Qed.

Definition eff_capacity (cap : Z) : Z := if cap <=? 0 then 1024 else cap.

(** ** Properties *)

(** C12: the deduper is an LRU set.  After any sequence of [Has] and [Add] calls
    on a new deduper, its list holds exactly the ids of the abstract LRU list,
    most recent first, the index agrees with the list, and [Has] answers
    membership, refreshing the entry it finds. *)
Theorem deduper_refines_lru cap cs id :
  deduper_wf (run_calls cs (NewMemoryDeduper cap)) ∧
  ids (run_calls cs (NewMemoryDeduper cap)) =
    foldl (λ l c, lru_call (eff_capacity cap) c l) [] cs ∧
  ((MemoryDeduper_Has id (run_calls cs (NewMemoryDeduper cap))).1 = true ↔
     id ≠ "" ∧ id ∈ foldl (λ l c, lru_call (eff_capacity cap) c l) [] cs).
Proof.
  destruct (run_calls_refines cs (NewMemoryDeduper cap) (New_wf cap)) as (Hwf & _ & Hids).
  split; [done|]. split; [done|].
  change (capacity (NewMemoryDeduper cap)) with (eff_capacity cap) in Hids.
  change (ids (NewMemoryDeduper cap)) with (@nil string) in Hids. rewrite <- Hids.
  destruct (Has_refines id _ Hwf) as (_ & Heq & _). apply (f_equal fst) in Heq. simpl in Heq.
  rewrite Heq. destruct (String.eqb_spec id "") as [->|]; [naive_solver|].
  unfold lru_has. case_bool_decide; naive_solver.
Qed.

(** A deduper never outgrows its capacity (1024 when the argument is not
    positive), and the index holds one entry per list element, so evicted ids
    leak nowhere. *)
Theorem deduper_bounded cap cs :
  MemoryDeduper_Len (run_calls cs (NewMemoryDeduper cap)) <= eff_capacity cap ∧
  Z.of_nat (size (index (run_calls cs (NewMemoryDeduper cap)))) =
    MemoryDeduper_Len (run_calls cs (NewMemoryDeduper cap)).
Proof.
  destruct (run_calls_refines cs (NewMemoryDeduper cap) (New_wf cap)) as (Hwf & Hcap & _).
  set (d := run_calls cs (NewMemoryDeduper cap)) in *. unfold MemoryDeduper_Len. split.
  - pose proof (wf_len d Hwf) as Hl. by rewrite Hcap in Hl.
  - f_equal. rewrite <- size_dom.
    assert (dom (index d) = list_to_set (ids d)) as ->.
    { apply set_eq. intros x. rewrite elem_of_dom, elem_of_list_to_set. by apply index_Some. }
    rewrite size_list_to_set by apply Hwf. unfold ids. by rewrite length_fmap.
Qed.

(** A run of calls keeps [id] in the list while the ids mentioned are few. *)
Lemma behind_calls id M cap cs l :
  behind id M l → Z.of_nat (size M) < cap → Z.of_nat (length l) <= cap → id ≠ "" →
  mentioned cs ⊆ M ∪ {[id; ""]} →
  behind id M (foldl (λ l c, lru_call cap c l) l cs).
Proof.
  revert l. induction cs as [|c cs IH]; intros l Hb HM Hlen Hid Hsub; [done|]. simpl.
  unfold mentioned in Hsub. rewrite fmap_cons, list_to_set_cons in Hsub. apply IH; try done.
  - apply behind_call; try done. destruct c; set_solver.
  - apply lru_call_length; [|done]. lia.
  - unfold mentioned. set_solver.
Qed.

(** An id stays known as long as fewer than [capacity] other ids have been
    looked up or added since it was added: the window in which a redelivery is
    recognised. *)
Theorem deduper_retention cap cs1 id cs2 :
  id ≠ "" →
  Z.of_nat (size (mentioned cs2 ∖ {[id; ""]})) < eff_capacity cap →
  (MemoryDeduper_Has id (run_calls (cs1 ++ CAdd id :: cs2) (NewMemoryDeduper cap))).1 = true.
Proof.
  intros Hid Hsz. apply deduper_refines_lru. split; [done|]. rewrite foldl_app. simpl.
  assert (0 < eff_capacity cap) as Hcap by (unfold eff_capacity; case_match; lia).
  set (l0 := foldl _ [] cs1).
  destruct (run_calls_refines cs1 (NewMemoryDeduper cap) (New_wf cap)) as (Hwf0 & Hc0 & Hids0).
  change (capacity (NewMemoryDeduper cap)) with (eff_capacity cap) in Hids0, Hc0.
  change (ids (NewMemoryDeduper cap)) with (@nil string) in Hids0. fold l0 in Hids0.
  destruct (Add_refines id _ Hwf0) as (Hwf1 & Hids1 & Hc1). rewrite Hc0, Hids0 in Hids1.
  rewrite <- Hids1.
  enough (behind id (mentioned cs2 ∖ {[id; ""]})
            (foldl (λ l c, lru_call (eff_capacity cap) c l)
               (ids (MemoryDeduper_Add id (run_calls cs1 (NewMemoryDeduper cap)))) cs2)) as Hb.
  { destruct Hb as (l1 & l2 & -> & _). set_solver. }
  apply behind_calls; try done.
  - pose proof (wf_ids _ Hwf1) as Hnd. fold (ids (MemoryDeduper_Add id (run_calls cs1 (NewMemoryDeduper cap)))) in Hnd.
    rewrite Hids1 in *. unfold lru_add in *. rewrite (proj2 (String.eqb_neq _ _)) in * by done.
    case_bool_decide; exists []; eexists; split; try reflexivity; set_solver.
  - pose proof (wf_len _ Hwf1) as Hl. rewrite Hc1, Hc0 in Hl. unfold ids. by rewrite length_fmap.
  - intros x Hx. destruct (decide (x ∈ ({[id; ""]} : gset string))); set_solver.
Qed.

Lemma deduper_retention_witness :
  ("a" ≠ "" ∧ Z.of_nat (size (mentioned [CAdd "b"; CHas "a"] ∖ {["a"; ""]})) < eff_capacity 2) ∧
  (MemoryDeduper_Has "a" (run_calls ([CAdd "x"; CAdd "y"] ++ CAdd "a" :: [CAdd "b"; CHas "a"])
     (NewMemoryDeduper 2))).1 = true.
Proof.
  assert ("a" ≠ "") as H1 by done.
  assert (Z.of_nat (size (mentioned [CAdd "b"; CHas "a"] ∖ {["a"; ""]})) < eff_capacity 2) as H2
    by by vm_compute.
  split; [done|]. exact (deduper_retention 2 [CAdd "x"; CAdd "y"] "a" [CAdd "b"; CHas "a"] H1 H2).
Defined.
