(* ===== verification/GoHttp.v ===== *)
(** * What the SDK uses of net/http, net/url, context, time and math/rand

    Requests, responses and headers as data, and two interfaces for what is
    outside the program: [World], the effects of its environment (clock,
    timers, cancellation, randomness) as operations on a world state, with the
    documented laws; and [NetLib], the parsers of the standard library whose
    grammar the SDK never inspects (HTTP dates, URLs, loopback addresses). *)
From S2P Require Import Prelude GoString Errors.

(** ** Headers

    Keys are in canonical form; [Set] replaces, [Get] of an absent key is the
    empty string. *)
Abbreviation Header := (gmap string string).
Definition Header_Get (h : Header) (k : string) : string := default "" (h !! k).
Definition Header_Set (h : Header) (k v : string) : Header := <[k := v]> h.

(** ** URLs, requests, responses *)

Record URL := mkURL { Scheme : string; Host : string; Path : string; RawQuery : string }.

#[global] Instance URL_eq_dec : EqDecision URL.
Proof. solve_decision. Defined.

(** [u.IsAbs()]. *)
Definition IsAbs (u : URL) : bool := negb (String.eqb (Scheme u) "").

(** A request body: nil, [http.NoBody], or a reader that yields some bytes and
    then, possibly, an error. *)
Inductive body :=
| BNil
| BNoBody
| BReader (data : string) (fails : option error).

Record Request := mkRequest {
  rMethod : string;
  rURL : URL;
  rHeader : Header;
  rBody : body;
  rGetBody : option (result string);    (* what GetBody answers, when it is set *)
  rContentLength : Z
}.

Record Response := mkResponse {
  sStatusCode : Z;
  sHeader : Header;
  sBody : string;
  sBodyErr : option error;     (* the error reading ends with, if any *)
  sContentLength : Z
}.

Definition set_URL (u : URL) (r : Request) : Request :=
  mkRequest (rMethod r) u (rHeader r) (rBody r) (rGetBody r) (rContentLength r).
Definition set_Header (k v : string) (r : Request) : Request :=
  mkRequest (rMethod r) (rURL r) (Header_Set (rHeader r) k v) (rBody r) (rGetBody r) (rContentLength r).
Definition set_Body (b : body) (r : Request) : Request :=
  mkRequest (rMethod r) (rURL r) (rHeader r) b (rGetBody r) (rContentLength r).
Definition set_GetBody (d : string) (r : Request) : Request :=
  mkRequest (rMethod r) (rURL r) (rHeader r) (rBody r) (Some (Ok d)) (rContentLength r).
Definition set_ContentLength (n : Z) (r : Request) : Request :=
  mkRequest (rMethod r) (rURL r) (rHeader r) (rBody r) (rGetBody r) n.

(** [io.ReadAll(io.LimitReader(resp.Body, n))]: what lies beyond [n] bytes, the
    error reading ends with included, is not looked at. *)
Definition read_capped (n : Z) (resp : Response) : result string :=
  if n <=? slen (sBody resp) then Ok (str_take (Z.to_nat n) (sBody resp))
  else match sBodyErr resp with Some e => Err e | None => Ok (sBody resp) end.

(** ** The environment *)

Class World (W : Type) := {
  (* time.Now() *)
  now : W → Z * W;
  (* rand.Int64N(n) *)
  rand_Int64N : Z → W → Z * W;
  (* ctx.Err(), for the context of the call under way *)
  ctx_Err : W → option error;
  (* select { case <-ctx.Done(): return ctx.Err(); case <-time.After(d): } *)
  wait : Z → W → option error * W
}.

(** [math/rand/v2]: [Int64N(n)] is in [[0, n)]. *)
Class WorldLaws (W : Type) `{World W} : Prop := {
  rand_range (n : Z) (w : W) : 0 < n → 0 <= (rand_Int64N n w).1 < n
}.

Class NetLib := {
  (* http.ParseTime: the instant of an HTTP date *)
  http_ParseTime : string → option Z;
  (* url.Parse; None when it fails *)
  url_Parse : string → option URL;
  (* URL.String *)
  url_String : URL → string;
  (* URL.ResolveReference *)
  url_ResolveReference : URL → URL → URL;
  (* URL.Hostname *)
  url_Hostname : URL → string;
  (* net.ParseIP(host) is not nil and IsLoopback *)
  ip_IsLoopback : string → bool;
  (* json.Unmarshal of a body into {errorDescription, errorCode} *)
  json_errorBody : string → option (string * string)
}.

(** ** Lemmas *)

Lemma set_Header_at k k' v r :
  Header_Get (rHeader (set_Header k v r)) k' = if decide (k = k') then v else Header_Get (rHeader r) k'.
Proof.
  unfold set_Header, Header_Set, Header_Get. cbn. case_decide; [subst; by rewrite lookup_insert_eq|by rewrite lookup_insert_ne].
Qed.

Lemma set_Header_same k v r : Header_Get (rHeader (set_Header k v r)) k = v.
Proof. by rewrite set_Header_at, decide_True. Qed.

Lemma set_Header_other k k' v r : k ≠ k' → Header_Get (rHeader (set_Header k v r)) k' = Header_Get (rHeader r) k'.
Proof. intros Hk. by rewrite set_Header_at, decide_False. Qed.
