(* ===== verification/BankData.v ===== *)
(** * The Open API data (bank/data.go)

    Accounts, jars, transactions, managed clients and the client info, shared
    by the personal and corporate clients: the currency each decoder attaches
    to the bare amounts, the look-ups, and the [LogValue] methods with the
    redaction helpers they go through.

    [json.Unmarshal] into the raw structs is a parameter: the tags and the
    types decide it, and no code of the SDK looks inside. *)
From S2P Require Import Prelude GoString GoText GoFloat Errors Currency Money Mcc GoHttp.

(** ** The records *)

Record Account := mkAccount {
  AccountID : string; aSendID : string; aBalance : Money; CreditLimit : Money; aCurrency : Z;
  aCashbackType : string; CardMasks : list string; aType : string; aIBAN : string
}.

Record Jar := mkJar {
  jID : string; jSendID : string; Title : string; jDescription : string; jCurrency : Z;
  jBalance : Money; Goal : Money
}.

Record ManagedClient := mkManaged { mID : string; TIN : string; mName : string; mAccounts : list Account }.

Record ClientInfo := mkClientInfo {
  ciID : string; ciName : string; WebHookURL : string; Permissions : string;
  Accounts : list Account; Jars : list Jar; ManagedClients : list ManagedClient
}.

Record Transaction := mkTx {
  tID : string; tTime : Z; tDescription : string; tMCC : Z; tOriginalMCC : Z; Hold : bool;
  Amount : Money; OperationAmount : Money; tCurrency : Z; CommissionRate : Money;
  CashbackAmount : Money; tBalance : Money; tComment : string; ReceiptID : string;
  tInvoiceID : string; tEDRPOU : string; tIBAN : string; CounterName : string
}.

Inductive CardType := Black | White | Platinum | Iron | FOP | Yellow | EAid | Diia.
Definition CardType_string (t : CardType) : string :=
  match t with
  | Black => "black" | White => "white" | Platinum => "platinum" | Iron => "iron"
  | FOP => "fop" | Yellow => "yellow" | EAid => "eAid" | Diia => "diia"
  end.

Inductive CashbackType := CashbackNone | CashbackUAH | CashbackMiles.
Definition CashbackType_string (t : CashbackType) : string :=
  match t with CashbackNone => "None" | CashbackUAH => "UAH" | CashbackMiles => "Miles" end.

#[global] Instance Transaction_eq_dec : EqDecision Transaction.
Proof. solve_decision. Defined.

(** ** Decoding: the currency is attached to every amount *)

Definition with_code (c : Z) (m : Money) : Money := mkMoney (Minor m) c.

Definition Account_UnmarshalJSON (raw : string → result Account) (data : string) : result Account :=
  match raw data with
  | Err e => Err e
  | Ok r => let c := aCurrency r in
            Ok (mkAccount (AccountID r) (aSendID r) (with_code c (aBalance r)) (with_code c (CreditLimit r)) c
                  (aCashbackType r) (CardMasks r) (aType r) (aIBAN r))
  end.

Definition Jar_UnmarshalJSON (raw : string → result Jar) (data : string) : result Jar :=
  match raw data with
  | Err e => Err e
  | Ok r => let c := jCurrency r in
            Ok (mkJar (jID r) (jSendID r) (Title r) (jDescription r) c
                  (with_code c (jBalance r)) (with_code c (Goal r)))
  end.

Definition Transaction_UnmarshalJSON (raw : string → result Transaction) (data : string) : result Transaction :=
  match raw data with
  | Err e => Err e
  | Ok r =>
      let c := tCurrency r in
      Ok (mkTx (tID r) (tTime r) (tDescription r) (tMCC r) (tOriginalMCC r) (Hold r)
            (with_code c (Amount r)) (with_code c (OperationAmount r)) c (with_code c (CommissionRate r))
            (with_code c (CashbackAmount r)) (with_code c (tBalance r)) (tComment r) (ReceiptID r)
            (tInvoiceID r) (tEDRPOU r) (tIBAN r) (CounterName r))
  end.

(** ** Look-ups

    The pointer a look-up returns aliases the slice element: the index. *)

Fixpoint index_where {A} (p : A → bool) (l : list A) (i : nat) : option nat :=
  match l with
  | [] => None
  | x :: l => if p x then Some i else index_where p l (S i)
  end.

Definition Accounts_ByID (l : list Account) (id : string) : option nat :=
  index_where (λ a, String.eqb (AccountID a) id) l 0.
Definition Accounts_ByIBAN (l : list Account) (iban : string) : option nat :=
  index_where (λ a, String.eqb (aIBAN a) iban) l 0.
Definition Accounts_ByCurrency (l : list Account) (code : Z) : list Account :=
  filter (λ a, (aCurrency a =? code) = true) l.
Definition Jars_ByID (l : list Jar) (id : string) : option nat :=
  index_where (λ j, String.eqb (jID j) id) l 0.
Definition ManagedClients_ByID (l : list ManagedClient) (id : string) : option nat :=
  index_where (λ m, String.eqb (mID m) id) l 0.
Definition ClientInfo_Account (c : ClientInfo) (id : string) : option nat := Accounts_ByID (Accounts c) id.
Definition ClientInfo_Jar (c : ClientInfo) (id : string) : option nat := Jars_ByID (Jars c) id.
Definition ClientInfo_ManagedClient (c : ClientInfo) (id : string) : option nat :=
  ManagedClients_ByID (ManagedClients c) id.

Definition Transaction_MCCCode (t : Transaction) : Z := MCCCode (tMCC t).
Definition Transaction_OriginalMCCCode (t : Transaction) : Z := MCCCode (tOriginalMCC t).

(** ** Redaction *)

Definition maskName (name : string) : string :=
  if String.eqb name "" then ""
  else match runes name with
       | r :: (_ :: _) as rest => rune_string r +:+ Repeat "*" (length rest - 1)
       | _ => "*"
       end.

Definition redactURL `{NetLib} (u : string) : string :=
  if String.eqb u "" then ""
  else match url_Parse u with
       | None => "***"
       | Some p =>
           if String.eqb (Host p) "" then "***"
           else if String.eqb (Path p) "" || String.eqb (Path p) "/" then Scheme p +:+ "://" +:+ Host p
           else Scheme p +:+ "://" +:+ Host p +:+ "/***"
       end.

Definition redactIBAN (iban : string) : string :=
  if String.eqb iban "" then ""
  else if slen iban <=? 6 then "***"
  else str_take 2 iban +:+ "***" +:+ str_drop (String.length iban - 4) iban.

Definition redactTIN (tin : string) : string := if String.eqb tin "" then "" else "***".

Definition redactCardMask (m : string) : string :=
  if slen m <=? 4 then "****" else "****" +:+ str_drop (String.length m - 4) m.

(** ** LogValue *)

(** [slog.Value], on the kinds the SDK builds. *)
#[warnings="-register-all"]
Inductive slog :=
| SlString (s : string)
| SlInt (z : Z)
| SlBool (b : bool)
| SlTime (t : Z)
| SlStrings (l : list string)
| SlList (l : list slog)
| SlGroup (l : list (string * slog)).

Definition nonempty (s : string) : bool := negb (String.eqb s "").
Definition slog_len {A} (l : list A) : slog := SlInt (Z.of_nat (length l)).

Definition ClientInfo_LogValue `{NetLib} (c : ClientInfo) : slog := SlGroup
  [("clientId", SlString (ciID c)); ("name", SlString (maskName (ciName c)));
   ("webHookUrl", SlString (redactURL (WebHookURL c)));
   ("accounts", slog_len (Accounts c)); ("jars", slog_len (Jars c));
   ("managedClients", slog_len (ManagedClients c))].

Definition ManagedClient_LogValue (m : ManagedClient) : slog := SlGroup
  [("clientId", SlString (mID m)); ("name", SlString (maskName (mName m)));
   ("tin", SlString (redactTIN (TIN m))); ("accounts", slog_len (mAccounts m))].

Definition Account_LogValue (a : Account) : slog := SlGroup
  [("id", SlString (AccountID a)); ("type", SlString (aType a));
   ("currency", SlString (Code_String (aCurrency a))); ("iban", SlString (redactIBAN (aIBAN a)));
   ("cardMasks", SlStrings (redactCardMask <$> CardMasks a));
   ("balance", SlString (Money_String (aBalance a)))].

Definition Transaction_LogValue (t : Transaction) : slog := SlGroup
  [("id", SlString (tID t)); ("time", SlTime (tTime t)); ("amount", SlString (Money_String (Amount t)));
   ("currency", SlString (Code_String (tCurrency t))); ("mcc", SlInt (tMCC t)); ("hold", SlBool (Hold t));
   ("descriptionSet", SlBool (nonempty (tDescription t))); ("commentSet", SlBool (nonempty (tComment t)));
   ("counterIban", SlString (redactIBAN (tIBAN t))); ("counterEdrpou", SlString (redactTIN (tEDRPOU t)));
   ("counterName", SlString (maskName (CounterName t)))].

Definition Jar_LogValue (j : Jar) : slog := SlGroup
  [("id", SlString (jID j)); ("currency", SlString (Code_String (jCurrency j)));
   ("balance", SlString (Money_String (jBalance j))); ("goal", SlString (Money_String (Goal j)));
   ("titleSet", SlBool (nonempty (Title j))); ("descriptionSet", SlBool (nonempty (jDescription j)))].

Definition ManagedClients_LogValue (l : list ManagedClient) : slog := SlList (ManagedClient_LogValue <$> l).
Definition Transactions_LogValue (l : list Transaction) : slog := SlList (Transaction_LogValue <$> l).
Definition Jars_LogValue (l : list Jar) : slog := SlList (Jar_LogValue <$> l).
Definition Accounts_LogValue (l : list Account) : slog := SlList (Account_LogValue <$> l).

(** ** Lemmas *)

Lemma index_where_spec {A} (p : A → bool) l i :
  match index_where p l i with
  | Some k => ∃ j x, k = (i + j)%nat ∧ l !! j = Some x ∧ p x = true ∧
                     ∀ j' y, (j' < j)%nat → l !! j' = Some y → p y = false
  | None => Forall (λ x, p x = false) l
  end.
Proof.
  revert i. induction l as [|x l IH]; intros i; simpl; [constructor|].
  destruct (p x) eqn:Hp.
  - exists 0%nat, x. split; [lia|]. split; [done|]. split; [done|]. lia.
  - specialize (IH (S i)). destruct (index_where p l (S i)) as [k|]; [|by constructor].
    destruct IH as (j & y & -> & Hj & Hy & Hmin). exists (S j), y. split; [lia|].
    split; [done|]. split; [done|]. intros [|j'] z Hlt Hz; [by simplify_eq/=|]. apply (Hmin j' z); [lia|done].
Qed.

Lemma str_drop_length n s : String.length (str_drop n s) = (String.length s - n)%nat.
Proof. revert n. induction s as [|a s IH]; intros [|n]; simpl; try done. Qed.

Lemma str_take_length_nat n s : String.length (str_take n s) = Nat.min n (String.length s).
Proof. revert n. induction s as [|a s IH]; intros [|n]; simpl; try done. by rewrite IH. Qed.

(** The class of an IBAN its redaction reveals: absent, short, or its country
    code and last four characters. *)
Inductive iban_view := IbanNone | IbanShort | IbanEnds (country last4 : string).

#[global] Instance iban_view_eq_dec : EqDecision iban_view.
Proof. solve_decision. Defined.

Definition iban_class (iban : string) : iban_view :=
  if String.eqb iban "" then IbanNone
  else if slen iban <=? 6 then IbanShort
  else IbanEnds (str_take 2 iban) (str_drop (String.length iban - 4) iban).

Lemma redactIBAN_length iban :
  String.length (redactIBAN iban) =
    match iban_class iban with IbanNone => 0 | IbanShort => 3 | IbanEnds _ _ => 9 end%nat.
Proof.
  unfold redactIBAN, iban_class. destruct (String.eqb_spec iban ""); [done|].
  destruct (Z.leb_spec (slen iban) 6) as [Hs|Hs]; [done|]. unfold slen in Hs.
  rewrite !str_app_length, str_take_length_nat, str_drop_length.
  change (String.length "***") with 3%nat. lia.
Qed.

Lemma redactIBAN_inj a b : redactIBAN a = redactIBAN b ↔ iban_class a = iban_class b.
Proof.
  split; intros He.
  - pose proof (redactIBAN_length a) as Ha. pose proof (redactIBAN_length b) as Hb. rewrite He, Hb in Ha.
    unfold iban_class in Ha |- *. unfold redactIBAN in He.
    destruct (String.eqb_spec a ""), (String.eqb_spec b ""); try (done || by repeat case_match).
    destruct (Z.leb_spec (slen a) 6), (Z.leb_spec (slen b) 6); try done.
    unfold slen in *. apply str_app_inj in He as [-> He]; [|rewrite !str_take_length_nat; lia].
    by apply str_app_inj in He as [_ ->].
  - unfold iban_class in He. unfold redactIBAN.
    destruct (String.eqb_spec a ""), (String.eqb_spec b "");
      try destruct (slen a <=? 6); try destruct (slen b <=? 6); try done.
    assert (str_take 2 a = str_take 2 b) as -> by congruence.
    by assert (str_drop (String.length a - 4) a = str_drop (String.length b - 4) b) as -> by congruence.
Qed.

Lemma redactTIN_inj a b : redactTIN a = redactTIN b ↔ (a = "" ↔ b = "").
Proof.
  unfold redactTIN. destruct (String.eqb_spec a ""), (String.eqb_spec b ""); split; try done; naive_solver.
Qed.

Lemma nonempty_inj a b : nonempty a = nonempty b ↔ (a = "" ↔ b = "").
Proof.
  unfold nonempty. destruct (String.eqb_spec a ""), (String.eqb_spec b ""); split; try done; naive_solver.
Qed.

(** Two names with as many runes and the same first one are masked alike. *)
Lemma maskName_class a b :
  length (runes a) = length (runes b) → (1 < length (runes a))%nat → head (runes a) = head (runes b) →
  maskName a = maskName b.
Proof.
  intros Hl Hn Hh. unfold maskName.
  destruct (String.eqb_spec a "") as [->|]; [by simpl in Hn; lia|].
  destruct (String.eqb_spec b "") as [->|]; [by simpl in Hl; lia|].
  destruct (runes a) as [|r [|r' l]], (runes b) as [|q [|q' k]]; simpl in *; try lia. simplify_eq. by rewrite Hl.
Qed.

(** ** Properties *)

(** What the log of a transaction lets out is exactly the opaque handle,
    the time, the printed amount and currency, the category code, the hold
    flag, whether a description, a comment and a counterparty code are present,
    the country and last four characters of the counterparty's IBAN, and the
    mask of the name: two transactions that agree on these are
    indistinguishable in the log whatever their description, comment, balance,
    tax code, receipt, invoice and the rest of the IBAN are, and the slice logs
    element by element. *)
Theorem Transaction_LogValue_leaks t1 t2 :
  (Transaction_LogValue t1 = Transaction_LogValue t2 ↔
   tID t1 = tID t2 ∧ tTime t1 = tTime t2 ∧ Money_String (Amount t1) = Money_String (Amount t2) ∧
   Code_String (tCurrency t1) = Code_String (tCurrency t2) ∧ tMCC t1 = tMCC t2 ∧ Hold t1 = Hold t2 ∧
   (tDescription t1 = "" ↔ tDescription t2 = "") ∧ (tComment t1 = "" ↔ tComment t2 = "") ∧
   iban_class (tIBAN t1) = iban_class (tIBAN t2) ∧ (tEDRPOU t1 = "" ↔ tEDRPOU t2 = "") ∧
   maskName (CounterName t1) = maskName (CounterName t2)) ∧
  Transactions_LogValue [t1; t2] = SlList [Transaction_LogValue t1; Transaction_LogValue t2].
Proof.
  split; [|done]. rewrite <- redactIBAN_inj, <- (redactTIN_inj (tEDRPOU t1)), <- !nonempty_inj.
  unfold Transaction_LogValue. split.
  - intros He. injection He. intros. split_and!; assumption.
  - intros (-> & -> & -> & -> & -> & -> & -> & -> & -> & -> & ->). done.
Qed.

(** Decoding gives every amount of an account, a jar and a transaction the
    currency of its record and changes neither the minor units nor any other
    field, and a payload that does not decode yields the error. *)
Theorem UnmarshalJSON_currency rawA rawJ rawT data :
  (∀ a, Account_UnmarshalJSON rawA data = Ok a →
     MCode (aBalance a) = aCurrency a ∧ MCode (CreditLimit a) = aCurrency a ∧
     ∃ r, rawA data = Ok r ∧ Minor (aBalance a) = Minor (aBalance r) ∧
          Minor (CreditLimit a) = Minor (CreditLimit r) ∧ AccountID a = AccountID r ∧ aIBAN a = aIBAN r) ∧
  (∀ j, Jar_UnmarshalJSON rawJ data = Ok j →
     MCode (jBalance j) = jCurrency j ∧ MCode (Goal j) = jCurrency j ∧
     ∃ r, rawJ data = Ok r ∧ Minor (jBalance j) = Minor (jBalance r) ∧ Minor (Goal j) = Minor (Goal r)) ∧
  (∀ t, Transaction_UnmarshalJSON rawT data = Ok t →
     Forall (λ m, MCode m = tCurrency t)
       [Amount t; OperationAmount t; CommissionRate t; CashbackAmount t; tBalance t] ∧
     ∃ r, rawT data = Ok r ∧ tID t = tID r ∧ tTime t = tTime r ∧
       Minor <$> [Amount t; OperationAmount t; CommissionRate t; CashbackAmount t; tBalance t] =
       Minor <$> [Amount r; OperationAmount r; CommissionRate r; CashbackAmount r; tBalance r]) ∧
  (∀ e, rawT data = Err e → Transaction_UnmarshalJSON rawT data = Err e).
Proof.
  unfold Account_UnmarshalJSON, Jar_UnmarshalJSON, Transaction_UnmarshalJSON.
  split; [|split; [|split]].
  - intros a Ha. destruct (rawA data) as [r|]; simplify_eq/=. split; [done|]. split; [done|]. by exists r.
  - intros j Hj. destruct (rawJ data) as [r|]; simplify_eq/=. split; [done|]. split; [done|]. by exists r.
  - intros t Ht. destruct (rawT data) as [r|]; simplify_eq/=. split; [by repeat constructor|]. by exists r.
  - by intros e ->.
Qed.

Definition example_tx : Transaction :=
  mkTx "a" 0 "rent" 5411 5411 false (mkMoney 100 0) (mkMoney 100 0) 980 (mkMoney 1 0) (mkMoney 2 0)
    (mkMoney 3 0) "" "" "" "" "" "".

Lemma UnmarshalJSON_currency_witness :
  ∃ t, Transaction_UnmarshalJSON (λ _, Ok example_tx) "{}" = Ok t ∧
       Forall (λ m, MCode m = 980) [Amount t; OperationAmount t; CommissionRate t; CashbackAmount t; tBalance t].
Proof.
  destruct (UnmarshalJSON_currency (λ _, Err (EText "x")) (λ _, Err (EText "x")) (λ _, Ok example_tx) "{}")
    as (_ & _ & Ht & _).
  eexists. split; [reflexivity|]. exact (proj1 (Ht _ eq_refl)).
Defined.

(** [ByID] finds the first account with the identifier and fails only when
    there is none, [ByCurrency] keeps exactly the accounts of the currency in
    their order, and the shorthands of the client info agree with them. *)
Theorem Accounts_lookup l id code ci :
  match Accounts_ByID l id with
  | Some k => ∃ a, l !! k = Some a ∧ AccountID a = id ∧
                   ∀ j b, (j < k)%nat → l !! j = Some b → AccountID b ≠ id
  | None => Forall (λ a, AccountID a ≠ id) l
  end ∧
  (∀ a, a ∈ Accounts_ByCurrency l code ↔ a ∈ l ∧ aCurrency a = code) ∧
  sublist (Accounts_ByCurrency l code) l ∧
  ClientInfo_Account ci id = Accounts_ByID (Accounts ci) id.
Proof.
  split; [|split; [|split]].
  - unfold Accounts_ByID. pose proof (index_where_spec (λ a, String.eqb (AccountID a) id) l 0) as Hs.
    destruct (index_where _ l 0) as [k|].
    + destruct Hs as (j & x & -> & Hx & Hp & Hmin). exists x. split; [done|].
      split; [by apply String.eqb_eq|]. intros j' b Hj Hb. by apply String.eqb_neq, (Hmin j').
    + eapply Forall_impl; [exact Hs|]. intros a. apply String.eqb_neq.
  - intros a. unfold Accounts_ByCurrency. rewrite list_elem_of_filter, Z.eqb_eq. tauto.
  - unfold Accounts_ByCurrency. induction l as [|a l IH]; [constructor|].
    destruct (aCurrency a =? code) eqn:Ha.
    + rewrite filter_cons_True by done. by constructor.
    + rewrite filter_cons_False by congruence. by constructor.
  - done.
Qed.
