(* ===== verification/Retry.v ===== *)
(** * Retrying transient failures (retry.go)

    [backoff], [parseRetryAfter], [isTransientStatus] (client.go) and the loop
    [retryPolicy.run].  The loop runs in any [World]: its number of attempts,
    its outcome and its sleeps are stated there, whatever the attempts answer
    and the random source draws. *)
From S2P Require Import Prelude GoString Errors GoHttp.

Definition noRetryAfter : Z := -1.

Record retryPolicy := mkRetry { maxAttempts : Z; baseDelay : Z; maxDelay : Z }.

Definition defaultRetry : retryPolicy := mkRetry 4 (500 * Millisecond) (30 * Second).

Definition minBackoffFloor : Z := 50 * Millisecond.
Definition maxRetryAfter : Z := 24 * Hour.

(** [isTransientStatus] (client.go). *)
Definition isTransientStatus (code : Z) : bool :=
  (code =? 429) || ((500 <=? code) && (code <=? 599)).

(** The deterministic part of [backoff]: the exponential delay before jitter. *)
Definition backoff_delay (base ceiling attempt : Z) : Z :=
  let maxShift := 62 in
  let d := if (maxShift <=? attempt) || (Z.shiftr max_int64 attempt <? base) then
             if ceiling <=? 0 then base else ceiling
           else wrap64 (Z.shiftl base attempt) in
  if (0 <? ceiling) && (ceiling <? d) then ceiling else d.

Definition backoff {W} `{World W} (base ceiling attempt : Z) (w : W) : Z * W :=
  if base <=? 0 then (0, w)
  else
    let d := backoff_delay base ceiling attempt in
    if d <=? 0 then (0, w)
    else
      let half := Z.quot d 2 in
      let half := if half <=? 0 then 1 else half in
      let '(r, w) := rand_Int64N half w in
      let jitter := wrap64 (half + r) in
      let jitter := if jitter <? minBackoffFloor then minBackoffFloor else jitter in
      let jitter := if (0 <? ceiling) && (ceiling <? jitter) then ceiling else jitter in
      (jitter, w).

Definition parseRetryAfter {W} `{World W} `{NetLib} (h : Header) (w : W) : Z * W :=
  let v := TrimSpace (Header_Get h "Retry-After") in
  let v := if String.eqb v "" then TrimSpace (Header_Get h "X-Rate-Limit-Retry-After-Seconds") else v in
  if String.eqb v "" then (noRetryAfter, w)
  else
    let by_date (_ : unit) :=
      match http_ParseTime v with
      | Some t => let '(n, w) := now w in
                  let d := time_Sub t n in
                  (if 0 <? d then if maxRetryAfter <? d then maxRetryAfter else d else 0, w)
      | None => (noRetryAfter, w)
      end in
    match Atoi v with
    | Some secs =>
        if 0 <=? secs then
          (if Z.quot maxRetryAfter Second <? secs then maxRetryAfter else wrap64 (secs * Second), w)
        else by_date tt
    | None => by_date tt
    end.

(** The switch on the [Retry-After] hint, and the clamp at [maxDelay]. *)
Definition retry_delay {W} `{World W} (rp : retryPolicy) (ra i : Z) (w : W) : Z * W :=
  let '(delay, w) :=
    if 0 <? ra then (ra, w)
    else if ra =? 0 then (0, w)
    else backoff (baseDelay rp) (maxDelay rp) i w in
  (if (maxDelay rp <? delay) && (0 <? maxDelay rp) then maxDelay rp else delay, w).

(** The loop of [run] from iteration [i], with [n] iterations left. *)
Fixpoint run_loop {W} `{World W} (rp : retryPolicy) (attempts : Z)
    (fn : W → option error * W) (n : nat) (i : Z) (lastErr : option error) (w : W)
    : option error * W :=
  match n with
  | O => (lastErr, w)
  | S n =>
      let '(lastErr, w) := fn w in
      match lastErr with
      | None => (None, w)
      | Some err =>
          if i =? attempts - 1 then (lastErr, w)
          else match errors_As_transient err with
               | None => (lastErr, w)
               | Some ra =>
                   let '(delay, w) := retry_delay rp ra i w in
                   let '(done, w) := wait delay w in
                   match done with
                   | Some ce => (Some ce, w)
                   | None => run_loop rp attempts fn n (i + 1) lastErr w
                   end
               end
      end
  end.

Definition attempts_of (rp : retryPolicy) : Z := if maxAttempts rp <? 1 then 1 else maxAttempts rp.

Definition run {W} `{World W} (rp : retryPolicy) (fn : W → option error * W) (w : W)
    : option error * W :=
  run_loop rp (attempts_of rp) fn (Z.to_nat (attempts_of rp)) 0 None w.

(** ** A scripted world

    Attempts answer from [outcomes] in order (success once it is exhausted);
    sleeps are logged and the context is cancelled at the [cancel_at]-th. *)
Record Script := mkScript {
  outcomes : list (option error);
  sleeps : list Z;
  calls : nat;
  cancel_at : option nat;
  clock : Z
}.

#[export] Instance script_world : World Script := {|
  now s := (clock s, s);
  rand_Int64N n s := (n - 1, s);
  ctx_Err s := match cancel_at s with
               | Some k => if bool_decide (k <= length (sleeps s))%nat then Some (ENew Canceled) else None
               | None => None
               end;
  wait d s :=
    let s' := mkScript (outcomes s) (sleeps s ++ [d]) (calls s) (cancel_at s) (clock s + d) in
    match cancel_at s with
    | Some k => if bool_decide (k <= length (sleeps s))%nat then (Some (ENew Canceled), s) else (None, s')
    | None => (None, s')
    end
|}.

#[export] Instance script_world_laws : WorldLaws Script.
Proof. split. simpl. lia. Qed.

Definition script_fn (s : Script) : option error * Script :=
  match outcomes s with
  | [] => (None, mkScript [] (sleeps s) (S (calls s)) (cancel_at s) (clock s))
  | o :: os => (o, mkScript os (sleeps s) (S (calls s)) (cancel_at s) (clock s))
  end.

(** The outcomes that end the loop: success, or an error that is not transient. *)
Definition final (o : option error) : bool :=
  match o with
  | None => true
  | Some e => match errors_As_transient e with None => true | Some _ => false end
  end.

(** ** Lemmas *)

Lemma isTransientStatus_iff code :
  isTransientStatus code = true ↔ code = 429 ∨ 500 <= code <= 599.
Proof. unfold isTransientStatus. lia. Qed.

Lemma shiftr_max_bound base attempt :
  0 <= attempt → base <= Z.shiftr max_int64 attempt → base * 2 ^ attempt <= max_int64.
Proof.
  intros Ha Hb. rewrite Z.shiftr_div_pow2 in Hb by done.
  pose proof (Z.mul_div_le max_int64 (2 ^ attempt) ltac:(apply Z.pow_pos_nonneg; lia)).
  assert (0 < 2 ^ attempt) by (apply Z.pow_pos_nonneg; lia). nia.
Qed.

(** The exponential delay never overflows and never exceeds a positive ceiling. *)
Lemma backoff_delay_value base ceiling attempt :
  0 < base → in64 base → in64 ceiling → 0 <= attempt →
  backoff_delay base ceiling attempt =
    (let big := (62 <=? attempt) || (max_int64 <? base * 2 ^ attempt) in
     if 0 <? ceiling then if big then ceiling else Z.min ceiling (base * 2 ^ attempt)
     else if big then base else base * 2 ^ attempt).
Proof.
  intros Hb H64 Hc Ha. unfold backoff_delay. cbv zeta.
  assert (0 < 2 ^ attempt) by (apply Z.pow_pos_nonneg; lia).
  assert ((Z.shiftr max_int64 attempt <? base) = (max_int64 <? base * 2 ^ attempt)) as ->.
  { destruct (Z.ltb_spec (Z.shiftr max_int64 attempt) base) as [Hl|Hl].
    - symmetry. apply Z.ltb_lt. rewrite Z.shiftr_div_pow2 in Hl by done.
      pose proof (Z.mod_pos_bound max_int64 (2 ^ attempt)).
      pose proof (Z.div_mod max_int64 (2 ^ attempt)). nia.
    - symmetry. apply Z.ltb_ge. by apply shiftr_max_bound. }
  destruct (Z.leb_spec 62 attempt); cbn [orb].
  { destruct (Z.leb_spec ceiling 0), (Z.ltb_spec 0 ceiling); try lia; cbn [andb];
      try case_match; lia. }
  destruct (Z.ltb_spec max_int64 (base * 2 ^ attempt)).
  { destruct (Z.leb_spec ceiling 0), (Z.ltb_spec 0 ceiling); try lia; cbn [andb];
      try case_match; lia. }
  rewrite Z.shiftl_mul_pow2, wrap64_id by lia64.
  destruct (Z.ltb_spec 0 ceiling); cbn [andb]; [|done].
  destruct (Z.ltb_spec ceiling (base * 2 ^ attempt)); lia.
Qed.

(** The jittered delay of an enabled policy. *)
Lemma backoff_range {W} `{WorldLaws W} base ceiling attempt (w : W) :
  0 < base → in64 base → in64 ceiling → 0 <= attempt →
  let d := backoff_delay base ceiling attempt in
  let r := (backoff base ceiling attempt w).1 in
  0 < d <= max_int64 ∧
  (0 < ceiling → Z.min ceiling (Z.max minBackoffFloor (d / 2)) <= r
                 <= Z.min ceiling (Z.max minBackoffFloor d)) ∧
  (ceiling <= 0 → Z.max minBackoffFloor (d / 2) <= r <= Z.max minBackoffFloor d).
Proof.
  intros Hb H64 Hc Ha. cbv zeta.
  assert (0 < backoff_delay base ceiling attempt <= max_int64 ∧
          (0 < ceiling → backoff_delay base ceiling attempt <= ceiling)) as [Hd Hdc].
  { rewrite backoff_delay_value by done. cbv zeta.
    assert (0 < 2 ^ attempt) by (apply Z.pow_pos_nonneg; lia).
    destruct (Z.leb_spec 62 attempt); cbn [orb].
    - case_match; lia64.
    - destruct (Z.ltb_spec max_int64 (base * 2 ^ attempt)); destruct (Z.ltb_spec 0 ceiling); lia64. }
  unfold backoff. set (d := backoff_delay base ceiling attempt) in *. cbv zeta.
  rewrite (proj2 (Z.leb_gt base 0)), (proj2 (Z.leb_gt d 0)) by lia.
  rewrite Z.quot_div_nonneg by lia.
  set (half := if d / 2 <=? 0 then 1 else d / 2).
  assert (half = Z.max 1 (d / 2)) as Hh by (unfold half; destruct (Z.leb_spec (d / 2) 0); lia).
  pose proof (rand_range half w ltac:(lia)) as Hr. clearbody half d.
  pose proof (Z.div_mod d 2 ltac:(lia)). pose proof (Z.mod_pos_bound d 2 ltac:(lia)).
  destruct (rand_Int64N half w) as [r w'] eqn:Er. simpl in Hr |- *.
  assert (in64 (half + r)) as Hhr by (unfold in64, min_int64; lia).
  rewrite (wrap64_id _ Hhr). clear Hhr Hb H64 Hc Ha.
  destruct (Z.ltb_spec (half + r) minBackoffFloor), (Z.ltb_spec 0 ceiling); cbn [andb];
    try match goal with |- context [ceiling <? ?x] => destruct (Z.ltb_spec ceiling x) end; lia.
Qed.

Definition wf_policy (rp : retryPolicy) : Prop := in64 (baseDelay rp) ∧ in64 (maxDelay rp).

Lemma backoff_disabled {W} `{World W} base ceiling attempt (w : W) :
  base <= 0 → backoff base ceiling attempt w = (0, w).
Proof. intros Hb. unfold backoff. by rewrite (proj2 (Z.leb_le _ _)). Qed.

Lemma retry_delay_range {W} `{WorldLaws W} rp ra i (w : W) :
  wf_policy rp → 0 <= i →
  0 <= (retry_delay rp ra i w).1 ∧ (0 < maxDelay rp → (retry_delay rp ra i w).1 <= maxDelay rp) ∧
  (0 <= ra → (retry_delay rp ra i w).1 = if 0 <? maxDelay rp then Z.min ra (maxDelay rp) else ra).
Proof.
  intros [Hb Hm] Hi. unfold retry_delay.
  destruct (Z.ltb_spec 0 ra); [|destruct (Z.eqb_spec ra 0)].
  - simpl. destruct (Z.ltb_spec (maxDelay rp) ra), (Z.ltb_spec 0 (maxDelay rp)); simpl; lia.
  - simpl. destruct (Z.ltb_spec (maxDelay rp) 0), (Z.ltb_spec 0 (maxDelay rp)); simpl; lia.
  - destruct (decide (0 < baseDelay rp)).
    + pose proof (backoff_range (baseDelay rp) (maxDelay rp) i w ltac:(done) Hb Hm Hi) as Hr.
      cbv zeta in Hr. destruct Hr as (Hd & Hr1 & Hr2). destruct (backoff _ _ i w) as [d w']. simpl in *.
      assert (0 <= minBackoffFloor) by (unfold minBackoffFloor, Millisecond; lia).
      assert (0 <= d) by (pose proof (Z.div_pos (backoff_delay (baseDelay rp) (maxDelay rp) i) 2); lia).
      destruct (Z.ltb_spec (maxDelay rp) d), (Z.ltb_spec 0 (maxDelay rp)); simpl; lia.
    + rewrite backoff_disabled by lia. simpl.
      destruct (Z.ltb_spec (maxDelay rp) 0), (Z.ltb_spec 0 (maxDelay rp)); simpl; lia.
Qed.

Lemma attempts_of_max rp : attempts_of rp = Z.max 1 (maxAttempts rp).
Proof. unfold attempts_of. destruct (Z.ltb_spec (maxAttempts rp) 1); lia. Qed.

Lemma attempts_of_pos rp : 1 <= attempts_of rp.
Proof. rewrite attempts_of_max. lia. Qed.

#[export] Hint Resolve attempts_of_pos : mono.

(** What holds of the loop in any world: it preserves every property its
    steps preserve, and adds up what its calls of [fn] count. *)
Section AnyWorld.
Context {W : Type} `{World W}.

Lemma retry_delay_preserves (P : W → Prop) rp ra i w :
  (∀ n w, P w → P (rand_Int64N n w).2) → P w → P (retry_delay rp ra i w).2.
Proof.
  intros Hr Hw.
  assert (∀ b c a w, P w → P (backoff b c a w).2) as Hq.
  { intros b c a w' Hw'. unfold backoff. case_match; [done|]. cbv zeta. case_match; [done|].
    match goal with |- context [rand_Int64N ?n w'] => pose proof (Hr n w' Hw');
      destruct (rand_Int64N n w') as [r w''] end. done. }
  unfold retry_delay. destruct (0 <? ra); [done|]. destruct (ra =? 0); [done|].
  specialize (Hq (baseDelay rp) (maxDelay rp) i w Hw). by destruct (backoff _ _ i w).
Qed.

Lemma run_loop_preserves (P : W → Prop) (fn : W → option error * W) rp attempts n i e w :
  (∀ w, P w → P (fn w).2) → (∀ d w, P w → P (wait d w).2) → (∀ n w, P w → P (rand_Int64N n w).2) →
  P w → P (run_loop rp attempts fn n i e w).2.
Proof.
  intros Hf Hs Hr. revert i e w. induction n as [|n IH]; intros i e w Hw; [done|]. cbn [run_loop].
  pose proof (Hf w Hw) as H1. destruct (fn w) as [[err|] w1]; [|done].
  destruct (i =? attempts - 1); [done|].
  destruct (errors_As_transient err) as [ra|]; [|done].
  pose proof (retry_delay_preserves P rp ra i w1 Hr H1) as H2.
  destruct (retry_delay rp ra i w1) as [d w2].
  pose proof (Hs d w2 H2) as H3. destruct (wait d w2) as [[ce|] w3]; [done|]. by apply IH.
Qed.

Lemma run_preserves (P : W → Prop) (fn : W → option error * W) rp w :
  (∀ w, P w → P (fn w).2) → (∀ d w, P w → P (wait d w).2) → (∀ n w, P w → P (rand_Int64N n w).2) →
  P w → P (run rp fn w).2.
Proof. apply run_loop_preserves. Qed.

(** Each call of [fn] counts between [lo] and 1, nothing else counts. *)
Lemma run_loop_count (count : W → Z) (fn : W → option error * W) lo rp attempts n i e w :
  0 <= lo <= 1 →
  (∀ w, count w + lo <= count (fn w).2 <= count w + 1) →
  (∀ d w, count (wait d w).2 = count w) →
  (∀ n w, count (rand_Int64N n w).2 = count w) →
  (0 < n)%nat →
  count w + lo <= count (run_loop rp attempts fn n i e w).2 <= count w + Z.of_nat n.
Proof.
  intros Hlo Hf Hs Hr. revert i e w. induction n as [|n IH]; intros i e w Hn; [lia|]. cbn [run_loop].
  specialize (Hf w). destruct (fn w) as [[err|] w1] eqn:Ew; simpl in Hf; [|simpl; lia].
  destruct (i =? attempts - 1); [simpl; lia|].
  destruct (errors_As_transient err) as [ra|]; [|simpl; lia].
  pose proof (retry_delay_preserves (λ w, count w = count w1) rp ra i w1) as Hd.
  destruct (retry_delay rp ra i w1) as [d w2]. simpl in Hd.
  rewrite <- Hd in Hf by (try done; intros; by rewrite Hr).
  pose proof (Hs d w2) as Hw. destruct (wait d w2) as [[ce|] w3]; simpl in *; [lia|].
  destruct n as [|n]; [simpl; lia|]. specialize (IH (i + 1) (Some err) w3 ltac:(lia)). lia.
Qed.

(** The first call of [fn] always happens, and what it counted stays. *)
Lemma run_loop_first (count : W → Z) (fn : W → option error * W) rp attempts n i e w :
  (∀ w, count w <= count (fn w).2) →
  (∀ d w, count (wait d w).2 = count w) →
  (∀ n w, count (rand_Int64N n w).2 = count w) →
  count (fn w).2 <= count (run_loop rp attempts fn (S n) i e w).2.
Proof.
  intros Hf Hs Hr. cbn [run_loop].
  destruct (fn w) as [[err|] w1]; simpl; [|lia].
  destruct (i =? attempts - 1); [simpl; lia|].
  destruct (errors_As_transient err) as [ra|]; [|simpl; lia].
  pose proof (retry_delay_preserves (λ w, count w = count w1) rp ra i w1) as Hd.
  destruct (retry_delay rp ra i w1) as [d w2]. simpl in Hd.
  rewrite <- Hd by (try done; intros; by rewrite Hr).
  pose proof (Hs d w2) as Hw. destruct (wait d w2) as [[ce|] w3]; simpl in *; [lia|].
  rewrite <- Hw. apply (run_loop_preserves (λ w, count w3 <= count w)); [| | |lia].
  - intros w' Hw'. specialize (Hf w'). lia.
  - intros d' w'. rewrite Hs. lia.
  - intros m w'. rewrite Hr. lia.
Qed.

Lemma run_first (count : W → Z) (fn : W → option error * W) rp w :
  (∀ w, count w <= count (fn w).2) →
  (∀ d w, count (wait d w).2 = count w) →
  (∀ n w, count (rand_Int64N n w).2 = count w) →
  count (fn w).2 <= count (run rp fn w).2.
Proof.
  intros. pose proof (attempts_of_pos rp). unfold run.
  destruct (Z.to_nat (attempts_of rp)) eqn:En; [lia|]. by apply run_loop_first.
Qed.

Lemma run_count (count : W → Z) (fn : W → option error * W) lo rp w :
  0 <= lo <= 1 →
  (∀ w, count w + lo <= count (fn w).2 <= count w + 1) →
  (∀ d w, count (wait d w).2 = count w) →
  (∀ n w, count (rand_Int64N n w).2 = count w) →
  count w + lo <= count (run rp fn w).2 <= count w + attempts_of rp.
Proof.
  intros. pose proof (attempts_of_pos rp).
  pose proof (run_loop_count count fn lo rp (attempts_of rp) (Z.to_nat (attempts_of rp)) 0 None w) as Hl.
  unfold run. rewrite Z2Nat.id in Hl by lia. apply Hl; try done. lia.
Qed.
End AnyWorld.

(** The jittered delay under a ceiling. *)
Lemma backoff_capped {W} `{WorldLaws W} base ceiling attempt (w : W) :
  0 < base → in64 base → 0 < ceiling <= 2 ^ 62 → 0 <= attempt →
  let d := Z.min ceiling (base * 2 ^ attempt) in
  Z.min ceiling (Z.max minBackoffFloor (d / 2)) <= (backoff base ceiling attempt w).1
    <= Z.min ceiling (Z.max minBackoffFloor d).
Proof.
  intros Hb H64 Hc Ha d.
  pose proof (backoff_range base ceiling attempt w Hb H64 ltac:(lia64) Ha) as (_ & Hr & _).
  cbv zeta in Hr. rewrite backoff_delay_value in Hr by (done || lia64). cbv zeta in Hr.
  rewrite (proj2 (Z.ltb_lt 0 ceiling)) in Hr by lia.
  assert ((if (62 <=? attempt) || (max_int64 <? base * 2 ^ attempt) then ceiling
           else Z.min ceiling (base * 2 ^ attempt)) = d) as Hd.
  { unfold d. destruct (Z.leb_spec 62 attempt) as [Hbig|]; cbn [orb].
    - pose proof (Z.pow_le_mono_r 2 62 attempt ltac:(lia) Hbig). nia.
    - destruct (Z.ltb_spec max_int64 (base * 2 ^ attempt)); [|done]. unfold max_int64 in *. lia. }
  rewrite Hd in Hr. apply Hr. lia.
Qed.

(** What [retry_delay] answers for an error that carries no hint. *)
Lemma retry_delay_jitter {W} `{WorldLaws W} rp ra i (w : W) :
  wf_policy rp → 0 <= i → ra < 0 →
  (baseDelay rp <= 0 → (retry_delay rp ra i w).1 = 0) ∧
  (0 < baseDelay rp → 0 < maxDelay rp <= 2 ^ 62 →
     let d := Z.min (maxDelay rp) (baseDelay rp * 2 ^ i) in
     Z.min (maxDelay rp) (Z.max minBackoffFloor (d / 2)) <= (retry_delay rp ra i w).1
       <= Z.min (maxDelay rp) (Z.max minBackoffFloor d)).
Proof.
  intros [Hb Hm] Hi Hra. unfold retry_delay.
  rewrite (proj2 (Z.ltb_ge 0 ra)), (proj2 (Z.eqb_neq ra 0)) by lia. split.
  - intros Hb0. rewrite backoff_disabled by done. destruct (Z.ltb_spec (maxDelay rp) 0), (Z.ltb_spec 0 (maxDelay rp)); simpl; lia.
  - intros Hb0 Hc. cbv zeta. pose proof (backoff_capped (baseDelay rp) (maxDelay rp) i w Hb0 Hb Hc Hi) as Hr.
    cbv zeta in Hr. destruct (backoff _ _ i w) as [d w']. simpl in *.
    rewrite (proj2 (Z.ltb_ge (maxDelay rp) d)) by lia. simpl. lia.
Qed.

(** The wait that follows the [i]-th attempt when it failed with [o]: the
    error is transient; a hint of the server is obeyed up to [maxDelay];
    without one the wait is the equal jitter over [baseDelay * 2^i]. *)
Definition pause_after (rp : retryPolicy) (i : Z) (o : option error) (d : Z) : Prop :=
  ∃ e ra, o = Some e ∧ errors_As_transient e = Some ra ∧
    0 <= d ∧ (0 < maxDelay rp → d <= maxDelay rp) ∧
    (0 <= ra → d = if 0 <? maxDelay rp then Z.min ra (maxDelay rp) else ra) ∧
    (ra < 0 → baseDelay rp <= 0 → d = 0) ∧
    (ra < 0 → 0 < baseDelay rp → 0 < maxDelay rp <= 2 ^ 62 →
       let b := Z.min (maxDelay rp) (baseDelay rp * 2 ^ i) in
       Z.min (maxDelay rp) (Z.max minBackoffFloor (b / 2)) <= d
         <= Z.min (maxDelay rp) (Z.max minBackoffFloor b)).

(** A world whose trace can be read: the outcomes of the attempts and the
    sleeps, in order; no sleep is cut short. *)
Record Traced {W} `{World W} (outs : W → list (option error)) (slept : W → list Z)
    (fn : W → option error * W) : Prop := {
  tr_fn w : outs (fn w).2 = outs w ++ [(fn w).1] ∧ slept (fn w).2 = slept w;
  tr_wait d w : (wait d w).1 = None ∧ outs (wait d w).2 = outs w ∧ slept (wait d w).2 = slept w ++ [d];
  tr_rand n w : outs (rand_Int64N n w).2 = outs w ∧ slept (rand_Int64N n w).2 = slept w
}.

Lemma run_loop_trace {W} `{WorldLaws W} outs slept fn rp n i e (w : W) :
  Traced outs slept fn → wf_policy rp → 0 <= i → (0 < n)%nat →
  let '(r, w') := run_loop rp (i + Z.of_nat n) fn n i e w in
  ∃ os o ds, outs w' = outs w ++ os ++ [o] ∧ slept w' = slept w ++ ds ∧ r = o ∧
    length ds = length os ∧ (length os < n)%nat ∧ (final o = true ∨ S (length os) = n) ∧
    ∀ k p d, os !! k = Some p → ds !! k = Some d → pause_after rp (i + Z.of_nat k) p d.
Proof.
  intros Ht Hwf. revert i e w. induction n as [|n IH]; intros i e w Hi Hn; [lia|]. cbn [run_loop].
  destruct (tr_fn _ _ _ Ht w) as [Ho Hs]. destruct (fn w) as [o w1]. simpl in Ho, Hs.
  assert (final o = true ∨ n = O →
    ∃ os p ds, outs w1 = outs w ++ os ++ [p] ∧ slept w1 = slept w ++ ds ∧ o = p ∧
      length ds = length os ∧ (length os < S n)%nat ∧ (final p = true ∨ S (length os) = S n) ∧
      ∀ k q d, os !! k = Some q → ds !! k = Some d → pause_after rp (i + Z.of_nat k) q d) as Hstop.
  { intros Hf. exists [], o, []. rewrite app_nil_r. simpl. repeat split; try done; try lia.
    destruct Hf as [Hf| ->]; [by left|by right]. }
  destruct o as [err|]; [|apply Hstop; by left].
  destruct (Z.eqb_spec i (i + Z.of_nat (S n) - 1)) as [Hlast|Hnl]; [apply Hstop; right; lia|].
  destruct (errors_As_transient err) as [ra|] eqn:Hra; [|apply Hstop; left; simpl; by rewrite Hra].
  pose proof (retry_delay_range rp ra i w1 Hwf Hi) as (Hd1 & Hd2 & Hd3).
  pose proof (retry_delay_jitter rp ra i w1 Hwf Hi) as Hd4.
  pose proof (retry_delay_preserves (λ w, outs w = outs w1 ∧ slept w = slept w1) rp ra i w1) as Hd.
  destruct (retry_delay rp ra i w1) as [d w2]. simpl in Hd1, Hd2, Hd3, Hd4, Hd.
  destruct Hd as [Hd Hd']; [|done|].
  { intros m w' [<- <-]. apply (tr_rand _ _ _ Ht). }
  pose proof (tr_wait _ _ _ Ht d w2) as Hw. destruct (wait d w2) as [ce w3]. simpl in Hw.
  destruct Hw as (-> & Hw & Hw').
  specialize (IH (i + 1) (Some err) w3 ltac:(lia) ltac:(lia)).
  replace (i + 1 + Z.of_nat n) with (i + Z.of_nat (S n)) in IH by lia.
  destruct (run_loop rp (i + Z.of_nat (S n)) fn n (i + 1) (Some err) w3) as [r w'].
  destruct IH as (os & o & ds & H1 & H2 & H3 & H4 & H5 & H6 & H7).
  exists (Some err :: os), o, (d :: ds). rewrite H1, H2, Hw, Hw', Hd, Hd', Ho, Hs, <- !app_assoc.
  do 3 (split; [done|]). split; [simpl; lia|]. split; [simpl; lia|]. split; [destruct H6; [by left|right; simpl; lia]|].
  intros [|k] p x Hp Hx; simpl in Hp, Hx.
  - simplify_eq. exists err, ra. rewrite Z.add_0_r. do 5 (split; [done|]). split; intros; by apply Hd4.
  - replace (i + Z.of_nat (S k)) with (i + 1 + Z.of_nat k) by lia. by apply H7.
Qed.

(** ** Properties *)

(** With a ceiling, the delay before retry [n] is equal jitter over the
    exponential [base * 2^n] capped at the ceiling: at least half of it, at
    most all of it, never under the 50 ms floor unless the ceiling is, never
    over the ceiling; no attempt number or base makes it overflow. *)
Theorem backoff_bounds {W} `{WorldLaws W} base ceiling attempt (w : W) :
  0 < base → in64 base → 0 < ceiling <= 2 ^ 62 → 0 <= attempt →
  let d := Z.min ceiling (base * 2 ^ attempt) in
  Z.min ceiling (Z.max minBackoffFloor (d / 2)) <= (backoff base ceiling attempt w).1
    <= Z.min ceiling (Z.max minBackoffFloor d).
Proof. apply backoff_capped. Qed.

Lemma backoff_bounds_witness :
  let d := Z.min (30 * Second) (500 * Millisecond * 2 ^ 3) in
  Z.min (30 * Second) (Z.max minBackoffFloor (d / 2))
    <= (backoff (500 * Millisecond) (30 * Second) 3 (mkScript [] [] 0 None 0)).1
    <= Z.min (30 * Second) (Z.max minBackoffFloor d).
Proof.
  apply (backoff_bounds (500 * Millisecond) (30 * Second) 3 (mkScript [] [] 0 None 0));
    unfold in64, min_int64, max_int64, Second, Millisecond; lia.
Defined.

(** [run] calls the attempt at least once and at most [maxAttempts] times
    (once when that is below 1), in every world, whatever the attempts, the
    timers and the context answer: the loop always ends. *)
Theorem run_attempts {W} `{World W} (count : W → Z) (fn : W → option error * W) rp w :
  (∀ w, count (fn w).2 = count w + 1) →
  (∀ d w, count (wait d w).2 = count w) →
  (∀ n w, count (rand_Int64N n w).2 = count w) →
  1 <= count (run rp fn w).2 - count w <= Z.max 1 (maxAttempts rp).
Proof.
  intros Hf Hw Hr.
  pose proof (run_count count fn 1 rp w ltac:(lia) ltac:(intros w'; rewrite Hf; lia) Hw Hr) as Hc.
  rewrite attempts_of_max in Hc. lia.
Qed.

Lemma run_attempts_witness :
  let s := mkScript [Some (ETransient 503 0 (EText "x")); Some (ETransient 503 0 (EText "x"))] [] 0 None 0 in
  1 <= Z.of_nat (calls (run (mkRetry 2 1 1) script_fn s).2) - Z.of_nat (calls s) <= Z.max 1 2.
Proof.
  intros s. apply (run_attempts (λ s, Z.of_nat (calls s)) script_fn (mkRetry 2 1 1) s).
  - intros [[|o os] sl c ca cl]; simpl; lia.
  - intros d [os sl c [k|] cl]; simpl; [|done]. by case_bool_decide.
  - done.
Defined.

(** C27: in any world, while no sleep is cut short by the context, [run]
    returns the outcome of its last attempt, which is the first that succeeds
    or fails for good unless [maxAttempts] attempts (at least one) have been
    spent on transient errors; it sleeps once between consecutive attempts;
    every sleep is non-negative and within a positive [maxDelay], obeys the
    delay the server asked for up to [maxDelay], and without one lies between
    half and all of [baseDelay * 2^i] (capped at a [maxDelay] of at most 2^62,
    floored at 50 ms), whatever number in its range the random source draws.
    The two durations of the policy are 64-bit. *)
Theorem run_outcome {W} `{WorldLaws W} outs slept fn rp (w : W) :
  Traced outs slept fn → wf_policy rp →
  let '(r, w') := run rp fn w in
  ∃ os o ds, outs w' = outs w ++ os ++ [o] ∧ slept w' = slept w ++ ds ∧ r = o ∧
    length ds = length os ∧ Z.of_nat (length os) < Z.max 1 (maxAttempts rp) ∧
    (final o = true ∨ Z.of_nat (S (length os)) = Z.max 1 (maxAttempts rp)) ∧
    ∀ i p d, os !! i = Some p → ds !! i = Some d → pause_after rp (Z.of_nat i) p d.
Proof.
  intros Ht Hwf. pose proof (attempts_of_pos rp) as Hpos. unfold run. rewrite <- attempts_of_max.
  pose proof (run_loop_trace outs slept fn rp (Z.to_nat (attempts_of rp)) 0 None w Ht Hwf ltac:(lia) ltac:(lia)) as Hr.
  replace (0 + Z.of_nat (Z.to_nat (attempts_of rp))) with (attempts_of rp) in Hr by lia.
  destruct (run_loop _ _ fn _ 0 None w) as [r w'].
  destruct Hr as (os & o & ds & H1 & H2 & H3 & H4 & H5 & H6 & H7). exists os, o, ds.
  do 4 (split; [done|]). split; [lia|]. split; [destruct H6; [by left|right; lia]|done].
Qed.

(** A world that keeps the trace, with a list of draws for the jitter. *)
Record Trace := mkTrace { t_left : list (option error); t_outs : list (option error); t_slept : list Z; t_draws : list Z }.

#[export] Instance trace_world : World Trace := {|
  now s := (0, s);
  rand_Int64N n s := (match t_draws s with [] => 0 | x :: _ => x mod n end,
                      mkTrace (t_left s) (t_outs s) (t_slept s) (tail (t_draws s)));
  ctx_Err s := None;
  wait d s := (None, mkTrace (t_left s) (t_outs s) (t_slept s ++ [d]) (t_draws s))
|}.

#[export] Instance trace_world_laws : WorldLaws Trace.
Proof. split. intros n s Hn. simpl. destruct (t_draws s); [lia|by apply Z.mod_pos_bound]. Qed.

Definition trace_fn (s : Trace) : option error * Trace :=
  let o := match t_left s with [] => None | o :: _ => o end in
  (o, mkTrace (tail (t_left s)) (t_outs s ++ [o]) (t_slept s) (t_draws s)).

Lemma run_outcome_witness :
  let s := mkTrace [Some (ETransient 503 (-1) (EText "a")); Some (ETransient 429 (5 * Second) (EText "b")); None]
             [] [] [7] in
  t_slept (run defaultRetry trace_fn s).2 = [250 * Millisecond + 7; 5 * Second] ∧
  let '(r, s') := run defaultRetry trace_fn s in
  ∃ os o ds, t_outs s' = t_outs s ++ os ++ [o] ∧ t_slept s' = t_slept s ++ ds ∧ r = o ∧
    length ds = length os ∧ Z.of_nat (length os) < Z.max 1 (maxAttempts defaultRetry) ∧
    (final o = true ∨ Z.of_nat (S (length os)) = Z.max 1 (maxAttempts defaultRetry)) ∧
    ∀ i p d, os !! i = Some p → ds !! i = Some d → pause_after defaultRetry (Z.of_nat i) p d.
Proof.
  intros s. split; [by vm_compute|]. refine (run_outcome t_outs t_slept trace_fn defaultRetry s _ _).
  - split; by intros.
  - split; by vm_compute.
Defined.

(** A context that is done ends the loop: when it is done at the first
    sleep, [run] returns the context's error after one attempt unless that
    attempt was final or the only one, and never calls the attempt again. *)
Theorem run_cancelled rp (s : Script) o os :
  cancel_at s = Some (length (sleeps s)) → outcomes s = o :: os →
  (run rp script_fn s).1 =
    (if final o || bool_decide (attempts_of rp = 1) then o else Some (ENew Canceled)) ∧
  calls (run rp script_fn s).2 = S (calls s) ∧ sleeps (run rp script_fn s).2 = sleeps s.
Proof.
  intros Hc Ho. pose proof (attempts_of_pos rp). unfold run.
  destruct (Z.to_nat (attempts_of rp)) as [|n] eqn:Hn; [lia|]. cbn [run_loop].
  assert (script_fn s = (o, mkScript os (sleeps s) (S (calls s)) (cancel_at s) (clock s))) as ->.
  { unfold script_fn. by rewrite Ho. }
  unfold final.
  destruct o as [err|]; [|done].
  destruct (Z.eqb_spec 0 (attempts_of rp - 1)) as [Hl|Hl].
  { rewrite (bool_decide_true (attempts_of rp = 1)) by lia. by rewrite orb_true_r. }
  rewrite (bool_decide_false (attempts_of rp = 1)) by lia. rewrite orb_false_r.
  destruct (errors_As_transient err) as [ra|]; [|done].
  set (s1 := mkScript _ _ _ _ _).
  assert (∃ d, retry_delay rp ra 0 s1 = (d, s1)) as [d ->].
  { unfold retry_delay, backoff. repeat (case_match; simplify_eq/=); eauto. }
  cbn [wait script_world]. unfold s1. cbn [cancel_at sleeps]. rewrite Hc.
  by rewrite bool_decide_true by done.
Qed.

Lemma run_cancelled_witness :
  let s := mkScript [Some (ETransient 503 (-1) (EText "a")); None] [] 0 (Some 0%nat) 0 in
  (run defaultRetry script_fn s).1 = Some (ENew Canceled) ∧
  calls (run defaultRetry script_fn s).2 = 1%nat ∧ sleeps (run defaultRetry script_fn s).2 = [].
Proof.
  intros s. exact (run_cancelled defaultRetry s (Some (ETransient 503 (-1) (EText "a"))) [None] eq_refl eq_refl).
Defined.

(** [parseRetryAfter] yields either the "no hint" marker -1 or a wait
    between 0 and 24 hours, for every header; a header carrying [n] seconds
    that fit an [int64] yields [n] seconds capped at 24 hours, computed without
    overflow, whichever of the two headers carries it. *)
Theorem parseRetryAfter_bounds {W} `{World W} `{NetLib} h (w : W) :
  ((parseRetryAfter h w).1 = noRetryAfter ∨ 0 <= (parseRetryAfter h w).1 <= maxRetryAfter) ∧
  (∀ n, 0 <= n <= max_int64 →
     (Header_Get h "Retry-After" = Itoa n ∨
      Header_Get h "Retry-After" = "" ∧ Header_Get h "X-Rate-Limit-Retry-After-Seconds" = Itoa n) →
     (parseRetryAfter h w).1 = Z.min (n * Second) maxRetryAfter).
Proof.
  split.
  - unfold parseRetryAfter. cbv zeta. destruct (String.eqb (if _ : bool then _ else _) ""); [left; done|].
    assert (∀ v, let x := match http_ParseTime v with
      | Some t => let '(n, w) := now w in let d := time_Sub t n in
                  (if 0 <? d then if maxRetryAfter <? d then maxRetryAfter else d else 0, w)
      | None => (noRetryAfter, w) end in x.1 = noRetryAfter ∨ 0 <= x.1 <= maxRetryAfter) as Hdate.
    { intros v. cbv zeta. destruct (http_ParseTime v) as [t|]; [|left; done].
      destruct (now w) as [n w']. simpl. right.
      destruct (Z.ltb_spec 0 (time_Sub t n)); [|unfold maxRetryAfter; lia64].
      destruct (Z.ltb_spec maxRetryAfter (time_Sub t n)); unfold maxRetryAfter in *; lia64. }
    destruct (Atoi _) as [z|]; [|apply Hdate]. destruct (Z.leb_spec 0 z); [|apply Hdate]. right. simpl.
    change (Z.quot maxRetryAfter Second) with 86400.
    destruct (Z.ltb_spec 86400 z); [unfold maxRetryAfter; lia64|].
    rewrite wrap64_id by lia64. unfold maxRetryAfter. lia64.
  - intros n Hn Hh.
    assert (in64 n) as H64 by lia64.
    pose proof (TrimSpace_digits _ (all_digits_Itoa n ltac:(lia))) as Ht.
    assert (Itoa n ≠ "") as Hne by (rewrite Itoa_nonneg by lia; apply pretty_N_nonempty).
    unfold parseRetryAfter. cbv zeta.
    assert ((if String.eqb (TrimSpace (Header_Get h "Retry-After")) ""
             then TrimSpace (Header_Get h "X-Rate-Limit-Retry-After-Seconds")
             else TrimSpace (Header_Get h "Retry-After")) = Itoa n) as ->.
    { destruct Hh as [-> | [-> ->]]; rewrite Ht; [|done].
      by destruct (String.eqb_spec (Itoa n) ""). }
    destruct (String.eqb_spec (Itoa n) ""); [done|]. rewrite Atoi_Itoa by done.
    rewrite (proj2 (Z.leb_le 0 n)) by lia. simpl.
    change (Z.quot maxRetryAfter Second) with 86400.
    destruct (Z.ltb_spec 86400 n); [|rewrite wrap64_id by lia64]; unfold maxRetryAfter; lia64.
Qed.

(** A number of seconds too large for an [int64] is not capped at 24 hours
    but dropped: the hint is treated as absent (the parser of HTTP dates, which
    accepts no digit string, is asked next). *)
Theorem parseRetryAfter_drops_huge {W} `{World W} `{NetLib} (w : W) :
  http_ParseTime "99999999999999999999" = None →
  (parseRetryAfter (Header_Set ∅ "Retry-After" "99999999999999999999") w).1 = noRetryAfter.
Proof.
  intros Hp. unfold parseRetryAfter.
  assert (TrimSpace (Header_Get (Header_Set ∅ "Retry-After" "99999999999999999999") "Retry-After")
          = "99999999999999999999") as -> by by vm_compute.
  cbv zeta. simpl String.eqb. cbv iota.
  assert (Atoi "99999999999999999999" = None) as -> by by vm_compute. by rewrite Hp.
Qed.

(** A library for witnesses: no date, no URL, no loopback is recognised. *)
Definition null_netlib : NetLib := {|
  http_ParseTime _ := None; url_Parse _ := None; url_String _ := "";
  url_ResolveReference b _ := b; url_Hostname u := Host u; ip_IsLoopback _ := false;
  json_errorBody _ := None |}.

Lemma parseRetryAfter_bounds_witness :
  (parseRetryAfter (H0 := null_netlib) (Header_Set ∅ "Retry-After" (Itoa 100000))
     (mkScript [] [] 0 None 0)).1 = Z.min (100000 * Second) maxRetryAfter.
Proof.
  apply (proj2 (parseRetryAfter_bounds (H0 := null_netlib) (Header_Set ∅ "Retry-After" (Itoa 100000))
           (mkScript [] [] 0 None 0))); [lia64|left; by vm_compute].
Defined.

Lemma parseRetryAfter_drops_huge_witness :
  (parseRetryAfter (H0 := null_netlib) (Header_Set ∅ "Retry-After" "99999999999999999999")
     (mkScript [] [] 0 None 0)).1 = noRetryAfter.
Proof. exact (parseRetryAfter_drops_huge (H0 := null_netlib) (mkScript [] [] 0 None 0) eq_refl). Defined.
