(* ===== verification/Client.v ===== *)
(** * The HTTP transport (client.go)

    [Client.Do] with everything it does to the request and to the world: the
    configuration checks, URL resolution, default headers, authorization, body
    buffering, the choice to retry, and [attempt] with its hooks, logging,
    status check and decoding.  The transport, the authorizer, the limiter,
    the hooks and the logger are state transformers on the world; the request
    is one object, so what a hook writes into it stays for later attempts. *)
From S2P Require Import Prelude GoString Errors GoHttp Retry.

Section Client.
Context {W : Type} `{World W} `{NetLib}.

Abbreviation RoundTripper := (Request → W → result Response * W) (only parsing).

(** [HTTPDoer]: a standard client, whose sending is governed by its [Transport],
    or any other implementation. *)
Inductive HTTPDoer :=
| StdClient (send : option RoundTripper → RoundTripper) (transport : option RoundTripper)
| OtherDoer (f : RoundTripper).

Definition http_Do (d : HTTPDoer) : RoundTripper :=
  match d with StdClient send t => send t | OtherDoer f => f end.

Abbreviation Authorizer := (Request → W → option error * Request * W) (only parsing).

(** [RateLimiter], with the optional [Stop] that [Close] looks for. *)
Record RateLimiter := mkLimiter { lim_Wait : W → option error * W; lim_Stop : option (W → W) }.

(** A response hook, on its two cases: a response or a transport error. *)
Record RespHook := mkHook { on_response : Response → W → Response * W; on_error : error → W → W }.

Inductive LogEvent :=
| LogSending (method : string) (url : URL)
| LogError (method : string) (url : URL) (err : error)
| LogResponse (method : string) (url : URL) (status : Z).

(** [Client] (client.go). *)
Record Client := mkClient {
  c_http : HTTPDoer;
  c_auth : option Authorizer;
  c_baseURL : option URL;
  c_retry : retryPolicy;
  c_limiter : option RateLimiter;
  c_userAgent : string;
  c_unsafeRetries : bool;
  c_allowInsecureBaseURL : bool;
  c_optErr : option error;
  c_logger : option (LogEvent → W → W);
  c_onReq : option (Request → W → Request * W);
  c_onResp : option RespHook
}.

(** ** Hooks *)

Definition set_onReq (h : option (Request → W → Request * W)) (c : Client) : Client :=
  mkClient (c_http c) (c_auth c) (c_baseURL c) (c_retry c) (c_limiter c) (c_userAgent c)
    (c_unsafeRetries c) (c_allowInsecureBaseURL c) (c_optErr c) (c_logger c) h (c_onResp c).
Definition set_onResp (h : option RespHook) (c : Client) : Client :=
  mkClient (c_http c) (c_auth c) (c_baseURL c) (c_retry c) (c_limiter c) (c_userAgent c)
    (c_unsafeRetries c) (c_allowInsecureBaseURL c) (c_optErr c) (c_logger c) (c_onReq c) h.

Definition ChainRequestHook (fn : option (Request → W → Request * W)) (c : Client) : Client :=
  match fn with
  | None => c
  | Some fn =>
      match c_onReq c with
      | None => set_onReq (Some fn) c
      | Some prev => set_onReq (Some (λ r w, let '(r, w) := prev r w in fn r w)) c
      end
  end.

Definition ChainResponseHook (fn : option RespHook) (c : Client) : Client :=
  match fn with
  | None => c
  | Some fn =>
      match c_onResp c with
      | None => set_onResp (Some fn) c
      | Some prev =>
          set_onResp (Some (mkHook
            (λ r w, let '(r, w) := on_response prev r w in on_response fn r w)
            (λ e w, on_error fn e (on_error prev e w)))) c
      end
  end.

Definition Close (c : Client) (w : W) : W :=
  match c_limiter c with
  | Some l => match lim_Stop l with Some stop => stop w | None => w end
  | None => w
  end.

(** ** Decoding targets *)

(** The dynamic type of [v] in [Do]. *)
Inductive target (A : Type) :=
| TNil
| TBytes
| TWriter (write : string → W → option error * W)
| TJSON (decode : string → option error → result A).
Arguments TNil {A}.
Arguments TBytes {A}.
Arguments TWriter {A} write.
Arguments TJSON {A} decode.

(** What the call leaves in [v]. *)
Inductive output (A : Type) :=
| ONothing
| OBytes (b : string)
| OJSON (a : A).
Arguments ONothing {A}.
Arguments OBytes {A} b.
Arguments OJSON {A} a.

(** ** One attempt *)

Definition parseErrorBody (b : string) : string * string :=
  if slen b =? 0 then ("", "")
  else match json_errorBody b with Some p => p | None => ("", "") end.

(** [shouldRetry]. *)
Definition shouldRetry (c : Client) (req : Request) : bool :=
  let m := rMethod req in
  if String.eqb m "GET" || String.eqb m "HEAD" || String.eqb m "PUT" ||
     String.eqb m "DELETE" || String.eqb m "OPTIONS" then true
  else if String.eqb m "POST" || String.eqb m "PATCH" then
    c_unsafeRetries c || negb (String.eqb (Header_Get (rHeader req) "Idempotency-Key") "")
  else false.

Definition log (c : Client) (ev : LogEvent) (w : W) : W :=
  match c_logger c with Some l => l ev w | None => w end.

(** The error for a status the caller did not expect. *)
Definition status_error (req : Request) (resp : Response) (expected : list Z) (w : W) : error * W :=
  let b := sBody resp in
  let '(desc, code) := parseErrorBody b in
  let apiErr := EAPI (mkAPIError (rMethod req) (url_String (rURL req)) (sStatusCode resp)
                        expected desc code b) in
  if isTransientStatus (sStatusCode resp) then
    let '(ra, w) := parseRetryAfter (sHeader resp) w in
    (ETransient (sStatusCode resp) ra apiErr, w)
  else (apiErr, w).

(** The decoding of an expected response, by the type of [v]. *)
Definition decode_response {A} (v : target A) (resp : Response) (w : W) : result (output A) * W :=
  if (sStatusCode resp =? 204) || (sContentLength resp =? 0) then (Ok ONothing, w)
  else match v with
       | TNil => (Ok ONothing, w)
       | TBytes => match sBodyErr resp with
                   | Some e => (Err (EWrap "read response body: %w" e), w)
                   | None => (Ok (OBytes (sBody resp)), w)
                   end
       | TWriter write =>
           let '(werr, w) := write (sBody resp) w in
           match werr with
           | Some e => (Err (EWrap "copy response body: %w" e), w)
           | None => match sBodyErr resp with
                     | Some e => (Err (EWrap "copy response body: %w" e), w)
                     | None => (Ok ONothing, w)
                     end
           end
       | TJSON decode =>
           match decode (sBody resp) (sBodyErr resp) with
           | Err e => (Err (EWrap "decode response: %w" e), w)
           | Ok a => (Ok (OJSON a), w)
           end
       end.

(** [attempt] once the body of the request is in place. *)
Definition attempt_send {A} (c : Client) (v : target A) (expected : list Z) (req : Request) (w : W)
    : result (output A) * Request * W :=
  let '(req, w) := match c_onReq c with Some f => f req w | None => (req, w) end in
  let w := log c (LogSending (rMethod req) (rURL req)) w in
  let '(resp, w) := http_Do (c_http c) req w in
  match resp with
  | Err e =>
      let w := match c_onResp c with Some h => on_error h e w | None => w end in
      let w := log c (LogError (rMethod req) (rURL req) e) w in
      (Err e, req, w)
  | Ok resp =>
      let '(resp, w) := match c_onResp c with Some h => on_response h resp w | None => (resp, w) end in
      let w := log c (LogResponse (rMethod req) (rURL req) (sStatusCode resp)) w in
      if negb (bool_decide (sStatusCode resp ∈ expected)) then
        let '(e, w) := status_error req resp expected w in (Err e, req, w)
      else
        let '(out, w) := decode_response v resp w in (out, req, w)
  end.

Definition attempt {A} (c : Client) (v : target A) (expected : list Z) (req : Request) (w : W)
    : result (output A) * Request * W :=
  match rGetBody req with
  | Some (Err e) => (Err (EWrap "get request body: %w" e), req, w)
  | Some (Ok d) => attempt_send c v expected (set_Body (BReader d None) req) w
  | None => attempt_send c v expected req w
  end.

(** ** Do *)

(** The state the retry loop runs on: the request object, what [v] holds, and
    the world. *)
Record DoState (A : Type) := mkDo { d_req : Request; d_out : output A; d_world : W }.
Arguments mkDo {A} d_req d_out d_world.
Arguments d_req {A} d.
Arguments d_out {A} d.
Arguments d_world {A} d.

#[export] Instance do_world A : World (DoState A) := {|
  now s := let '(t, w) := now (d_world s) in (t, mkDo (d_req s) (d_out s) w);
  rand_Int64N n s := let '(r, w) := rand_Int64N n (d_world s) in (r, mkDo (d_req s) (d_out s) w);
  ctx_Err s := ctx_Err (d_world s);
  wait d s := let '(e, w) := wait d (d_world s) in (e, mkDo (d_req s) (d_out s) w)
|}.

(** The closure [attemptFn]: a token of the limiter, then an attempt. *)
Definition attemptFn {A} (c : Client) (v : target A) (expected : list Z) (s : DoState A)
    : option error * DoState A :=
  let '(lerr, w) := match c_limiter c with
                    | Some l => lim_Wait l (d_world s)
                    | None => (None, d_world s)
                    end in
  match lerr with
  | Some e => (Some e, mkDo (d_req s) (d_out s) w)
  | None =>
      let '(r, req, w) := attempt c v expected (d_req s) w in
      match r with
      | Err e => (Some e, mkDo req (d_out s) w)
      | Ok out => (None, mkDo req out w)
      end
  end.

(** Default headers: a JSON content type when there is a body, a user agent. *)
Definition default_headers (c : Client) (sdk_ua : string) (req : Request) : Request :=
  let has_body := match rBody req with BNil => false | _ => true end in
  let req := if String.eqb (Header_Get (rHeader req) "Content-Type") "" && has_body
             then set_Header "Content-Type" "application/json" req else req in
  if String.eqb (Header_Get (rHeader req) "User-Agent") "" then
    set_Header "User-Agent" (if String.eqb (c_userAgent c) "" then sdk_ua else c_userAgent c) req
  else req.

(** Reading the body once so that every attempt can replay it. *)
Definition buffer_body (req : Request) : result Request :=
  match rBody req, rGetBody req with
  | BReader d fails, None =>
      match fails with
      | Some e => Err (EWrap "read request body: %w" e)
      | None =>
          let req := set_Body (BReader d None) (set_GetBody d req) in
          Ok (if rContentLength req =? 0 then set_ContentLength (slen d) req else req)
      end
  | _, _ => Ok req
  end.

(** The configuration checks of [Do], in order, and the resolved URL. *)
Definition resolve (c : Client) (req : option Request) : result (Request * URL) :=
  match c_optErr c with
  | Some e => Err e
  | None =>
      match req with
      | None => Err (ENew ErrEmptyRequest)
      | Some req =>
          match c_baseURL c with
          | None => Err (ENew ErrInvalidURL)
          | Some base =>
              match url_Parse (url_String (rURL req)) with
              | None => Err (EText "parse request URL")
              | Some t =>
                  if IsAbs t then Err (EWrap "%w: req.URL must be path-only" (ENew ErrInvalidURL))
                  else Ok (req, url_ResolveReference base t)
              end
          end
      end
  end.

Definition Do {A} (c : Client) (sdk_ua : string) (req : option Request) (v : target A)
    (expectedStatusCodes : list Z) (w : W) : result (output A) * W :=
  match resolve c req with
  | Err e => (Err e, w)
  | Ok (req, u) =>
      let expected := match expectedStatusCodes with [] => [200] | l => l end in
      let req := default_headers c sdk_ua (set_URL u req) in
      let '(aerr, req, w) := match c_auth c with
                             | Some a => a req w
                             | None => (None, req, w)
                             end in
      match aerr with
      | Some e => (Err (EWrap "SetAuth: %w" e), w)
      | None =>
          match buffer_body req with
          | Err e => (Err e, w)
          | Ok req =>
              let s := mkDo req ONothing w in
              let '(e, s) := if shouldRetry c req then run (c_retry c) (attemptFn c v expected) s
                             else attemptFn c v expected s in
              match e with
              | Some e => (Err e, d_world s)
              | None => (Ok (d_out s), d_world s)
              end
          end
      end
  end.

End Client.

Arguments TNil {W A}.
Arguments TBytes {W A}.
Arguments TWriter {W A} write.
Arguments TJSON {W A} decode.
Arguments ONothing {A}.
Arguments OBytes {A} b.
Arguments OJSON {A} a.
Arguments Client W : clear implicits.
Arguments HTTPDoer W : clear implicits.
Arguments RateLimiter W : clear implicits.
Arguments RespHook W : clear implicits.
Arguments target W A : clear implicits.
Arguments mkDo {W A} d_req d_out d_world.
Arguments d_req {W A} d.
Arguments d_out {W A} d.
Arguments d_world {W A} d.

(** ** Observing a client

    [Observed count hit c v]: on the world, [count] goes up by [hit] when the
    transport of [c] is called and by [tok] when its limiter grants a token,
    and nothing else the client runs moves it. *)
Record Observed {W} `{World W} {A} (count : W → Z) (hit tok : Z) (c : Client W) (v : target W A) : Prop := {
  obs_http req w : count (http_Do (c_http c) req w).2 = count w + hit;
  obs_auth a req w : c_auth c = Some a → count (a req w).2 = count w;
  obs_limiter l w : c_limiter c = Some l →
    count (lim_Wait l w).2 = count w + match (lim_Wait l w).1 with None => tok | Some _ => 0 end;
  obs_logger l ev w : c_logger c = Some l → count (l ev w) = count w;
  obs_onReq f req w : c_onReq c = Some f → count (f req w).2 = count w;
  obs_onResp h r w : c_onResp c = Some h → count (on_response h r w).2 = count w;
  obs_onErr h e w : c_onResp c = Some h → count (on_error h e w) = count w;
  obs_write f b w : v = TWriter f → count (f b w).2 = count w;
  obs_now (w : W) : count (now w).2 = count w;
  obs_rand n (w : W) : count (rand_Int64N n w).2 = count w;
  obs_wait d (w : W) : count (wait d w).2 = count w
}.

(** ** Lemmas *)

Section ClientFacts.
Context {W : Type} `{World W} `{NetLib} {A : Type}.
Context (count : W → Z) (hit tok : Z) (c : Client W) (v : target W A).
Hypothesis Hobs : Observed count hit tok c v.

Lemma log_count ev w : count (log c ev w) = count w.
Proof. unfold log. destruct (c_logger c) eqn:Hl; [by apply (obs_logger _ _ _ _ _ Hobs)|done]. Qed.

Lemma parseRetryAfter_count h w : count (parseRetryAfter h w).2 = count w.
Proof.
  pose proof (obs_now _ _ _ _ _ Hobs w) as Hn. unfold parseRetryAfter. cbv zeta.
  repeat case_match; simplify_eq/=; done.
Qed.

Lemma status_error_count req resp exp w : count (status_error req resp exp w).2 = count w.
Proof.
  unfold status_error. cbv zeta. destruct (parseErrorBody _). case_match; [|done].
  pose proof (parseRetryAfter_count (sHeader resp) w) as Hp. by destruct (parseRetryAfter _ w).
Qed.

Lemma decode_response_count resp w : count (decode_response v resp w).2 = count w.
Proof.
  unfold decode_response. case_match; [done|]. destruct v as [| |f|f] eqn:Hv; [done|by case_match| |by case_match].
  pose proof (obs_write _ _ _ _ _ Hobs f (sBody resp) w eq_refl) as Hw.
  destruct (f (sBody resp) w) as [[e|] w']; [done|]. by case_match.
Qed.

Lemma attempt_send_count exp req w : count (attempt_send c v exp req w).2 = count w + hit.
Proof.
  unfold attempt_send.
  assert (count (match c_onReq c with Some f => f req w | None => (req, w) end).2 = count w) as H1
    by (destruct (c_onReq c) eqn:Hq; [by apply (obs_onReq _ _ _ _ _ Hobs)|done]).
  destruct (match c_onReq c with Some f => f req w | None => (req, w) end) as [req1 w1].
  simpl in H1. cbv zeta. rewrite <- H1, <- (log_count (LogSending (rMethod req1) (rURL req1)) w1).
  set (w2 := log c _ w1). pose proof (obs_http _ _ _ _ _ Hobs req1 w2) as H3.
  destruct (http_Do (c_http c) req1 w2) as [[resp|e] w3]; simpl in H3; rewrite <- H3; clear H3.
  - assert (count (match c_onResp c with Some h => on_response h resp w3 | None => (resp, w3) end).2
            = count w3) as H4 by (destruct (c_onResp c) eqn:Hr; [by apply (obs_onResp _ _ _ _ _ Hobs)|done]).
    destruct (match c_onResp c with Some h => on_response h resp w3 | None => (resp, w3) end)
      as [resp1 w4].
    simpl in H4. rewrite <- H4, <- (log_count (LogResponse (rMethod req1) (rURL req1) (sStatusCode resp1)) w4).
    set (w5 := log c _ w4). case_match.
    + pose proof (status_error_count req1 resp1 exp w5) as H6. by destruct (status_error _ _ _ _).
    + pose proof (decode_response_count resp1 w5) as H6. by destruct (decode_response _ _ _).
  - simpl. rewrite log_count. destruct (c_onResp c) eqn:Hr; [by apply (obs_onErr _ _ _ _ _ Hobs)|done].
Qed.

(** An attempt calls the transport once, unless replaying the body fails. *)
Lemma attempt_count exp req w :
  count (attempt c v exp req w).2 =
    count w + match rGetBody req with Some (Err _) => 0 | _ => hit end.
Proof.
  unfold attempt. destruct (rGetBody req) as [[d|e]|]; rewrite ?attempt_send_count; simpl; lia.
Qed.

Lemma attemptFn_count exp s :
  count (d_world (attemptFn c v exp s).2) =
    count (d_world s) +
    match c_limiter c with
    | None => match rGetBody (d_req s) with Some (Err _) => 0 | _ => hit end
    | Some l => match (lim_Wait l (d_world s)).1 with
                | Some _ => 0
                | None => tok + match rGetBody (d_req s) with Some (Err _) => 0 | _ => hit end
                end
    end.
Proof.
  unfold attemptFn. destruct (c_limiter c) as [l|] eqn:Hl.
  - pose proof (obs_limiter _ _ _ _ _ Hobs l (d_world s) Hl) as Hw.
    destruct (lim_Wait l (d_world s)) as [[e|] w1]; simpl in *; [done|].
    pose proof (attempt_count exp (d_req s) w1) as Ha.
    destruct (attempt c v exp (d_req s) w1) as [[[o|e] r] w2]; simpl in *; lia.
  - pose proof (attempt_count exp (d_req s) (d_world s)) as Ha.
    destruct (attempt c v exp (d_req s) (d_world s)) as [[[o|e] r] w2]; simpl in *; lia.
Qed.

End ClientFacts.

Lemma buffer_body_frame req req' :
  buffer_body req = Ok req' → rMethod req' = rMethod req ∧ rHeader req' = rHeader req.
Proof. unfold buffer_body. intros. repeat case_match; by simplify_eq/=. Qed.

Lemma default_headers_get {W} `{World W} (c : Client W) ua req k :
  k ≠ "Content-Type" → k ≠ "User-Agent" →
  rMethod (default_headers c ua req) = rMethod req ∧
  Header_Get (rHeader (default_headers c ua req)) k = Header_Get (rHeader req) k.
Proof.
  intros H1 H2. unfold default_headers, set_Header, Header_Set, Header_Get. cbv zeta.
  repeat case_match; simpl; rewrite ?lookup_insert_ne by done; done.
Qed.

(** [Do] either stops before anything happens or runs [attemptFn], once or in
    the retry loop, from the world the authorizer left. *)
Lemma Do_inv {W} `{World W} `{NetLib} {A} (c : Client W) ua req (v : target W A) exp w (P : W → Prop) :
  P w →
  (∀ a r w, c_auth c = Some a → P w → P (a r w).2) →
  (∀ r u r1 w1 req1 e,
     req = Some r →
     r1 = (match c_auth c with
           | Some a => a (default_headers c ua (set_URL u r)) w
           | None => (None, default_headers c ua (set_URL u r), w) end) →
     w1 = r1.2 → buffer_body r1.1.2 = Ok req1 → P w1 →
     P (d_world (if shouldRetry c req1 then run (c_retry c) (attemptFn c v e) (mkDo req1 ONothing w1)
                 else attemptFn c v e (mkDo req1 ONothing w1)).2)) →
  P (Do c ua req v exp w).2.
Proof.
  intros Hw Ha Hrun. unfold Do. destruct (resolve c req) as [[r u]|e] eqn:Hres; [|done]. cbv zeta.
  assert (req = Some r) as ->.
  { unfold resolve in Hres. repeat case_match; by simplify_eq/=. }
  set (r1 := match c_auth c with Some a => _ | None => _ end).
  specialize (Hrun r u r1 r1.2). revert Hrun.
  assert (P r1.2) as Hr1 by (unfold r1; destruct (c_auth c) eqn:Hc; [by apply Ha|done]).
  destruct r1 as [[aerr req1] w1] eqn:Er1. simpl in Hr1. intros Hrun.
  destruct aerr as [e|]; [done|]. destruct (buffer_body req1) as [req2|e] eqn:Hb; [|done].
  specialize (Hrun req2 (match exp with [] => [200] | l => l end) eq_refl ltac:(by rewrite <- Er1) eq_refl Hb Hr1).
  destruct (if shouldRetry c req2 then _ else _) as [[e|] s]; done.
Qed.

Lemma resolve_request {W} `{NetLib} (c : Client W) req r u :
  resolve c req = Ok (r, u) →
  req = Some r ∧ c_optErr c = None ∧
  ∃ base t, c_baseURL c = Some base ∧ url_Parse (url_String (rURL r)) = Some t ∧
            IsAbs t = false ∧ u = url_ResolveReference base t.
Proof.
  unfold resolve. intros Hr. repeat case_match; simplify_eq/=.
  split; [done|]. split; [done|]. eauto 10.
Qed.

(** [Guarded P Q c v]: the world keeps [P] while every request handed to the
    transport satisfies [Q], which the request hook and the replay of the body
    keep. *)
Record Guarded {W} `{World W} {A} (P : W → Prop) (Q : Request → Prop) (c : Client W) (v : target W A) : Prop := {
  gd_http req w : Q req → P w → P (http_Do (c_http c) req w).2;
  gd_replay req d : Q req → rGetBody req = Some (Ok d) → Q (set_Body (BReader d None) req);
  gd_limiter l w : c_limiter c = Some l → P w → P (lim_Wait l w).2;
  gd_logger l ev w : c_logger c = Some l → P w → P (l ev w);
  gd_onReq f req w : c_onReq c = Some f → Q req → P w → Q (f req w).1 ∧ P (f req w).2;
  gd_onResp h r w : c_onResp c = Some h → P w → P (on_response h r w).2;
  gd_onErr h e w : c_onResp c = Some h → P w → P (on_error h e w);
  gd_write f b w : v = TWriter f → P w → P (f b w).2;
  gd_now (w : W) : P w → P (now w).2;
  gd_rand n (w : W) : P w → P (rand_Int64N n w).2;
  gd_wait d (w : W) : P w → P (wait d w).2
}.

Section GuardedFacts.
Context {W : Type} `{World W} `{NetLib} {A : Type}.
Context (P : W → Prop) (Q : Request → Prop) (c : Client W) (v : target W A).
Hypothesis Hg : Guarded P Q c v.

Lemma log_guarded ev w : P w → P (log c ev w).
Proof. unfold log. destruct (c_logger c) eqn:Hl; [by apply (gd_logger _ _ _ _ Hg)|done]. Qed.

Lemma parseRetryAfter_guarded h w : P w → P (parseRetryAfter h w).2.
Proof.
  intros Hw. pose proof (gd_now _ _ _ _ Hg w Hw) as Hn. unfold parseRetryAfter. cbv zeta.
  repeat case_match; simplify_eq/=; done.
Qed.

Lemma status_error_guarded req resp exp w : P w → P (status_error req resp exp w).2.
Proof.
  intros Hw. unfold status_error. cbv zeta. destruct (parseErrorBody _). case_match; [|done].
  pose proof (parseRetryAfter_guarded (sHeader resp) w Hw). by destruct (parseRetryAfter _ w).
Qed.

Lemma decode_response_guarded resp w : P w → P (decode_response v resp w).2.
Proof.
  intros Hw. unfold decode_response. case_match; [done|].
  destruct v as [| |f|f] eqn:Hv; [done|by case_match| |by case_match].
  pose proof (gd_write _ _ _ _ Hg f (sBody resp) w eq_refl Hw) as Hf.
  destruct (f (sBody resp) w) as [[e|] w']; [done|]. by case_match.
Qed.

Lemma attempt_send_guarded exp req w :
  Q req → P w → Q (attempt_send c v exp req w).1.2 ∧ P (attempt_send c v exp req w).2.
Proof.
  intros Hq Hw. unfold attempt_send.
  assert (Q (match c_onReq c with Some f => f req w | None => (req, w) end).1 ∧
          P (match c_onReq c with Some f => f req w | None => (req, w) end).2) as [Hq1 Hw1]
    by (destruct (c_onReq c) eqn:Hf; [by apply (gd_onReq _ _ _ _ Hg)|done]).
  destruct (match c_onReq c with Some f => f req w | None => (req, w) end) as [req1 w1].
  simpl in Hq1, Hw1. cbv zeta. apply (log_guarded (LogSending (rMethod req1) (rURL req1))) in Hw1.
  set (w2 := log c _ w1) in *. pose proof (gd_http _ _ _ _ Hg req1 w2 Hq1 Hw1) as Hw3.
  destruct (http_Do (c_http c) req1 w2) as [[resp|e] w3]; simpl in Hw3.
  - assert (P (match c_onResp c with Some h => on_response h resp w3 | None => (resp, w3) end).2)
      as Hw4 by (destruct (c_onResp c) eqn:Hr; [by apply (gd_onResp _ _ _ _ Hg)|done]).
    destruct (match c_onResp c with Some h => on_response h resp w3 | None => (resp, w3) end)
      as [resp1 w4].
    simpl in Hw4. apply (log_guarded (LogResponse (rMethod req1) (rURL req1) (sStatusCode resp1))) in Hw4.
    set (w5 := log c _ w4) in *. case_match.
    + pose proof (status_error_guarded req1 resp1 exp w5 Hw4). by destruct (status_error _ _ _ _).
    + pose proof (decode_response_guarded resp1 w5 Hw4). by destruct (decode_response _ _ _).
  - simpl. split; [done|]. apply log_guarded.
    destruct (c_onResp c) eqn:Hr; [by apply (gd_onErr _ _ _ _ Hg)|done].
Qed.

Lemma attemptFn_guarded exp s :
  Q (d_req s) ∧ P (d_world s) →
  Q (d_req (attemptFn c v exp s).2) ∧ P (d_world (attemptFn c v exp s).2).
Proof.
  intros [Hq Hw]. unfold attemptFn.
  assert (P (match c_limiter c with Some l => lim_Wait l (d_world s) | None => (None, d_world s) end).2)
    as Hw1 by (destruct (c_limiter c) eqn:Hl; [by apply (gd_limiter _ _ _ _ Hg)|done]).
  destruct (match c_limiter c with Some l => lim_Wait l (d_world s) | None => (None, d_world s) end)
    as [[e|] w1]; [done|]. simpl in Hw1.
  assert (Q (attempt c v exp (d_req s) w1).1.2 ∧ P (attempt c v exp (d_req s) w1).2) as [Hq2 Hw2].
  { unfold attempt. destruct (rGetBody (d_req s)) as [[d|e]|] eqn:Hb; [|done|].
    - apply attempt_send_guarded; [|done]. by eapply (gd_replay _ _ _ _ Hg).
    - by apply attempt_send_guarded. }
  by destruct (attempt c v exp (d_req s) w1) as [[[o|e] r] w2].
Qed.

Lemma loop_guarded exp retry s :
  Q (d_req s) → P (d_world s) →
  P (d_world (if retry : bool then run (c_retry c) (attemptFn c v exp) s else attemptFn c v exp s).2).
Proof.
  intros Hq Hw. destruct retry; [|by apply attemptFn_guarded].
  apply (run_preserves (λ s, Q (d_req s) ∧ P (d_world s))).
  - apply attemptFn_guarded.
  - intros d s' [Hq' Hw']. pose proof (gd_wait _ _ _ _ Hg d _ Hw'). simpl. by destruct (wait d (d_world s')).
  - intros n s' [Hq' Hw']. pose proof (gd_rand _ _ _ _ Hg n _ Hw'). simpl. by destruct (rand_Int64N n (d_world s')).
  - done.
Qed.

End GuardedFacts.

(** The general form: whatever holds of the request once the authorizer and the
    buffering are done holds of every request handed to the transport. *)
Lemma Do_guarded {W} `{World W} `{NetLib} {A} (P : W → Prop) (Q : Request → Prop) (c : Client W) ua r
    (v : target W A) exp w :
  Guarded P Q c v → P w →
  (∀ a q w, c_auth c = Some a → P w → P (a q w).2) →
  (∀ u q, buffer_body (match c_auth c with
                       | Some a => a (default_headers c ua (set_URL u r)) w
                       | None => (None, default_headers c ua (set_URL u r), w) end).1.2 = Ok q → Q q) →
  P (Do c ua (Some r) v exp w).2.
Proof.
  intros Hg Hw Ha Hq. apply Do_inv; [done|done|].
  intros r0 u r1 w1 req1 e [= <-] Hr1 Hw1 Hb Hp. subst r1 w1.
  exact (loop_guarded P Q c v Hg e (shouldRetry c req1) (mkDo req1 ONothing _) (Hq u req1 Hb) Hp).
Qed.

(** A counted loop: between [lo] and one hit per attempt. *)
Lemma loop_count {W} `{World W} `{NetLib} {A} (sends : W → Z) (c : Client W) (v : target W A) exp retry s :
  Observed sends 1 0 c v →
  0 <= sends (d_world (if retry : bool then run (c_retry c) (attemptFn c v exp) s
                       else attemptFn c v exp s).2) - sends (d_world s)
    <= if retry then Z.max 1 (maxAttempts (c_retry c)) else 1.
Proof.
  intros Hobs.
  assert (∀ s, sends (d_world s) + 0 <= sends (d_world (attemptFn c v exp s).2) <= sends (d_world s) + 1) as Hf.
  { intros s'. rewrite (attemptFn_count sends 1 0 c v Hobs). repeat case_match; lia. }
  destruct retry; [|specialize (Hf s); lia].
  pose proof (run_count (λ s, sends (d_world s)) (attemptFn c v exp) 0 (c_retry c) s ltac:(lia) Hf) as Hr.
  rewrite attempts_of_max in Hr.
  specialize (Hr ltac:(intros d s'; pose proof (obs_wait _ _ _ _ _ Hobs d (d_world s'));
                       simpl; by destruct (wait d (d_world s')))
                 ltac:(intros n s'; pose proof (obs_rand _ _ _ _ _ Hobs n (d_world s'));
                       simpl; by destruct (rand_Int64N n (d_world s')))). simpl in Hr. lia.
Qed.

(** Without a limiter the first attempt always reaches the transport. *)
Lemma loop_sends {W} `{World W} `{NetLib} {A} (sends : W → Z) (c : Client W) (v : target W A) exp retry s :
  Observed sends 1 0 c v → c_limiter c = None → (∀ e, rGetBody (d_req s) ≠ Some (Err e)) →
  sends (d_world s) < sends (d_world (if retry : bool then run (c_retry c) (attemptFn c v exp) s
                                      else attemptFn c v exp s).2).
Proof.
  intros Hobs Hl Hg.
  assert (sends (d_world s) < sends (d_world (attemptFn c v exp s).2)) as H1.
  { rewrite (attemptFn_count sends 1 0 c v Hobs), Hl. destruct (rGetBody (d_req s)) as [[?|e]|]; try lia. by destruct (Hg e). }
  destruct retry; [|done]. eapply Z.lt_le_trans; [exact H1|].
  apply (run_first (λ s, sends (d_world s))).
  - intros s'. rewrite (attemptFn_count sends 1 0 c v Hobs). repeat case_match; lia.
  - intros d s'. pose proof (obs_wait _ _ _ _ _ Hobs d (d_world s')). simpl. by destruct (wait d (d_world s')).
  - intros n s'. pose proof (obs_rand _ _ _ _ _ Hobs n (d_world s')). simpl. by destruct (rand_Int64N n (d_world s')).
Qed.

(** The preservation of what decides whether a request may be repeated. *)
Definition keeps_retry {W} (c : Client W) : Prop :=
  ∀ a q w, c_auth c = Some a → rMethod (a q w).1.2 = rMethod q ∧
    Header_Get (rHeader (a q w).1.2) "Idempotency-Key" = Header_Get (rHeader q) "Idempotency-Key".

Lemma Do_count {W} `{World W} `{NetLib} {A} (sends : W → Z) (c : Client W) ua r (v : target W A) exp w :
  Observed sends 1 0 c v → keeps_retry c →
  0 <= sends (Do c ua (Some r) v exp w).2 - sends w
    <= if shouldRetry c r then Z.max 1 (maxAttempts (c_retry c)) else 1.
Proof.
  intros Hobs Hauth.
  set (bound := if shouldRetry c r then Z.max 1 (maxAttempts (c_retry c)) else 1).
  assert (1 <= bound) by (unfold bound; case_match; lia).
  apply (Do_inv c ua (Some r) v exp w (λ w', 0 <= sends w' - sends w <= bound)); [lia| |].
  - intros a q w' Ha Hw. rewrite (obs_auth _ _ _ _ _ Hobs); done.
  - intros r0 u r1 w1 req1 e [= <-] Hr1 Hw1 Hb _.
    pose proof (default_headers_get c ua (set_URL u r) "Idempotency-Key" ltac:(done) ltac:(done)) as [Hm Hh].
    assert (sends w1 = sends w ∧ rMethod r1.1.2 = rMethod r ∧
            Header_Get (rHeader r1.1.2) "Idempotency-Key" = Header_Get (rHeader r) "Idempotency-Key")
      as (Hs & Hm1 & Hh1).
    { subst w1 r1. destruct (c_auth c) as [a|] eqn:Ha; [|done].
      destruct (Hauth a (default_headers c ua (set_URL u r)) w Ha) as [-> ->].
      by rewrite (obs_auth _ _ _ _ _ Hobs). }
    destruct (buffer_body_frame _ _ Hb) as [Hm2 Hh2].
    assert (shouldRetry c req1 = shouldRetry c r) as ->.
    { unfold shouldRetry. by rewrite Hm2, Hh2, Hm1, Hh1. }
    pose proof (loop_count sends c v e (shouldRetry c r) (mkDo req1 ONothing w1) Hobs) as Hl.
    simpl in Hl. unfold bound. rewrite <- Hs. exact Hl.
Qed.

(** The requests [Do] may repeat, spelled out. *)
Lemma shouldRetry_class {W} `{World W} (c : Client W) r :
  shouldRetry c r = bool_decide (rMethod r ∈ ["GET"; "HEAD"; "PUT"; "DELETE"; "OPTIONS"] ∨
    rMethod r ∈ ["POST"; "PATCH"] ∧
    (c_unsafeRetries c = true ∨ Header_Get (rHeader r) "Idempotency-Key" ≠ "")).
Proof.
  unfold shouldRetry. cbv zeta. apply eq_bool_prop_intro. rewrite bool_decide_spec, !elem_of_cons, !elem_of_nil.
  destruct (String.eqb_spec (rMethod r) "GET"), (String.eqb_spec (rMethod r) "HEAD"),
    (String.eqb_spec (rMethod r) "PUT"), (String.eqb_spec (rMethod r) "DELETE"),
    (String.eqb_spec (rMethod r) "OPTIONS"); simpl; try (split; [|done]; by tauto).
  destruct (String.eqb_spec (rMethod r) "POST"), (String.eqb_spec (rMethod r) "PATCH"); simpl;
    try (split; [done|tauto]);
    destruct (c_unsafeRetries c), (String.eqb_spec (Header_Get (rHeader r) "Idempotency-Key") ""); simpl;
    intuition congruence.
Qed.

(** A body that can be sent again: none, or a reader that does not fail and
    whose replay, if there is one, yields the same bytes. *)
Definition replayable (r : Request) : Prop :=
  match rBody r with
  | BReader d fails => fails = None ∧ (rGetBody r = None ∨ rGetBody r = Some (Ok d))
  | _ => rGetBody r = None
  end.

(** What reaches the transport when [r] is sent to [u]. *)
Definition sent_as (u : URL) (r q : Request) : Prop :=
  rURL q = u ∧ rMethod q = rMethod r ∧ rBody q = rBody r ∧
  rGetBody q = match rBody r with BReader d _ => Some (Ok d) | _ => None end.

(** Such a body survives the buffering whole. *)
Lemma buffer_body_replayable u r q :
  replayable r → rURL q = u → rMethod q = rMethod r → rBody q = rBody r → rGetBody q = rGetBody r →
  ∃ q', buffer_body q = Ok q' ∧ sent_as u r q'.
Proof.
  unfold buffer_body, sent_as, replayable. intros Hrep Hu Hm Hb Hg. rewrite Hb, Hg.
  destruct (rBody r) as [| |d f].
  - eexists. split; [done|]. repeat split; congruence.
  - eexists. split; [done|]. repeat split; congruence.
  - destruct Hrep as [-> [Hn|Hn]]; rewrite Hn in Hg |- *.
    + case_match; eexists; (split; [done|]); repeat split; simpl; congruence.
    + eexists. split; [done|]. repeat split; congruence.
Qed.


(** The request and the world once the authorizer ran, as [Do] calls it. *)
Definition authorize {W} (c : Client W) (q : Request) (w : W) : option error * Request * W :=
  match c_auth c with Some a => a q w | None => (None, q, w) end.

Lemma authorize_count {W} `{World W} {A} (c : Client W) (v : target W A) q w (sends : W → Z) :
  Observed sends 1 0 c v → sends (authorize c q w).2 = sends w.
Proof. intros Hobs. unfold authorize. destruct (c_auth c) eqn:Ha; [by apply (obs_auth _ _ _ _ _ Hobs)|done]. Qed.

(** [Do] from there. *)
Lemma Do_authorized {W} `{World W} `{NetLib} {A} (c : Client W) ua r base t (v : target W A) exp w :
  c_optErr c = None → c_baseURL c = Some base → url_Parse (url_String (rURL r)) = Some t → IsAbs t = false →
  Do c ua (Some r) v exp w =
    (let '(aerr, req, w) := authorize c (default_headers c ua (set_URL (url_ResolveReference base t) r)) w in
     match aerr with
     | Some e => (Err (EWrap "SetAuth: %w" e), w)
     | None =>
         match buffer_body req with
         | Err e => (Err e, w)
         | Ok req =>
             let s := mkDo req ONothing w in
             let '(e, s) := if shouldRetry c req
                            then run (c_retry c) (attemptFn c v match exp with [] => [200] | l => l end) s
                            else attemptFn c v match exp with [] => [200] | l => l end s in
             match e with Some e => (Err e, d_world s) | None => (Ok (d_out s), d_world s) end
         end
     end).
Proof. intros Ho Hb Ht Ha. unfold Do, resolve. by rewrite Ho, Hb, Ht, Ha. Qed.

(** ** A recorded network

    The transport answers from a list of replies and keeps the requests it was
    given; the limiter counts its tokens; sleeps return at once. *)
Record Net := mkNet { n_replies : list (result Response); n_seen : list Request; n_tokens : Z }.

#[export] Instance net_world : World Net := {|
  now w := (0, w);
  rand_Int64N n w := (0, w);
  ctx_Err w := None;
  wait d w := (None, w)
|}.

Definition net_send (r : Request) (w : Net) : result Response * Net :=
  match n_replies w with
  | [] => (Err (EText "connection refused"), mkNet [] (n_seen w ++ [r]) (n_tokens w))
  | x :: xs => (x, mkNet xs (n_seen w ++ [r]) (n_tokens w))
  end.

Definition net_limiter : RateLimiter Net :=
  mkLimiter (λ w, (None, mkNet (n_replies w) (n_seen w) (n_tokens w + 1))) None.

Definition net_client (unsafe : bool) (lim : option (RateLimiter Net)) : Client Net :=
  mkClient (OtherDoer net_send) (Some (λ r w, (None, set_Header "X-Token" "t" r, w)))
    (Some (mkURL "https" "api.monobank.ua" "" "")) defaultRetry lim "" unsafe false None None None None.

Definition net_netlib : NetLib := {|
  http_ParseTime _ := None; url_Parse s := Some (mkURL "" "" s ""); url_String u := Path u;
  url_ResolveReference b u := mkURL (Scheme b) (Host b) (Path u) (RawQuery u);
  url_Hostname u := Host u; ip_IsLoopback _ := false;
  json_errorBody _ := None |}.

Definition post (path : string) : Request :=
  mkRequest "POST" (mkURL "" "" path "") ∅ (BReader "{}" None) None 0.

Definition bad_gateway : result Response := Ok (mkResponse 502 ∅ "" None 0).
Definition ok_200 (b : string) : result Response := Ok (mkResponse 200 ∅ b None (slen b)).

Lemma net_observed_sends unsafe lim A (v : target Net A) :
  (∀ f, v ≠ TWriter f) → lim = None ∨ lim = Some net_limiter →
  Observed (λ w, Z.of_nat (length (n_seen w))) 1 0 (net_client unsafe lim) v.
Proof.
  intros Hv Hl. split; simpl; try done; intros; simplify_eq; try done.
  - unfold net_send. case_match; simpl; rewrite length_app; simpl; lia.
  - destruct Hl; simplify_eq/=; lia.
  - by destruct (Hv f).
Qed.

Lemma net_observed_tokens unsafe A (v : target Net A) :
  v = TBytes → Observed n_tokens 0 1 (net_client unsafe (Some net_limiter)) v.
Proof.
  intros ->. split; simpl; try done; intros; simplify_eq; try done.
  unfold net_send. case_match; simpl; lia.
Qed.


(** ** Properties *)

(** C2: whatever the server, the limiter, the hooks or the timers answer, a
    call ends having handed its request to the transport at most
    [maxAttempts] times (at most once when that is below one); and at most
    once when the request must not be repeated, that is when its method is
    none of GET, HEAD, PUT, DELETE and OPTIONS and it is not a POST or PATCH
    that carries an Idempotency-Key or whose client opted in to unsafe
    retries.  The authorizer leaves the method and the key alone, and [sends]
    counts the calls of the transport. *)
Theorem Do_sends {W} `{World W} `{NetLib} {A} (sends : W → Z) (c : Client W) ua r (v : target W A) exp w :
  Observed sends 1 0 c v → keeps_retry c →
  let n := sends (Do c ua (Some r) v exp w).2 - sends w in
  0 <= n <= Z.max 1 (maxAttempts (c_retry c)) ∧
  (rMethod r ∉ ["GET"; "HEAD"; "PUT"; "DELETE"; "OPTIONS"] →
   ¬ (rMethod r ∈ ["POST"; "PATCH"] ∧
      (c_unsafeRetries c = true ∨ Header_Get (rHeader r) "Idempotency-Key" ≠ "")) →
   n <= 1).
Proof.
  intros Hobs Hk n. pose proof (Do_count sends c ua r v exp w Hobs Hk) as Hc. fold n in Hc. clearbody n.
  split; [destruct (shouldRetry c r); lia|]. intros Hm Hp.
  rewrite (shouldRetry_class c r) in Hc. rewrite bool_decide_false in Hc; [lia|]. intros [?|?]; [done|by apply Hp].
Qed.

Lemma Do_sends_witness :
  let w := mkNet [bad_gateway; ok_200 "{}"] [] 0 in
  let r := post "/api/merchant/invoice/create" in
  let n := Z.of_nat (length (n_seen (Do (H0 := net_netlib) (net_client false None) "sdk" (Some r)
             (@TBytes Net string) [] w).2)) - 0 in
  n = 1 ∧ n <= 1.
Proof.
  intros w r n. split; [by vm_compute|].
  apply (Do_sends (H0 := net_netlib) (λ w, Z.of_nat (length (n_seen w))) (net_client false None) "sdk" r
           (@TBytes Net string) [] w).
  - by apply net_observed_sends; [|left].
  - intros a q w' [= <-]. split; [done|]. unfold set_Header, Header_Set, Header_Get. simpl.
    by rewrite lookup_insert_ne.
  - apply (bool_decide_unpack _). by vm_compute.
  - intros [_ [Hu|Hu]]; [discriminate Hu|apply Hu; by vm_compute].
Defined.

(** Every send is paid for by a token of the rate limiter, the retries
    included: over a whole call no more requests reach the transport than the
    limiter granted tokens. *)
Theorem Do_tokens {W} `{World W} `{NetLib} {A} (sends tokens : W → Z) (c : Client W) ua req
    (v : target W A) exp w :
  Observed sends 1 0 c v → Observed tokens 0 1 c v → c_limiter c ≠ None →
  sends (Do c ua req v exp w).2 - sends w <= tokens (Do c ua req v exp w).2 - tokens w.
Proof.
  intros Hs Ht Hl.
  apply (Do_inv c ua req v exp w (λ w', sends w' - sends w <= tokens w' - tokens w)); [lia| |].
  - intros a q w' Ha Hw. rewrite (obs_auth _ _ _ _ _ Hs), (obs_auth _ _ _ _ _ Ht); done.
  - intros r u r1 w1 req1 e _ _ _ _ Hw1.
    assert (∀ s, sends (d_world s) - sends w <= tokens (d_world s) - tokens w →
      sends (d_world (attemptFn c v e s).2) - sends w <= tokens (d_world (attemptFn c v e s).2) - tokens w) as Hf.
    { intros s Hle. rewrite (attemptFn_count _ _ _ _ _ Hs), (attemptFn_count _ _ _ _ _ Ht).
      destruct (c_limiter c) as [l|]; [|done]. repeat case_match; lia. }
    case_match; [|by apply Hf].
    apply (run_preserves (λ s, sends (d_world s) - sends w <= tokens (d_world s) - tokens w)); [exact Hf| | |done].
    + intros d s Hle. pose proof (obs_wait _ _ _ _ _ Hs d (d_world s)) as Hc1.
      pose proof (obs_wait _ _ _ _ _ Ht d (d_world s)) as Hc2. simpl.
      destruct (wait d (d_world s)); simpl in *; lia.
    + intros n s Hle. pose proof (obs_rand _ _ _ _ _ Hs n (d_world s)) as Hc1.
      pose proof (obs_rand _ _ _ _ _ Ht n (d_world s)) as Hc2. simpl.
      destruct (rand_Int64N n (d_world s)); simpl in *; lia.
Qed.

Lemma Do_tokens_witness :
  let w := mkNet [bad_gateway; bad_gateway; ok_200 "{}"] [] 0 in
  let w' := (Do (H0 := net_netlib) (net_client true (Some net_limiter)) "sdk" (Some (post "/x"))
               (@TBytes Net string) [] w).2 in
  Z.of_nat (length (n_seen w')) = 3 ∧ Z.of_nat (length (n_seen w')) - 0 <= n_tokens w' - 0.
Proof.
  intros w w'. split; [by vm_compute|].
  apply (Do_tokens (H0 := net_netlib) (λ w, Z.of_nat (length (n_seen w))) n_tokens
           (net_client true (Some net_limiter)) "sdk" (Some (post "/x")) TBytes [] w).
  - by apply net_observed_sends; [|right].
  - by apply net_observed_tokens.
  - done.
Defined.

(** net/url's [ResolveReference] on a reference without a scheme: the scheme is
    the base's, and so is the host unless the reference names one. *)
Class ResolveLaws `{NetLib} : Prop := {
  resolve_scheme base t : Scheme t = "" → Scheme (url_ResolveReference base t) = Scheme base;
  resolve_host base t : Scheme t = "" →
    Host (url_ResolveReference base t) = if String.eqb (Host t) "" then Host base else Host t
}.


(** A library that does so, on paths and one network-path reference. *)
Definition network_netlib : NetLib := {|
  http_ParseTime _ := None;
  url_Parse s := Some (if String.eqb s "//evil.example/x" then mkURL "" "evil.example" "/x" "" else mkURL "" "" s "");
  url_String u := if String.eqb (Host u) "" then Path u else "//" +:+ Host u +:+ Path u;
  url_ResolveReference b u := mkURL (if String.eqb (Scheme u) "" then Scheme b else Scheme u)
    (if String.eqb (Scheme u) "" && String.eqb (Host u) "" then Host b else Host u) (Path u) (RawQuery u);
  url_Hostname u := Host u; ip_IsLoopback _ := false; json_errorBody _ := None |}.

#[export] Instance network_resolve_laws : @ResolveLaws network_netlib.
Proof. split; simpl; intros base t ->; [done|]. by destruct (String.eqb (Host t) ""). Qed.


(** The guard against absolute URLs lets a network-path reference through: it
    has a host but no scheme, and the request goes there with the token. *)
Theorem network_path_leaves :
  let r := mkRequest "GET" (mkURL "" "evil.example" "/x" "") ∅ BNil None 0 in
  let w := mkNet [ok_200 "{}"] [] 0 in
  let w' := (Do (H0 := network_netlib) (net_client false None) "sdk" (Some r) (@TBytes Net string) [] w).2 in
  (λ q, (Host (rURL q), Header_Get (rHeader q) "X-Token")) <$> n_seen w' = [("evil.example", "t")].
Proof. by vm_compute. Qed.

(** C30: a call that cannot be sent as configured fails without touching
    anything: a sticky option error, a nil request, a missing base URL, a URL
    that does not parse and an absolute one are reported, in that order,
    before authorization, limiter or transport; an authorizer that fails and a
    body that cannot be read are reported with nothing run but the
    authorizer.  Nothing else stops a call: past these checks, with no
    limiter and a body that reads without error, the transport is called. *)
Theorem Do_rejects {W} `{World W} `{NetLib} {A} (c : Client W) ua req (v : target W A) exp w :
  (∀ e, c_optErr c = Some e → Do c ua req v exp w = (Err e, w)) ∧
  (c_optErr c = None → req = None → Do c ua req v exp w = (Err (ENew ErrEmptyRequest), w)) ∧
  (c_optErr c = None → req ≠ None → c_baseURL c = None → Do c ua req v exp w = (Err (ENew ErrInvalidURL), w)) ∧
  ∀ r base, c_optErr c = None → req = Some r → c_baseURL c = Some base →
    (url_Parse (url_String (rURL r)) = None → Do c ua req v exp w = (Err (EText "parse request URL"), w)) ∧
    ∀ t, url_Parse (url_String (rURL r)) = Some t →
      (IsAbs t = true → ∃ e, Do c ua req v exp w = (Err e, w) ∧ errors_Is e ErrInvalidURL = true) ∧
      (IsAbs t = false →
       let '(aerr, q, w1) := authorize c (default_headers c ua (set_URL (url_ResolveReference base t) r)) w in
       (∀ e, aerr = Some e → Do c ua req v exp w = (Err (EWrap "SetAuth: %w" e), w1)) ∧
       (∀ d e, aerr = None → rBody q = BReader d (Some e) → rGetBody q = None →
          Do c ua req v exp w = (Err (EWrap "read request body: %w" e), w1)) ∧
       (∀ sends, Observed sends 1 0 c v → aerr = None → replayable q → c_limiter c = None →
          sends w < sends (Do c ua req v exp w).2)).
Proof.
  split; [unfold Do, resolve; by intros e ->|].
  split; [unfold Do, resolve; by intros -> ->|].
  split; [unfold Do, resolve; intros -> Hr ->; by destruct req|].
  intros r base Ho -> Hb. split; [unfold Do, resolve; rewrite Ho, Hb; by intros ->|].
  intros t Ht. split.
  { intros Habs. unfold Do, resolve. rewrite Ho, Hb, Ht, Habs. eexists. split; [reflexivity|done]. }
  intros Habs. rewrite (Do_authorized c ua r base t v exp w Ho Hb Ht Habs).
  pose proof (Hcount := authorize_count c v (default_headers c ua (set_URL (url_ResolveReference base t) r)) w).
  destruct (authorize c _ w) as [[aerr q] w1]. simpl in Hcount. split; [by intros e ->|].
  split; [intros d e -> Hbd Hgb; unfold buffer_body; by rewrite Hbd, Hgb|].
  intros sends Hobs -> Hrep Hlim. rewrite <- (Hcount sends Hobs).
  destruct (buffer_body_replayable (rURL q) q q Hrep) as (q2 & -> & Hq2); try done. cbv zeta.
  pose proof (loop_sends sends c v match exp with [] => [200] | l => l end (shouldRetry c q2)
                (mkDo q2 ONothing w1) Hobs Hlim) as Hl. simpl in Hl.
  destruct (if shouldRetry c q2 then _ else _) as [[e|] s]; apply Hl; destruct Hq2 as (_ & _ & _ & ->);
    by destruct (rBody q).
Qed.

Lemma Do_rejects_witness :
  let w := mkNet [ok_200 "{}"] [] 0 in let r := post "/x" in
  Do (H0 := net_netlib) (net_client false None) "sdk" None (@TBytes Net string) [] w = (Err (ENew ErrEmptyRequest), w) ∧
  0 < Z.of_nat (length (n_seen (Do (H0 := net_netlib) (net_client false None) "sdk" (Some r) (@TBytes Net string) [] w).2)) ∧
  Do (H0 := net_netlib) (net_client false None) "sdk" (Some (set_Body (BReader "" (Some (EText "reset"))) r))
    (@TBytes Net string) [] w = (Err (EWrap "read request body: %w" (EText "reset")), w).
Proof.
  intros w r. split; [|split].
  - exact (proj1 (proj2 (Do_rejects (H0 := net_netlib) (net_client false None) "sdk" None (@TBytes Net string) [] w))
             eq_refl eq_refl).
  - pose proof (proj2 (proj2 (proj2 (Do_rejects (H0 := net_netlib) (net_client false None) "sdk" (Some r) (@TBytes Net string) [] w)))
             r (mkURL "https" "api.monobank.ua" "" "") eq_refl eq_refl eq_refl) as [_ Hr].
    destruct (Hr (mkURL "" "" "/x" "") eq_refl) as [_ Hs].
    apply (proj2 (proj2 (Hs eq_refl)) (λ w, Z.of_nat (length (n_seen w)))); [|done|split; [done|by left]|done].
    by apply net_observed_sends; [|left].
  - pose proof (proj2 (proj2 (proj2 (Do_rejects (H0 := net_netlib) (net_client false None) "sdk"
             (Some (set_Body (BReader "" (Some (EText "reset"))) r)) (@TBytes Net string) [] w)))
             _ (mkURL "https" "api.monobank.ua" "" "") eq_refl eq_refl eq_refl) as [_ Hr].
    destruct (Hr (mkURL "" "" "/x" "") eq_refl) as [_ Hs].
    exact (proj1 (proj2 (Hs eq_refl)) "" (EText "reset") eq_refl eq_refl eq_refl).
Defined.

(** A response with a status the caller did not expect always becomes an
    error carrying the method, the URL, the status, the expected list and the
    body, whose sentinel is decided by the status (401, 403, 404, 429); the
    error invites a retry exactly for 429 and 5xx, with the delay the headers
    ask for, and is never a success. *)
Theorem attempt_unexpected_status {W} `{World W} `{NetLib} {A} (c : Client W) (v : target W A) exp req w resp w1 :
  c_onReq c = None → c_onResp c = None → c_logger c = None →
  http_Do (c_http c) req w = (Ok resp, w1) → sStatusCode resp ∉ exp →
  ∃ e w2, attempt_send c v exp req w = (Err e, req, w2) ∧
    errors_As_APIError e = Some (mkAPIError (rMethod req) (url_String (rURL req)) (sStatusCode resp) exp
        (parseErrorBody (sBody resp)).1 (parseErrorBody (sBody resp)).2 (sBody resp)) ∧
    errors_As_transient e = (if isTransientStatus (sStatusCode resp)
                             then Some (parseRetryAfter (sHeader resp) w1).1 else None) ∧
    errors_Is e ErrUnauthorized = (sStatusCode resp =? 401) ∧
    errors_Is e ErrForbidden = (sStatusCode resp =? 403) ∧
    errors_Is e ErrNotFound = (sStatusCode resp =? 404) ∧
    errors_Is e ErrTooManyRequests = (sStatusCode resp =? 429).
Proof.
  intros Hq Hr Hl Hh Hexp. unfold attempt_send, log. rewrite Hq, Hr, Hl. cbv zeta. rewrite Hh.
  rewrite bool_decide_false by done. cbn [negb]. unfold status_error. cbv zeta.
  destruct (parseErrorBody (sBody resp)) as [desc code].
  destruct (isTransientStatus (sStatusCode resp)).
  - destruct (parseRetryAfter (sHeader resp) w1) as [ra w2]. eexists _, _. split; [done|]. done.
  - eexists _, _. split; [done|]. done.
Qed.

Lemma attempt_unexpected_status_witness :
  let w := mkNet [bad_gateway] [] 0 in
  ∃ e w2, attempt_send (H0 := net_netlib) (net_client false None) (@TBytes Net string) [200] (post "/x") w
            = (Err e, post "/x", w2) ∧ errors_As_transient e = Some (-1).
Proof.
  intros w.
  destruct (attempt_unexpected_status (H0 := net_netlib) (net_client false None) (@TBytes Net string) [200] (post "/x") w
              (mkResponse 502 ∅ "" None 0) (mkNet [] [post "/x"] 0) eq_refl eq_refl eq_refl eq_refl
              ltac:(apply (bool_decide_unpack _); by vm_compute)) as (e & w2 & He & _ & Ht & _).
  exists e, w2. split; [exact He|exact Ht].
Defined.
