(* ===== verification/UserAgent.v ===== *)
(** * The default User-Agent (useragent.go)

    The string the SDK names itself with.  The build information
    ([debug.ReadBuildInfo]), the operating system and the Go version are the
    environment's; [sync.OnceValue] is a cell that keeps the first value. *)
From S2P Require Import Prelude GoString GoHttp Client.

(** ** The environment: runtime/debug *)

(** [debug.Module], a dependency of the build and what replaces it. *)
Record Module_ := mkModule { Path : string; Version : string; Replace : option string }.

(** What the process knows of itself: the dependencies when the binary carries
    them, [runtime.GOOS] and [runtime.Version()]. *)
Record Build := mkBuild { Deps : option (list Module_); GOOS : string; GoVersion : string }.

(** ** The code *)

Definition sdkVersion : string := "(devel)".
Definition sdkModule : string := "github.com/OlexiyOdarchuk/go-monobank-sdk/v2".

(** The loop over the dependencies: the first with the module's path ends it. *)
Fixpoint find_version (v : string) (deps : list Module_) : string :=
  match deps with
  | [] => v
  | dep :: deps => if String.eqb (Path dep) sdkModule then Version dep else find_version v deps
  end.

(** The function under [sync.OnceValue]. *)
Definition compute_userAgent (b : Build) : string :=
  let v := match Deps b with Some deps => find_version sdkVersion deps | None => sdkVersion end in
  "go-monobank-sdk/" +:+ v +:+ " (" +:+ GOOS b +:+ "; " +:+ GoVersion b +:+ ")".

(** [userAgentPrefix]: the cell of [sync.OnceValue], empty before the first call. *)
Definition userAgentPrefix (b : Build) (once : option string) : string * option string :=
  match once with Some s => (s, once) | None => let s := compute_userAgent b in (s, Some s) end.

Definition UserAgent (b : Build) (once : option string) : string * option string := userAgentPrefix b once.

(** ** What it is *)

(** The version is the one the build requires; without the module among the
    dependencies, the sentinel. *)
Theorem compute_userAgent_version (b : Build) :
  ∃ v, compute_userAgent b = "go-monobank-sdk/" +:+ v +:+ " (" +:+ GOOS b +:+ "; " +:+ GoVersion b +:+ ")" ∧
    ((v = sdkVersion ∧ ∀ deps m, Deps b = Some deps → m ∈ deps → Path m ≠ sdkModule) ∨
     ∃ l m r, Deps b = Some (l ++ m :: r) ∧ Path m = sdkModule ∧ v = Version m ∧ Forall (λ x, Path x ≠ sdkModule) l).
Proof.
  eexists. split; [reflexivity|]. destruct (Deps b) as [deps|]; [|by left].
  assert (Hv : (find_version sdkVersion deps = sdkVersion ∧ ∀ m, m ∈ deps → Path m ≠ sdkModule) ∨
    ∃ l m r, deps = l ++ m :: r ∧ Path m = sdkModule ∧ find_version sdkVersion deps = Version m ∧
      Forall (λ x, Path x ≠ sdkModule) l).
  { induction deps as [|d deps IH]; cbn [find_version]; [left; split; [done|intros m Hm; by apply not_elem_of_nil in Hm]|].
    destruct (String.eqb_spec (Path d) sdkModule) as [E|N].
    - right. by exists [], d, deps.
    - destruct IH as [[-> Hn]|(l & m & r & -> & Hm & -> & Hl)].
      + left. split; [done|]. intros m [->|Hm]%elem_of_cons; [done|by apply Hn].
      + right. exists (d :: l), m, r. split_and!; [done..|by constructor]. }
  destruct Hv as [[-> Hn]|(l & m & r & -> & Hm & -> & Hl)]; [left|right].
  - split; [done|]. intros ? m [= <-]. apply Hn.
  - by exists l, m, r.
Qed.

(** The build is read once: whatever the process calls, in whatever order, it
    names itself the same. *)
Theorem UserAgent_constant (b b' : Build) (once : option string) :
  let '(s, once) := UserAgent b once in UserAgent b' once = (s, once).
Proof. by destruct once. Qed.

(** A replaced module is announced by the version it was required at, not by
    the sentinel. *)
Theorem UserAgent_replaced :
  (UserAgent (mkBuild (Some [mkModule sdkModule "v2.1.0" (Some "../fork")]) "linux" "go1.26.2") None).1 =
    "go-monobank-sdk/v2.1.0 (linux; go1.26.2)".
Proof. by vm_compute. Qed.
