(* ===== verification/Options.v ===== *)
(** * Options and construction of the client (options.go, [SetBaseURL] of client.go)

    An option is a function on the client, as in the code; [New] runs the list
    twice, the first time on a probe that only tells whether insecure base URLs
    are allowed. *)
From S2P Require Import Prelude GoString Errors GoHttp Retry Client.

Section Options.
Context {W : Type} `{World W} `{NetLib}.

Abbreviation Option_ := (Client W → Client W) (only parsing).

Definition defaultBaseURL : string := "https://api.monobank.ua".

(** ** Setters of one field *)

Definition set_http (d : HTTPDoer W) (c : Client W) : Client W :=
  mkClient d (c_auth c) (c_baseURL c) (c_retry c) (c_limiter c) (c_userAgent c)
    (c_unsafeRetries c) (c_allowInsecureBaseURL c) (c_optErr c) (c_logger c) (c_onReq c) (c_onResp c).
Definition set_auth (a : Request → W → option error * Request * W) (c : Client W) : Client W :=
  mkClient (c_http c) (Some a) (c_baseURL c) (c_retry c) (c_limiter c) (c_userAgent c)
    (c_unsafeRetries c) (c_allowInsecureBaseURL c) (c_optErr c) (c_logger c) (c_onReq c) (c_onResp c).
Definition set_baseURL (u : URL) (c : Client W) : Client W :=
  mkClient (c_http c) (c_auth c) (Some u) (c_retry c) (c_limiter c) (c_userAgent c)
    (c_unsafeRetries c) (c_allowInsecureBaseURL c) (c_optErr c) (c_logger c) (c_onReq c) (c_onResp c).
Definition set_retry (r : retryPolicy) (c : Client W) : Client W :=
  mkClient (c_http c) (c_auth c) (c_baseURL c) r (c_limiter c) (c_userAgent c)
    (c_unsafeRetries c) (c_allowInsecureBaseURL c) (c_optErr c) (c_logger c) (c_onReq c) (c_onResp c).
Definition set_limiter (l : RateLimiter W) (c : Client W) : Client W :=
  mkClient (c_http c) (c_auth c) (c_baseURL c) (c_retry c) (Some l) (c_userAgent c)
    (c_unsafeRetries c) (c_allowInsecureBaseURL c) (c_optErr c) (c_logger c) (c_onReq c) (c_onResp c).
Definition set_userAgent (ua : string) (c : Client W) : Client W :=
  mkClient (c_http c) (c_auth c) (c_baseURL c) (c_retry c) (c_limiter c) ua
    (c_unsafeRetries c) (c_allowInsecureBaseURL c) (c_optErr c) (c_logger c) (c_onReq c) (c_onResp c).
Definition set_unsafe (b : bool) (c : Client W) : Client W :=
  mkClient (c_http c) (c_auth c) (c_baseURL c) (c_retry c) (c_limiter c) (c_userAgent c)
    b (c_allowInsecureBaseURL c) (c_optErr c) (c_logger c) (c_onReq c) (c_onResp c).
Definition set_allow (b : bool) (c : Client W) : Client W :=
  mkClient (c_http c) (c_auth c) (c_baseURL c) (c_retry c) (c_limiter c) (c_userAgent c)
    (c_unsafeRetries c) b (c_optErr c) (c_logger c) (c_onReq c) (c_onResp c).
Definition set_optErr (e : error) (c : Client W) : Client W :=
  mkClient (c_http c) (c_auth c) (c_baseURL c) (c_retry c) (c_limiter c) (c_userAgent c)
    (c_unsafeRetries c) (c_allowInsecureBaseURL c) (Some e) (c_logger c) (c_onReq c) (c_onResp c).
Definition set_logger (l : LogEvent → W → W) (c : Client W) : Client W :=
  mkClient (c_http c) (c_auth c) (c_baseURL c) (c_retry c) (c_limiter c) (c_userAgent c)
    (c_unsafeRetries c) (c_allowInsecureBaseURL c) (c_optErr c) (Some l) (c_onReq c) (c_onResp c).

(** ** The options *)

Definition WithHTTPClient (hc : option (HTTPDoer W)) : Option_ :=
  λ c, match hc with None => c | Some hc => set_http hc c end.

Definition WithHTTPDoer (d : option (HTTPDoer W)) : Option_ :=
  λ c, match d with None => c | Some d => set_http d c end.

(** [dialer] is how a fresh standard client sends through its transport. *)
Definition WithRoundTripper
    (dialer : option (Request → W → result Response * W) → Request → W → result Response * W)
    (rt : option (Request → W → result Response * W)) : Option_ :=
  λ c, match rt with
       | None => c
       | Some rt =>
           match c_http c with
           | StdClient send _ => set_http (StdClient send (Some rt)) c
           | OtherDoer _ => set_http (StdClient dialer (Some rt)) c
           end
       end.

Definition WithAuth (a : option (Request → W → option error * Request * W)) : Option_ :=
  λ c, match a with None => c | Some a => set_auth a c end.

Definition WithLogger (l : option (LogEvent → W → W)) : Option_ :=
  λ c, match l with None => c | Some l => set_logger l c end.

Definition WithRequestHook (fn : option (Request → W → Request * W)) : Option_ :=
  λ c, match fn with None => c | Some fn => set_onReq (Some fn) c end.

Definition WithResponseHook (fn : option (RespHook W)) : Option_ :=
  λ c, match fn with None => c | Some fn => set_onResp (Some fn) c end.

Definition isInsecureBaseURL (uri : string) : bool :=
  match url_Parse uri with
  | None => false
  | Some u =>
      if String.eqb (Scheme u) "https" || String.eqb (Scheme u) "" then false
      else
        let host := url_Hostname u in
        if String.eqb host "localhost" then false
        else if ip_IsLoopback host then false
        else true
  end.

Definition SetBaseURL (uri : string) : Option_ :=
  λ c, match url_Parse uri with
       | None => match c_optErr c with
                 | None => set_optErr (EWrap "%w: parse" (ENew ErrInvalidURL)) c
                 | Some _ => c
                 end
       | Some u => set_baseURL u c
       end.

Definition WithBaseURL (uri : string) : Option_ :=
  λ c, if isInsecureBaseURL uri && negb (c_allowInsecureBaseURL c)
       then set_optErr (EWrap "%w: got %q" (ENew ErrInsecureBaseURL)) c
       else SetBaseURL uri c.

Definition WithInsecureBaseURL (allow : bool) : Option_ := set_allow allow.

Definition WithRetry (attempts base max : Z) : Option_ :=
  λ c, if attempts =? 0 then set_retry defaultRetry c
       else
         let r := c_retry c in
         let b := if 0 <? base then base
                  else if baseDelay r =? 0 then baseDelay defaultRetry else baseDelay r in
         let m := if 0 <? max then max
                  else if maxDelay r =? 0 then maxDelay defaultRetry else maxDelay r in
         set_retry (mkRetry attempts b m) c.

Definition WithUserAgent (ua : string) : Option_ :=
  λ c, if String.eqb ua "" then c else set_userAgent ua c.

Definition WithUnsafeRetries (enabled : bool) : Option_ := set_unsafe enabled.

Definition WithRateLimiter (l : option (RateLimiter W)) : Option_ :=
  λ c, match l with None => c | Some l => set_limiter l c end.

(** ** New *)

Definition Public_SetAuth (r : Request) (w : W) : option error * Request * W := (None, r, w).

Definition base_client (http : HTTPDoer W) : Client W :=
  mkClient http (Some Public_SetAuth) (url_Parse defaultBaseURL) (mkRetry 0 0 0) None ""
    false false None None None None.

Definition apply_options (opts : list Option_) (c : Client W) : Client W :=
  fold_left (λ c opt, opt c) opts c.

(** [http] is the [&http.Client{}] the client starts from. *)
Definition New (http : HTTPDoer W) (opts : list Option_) : Client W :=
  let c := base_client http in
  let probe := apply_options opts c in
  apply_options opts (set_allow (c_allowInsecureBaseURL probe) c).

(** ** The options of the SDK

    [SDKOption f eff]: [f] is one of the options above; [eff] tells what it
    says about base URLs. *)
Inductive effect := NoEffect | Allows (b : bool) | Base (uri : string).

Inductive SDKOption : effect → (Client W → Client W) → Prop :=
| opt_HTTPClient hc : SDKOption NoEffect (WithHTTPClient hc)
| opt_HTTPDoer d : SDKOption NoEffect (WithHTTPDoer d)
| opt_RoundTripper dialer rt : SDKOption NoEffect (WithRoundTripper dialer rt)
| opt_Auth a : SDKOption NoEffect (WithAuth a)
| opt_Logger l : SDKOption NoEffect (WithLogger l)
| opt_RequestHook fn : SDKOption NoEffect (WithRequestHook fn)
| opt_ResponseHook fn : SDKOption NoEffect (WithResponseHook fn)
| opt_Retry n b m : SDKOption NoEffect (WithRetry n b m)
| opt_UserAgent ua : SDKOption NoEffect (WithUserAgent ua)
| opt_UnsafeRetries b : SDKOption NoEffect (WithUnsafeRetries b)
| opt_RateLimiter l : SDKOption NoEffect (WithRateLimiter l)
| opt_Insecure b : SDKOption (Allows b) (WithInsecureBaseURL b)
| opt_BaseURL uri : SDKOption (Base uri) (WithBaseURL uri).

(** A base URL the guard lets through. *)
Definition secure_base (u : URL) : Prop :=
  ∃ uri, url_Parse uri = Some u ∧ isInsecureBaseURL uri = false.

(** ** Lemmas *)

Lemma NoEffect_frame f c : SDKOption NoEffect f →
  c_baseURL (f c) = c_baseURL c ∧ c_optErr (f c) = c_optErr c ∧
  c_allowInsecureBaseURL (f c) = c_allowInsecureBaseURL c.
Proof.
  inversion 1; unfold WithHTTPClient, WithHTTPDoer, WithRoundTripper, WithAuth, WithLogger,
    WithRequestHook, WithResponseHook, WithRetry, WithUserAgent, WithUnsafeRetries, WithRateLimiter;
    repeat case_match; done.
Qed.

Lemma WithBaseURL_allow uri c :
  c_allowInsecureBaseURL (WithBaseURL uri c) = c_allowInsecureBaseURL c.
Proof. unfold WithBaseURL, SetBaseURL. repeat case_match; done. Qed.

(** When no option says otherwise, the flag keeps the value [b]. *)
Lemma apply_allow b effs opts c :
  Forall2 SDKOption effs opts → c_allowInsecureBaseURL c = b →
  Forall (λ e, ∀ b', e = Allows b' → b' = b) effs →
  c_allowInsecureBaseURL (apply_options opts c) = b.
Proof.
  intros Hf. revert c. induction Hf as [|e f effs opts Ho Hf IH]; intros c Hc Hall; [done|].
  apply Forall_cons in Hall as [He Hall]. simpl. apply IH; [|done].
  destruct e as [|b'|uri].
  - by destruct (NoEffect_frame f c Ho) as (_ & _ & ->).
  - inversion Ho; subst. by apply He.
  - inversion Ho; subst. apply WithBaseURL_allow.
Qed.

(** The invariant of the second pass when insecure URLs are not allowed. *)
Lemma apply_secure effs opts c :
  Forall2 SDKOption effs opts → Forall (λ e, e ≠ Allows true) effs →
  c_allowInsecureBaseURL c = false →
  (∀ u, c_baseURL c = Some u → secure_base u) →
  (∀ u, c_baseURL (apply_options opts c) = Some u → secure_base u) ∧
  ((∃ e, c_optErr c = Some e ∧ errors_Is e ErrInsecureBaseURL = true) ∨
   Exists (λ e, ∃ uri, e = Base uri ∧ isInsecureBaseURL uri = true) effs →
   ∃ e, c_optErr (apply_options opts c) = Some e ∧ errors_Is e ErrInsecureBaseURL = true).
Proof.
  intros Hf. revert c. induction Hf as [|e f effs opts Ho Hf IH]; intros c Hall Hc Hb.
  { split; [done|]. intros [He|Hx]; [done|inversion Hx]. }
  apply Forall_cons in Hall as [He Hall]. simpl.
  assert (c_allowInsecureBaseURL (f c) = false ∧ (∀ u, c_baseURL (f c) = Some u → secure_base u) ∧
          ((∃ e, c_optErr c = Some e ∧ errors_Is e ErrInsecureBaseURL = true) ∨
           (∃ uri, e = Base uri ∧ isInsecureBaseURL uri = true) →
           ∃ e, c_optErr (f c) = Some e ∧ errors_Is e ErrInsecureBaseURL = true)) as (H1 & H2 & H3).
  { destruct e as [|b'|uri].
    - destruct (NoEffect_frame f c Ho) as (-> & -> & ->). split; [done|]. split; [done|].
      intros [?|(uri & ? & _)]; done.
    - inversion Ho; subst. split; [by destruct b'|]. split; [done|]. intros [?|(uri & ? & _)]; done.
    - inversion Ho; subst. rewrite WithBaseURL_allow. split; [done|].
      unfold WithBaseURL. rewrite Hc. simpl. rewrite andb_true_r.
      destruct (isInsecureBaseURL uri) eqn:Hi.
      + split; [done|]. intros _. by eexists.
      + unfold SetBaseURL. destruct (url_Parse uri) as [u|] eqn:Hu; simpl.
        * split; [|intros [?|(uri' & [= <-] & ?)]; [done|congruence]].
          intros u' [= <-]. by exists uri.
        * destruct (c_optErr c) as [e|] eqn:Hoe; (split; [done|]).
          -- rewrite Hoe. intros [?|(uri' & [= <-] & ?)]; [done|congruence].
          -- intros [(e' & ? & _)|(uri' & [= <-] & ?)]; [done|congruence]. }
  destruct (IH (f c) Hall H1 H2) as [IH1 IH2]. split; [done|].
  intros [Hx|Hx]; apply IH2.
  - left. apply H3. by left.
  - apply Exists_cons in Hx as [Hx|Hx]; [|by right]. left. apply H3. by right.
Qed.

Lemma allow_frozen b effs opts opts' c :
  Forall2 SDKOption effs opts → c_allowInsecureBaseURL c = b →
  Forall (λ e, ∀ b', e = Allows b' → b' = b) effs →
  apply_options (opts ++ WithInsecureBaseURL b :: opts') c = apply_options (opts ++ opts') c.
Proof.
  intros Hf Hc Hall. unfold apply_options. rewrite !fold_left_app. simpl.
  pose proof (apply_allow b effs opts c Hf Hc Hall) as Hx. unfold apply_options in Hx.
  set (c' := fold_left _ opts c) in *. f_equal. unfold WithInsecureBaseURL, set_allow.
  rewrite <- Hx. by destruct c'.
Qed.

End Options.

(** ** Properties *)

(** C28: a client built from the SDK's options, none of them
    [WithInsecureBaseURL(true)], never holds a base URL the guard rejects (a
    scheme other than https on a host that is not a loopback), and one such URL
    among the options makes every [Do] fail with [ErrInsecureBaseURL] before
    anything is sent, wherever it stands in the list. *)
Theorem New_secure {W} `{World W} `{NetLib} effs opts http {A} ua req (v : target W A) exp w :
  Forall2 (SDKOption (W := W)) effs opts →
  Forall (λ e, e ≠ Allows true) effs →
  isInsecureBaseURL defaultBaseURL = false →
  (∀ u, c_baseURL (New http opts) = Some u → secure_base u) ∧
  (Exists (λ e, ∃ uri, e = Base uri ∧ isInsecureBaseURL uri = true) effs →
   ∃ e, Do (New http opts) ua req v exp w = (Err e, w) ∧ errors_Is e ErrInsecureBaseURL = true).
Proof.
  intros Hf Hall Hdef.
  assert (Forall (λ e, ∀ b, e = Allows b → b = false) effs) as Hall'.
  { eapply Forall_impl; [exact Hall|]. intros e He [|] ->; [by destruct He|done]. }
  assert (c_allowInsecureBaseURL (apply_options opts (base_client http)) = false) as Hp
    by by apply (apply_allow false effs).
  unfold New. rewrite Hp.
  destruct (apply_secure effs opts (set_allow false (base_client http)) Hf Hall eq_refl) as [H1 H2].
  { intros u Hu. by exists defaultBaseURL. }
  split; [done|]. intros Hx. destruct H2 as (e & He & Hi); [by right|].
  exists e. split; [|done]. unfold Do, resolve. by rewrite He.
Qed.

Definition opt_netlib : NetLib := {|
  http_ParseTime _ := None;
  url_Parse s := if String.eqb s "http://evil.example" then Some (mkURL "http" "evil.example" "" "")
                 else if String.eqb s "https://api.monobank.ua" then Some (mkURL "https" "api.monobank.ua" "" "")
                 else None;
  url_String u := Path u; url_ResolveReference b u := b;
  url_Hostname u := Host u; ip_IsLoopback _ := false; json_errorBody _ := None |}.

Lemma New_secure_witness :
  let opts := [WithRetry 3 0 0; WithBaseURL (H0 := opt_netlib) "http://evil.example"; WithUnsafeRetries (W := Net) true] in
  let w := mkNet [ok_200 "{}"] [] 0 in
  ∃ e, Do (H0 := opt_netlib) (New (H0 := opt_netlib) (OtherDoer net_send) opts) "sdk" (Some (post "/x"))
         (@TBytes Net string) [] w = (Err e, w) ∧ errors_Is e ErrInsecureBaseURL = true.
Proof.
  intros opts w.
  apply (New_secure (H0 := opt_netlib) [NoEffect; Base "http://evil.example"; NoEffect] opts (OtherDoer net_send)
           "sdk" (Some (post "/x")) (@TBytes Net string) [] w).
  - repeat constructor.
  - by repeat constructor.
  - by vm_compute.
  - apply Exists_cons_tl, Exists_cons_hd. exists "http://evil.example". split; [done|by vm_compute].
Defined.

(** The place of [WithInsecureBaseURL] in the list does not matter as long
    as every occurrence carries the same value: moving it to the front builds
    the same client. *)
Theorem New_order {W} `{World W} `{NetLib} b effs1 effs2 opts1 opts2 http :
  Forall2 (SDKOption (W := W)) effs1 opts1 → Forall2 (SDKOption (W := W)) effs2 opts2 →
  Forall (λ e, ∀ b', e = Allows b' → b' = b) (effs1 ++ effs2) →
  New http (opts1 ++ WithInsecureBaseURL b :: opts2) = New http (WithInsecureBaseURL b :: opts1 ++ opts2).
Proof.
  intros H1 H2 Hall. apply Forall_app in Hall as [Ha1 Ha2]. unfold New.
  set (c := base_client http).
  assert (c_allowInsecureBaseURL (apply_options (opts1 ++ WithInsecureBaseURL b :: opts2) c) = b) as ->.
  { unfold apply_options. rewrite fold_left_app. simpl.
    by apply (apply_allow b effs2 opts2 (WithInsecureBaseURL b (fold_left (λ c opt, opt c) opts1 c))). }
  assert (c_allowInsecureBaseURL (apply_options (WithInsecureBaseURL b :: opts1 ++ opts2) c) = b) as ->.
  { simpl. apply (apply_allow b (effs1 ++ effs2) (opts1 ++ opts2) (WithInsecureBaseURL b c)).
    - by apply Forall2_app.
    - done.
    - by apply Forall_app. }
  rewrite (allow_frozen b effs1) by done. reflexivity.
Qed.

Lemma New_order_witness :
  New (H0 := opt_netlib) (OtherDoer net_send) ([WithBaseURL (H0 := opt_netlib) "http://evil.example"] ++ WithInsecureBaseURL (W := Net) true :: [])
  = New (H0 := opt_netlib) (OtherDoer net_send) (WithInsecureBaseURL true :: [WithBaseURL (H0 := opt_netlib) "http://evil.example"] ++ []).
Proof.
  apply (New_order (H0 := opt_netlib) true [Base "http://evil.example"] []).
  - repeat constructor.
  - constructor.
  - by repeat constructor.
Defined.

(** With conflicting values the order does matter: switching insecure URLs
    on, setting one, and switching them off again yields a client that holds
    the insecure URL and reports no error, although the flag in force is off,
    while the same options with the URL first yield the error. *)
Theorem New_order_conflict {W} `{World W} `{NetLib} uri u http :
  isInsecureBaseURL uri = true → url_Parse uri = Some u →
  let leak := New http [WithInsecureBaseURL (W := W) true; WithBaseURL uri; WithInsecureBaseURL false] in
  let safe := New http [WithBaseURL uri; WithInsecureBaseURL (W := W) true; WithInsecureBaseURL false] in
  c_baseURL leak = Some u ∧ c_optErr leak = None ∧ c_allowInsecureBaseURL leak = false ∧
  c_optErr safe ≠ None.
Proof.
  intros Hi Hu leak safe. unfold leak, safe, New, apply_options. simpl.
  unfold WithBaseURL, SetBaseURL. rewrite !Hi. simpl. rewrite !Hu. simpl. done.
Qed.

Lemma New_order_conflict_witness :
  let leak := New (H0 := opt_netlib) (OtherDoer net_send)
     [WithInsecureBaseURL (W := Net) true; WithBaseURL (H0 := opt_netlib) "http://evil.example"; WithInsecureBaseURL false] in
  c_baseURL leak = Some (mkURL "http" "evil.example" "" "") ∧ c_optErr leak = None.
Proof.
  intros leak.
  destruct (New_order_conflict (W := Net) (H0 := opt_netlib) "http://evil.example" (mkURL "http" "evil.example" "" "")
              (OtherDoer net_send) eq_refl eq_refl) as (H1 & H2 & _).
  split; [exact H1|exact H2].
Defined.

(** An option error is sticky: whatever good base URL is set afterwards,
    every [Do] keeps failing with the first error and sends nothing. *)
Theorem SetBaseURL_sticky {W} `{World W} `{NetLib} {A} (c : Client W) bad goods ua req (v : target W A) exp w :
  url_Parse bad = None →
  ∃ e, Do (apply_options (map SetBaseURL goods) (SetBaseURL bad c)) ua req v exp w = (Err e, w) ∧
       c_optErr (SetBaseURL bad c) = Some e.
Proof.
  intros Hb.
  assert (∃ e, c_optErr (SetBaseURL bad c) = Some e) as [e He].
  { unfold SetBaseURL. rewrite Hb. destruct (c_optErr c) eqn:Hc; [by eexists|by eexists]. }
  exists e. split; [|done].
  assert (∀ c' : Client W, c_optErr c' = Some e → c_optErr (apply_options (map SetBaseURL goods) c') = Some e) as Hk.
  { induction goods as [|g goods IH]; intros c' Hc'; [done|]. simpl. apply IH.
    unfold SetBaseURL. rewrite Hc'. by case_match. }
  unfold Do, resolve. by rewrite (Hk _ He).
Qed.

Lemma SetBaseURL_sticky_witness :
  ∃ e, Do (H0 := opt_netlib) (apply_options (map (SetBaseURL (H0 := opt_netlib)) ["https://api.monobank.ua"])
           (SetBaseURL (H0 := opt_netlib) "::" (net_client false None))) "sdk" None (@TBytes Net string) []
           (mkNet [] [] 0) = (Err e, mkNet [] [] 0).
Proof.
  destruct (SetBaseURL_sticky (H0 := opt_netlib) (net_client false None) "::" ["https://api.monobank.ua"] "sdk" None
              (@TBytes Net string) [] (mkNet [] [] 0) eq_refl) as (e & He & _).
  exists e. exact He.
Defined.
