(* ===== verification/Limiter.v ===== *)
(** * Rate limiting (ratelimit.go)

    The token bucket and the per-key buckets with their sweeper.  The bucket
    counts tokens in [float64]; its operations go through a small interface so
    that the same definitions run on IEEE doubles, as the code does, and on
    rationals, where the bound on the rate is proved.  Every critical section of
    the mutex is one step, so a sequence of steps is an interleaving of callers. *)
From Stdlib Require Import QArith Qround Lqa.
From S2P Require Import Prelude GoString GoFloat Errors GoHttp Retry Client.
#[local] Open Scope Z_scope.

(** ** Numbers *)

Class Num (R : Type) := {
  n_of_Z : Z → R;
  n_add : R → R → R;
  n_sub : R → R → R;
  n_mul : R → R → R;
  n_div : R → R → R;
  n_lt : R → R → bool;        (* x < y *)
  n_le : R → R → bool;        (* x <= y *)
  n_trunc : R → Z             (* int64(x) *)
}.

#[export] Instance float_num `{GoArch} : Num float64 := {|
  n_of_Z := float64_of_Z; n_add := f_add; n_sub := f_sub; n_mul := f_mul; n_div := f_div;
  n_lt := f_lt; n_le := f_le; n_trunc := int64_of_float
|}.

#[export] Instance rational_num : Num Q := {|
  n_of_Z := inject_Z; n_add := Qplus; n_sub := Qminus; n_mul := Qmult; n_div := Qdiv;
  n_lt x y := negb (Qle_bool y x); n_le := Qle_bool; n_trunc := Qfloor
|}.

(** ** Limiter *)

Section Bucket.
Context {R : Type} `{Num R}.

Record Limiter := mkLimiter { every : Z; burst : Z; tokens : R; last_refill : Z }.

(** [time.Now()] is [now]. *)
Definition NewLimiter (every burst now : Z) : Limiter :=
  let burst := if burst <? 1 then 1 else burst in
  mkLimiter every burst (n_of_Z burst) now.

(** The critical section of [Wait]: a grant, or how long to wait. *)
Definition take_token (l : Limiter) (now : Z) : option Z * Limiter :=
  let elapsed := time_Sub now (last_refill l) in
  let t := n_add (tokens l) (n_div (n_of_Z elapsed) (n_of_Z (every l))) in
  let t := if n_lt (n_of_Z (burst l)) t then n_of_Z (burst l) else t in
  if n_le (n_of_Z 1) t then (None, mkLimiter (every l) (burst l) (n_sub t (n_of_Z 1)) now)
  else
    let need := n_sub (n_of_Z 1) t in
    (Some (n_trunc (n_mul need (n_of_Z (every l)))), mkLimiter (every l) (burst l) t now).

(** [Wait] on a limiter of its own; another caller's steps would come between
    two iterations. *)
Fixpoint wait_loop {W} `{World W} (fuel : nat) (l : Limiter) (w : W) : option (option error * Limiter * W) :=
  match fuel with
  | O => None
  | S fuel =>
      let '(t, w) := now w in
      match take_token l t with
      | (None, l) => Some (None, l, w)
      | (Some d, l) =>
          match wait d w with
          | (Some e, w) => Some (Some e, l, w)
          | (None, w) => wait_loop fuel l w
          end
      end
  end.

Definition Wait {W} `{World W} (fuel : nat) (l : Limiter) (w : W) : option (option error * Limiter * W) :=
  match ctx_Err w with
  | Some e => Some (Some e, l, w)
  | None => if every l <=? 0 then Some (None, l, w) else wait_loop fuel l w
  end.

(** ** KeyedLimiter *)

Record keyedBucket := mkBucket { lim : Limiter; lastAccess : Z }.

Record KeyedLimiter := mkKeyed {
  k_every : Z; k_burst : Z; idleTTL : Z; limiters : gmap string keyedBucket; stopped : bool
}.

(** The second component: the sweeper goroutine is started. *)
Definition NewKeyedLimiter (every burst idleTTL : Z) : KeyedLimiter * bool :=
  (mkKeyed every (if burst <? 1 then 1 else burst) idleTTL ∅ false, 0 <? idleTTL).

Definition Stop (k : KeyedLimiter) : KeyedLimiter :=
  mkKeyed (k_every k) (k_burst k) (idleTTL k) (limiters k) true.

(** The period of the sweeper's ticker. *)
Definition sweep_interval (k : KeyedLimiter) : Z :=
  let interval := Z.quot (idleTTL k) 2 in if interval <? Second then Second else interval.

Definition evictIdle (k : KeyedLimiter) (now : Z) : KeyedLimiter :=
  mkKeyed (k_every k) (k_burst k) (idleTTL k)
    (filter (λ '(_, b), ¬ idleTTL k < time_Sub now (lastAccess b)) (limiters k)) (stopped k).

(** [bucket], with the two readings of the clock at [now]. *)
Definition bucket (k : KeyedLimiter) (key : string) (now : Z) : keyedBucket * KeyedLimiter :=
  let b := default (mkBucket (NewLimiter (k_every k) (k_burst k) now) now) (limiters k !! key) in
  let b := mkBucket (lim b) now in
  (b, mkKeyed (k_every k) (k_burst k) (idleTTL k) (<[key := b]> (limiters k)) (stopped k)).

(** One attempt of [WaitKey] at [now]; the bucket is shared, so its new state is
    stored under its key. *)
Definition WaitKey_step (k : KeyedLimiter) (key : string) (now : Z) : option Z * KeyedLimiter :=
  let '(b, k) := bucket k key now in
  if every (lim b) <=? 0 then (None, k)
  else
    let '(r, l) := take_token (lim b) now in
    (r, mkKeyed (k_every k) (k_burst k) (idleTTL k) (<[key := mkBucket l now]> (limiters k)) (stopped k)).

End Bucket.
Arguments Limiter R : clear implicits.
Arguments KeyedLimiter R : clear implicits.
Arguments keyedBucket R : clear implicits.

(** ** Interleavings

    The instants at which the callers enter the critical section, in order. *)
Fixpoint attempts {R} `{Num R} (l : Limiter R) (ts : list Z) : list bool * Limiter R :=
  match ts with
  | [] => ([], l)
  | t :: ts =>
      let '(r, l) := take_token l t in
      let '(rs, l) := attempts l ts in
      (negb (isSome r) :: rs, l)
  end.

Definition granted (rs : list bool) : nat := length (filter (λ b, b = true) rs).

(** ** Lemmas *)

(** A bucket between its bounds. *)
Definition bucket_ok (l : Limiter Q) : Prop :=
  0 < every l ∧ 1 <= burst l ∧ (0 <= tokens l)%Q ∧ (tokens l <= inject_Z (burst l))%Q.

(** The refill, before the cap. *)
Definition refill (l : Limiter Q) (now : Z) : Q :=
  (tokens l + inject_Z (now - last_refill l) / inject_Z (every l))%Q.

Lemma inj_lt a b : a < b → (inject_Z a < inject_Z b)%Q.
Proof. unfold Qlt, inject_Z. cbn. lia. Qed.

Lemma inj_le a b : a <= b → (inject_Z a <= inject_Z b)%Q.
Proof. unfold Qle, inject_Z. cbn. lia. Qed.

Lemma Qfrac_nonneg a b : 0 <= a → 0 < b → (0 <= inject_Z a / inject_Z b)%Q.
Proof.
  intros Ha Hb. apply Qle_shift_div_l; [by apply (inj_lt 0)|]. rewrite Qmult_0_l. by apply (inj_le 0).
Qed.

Lemma n_lt_spec (x y : Q) : if n_lt x y then (x < y)%Q else (y <= x)%Q.
Proof.
  cbn. destruct (Qle_bool y x) eqn:Hq; cbn; [by apply Qle_bool_iff|].
  apply Qnot_le_lt. intros Hle. apply Qle_bool_iff in Hle. congruence.
Qed.

Lemma n_le_spec (x y : Q) : if n_le x y then (x <= y)%Q else (y < x)%Q.
Proof.
  cbn. destruct (Qle_bool x y) eqn:Hq; cbn; [by apply Qle_bool_iff|].
  apply Qnot_le_lt. intros Hle. apply Qle_bool_iff in Hle. congruence.
Qed.

Lemma Qfloor_need (t : Q) e : (0 <= t)%Q → (t < 1)%Q → 0 < e → 0 <= Qfloor ((1 - t) * inject_Z e) <= e.
Proof.
  intros H0 H1 He. assert (0 < inject_Z e)%Q as Hq by (by apply (inj_lt 0)).
  assert (0 <= (1 - t) * inject_Z e)%Q as Hl by (apply Qmult_le_0_compat; lra).
  assert ((1 - t) * inject_Z e <= 1 * inject_Z e)%Q as Hu by (apply Qmult_le_compat_r; lra).
  pose proof (Qfloor_resp_le _ _ Hl) as Hl'. pose proof (Qfloor_resp_le _ _ Hu) as Hu'.
  rewrite Qmult_1_l, Qfloor_Z in Hu'. change 0%Q with (inject_Z 0) in Hl'. rewrite Qfloor_Z in Hl'. lia.
Qed.

Lemma take_token_spec l t :
  bucket_ok l → last_refill l <= t → in64 (t - last_refill l) →
  let '(r, l') := take_token l t in
  every l' = every l ∧ burst l' = burst l ∧ last_refill l' = t ∧ bucket_ok l' ∧
  match r with
  | None => (tokens l' + 1 <= refill l t)%Q ∧ (tokens l' + 1 <= inject_Z (burst l))%Q
  | Some d => (tokens l' <= refill l t)%Q ∧ (refill l t <= tokens l')%Q ∧ (refill l t < 1)%Q ∧ 0 <= d <= every l ∧
              d = Qfloor ((1 - tokens l') * inject_Z (every l))
  end.
Proof.
  intros (He & Hb & H0 & H1) Ht Hin. unfold take_token, time_Sub. rewrite sat64_id by done.
  change (n_add (tokens l) _) with (refill l t). cbv zeta.
  pose proof (Qfrac_nonneg (t - last_refill l) (every l) ltac:(lia) He) as Hf.
  assert (1 <= inject_Z (burst l))%Q as Hb1 by (by apply (inj_le 1)).
  assert (0 <= refill l t)%Q as Hr0 by (unfold refill; lra).
  set (t' := if n_lt (n_of_Z (burst l)) (refill l t) then n_of_Z (burst l) else refill l t).
  assert (0 <= t' ∧ t' <= refill l t ∧ t' <= inject_Z (burst l) ∧ (t' < 1 → t' == refill l t))%Q as (Ht0 & Htr & Htb & Hte).
  { unfold t'. pose proof (n_lt_spec (n_of_Z (burst l)) (refill l t)) as Hl.
    destruct (n_lt (n_of_Z (burst l)) (refill l t)); cbn in *; split_and!; try lra; intros; lra. }
  pose proof (n_le_spec (n_of_Z 1) t') as Hle. destruct (n_le (n_of_Z 1) t'); cbn [every burst last_refill tokens] in *.
  - change (n_sub t' (n_of_Z 1)) with (t' - 1)%Q. change (n_of_Z 1) with 1%Q in Hle.
    split_and!; try done; unfold bucket_ok; cbn; [split_and!; try done; lra|lra|lra].
  - change (n_of_Z 1) with 1%Q in Hle. specialize (Hte Hle).
    split_and!; try done; unfold bucket_ok; cbn; try (split_and!; try done; lra); try lra;
      by apply Qfloor_need.
Qed.

(** Instants in order, not too far apart for a duration. *)
Fixpoint in_order (t0 : Z) (ts : list Z) : Prop :=
  match ts with [] => True | t :: ts => t0 <= t ∧ in64 (t - t0) ∧ in_order t ts end.

Fixpoint last_instant (t0 : Z) (ts : list Z) : Z := match ts with [] => t0 | t :: ts => last_instant t ts end.

Lemma granted_cons b rs : granted (b :: rs) = ((if b then 1 else 0) + granted rs)%nat.
Proof. unfold granted. destruct b; [by rewrite filter_cons_True|by rewrite filter_cons_False]. Qed.

Lemma attempts_cons {R} `{Num R} (l : Limiter R) t ts :
  (attempts l (t :: ts)).1 = negb (isSome (take_token l t).1) :: (attempts (take_token l t).2 ts).1 ∧
  (attempts l (t :: ts)).2 = (attempts (take_token l t).2 ts).2.
Proof. cbn [attempts]. destruct (take_token l t) as [r l']. cbn [fst snd]. by destruct (attempts l' ts). Qed.

Lemma in_order_app t0 ts1 ts2 : in_order t0 (ts1 ++ ts2) ↔ in_order t0 ts1 ∧ in_order (last_instant t0 ts1) ts2.
Proof. revert t0. induction ts1 as [|t ts1 IH]; intros t0; cbn; [naive_solver|]. rewrite IH. naive_solver. Qed.

(** What a run of attempts keeps. *)
Lemma attempts_ok l ts :
  bucket_ok l → in_order (last_refill l) ts →
  let l' := (attempts l ts).2 in
  bucket_ok l' ∧ every l' = every l ∧ burst l' = burst l ∧ last_refill l' = last_instant (last_refill l) ts.
Proof.
  revert l. induction ts as [|t ts IH]; intros l Hok Ho; [done|]. cbn zeta. rewrite (proj2 (attempts_cons l t ts)).
  destruct Ho as (Ht & Hi & Ho). pose proof (take_token_spec l t Hok Ht Hi) as Hs.
  destruct (take_token l t) as [r l1]. cbn [fst snd]. destruct Hs as (He & Hb & Hl & Hok' & _).
  destruct (IH l1 Hok' ltac:(by rewrite Hl)) as (Hok2 & He2 & Hb2 & Hl2). cbn. rewrite He2, Hb2, Hl2, He, Hb, Hl. done.
Qed.

Lemma Qdiv_split a b e : 0 < e → (inject_Z (a + b) / inject_Z e == inject_Z a / inject_Z e + inject_Z b / inject_Z e)%Q.
Proof.
  intros He. rewrite inject_Z_plus. field. intros Hz. pose proof (inj_lt 0 e He) as Hl. rewrite Hz in Hl. by apply Qlt_irrefl in Hl.
Qed.

(** The grants of a run, paid for by the tokens there were and those that came. *)
Lemma attempts_bound l ts :
  bucket_ok l → in_order (last_refill l) ts →
  (inject_Z (Z.of_nat (granted (attempts l ts).1)) <=
     tokens l + inject_Z (last_instant (last_refill l) ts - last_refill l) / inject_Z (every l))%Q.
Proof.
  revert l. induction ts as [|t ts IH]; intros l Hok Ho.
  { destruct Hok as (He & _ & H0 & _). cbn [last_instant]. pose proof (Qfrac_nonneg 0 (every l) ltac:(lia) He).
    rewrite Z.sub_diag. change (inject_Z (Z.of_nat _)) with 0%Q. lra. }
  rewrite (proj1 (attempts_cons l t ts)). rewrite granted_cons.
  destruct Ho as (Ht & Hi & Ho). pose proof (take_token_spec l t Hok Ht Hi) as Hs.
  destruct Hok as (He & _).
  destruct (take_token l t) as [r l1]. cbn [fst snd last_instant]. destruct Hs as (He1 & Hb1 & Hl1 & Hok1 & Hr).
  pose proof (IH l1 Hok1 ltac:(by rewrite Hl1)) as Hind. rewrite He1, Hl1 in Hind.
  pose proof (Qdiv_split (last_instant t ts - t) (t - last_refill l) (every l) He) as Hd.
  replace (last_instant t ts - t + (t - last_refill l)) with (last_instant t ts - last_refill l) in Hd by lia.
  rewrite Hd. rewrite Nat2Z.inj_add, inject_Z_plus. unfold refill in Hr.
  destruct r as [d|]; cbn [isSome negb]; change (inject_Z (Z.of_nat 0)) with 0%Q; change (inject_Z (Z.of_nat 1)) with 1%Q;
    destruct Hr as (Hr1 & Hr2); lra.
Qed.

(** The grants of a run that starts with an attempt at [t]. *)
Lemma attempts_window l t ts :
  bucket_ok l → in_order (last_refill l) (t :: ts) →
  (inject_Z (Z.of_nat (granted (attempts l (t :: ts)).1)) <=
     inject_Z (burst l) + inject_Z (last_instant t ts - t) / inject_Z (every l))%Q.
Proof.
  intros Hok (Ht & Hi & Ho). rewrite (proj1 (attempts_cons l t ts)), granted_cons.
  pose proof (take_token_spec l t Hok Ht Hi) as Hs.
  destruct (take_token l t) as [r l1]. cbn [fst snd]. destruct Hs as (He1 & Hb1 & Hl1 & Hok1 & Hr).
  pose proof (attempts_bound l1 ts Hok1 ltac:(by rewrite Hl1)) as Hb. rewrite He1, Hl1 in Hb.
  destruct Hok1 as (_ & _ & _ & Hcap). rewrite Hb1 in Hcap. rewrite Nat2Z.inj_add, inject_Z_plus.
  destruct r as [d|]; cbn [isSome negb]; change (inject_Z (Z.of_nat 0)) with 0%Q; change (inject_Z (Z.of_nat 1)) with 1%Q;
    destruct Hr as (Hr1 & Hr2); lra.
Qed.

Lemma NewLimiter_ok every burst now : 0 < every → bucket_ok (NewLimiter every burst now).
Proof.
  intros He. unfold NewLimiter. assert (1 <= (if burst <? 1 then 1 else burst)) as Hb by (case_match; lia).
  split_and!; cbn; try done; [apply (inj_le 0); lia|apply Qle_refl].
Qed.

(** An attempt on a bucket that has had time to fill up. *)
Lemma take_full (l : Limiter Q) now :
  1 <= burst l → in64 (now - last_refill l) → (inject_Z (burst l) <= refill l now)%Q →
  (take_token l now).1 = None ∧ (tokens (take_token l now).2 == inject_Z (burst l) - 1)%Q ∧
  last_refill (take_token l now).2 = now.
Proof.
  intros Hb Hli Hlf. assert (1 <= inject_Z (burst l))%Q as Hb1 by (by apply (inj_le 1)).
  unfold take_token, time_Sub. rewrite sat64_id by done. change (n_add (tokens l) _) with (refill l now). cbv zeta.
  pose proof (n_lt_spec (n_of_Z (burst l)) (refill l now)) as Hlt.
  set (t' := if n_lt (n_of_Z (burst l)) (refill l now) then n_of_Z (burst l) else refill l now).
  assert (t' == inject_Z (burst l))%Q as Ht'.
  { unfold t'. destruct (n_lt (n_of_Z (burst l)) (refill l now)); cbn in *; lra. }
  pose proof (n_le_spec (n_of_Z 1) t') as Hge. destruct (n_le (n_of_Z 1) t'); change (n_of_Z 1) with 1%Q in Hge; [|lra].
  split_and!; [done| |done]. cbn [tokens snd]. change (n_sub t' (n_of_Z 1)) with (t' - 1)%Q. lra.
Qed.

(** ** Properties *)

(** In exact arithmetic, in any interleaving of callers on a bucket made by
    [NewLimiter], the grants of any window of time are at most [burst] plus one
    per [every] of the window's length. *)
Theorem limiter_rate every burst now ts1 t ts2 :
  0 < every → in_order now (ts1 ++ t :: ts2) →
  let l := (attempts (NewLimiter (R := Q) every burst now) ts1).2 in
  Z.of_nat (granted (attempts l (t :: ts2)).1) * every <= Z.max 1 burst * every + (last_instant t ts2 - t).
Proof.
  intros He Ho l. apply in_order_app in Ho as [Ho1 Ho2].
  destruct (attempts_ok (NewLimiter every burst now) ts1 (NewLimiter_ok every burst now He) Ho1) as (Hok & Hev & Hbu & Hla).
  fold l in Hok, Hev, Hbu, Hla. cbn in Hla.
  pose proof (attempts_window l t ts2 Hok ltac:(by rewrite Hla)) as Hw. rewrite Hev, Hbu in Hw. cbn [Limiter.every Limiter.burst NewLimiter] in Hw.
  assert ((if burst <? 1 then 1 else burst) = Z.max 1 burst) as Hm by (destruct (Z.ltb_spec burst 1); lia). rewrite Hm in Hw.
  clearbody l. set (g := Z.of_nat _) in *. set (d := last_instant t ts2 - t) in *.
  assert (0 < inject_Z every)%Q as Hq by (by apply (inj_lt 0)).
  apply (Qmult_le_compat_r _ _ (inject_Z every)) in Hw; [|lra].
  rewrite Qmult_plus_distr_l, Qmult_comm in Hw.
  assert (inject_Z d / inject_Z every * inject_Z every == inject_Z d)%Q as Hc by (field; lra).
  rewrite Hc in Hw. rewrite <- !inject_Z_mult, <- inject_Z_plus in Hw. rewrite <- Zle_Qle in Hw. lia.
Qed.

Lemma limiter_rate_witness :
  Z.of_nat (granted (attempts (NewLimiter (R := Q) Minute 1 0) [0; Second; Minute; Minute + 1; 2 * Minute]).1) * Minute
    <= 1 * Minute + 2 * Minute.
Proof. apply (limiter_rate Minute 1 0 [] 0 [Second; Minute; Minute + 1; 2 * Minute]); [done|]. repeat split; vm_compute; done. Defined.

(** A caller that finds no token is told to wait at most [every], and when
    nobody came in between, an attempt after that wait is granted. *)
Theorem limiter_ready (l l' : Limiter Q) t d t' :
  bucket_ok l → last_refill l <= t → in64 (t - last_refill l) → take_token l t = (Some d, l') →
  t + d < t' → in64 (t' - t) →
  0 <= d <= every l ∧ (take_token l' t').1 = None.
Proof.
  intros Hok Ht Hi Hs Ht' Hi'. pose proof (take_token_spec l t Hok Ht Hi) as Hsp. rewrite Hs in Hsp.
  destruct Hsp as (He & Hb & Hl & Hok' & _ & _ & _ & Hd & Hfl). split; [done|].
  pose proof (take_token_spec l' t' Hok' ltac:(lia) ltac:(by rewrite Hl)) as Hs'.
  destruct (take_token l' t') as [[d'|] l2]; [|done]. destruct Hs' as (_ & _ & _ & _ & _ & _ & Hlt & _).
  exfalso. unfold refill in Hlt. rewrite He, Hl in Hlt. destruct Hok as (Hpos & _).
  pose proof (Qlt_floor ((1 - tokens l') * inject_Z (every l))) as Hf. rewrite <- Hfl in Hf.
  assert (inject_Z (d + 1) <= inject_Z (t' - t))%Q as Hle by (apply inj_le; lia).
  assert (0 < inject_Z (every l))%Q as Hq by (by apply (inj_lt 0)).
  assert ((1 - tokens l') * inject_Z (every l) < inject_Z (t' - t))%Q as Hn by lra.
  apply (Qlt_shift_div_l _ _ _ Hq) in Hn. lra.
Qed.

Definition drained : Limiter Q := mkLimiter Minute 1 0%Q 0.

Lemma limiter_ready_witness :
  0 <= Minute <= Minute ∧ (take_token (mkLimiter Minute 1 (0 + inject_Z (0 - 0) / inject_Z Minute)%Q 0) (Minute + 1)).1 = None.
Proof.
  apply (limiter_ready drained (mkLimiter Minute 1 (0 + inject_Z (0 - 0) / inject_Z Minute)%Q 0) 0 Minute (Minute + 1));
    try done.
Defined.

(** A clock that moves on with every reading, and timers that fire no sooner than
    asked and at most [late] after. *)
Record Timed {W} `{World W} (clk : W → Z) (late : Z) : Prop := {
  tm_now w : clk w <= (now w).1 < clk (now w).2 ∧ clk (now w).2 <= clk w + late;
  tm_wait d w : 0 <= d → clk w + d <= clk (wait d w).2 <= clk w + d + late;
  tm_alive w : ctx_Err w = None ∧ ∀ d, (wait d w).1 = None
}.

(** C17: a caller with a bucket to itself is served. In exact token arithmetic
    (rationals in place of the code's float64), with a clock that moves on with
    every reading, timers that fire no sooner than asked, and a lateness of
    clock and timers of at most [late] each: while its context lives, [Wait]
    returns a token after at most one sleep, and within [every] plus three
    times [late]. (Two rounds of fuel are enough; the durations fit 64 bits.
    [Wait_float_short] shows what rounding does to an [every] of months.) *)
Theorem Wait_serves {W} `{World W} (clk : W → Z) (late : Z) (l : Limiter Q) (fuel : nat) (w : W)
    (Htimed : Timed clk late) (Hok : bucket_ok l) (Hfuel : (2 <= fuel)%nat) (Hlast : last_refill l <= clk w)
    (Hrange : clk w + every l + 3 * late - last_refill l <= max_int64) :
  ∃ l' w', Wait fuel l w = Some (None, l', w') ∧ clk w' <= clk w + every l + 3 * late.
Proof.
  destruct (tm_alive _ _ Htimed w) as [Hctx _]. pose proof Hok as (He & _).
  destruct fuel as [|[|fuel]]; [lia|lia|]. unfold Wait. rewrite Hctx, (proj2 (Z.leb_gt _ _)) by lia. cbn [wait_loop].
  destruct (tm_now _ _ Htimed w) as [Hn1 Hn2]. destruct (now w) as [t1 w1]. cbn [fst snd] in Hn1, Hn2.
  assert (Hi1 : in64 (t1 - last_refill l)) by (unfold in64, min_int64; lia).
  destruct (take_token l t1) as [[d|] l1] eqn:Ht1; [|eexists _, _; split; [done|lia]].
  pose proof (take_token_spec l t1 Hok ltac:(lia) Hi1) as Hs. rewrite Ht1 in Hs. destruct Hs as (_ & _ & _ & _ & _ & _ & _ & Hd & _).
  destruct (tm_alive _ _ Htimed w1) as [_ Hw]. specialize (Hw d). pose proof (tm_wait _ _ Htimed d w1 ltac:(lia)) as Hw2.
  destruct (wait d w1) as [e w2]. cbn [fst snd] in Hw, Hw2. subst e.
  destruct (tm_now _ _ Htimed w2) as [Hn3 Hn4]. destruct (now w2) as [t2 w3]. cbn [fst snd] in Hn3, Hn4.
  destruct (limiter_ready l l1 t1 d t2 Hok ltac:(lia) Hi1 Ht1) as [_ Hg]; [lia|unfold in64, min_int64; lia|].
  destruct (take_token l1 t2) as [[d2|] l2]; [done|]. eexists _, _. split; [done|]. lia.
Qed.

(** A drained bucket, and a clock that only counts. *)
#[local] Instance counting_world : World Z := {|
  now w := (w, w + 1); rand_Int64N _ w := (0, w); ctx_Err _ := None; wait d w := (None, w + d) |}.

Lemma Wait_serves_witness : ∃ l' w', Wait 2 drained 0 = Some (None, l', w') ∧ w' <= Minute + 3.
Proof.
  apply (Wait_serves (λ w, w) 1 drained 2 0).
  - split; cbn; intros; lia || done.
  - split_and!; [done|cbn; lia|apply Qle_refl|by apply (inj_le 0 1)].
  - lia.
  - done.
  - vm_compute. discriminate.
Defined.

(** On the machine's doubles a wait can come out short once [every] is beyond
    2^53 nanoseconds (here 164 days): a caller that slept for as long as it was
    told, and a nanosecond more, finds no token yet. *)
Theorem Wait_float_short :
  let l := mkLimiter (R := float64) 14247337020108379 1 f_zero 0 in
  let '(r1, l1) := take_token (H := @float_num amd64) l 374274744543127 in
  r1 = Some 13873062275565252 ∧
  (take_token (H := @float_num amd64) l1 (374274744543127 + 13873062275565252 + 1)).1 = Some 1.
Proof. by vm_compute. Qed.

(** Eviction forgets no debt when the idle time is at least what a bucket takes
    to fill up: a bucket the sweeper drops would have granted the next attempt
    from a full bucket, as the one that replaces it does, and the sweeper drops
    nothing younger than the idle time and touches no other key. *)
Theorem eviction_harmless (k : KeyedLimiter Q) key b now :
  limiters k !! key = Some b → bucket_ok (lim b) → every (lim b) = k_every k → burst (lim b) = k_burst k →
  last_refill (lim b) <= lastAccess b → in64 (now - last_refill (lim b)) → in64 (now - lastAccess b) →
  k_burst k * k_every k <= idleTTL k →
  limiters (evictIdle k now) !! key = (if idleTTL k <? now - lastAccess b then None else Some b) ∧
  (idleTTL k < now - lastAccess b →
     let r1 := take_token (lim b) now in
     let r2 := take_token (NewLimiter (R := Q) (k_every k) (k_burst k) now) now in
     r1.1 = None ∧ r2.1 = None ∧ (tokens r1.2 == tokens r2.2)%Q ∧ last_refill r1.2 = last_refill r2.2).
Proof.
  intros Hk Hok He Hb Hla Hi Hi' Httl. split.
  { cbn [limiters evictIdle]. unfold time_Sub.
    destruct (Z.ltb_spec (idleTTL k) (now - lastAccess b)).
    - apply map_lookup_filter_None. right. intros b' Hb' Hn. simplify_eq. apply Hn. by rewrite sat64_id.
    - apply map_lookup_filter_Some. split; [done|]. rewrite sat64_id by done. lia. }
  intros Hidle r1 r2. destruct Hok as (Hpos & Hb1 & H0 & H1). rewrite Hb, He in *.
  assert (0 < inject_Z (k_every k))%Q as Hq by (by apply (inj_lt 0)).
  assert (inject_Z (k_burst k) <= refill (lim b) now)%Q as Hfull.
  { unfold refill. rewrite He. assert (inject_Z (k_burst k) <= inject_Z (now - last_refill (lim b)) / inject_Z (k_every k))%Q; [|lra].
    apply Qle_shift_div_l; [done|]. rewrite <- inject_Z_mult. apply inj_le. lia. }
  destruct (take_full (lim b) now) as (Ha1 & Ha2 & Ha3); [lia|done|by rewrite Hb|].
  rewrite Hb in Ha2. destruct (take_full (NewLimiter (R := Q) (k_every k) (k_burst k) now) now) as (Hc1 & Hc2 & Hc3).
  - cbn. case_match; lia.
  - cbn. by rewrite Z.sub_diag.
  - unfold refill, NewLimiter. cbn [tokens last_refill Limiter.every]. rewrite Z.sub_diag.
    destruct (Z.ltb_spec (k_burst k) 1); [lia|]. pose proof (Qfrac_nonneg 0 (k_every k) ltac:(lia) Hpos). cbn in *. lra.
  - unfold r1, r2. split_and!; [done|done| |by rewrite Ha3, Hc3].
    rewrite Ha2, Hc2. cbn [NewLimiter burst]. destruct (Z.ltb_spec (k_burst k) 1); [lia|]. apply Qeq_refl.
Qed.

Definition idle_bucket : keyedBucket Q := mkBucket (mkLimiter Minute 1 0%Q 0) 0.
Definition idle_limiter : KeyedLimiter Q := mkKeyed Minute 1 (10 * Minute) {["acc" := idle_bucket]} false.

Lemma eviction_harmless_witness :
  (take_token (lim idle_bucket) (11 * Minute)).1 = None ∧ limiters (evictIdle idle_limiter (11 * Minute)) !! "acc" = None.
Proof.
  destruct (eviction_harmless idle_limiter "acc" idle_bucket (11 * Minute)) as (Hl & Hr).
  - apply lookup_singleton_eq.
  - split_and!; [done|cbn; lia|apply Qle_refl|by apply (inj_le 0 1)].
  - reflexivity.
  - reflexivity.
  - cbn. lia.
  - split; vm_compute; done.
  - split; vm_compute; done.
  - vm_compute. done.
  - split; [by apply Hr|exact Hl].
Defined.

(** With an idle time shorter than the refill time the sweeper lifts the
    limit: one call per minute per key is granted, evicted after two seconds and
    granted again, on the machine's doubles. *)
Theorem eviction_refills :
  let k := (NewKeyedLimiter (R := float64) Minute 1 Second).1 in
  let '(r1, k1) := WaitKey_step (H := @float_num amd64) k "acc" 0 in
  let '(r2, _) := WaitKey_step (H := @float_num amd64) k1 "acc" (2 * Second) in
  let '(r3, _) := WaitKey_step (H := @float_num amd64) (evictIdle k1 (2 * Second)) "acc" (2 * Second) in
  r1 = None ∧ r2 = Some (58 * Second) ∧ r3 = None.
Proof. vm_compute. done. Qed.
