(* ===== verification/Endpoint.v ===== *)
(** * Calling an endpoint

    What every endpoint method of the SDK does around [Client.Do]: query
    strings ([url.Values], [Encode]), [http.NewRequestWithContext], a JSON body
    from [json.Marshal], and the decoding of the answer. *)
From S2P Require Import Prelude GoString GoText Errors GoHttp Retry Client.

(** ** Query strings *)

(** [shouldEscape(c, encodeQueryComponent)], negated. *)
Definition query_safe (a : Ascii.ascii) : bool :=
  let c := byte_of a in
  in_range 97 122 c || in_range 65 90 c || in_range 48 57 c ||
  (c =? 45) || (c =? 95) || (c =? 46) || (c =? 126).

Fixpoint QueryEscape (s : string) : string :=
  match s with
  | "" => ""
  | String a s =>
      if query_safe a then String a (QueryEscape s)
      else if byte_of a =? 32 then String "+" (QueryEscape s)
      else String "%" (String (upper_hex (byte_of a / 16)) (String (upper_hex (byte_of a mod 16)) (QueryEscape s)))
  end.

(** [url.Values] with one value per key, kept sorted by key as [Encode] wants. *)
Abbreviation Values := (list (string * string)).

Fixpoint Values_Set (k v : string) (q : Values) : Values :=
  match q with
  | [] => [(k, v)]
  | (k', v') :: q' =>
      match String.compare k k' with
      | Lt => (k, v) :: q
      | Eq => (k, v) :: q'
      | Gt => (k', v') :: Values_Set k v q'
      end
  end.

Definition Values_Encode (q : Values) : string :=
  String.concat "&" ((λ '(k, v), QueryEscape k +:+ "=" +:+ QueryEscape v) <$> q).

(** [if s := q.Encode(); s != "" { uri += "?" + s }]. *)
Definition with_query (uri : string) (q : Values) : string :=
  let s := Values_Encode q in if String.eqb s "" then uri else uri +:+ "?" +:+ s.

(** ** Requests *)

(** [encoding/json] at one type: the bytes it writes, the value it reads from a
    body (which may end with an error), the zero value. *)
Class JSON (A : Type) := {
  json_Marshal : A → result string;
  json_Decode : string → option error → result A;
  json_zero : A
}.

(** [http.NewRequestWithContext], for a body that is [http.NoBody] ([None]) or
    a [bytes.Reader] ([Some]). *)
Definition NewRequest `{NetLib} (method uri : string) (body : option string) : result Request :=
  match url_Parse uri with
  | None => Err (EWrap "create request: %w" (EText "parse"))
  | Some u =>
      match body with
      | None => Ok (mkRequest method u ∅ BNoBody None 0)
      | Some "" => Ok (mkRequest method u ∅ BNoBody None 0)
      | Some d => Ok (mkRequest method u ∅ (BReader d None) (Some (Ok d)) (slen d))
      end
  end.

(** A request with a marshalled body. *)
Definition NewJSONRequest `{NetLib} (method uri : string) (body : result string) : result Request :=
  match body with
  | Err e => Err (EWrap "marshal: %w" e)
  | Ok d => NewRequest method uri (Some d)
  end.

Section Call.
Context {W : Type} `{World W} `{NetLib}.

(** A method of the API: its request, or the refusal before one exists, then
    [Do] decoding into [v]. *)
Definition call {A} (c : Client W) (ua : string) (req : result Request) (v : target W A)
    (expected : list Z) (w : W) : result (output A) * W :=
  match req with
  | Err e => (Err e, w)
  | Ok r => Do c ua (Some r) v expected w
  end.

(** The JSON methods return what was decoded, a zero value when the answer
    had no body. *)
Definition decoded {A} (zero : A) (r : result (output A) * W) : result A * W :=
  match r with
  | (Err e, w) => (Err e, w)
  | (Ok (OJSON a), w) => (Ok a, w)
  | (Ok _, w) => (Ok zero, w)
  end.

(** The methods that return nothing but an error. *)
Definition ack {A} (r : result (output A) * W) : option error * W :=
  match r with (Err e, w) => (Some e, w) | (Ok _, w) => (None, w) end.

(** The common shapes: a GET, and a request with a body, decoded as JSON. *)
Definition get_json {A} `{JSON A} (c : Client W) (ua uri : string) (w : W) : result A * W :=
  decoded json_zero (call c ua (NewRequest "GET" uri None) (TJSON json_Decode) [200] w).

Definition send_json {A B} `{JSON A} `{JSON B} (c : Client W) (ua method uri : string) (x : A)
    (headers : Request → Request) (w : W) : result B * W :=
  decoded json_zero (call c ua (headers <$> NewJSONRequest method uri (json_Marshal x)) (TJSON json_Decode) [200] w).

Definition send_ack {A} `{JSON A} (c : Client W) (ua method uri : string) (x : A) (expected : list Z) (w : W)
    : option error * W :=
  ack (call c ua (NewJSONRequest method uri (json_Marshal x)) (TNil (A := unit)) expected w).

Definition get_ack (c : Client W) (ua method uri : string) (expected : list Z) (w : W) : option error * W :=
  ack (call c ua (NewRequest method uri None) (TNil (A := unit)) expected w).

Lemma call_refused {A} c ua e (v : target W A) exp w : call c ua (Err e) v exp w = (Err e, w).
Proof. done. Qed.

End Call.

(** ** Lemmas *)

Lemma QueryEscape_no_separator s :
  Forall (λ a, ¬ separator a ∧ a ≠ "&"%char ∧ a ≠ "="%char) (chars (QueryEscape s)).
Proof.
  assert (∀ n, 0 <= n < 16 → ¬ separator (upper_hex n) ∧ upper_hex n ≠ "&"%char ∧ upper_hex n ≠ "="%char) as Hu.
  { intros n Hn. assert (n ∈ seqZ 0 16) as Hin by (apply elem_of_seqZ; lia). clear Hn.
    revert n Hin. apply Forall_forall. unfold separator. by apply (bool_decide_unpack _); vm_compute. }
  induction s as [|a s IH]; [constructor|]. cbn [QueryEscape]. destruct (query_safe a) eqn:Ha.
  - cbn. constructor; [|done]. split; [intros [-> | [-> | ->]]; done|]. split; intros ->; done.
  - destruct (byte_of a =? 32).
    { cbn. constructor; [|done]. by split; [intros [? | [? | ?]]|]. }
    cbn. pose proof (byte_of_bound a).
    pose proof (Z.div_mod (byte_of a) 16 ltac:(lia)). pose proof (Z.mod_pos_bound (byte_of a) 16 ltac:(lia)).
    constructor; [by split; [intros [? | [? | ?]]|]|]. constructor; [apply Hu; lia|]. constructor; [apply Hu; lia|done].
Qed.

(** A path made of literal segments and escaped identifiers. *)
Definition slashes (s : string) : nat := length (filter (λ a, a = "/"%char) (chars s)).

Lemma slashes_app s t : slashes (s +:+ t) = (slashes s + slashes t)%nat.
Proof. unfold slashes. by rewrite chars_app, filter_app, length_app. Qed.

Lemma slashes_PathEscape s : slashes (PathEscape s) = 0%nat.
Proof.
  unfold slashes. rewrite filter_none; [done|].
  eapply Forall_impl; [apply PathEscape_no_separator|]. intros a Ha ->. apply Ha. by left.
Qed.

Lemma slashes_QueryEscape s : slashes (QueryEscape s) = 0%nat.
Proof.
  unfold slashes. rewrite filter_none; [done|].
  eapply Forall_impl; [apply QueryEscape_no_separator|]. intros a [Ha _] ->. apply Ha. by left.
Qed.

(** What an escaped identifier between two literals gives: the identifier can
    be read back, and no two identifiers collide. *)
Lemma path_inj pre post a b :
  pre +:+ PathEscape a +:+ post = pre +:+ PathEscape b +:+ post → a = b.
Proof.
  intros He.
  assert (∀ s t, pre +:+ s = pre +:+ t → s = t) as Hp.
  { clear He. induction pre as [|c pre IH]; [done|]. intros s t. rewrite !str_app_cons. intros [= Hst]. by apply IH. }
  apply Hp in He. clear Hp.
  assert (chars (PathEscape a) = chars (PathEscape b)) as Hc.
  { apply (f_equal chars) in He. rewrite !chars_app in He. by apply app_inv_tail in He. }
  unfold chars in Hc.
  apply (f_equal String.string_of_list_ascii) in Hc. rewrite !String.string_of_list_ascii_of_string in Hc.
  apply (f_equal PathUnescape) in Hc. rewrite !PathUnescape_PathEscape in Hc. by simplify_eq.
Qed.

#[export] Hint Rewrite slashes_app slashes_PathEscape slashes_QueryEscape : mono.
