(* ===== verification/Business.v ===== *)
(** * The business API data (business/types.go, business/logvalue.go)

    The request and response records, the amounts derived from float balances,
    the decoding of a statement item, and the [LogValue] methods: which of the
    personal data of payers, employees and contacts a log entry shows. *)
From S2P Require Import Prelude GoString GoText GoFloat Errors Currency Money GoHttp BankData.

(** ** Records

    String enumerations ([DocumentType], [RegistryStatus], [OperationStatus],
    [PaymentStateValue], [ImportStatus], …) are strings, as on the wire. *)

Record Account := mkAccount { Account_IBAN : string; Account_Currency : Z; Account_Balance : float64 }.

Record BalancePoint := mkBalancePoint { BalancePoint_Date : string; BalancePoint_Balance : float64;
  BalancePoint_IsFinal : bool }.

Record Contact := mkContact { Contact_ID : string; Contact_LEClientID : Z; Contact_FullName : string;
  Contact_INN : string; Contact_DocumentType : string; Contact_DocumentNumber : string;
  Contact_DocumentSeries : string; Contact_IBAN : string; Contact_PAN : string }.

Record ContactsPage := mkContactsPage { ContactsPage_HasMore : bool; ContactsPage_Contacts : list
  Contact }.

Record CreateContactRequest := mkCreateContactRequest { CreateContactRequest_FirstName : string;
  CreateContactRequest_LastName : string; CreateContactRequest_MiddleName : string;
  CreateContactRequest_INN : string; CreateContactRequest_DocumentType : string;
  CreateContactRequest_DocumentNumber : string; CreateContactRequest_DocumentSeries : string;
  CreateContactRequest_IBAN : string; CreateContactRequest_PAN : string }.

Record SalaryRecipient := mkSalaryRecipient { SalaryRecipient_FullName : string; SalaryRecipient_INN :
  string; SalaryRecipient_DocumentType : string; SalaryRecipient_DocumentNumber : string;
  SalaryRecipient_DocumentSeries : string; SalaryRecipient_IBAN : string; SalaryRecipient_Amount : Z }.

Record CreateSalaryRegistryRequest := mkCreateSalaryRegistryRequest {
  CreateSalaryRegistryRequest_RegistryName : string; CreateSalaryRegistryRequest_SenderIBAN : string;
  CreateSalaryRegistryRequest_SalaryRegistryType : string; CreateSalaryRegistryRequest_From : string;
  CreateSalaryRegistryRequest_To : string; CreateSalaryRegistryRequest_Recipients : list SalaryRecipient
  }.

Record SalaryRegistryCreated := mkSalaryRegistryCreated { SalaryRegistryCreated_ID : string;
  SalaryRegistryCreated_State : string; SalaryRegistryCreated_CreateTimestamp : string }.

Record SubmitSalaryRegistryBatchRequest := mkSubmitSalaryRegistryBatchRequest {
  SubmitSalaryRegistryBatchRequest_RegistryReference : string;
  SubmitSalaryRegistryBatchRequest_RegistryName : string; SubmitSalaryRegistryBatchRequest_SenderIBAN :
  string; SubmitSalaryRegistryBatchRequest_SalaryRegistryType : string;
  SubmitSalaryRegistryBatchRequest_From : string; SubmitSalaryRegistryBatchRequest_To : string;
  SubmitSalaryRegistryBatchRequest_Recipients : list SalaryRecipient }.

Record SalaryRegistryBatchAccepted := mkSalaryRegistryBatchAccepted { SalaryRegistryBatchAccepted_ID :
  string; SalaryRegistryBatchAccepted_RegistryReference : string; SalaryRegistryBatchAccepted_State :
  string; SalaryRegistryBatchAccepted_CreateTimestamp : string }.

Record SalaryRegistryType := mkSalaryRegistryType { SalaryRegistryType_Alias : string;
  SalaryRegistryType_Description : string }.

Record SalaryRegistryStatus := mkSalaryRegistryStatus { SalaryRegistryStatus_Status : string;
  SalaryRegistryStatus_UpdatedAt : string; SalaryRegistryStatus_DeclineReason : string }.

Record StatementUltimateDebit := mkStatementUltimateDebit { StatementUltimateDebit_Name : string;
  StatementUltimateDebit_IDCode : string }.

Record StatementItem := mkStatementItem { StatementItem_ID : string; StatementItem_ExternalReference :
  string; StatementItem_Time : Z; StatementItem_CompletedTime : Z; StatementItem_Description : string;
  StatementItem_Amount : Money; StatementItem_CurrencyCode : string; StatementItem_ReceiptID : string;
  StatementItem_CounterEdrpou : string; StatementItem_CounterIBAN : string; StatementItem_CounterName
  : string; StatementItem_Reverse : bool; StatementItem_Status : string; StatementItem_UltimateDebit :
  option StatementUltimateDebit }.

Record PaymentReceiver := mkPaymentReceiver { PaymentReceiver_IBAN : string; PaymentReceiver_EDRPOU :
  string; PaymentReceiver_Name : string }.

Record UltimateDebit := mkUltimateDebit { UltimateDebit_ID : string; UltimateDebit_Name : string }.

Record PaymentRequest := mkPaymentRequest { PaymentRequest_SenderIBAN : string; PaymentRequest_Receiver
  : PaymentReceiver; PaymentRequest_Destination : string; PaymentRequest_Amount : Z;
  PaymentRequest_Currency : string; PaymentRequest_PayCode : string; PaymentRequest_AdditionalInfo :
  string; PaymentRequest_ExternalReference : string; PaymentRequest_UltimateDebit : option
  UltimateDebit }.

Record PaymentPrepared := mkPaymentPrepared { PaymentPrepared_ID : string }.

Record PaymentState := mkPaymentState { PaymentState_ID : string; PaymentState_State : string }.

Record BatchAttribute := mkBatchAttribute { BatchAttribute_AttributeName : string; BatchAttribute_Value
  : string; BatchAttribute_SortOrder : Z; BatchAttribute_AttributeSuffix : string }.

Record BatchEmployee := mkBatchEmployee { BatchEmployee_Identification : string;
  BatchEmployee_Attributes : list BatchAttribute }.

Record BatchPayslipRequest := mkBatchPayslipRequest { BatchPayslipRequest_Period : string;
  BatchPayslipRequest_Employees : list BatchEmployee }.

Record DeletePayslipsRequest := mkDeletePayslipsRequest { DeletePayslipsRequest_Period : string;
  DeletePayslipsRequest_Identifications : list string }.

Record BatchStats := mkBatchStats { BatchStats_EmployeesInBatch : Z; BatchStats_SuccessInBatch : Z;
  BatchStats_FailedInBatch : Z }.

Record OverallStats := mkOverallStats { OverallStats_TotalEmployees : Z;
  OverallStats_TotalSuccessEmployees : Z; OverallStats_TotalFailedEmployees : Z }.

Record FailedEmployee := mkFailedEmployee { FailedEmployee_Identification : string;
  FailedEmployee_Reason : string }.

Record BatchPayslipResponse := mkBatchPayslipResponse { BatchPayslipResponse_Period : string;
  BatchPayslipResponse_Status : string; BatchPayslipResponse_BatchStats : BatchStats;
  BatchPayslipResponse_OverallStats : OverallStats; BatchPayslipResponse_FailedEmployees : list
  FailedEmployee; BatchPayslipResponse_CreatedAt : string; BatchPayslipResponse_UpdatedAt : string }.

Record ImportStatusResponse := mkImportStatusResponse { ImportStatusResponse_Period : string;
  ImportStatusResponse_Status : string; ImportStatusResponse_TotalEmployees : Z;
  ImportStatusResponse_TotalSuccessEmployees : Z; ImportStatusResponse_TotalFailedEmployees : Z;
  ImportStatusResponse_FailedEmployees : list FailedEmployee; ImportStatusResponse_CreatedAt : string;
  ImportStatusResponse_UpdatedAt : string }.

Record SendResult := mkSendResult { SendResult_Period : string; SendResult_Status : string;
  SendResult_EmployeesSent : Z }.

(** [RegistryStatus] and [OperationStatus], on their documented values. *)
Definition registry_statuses : list string :=
  ["SAVED"; "IN_PROGRESS"; "PREPARED"; "CHANGE_REQUIRED"; "FAIL"; "PAYMENTS_DONE"; "API_LOADING"; "ADDED"].
Definition operation_statuses : list string := ["DONE"; "PENDING"; "DECLINED"].
Definition StatementUp : string := "UP".
Definition StatementDown : string := "DOWN".
Definition MaxSalaryBatchRecipients : Z := 1000.

(** ** Amounts *)

(** [BalanceMoney] and [BalancePoint.Money]: [math.Round] of the float balance
    in minor units. *)
Definition BalanceMoney `{GoArch} (a : Account) : Money :=
  let code := Account_Currency a in
  let scale := float64_of_Z (MinorPerMajor code) in
  mkMoney (int64_of_float (math_Round (f_mul (Account_Balance a) scale))) code.

Definition BalancePoint_Money `{GoArch} (b : BalancePoint) (code : Z) : Money :=
  let scale := float64_of_Z (MinorPerMajor code) in
  mkMoney (int64_of_float (math_Round (f_mul (BalancePoint_Balance b) scale))) code.

(** [StatementItem.UnmarshalJSON]: the currency is a string here. *)
Definition StatementItem_UnmarshalJSON (raw : string → result StatementItem) (data : string) : result StatementItem :=
  match raw data with
  | Err e => Err e
  | Ok s =>
      let '(c, ok) := Currency.Parse (StatementItem_CurrencyCode s) in
      let amount := if ok : bool then with_code c (StatementItem_Amount s) else StatementItem_Amount s in
      Ok (mkStatementItem (StatementItem_ID s) (StatementItem_ExternalReference s) (StatementItem_Time s)
            (StatementItem_CompletedTime s) (StatementItem_Description s) amount (StatementItem_CurrencyCode s)
            (StatementItem_ReceiptID s) (StatementItem_CounterEdrpou s) (StatementItem_CounterIBAN s)
            (StatementItem_CounterName s) (StatementItem_Reverse s) (StatementItem_Status s)
            (StatementItem_UltimateDebit s))
  end.

(** ** LogValue *)

Definition maskName (name : string) : string :=
  if String.eqb name "" then ""
  else match runes name with
       | r :: (_ :: _) as rest => rune_string r +:+ Repeat "*" (length rest - 1)
       | _ => "*"
       end.

Definition redactIBAN (iban : string) : string :=
  if String.eqb iban "" then ""
  else if slen iban <=? 6 then "***"
  else str_take 2 iban +:+ "***" +:+ str_drop (String.length iban - 4) iban.

Definition redactID (id : string) : string := if String.eqb id "" then "" else "***".


Definition Account_LogValue `{GoArch} (a : Account) : slog := SlGroup
  [("iban", SlString (redactIBAN (Account_IBAN a))); ("currency", SlInt (Account_Currency a));
   ("balance", SlString (Money_String (BalanceMoney a)))].

Definition Accounts_LogValue `{GoArch} (l : list Account) : slog := SlList (Account_LogValue <$> l).

Definition Contact_LogValue (c : Contact) : slog := SlGroup
  [("id", SlString (Contact_ID c)); ("leClientID", SlInt (Contact_LEClientID c));
   ("fullName", SlString (maskName (Contact_FullName c)));
   ("inn", SlString (redactID (Contact_INN c)));
   ("documentType", SlString (Contact_DocumentType c));
   ("documentNumber", SlString (redactID (Contact_DocumentNumber c)));
   ("documentSeries", SlString (redactID (Contact_DocumentSeries c)));
   ("iban", SlString (redactIBAN (Contact_IBAN c)));
   ("panSet", SlBool (nonempty (Contact_PAN c)))].

Definition Contacts_LogValue (l : list Contact) : slog := SlList (Contact_LogValue <$> l).

Definition ContactsPage_LogValue (p : ContactsPage) : slog := SlGroup
  [("hasMore", SlBool (ContactsPage_HasMore p));
   ("contacts", slog_len (ContactsPage_Contacts p))].

Definition CreateContactRequest_LogValue (r : CreateContactRequest) : slog := SlGroup
  [("firstName", SlString (maskName (CreateContactRequest_FirstName r)));
   ("lastName", SlString (maskName (CreateContactRequest_LastName r)));
   ("middleName", SlString (maskName (CreateContactRequest_MiddleName r)));
   ("inn", SlString (redactID (CreateContactRequest_INN r)));
   ("documentType", SlString (CreateContactRequest_DocumentType r));
   ("documentNumber", SlString (redactID (CreateContactRequest_DocumentNumber r)));
   ("documentSeries", SlString (redactID (CreateContactRequest_DocumentSeries r)));
   ("iban", SlString (redactIBAN (CreateContactRequest_IBAN r)));
   ("panSet", SlBool (nonempty (CreateContactRequest_PAN r)))].

Definition SalaryRecipient_LogValue (r : SalaryRecipient) : slog := SlGroup
  [("fullName", SlString (maskName (SalaryRecipient_FullName r)));
   ("inn", SlString (redactID (SalaryRecipient_INN r)));
   ("documentType", SlString (SalaryRecipient_DocumentType r));
   ("documentNumber", SlString (redactID (SalaryRecipient_DocumentNumber r)));
   ("documentSeries", SlString (redactID (SalaryRecipient_DocumentSeries r)));
   ("iban", SlString (redactIBAN (SalaryRecipient_IBAN r)));
   ("amount", SlInt (SalaryRecipient_Amount r))].

Definition SalaryRecipients_LogValue (l : list SalaryRecipient) : slog := SlList (SalaryRecipient_LogValue <$> l).

Definition CreateSalaryRegistryRequest_LogValue (r : CreateSalaryRegistryRequest) : slog := SlGroup
  [("senderIban", SlString (redactIBAN (CreateSalaryRegistryRequest_SenderIBAN r)));
   ("recipients", slog_len (CreateSalaryRegistryRequest_Recipients r))].

Definition SubmitSalaryRegistryBatchRequest_LogValue (r : SubmitSalaryRegistryBatchRequest) : slog := SlGroup
  [("registryReference", SlString (SubmitSalaryRegistryBatchRequest_RegistryReference r));
   ("senderIban", SlString (redactIBAN (SubmitSalaryRegistryBatchRequest_SenderIBAN r)));
   ("recipients", slog_len (SubmitSalaryRegistryBatchRequest_Recipients r))].

Definition StatementItem_LogValue (s : StatementItem) : slog := SlGroup
  [("id", SlString (StatementItem_ID s));
   ("externalReference", SlString (StatementItem_ExternalReference s));
   ("time", SlTime (StatementItem_Time s));
   ("amount", SlString (Money_String (StatementItem_Amount s)));
   ("currencyCode", SlString (StatementItem_CurrencyCode s));
   ("status", SlString (StatementItem_Status s)); ("reverse", SlBool (StatementItem_Reverse s));
   ("descriptionSet", SlBool (nonempty (StatementItem_Description s)));
   ("counterIban", SlString (redactIBAN (StatementItem_CounterIBAN s)));
   ("counterEdrpou", SlString (redactID (StatementItem_CounterEdrpou s)));
   ("counterName", SlString (maskName (StatementItem_CounterName s)));
   ("ultimateDebitSet", SlBool (isSome (StatementItem_UltimateDebit s)))].

Definition StatementItems_LogValue (l : list StatementItem) : slog := SlList (StatementItem_LogValue <$> l).

Definition UltimateDebit_LogValue (u : UltimateDebit) : slog := SlGroup
  [("id", SlString (redactID (UltimateDebit_ID u)));
   ("name", SlString (maskName (UltimateDebit_Name u)))].

Definition StatementUltimateDebit_LogValue (u : StatementUltimateDebit) : slog := SlGroup
  [("idCode", SlString (redactID (StatementUltimateDebit_IDCode u)));
   ("name", SlString (maskName (StatementUltimateDebit_Name u)))].

Definition PaymentReceiver_LogValue (r : PaymentReceiver) : slog := SlGroup
  [("iban", SlString (redactIBAN (PaymentReceiver_IBAN r)));
   ("edrpou", SlString (redactID (PaymentReceiver_EDRPOU r)));
   ("name", SlString (maskName (PaymentReceiver_Name r)))].

Definition PaymentRequest_LogValue (r : PaymentRequest) : slog := SlGroup
  [("senderIban", SlString (redactIBAN (PaymentRequest_SenderIBAN r)));
   ("receiver", PaymentReceiver_LogValue (PaymentRequest_Receiver r));
   ("destinationSet", SlBool (nonempty (PaymentRequest_Destination r)));
   ("amount", SlInt (PaymentRequest_Amount r));
   ("currency", SlString (PaymentRequest_Currency r));
   ("externalReference", SlString (PaymentRequest_ExternalReference r));
   ("ultimateDebitSet", SlBool (isSome (PaymentRequest_UltimateDebit r)))].

Definition BatchAttribute_LogValue (a : BatchAttribute) : slog := SlGroup
  [("attributeName", SlString (BatchAttribute_AttributeName a));
   ("valueSet", SlBool (nonempty (BatchAttribute_Value a)));
   ("sortOrder", SlInt (BatchAttribute_SortOrder a))].

Definition BatchAttributes_LogValue (l : list BatchAttribute) : slog := SlList (BatchAttribute_LogValue <$> l).

Definition BatchEmployee_LogValue (e : BatchEmployee) : slog := SlGroup
  [("identification", SlString (redactID (BatchEmployee_Identification e)));
   ("attributes", slog_len (BatchEmployee_Attributes e))].

Definition BatchEmployees_LogValue (l : list BatchEmployee) : slog := SlList (BatchEmployee_LogValue <$> l).

Definition BatchPayslipRequest_LogValue (r : BatchPayslipRequest) : slog := SlGroup
  [("period", SlString (BatchPayslipRequest_Period r));
   ("employees", slog_len (BatchPayslipRequest_Employees r))].

Definition DeletePayslipsRequest_LogValue (r : DeletePayslipsRequest) : slog := SlGroup
  [("period", SlString (DeletePayslipsRequest_Period r));
   ("identifications", slog_len (DeletePayslipsRequest_Identifications r))].

Definition FailedEmployee_LogValue (e : FailedEmployee) : slog := SlGroup
  [("identification", SlString (redactID (FailedEmployee_Identification e)));
   ("reason", SlString (FailedEmployee_Reason e))].

Definition FailedEmployees_LogValue (l : list FailedEmployee) : slog := SlList (FailedEmployee_LogValue <$> l).

Definition BatchPayslipResponse_LogValue (r : BatchPayslipResponse) : slog := SlGroup
  [("period", SlString (BatchPayslipResponse_Period r));
   ("status", SlString (BatchPayslipResponse_Status r));
   ("employeesInBatch", SlInt (BatchStats_EmployeesInBatch (BatchPayslipResponse_BatchStats r)));
   ("successInBatch", SlInt (BatchStats_SuccessInBatch (BatchPayslipResponse_BatchStats r)));
   ("failedInBatch", SlInt (BatchStats_FailedInBatch (BatchPayslipResponse_BatchStats r)));
   ("failedEmployees", slog_len (BatchPayslipResponse_FailedEmployees r))].

Definition ImportStatusResponse_LogValue (r : ImportStatusResponse) : slog := SlGroup
  [("period", SlString (ImportStatusResponse_Period r));
   ("status", SlString (ImportStatusResponse_Status r));
   ("totalEmployees", SlInt (ImportStatusResponse_TotalEmployees r));
   ("totalSuccessEmployees", SlInt (ImportStatusResponse_TotalSuccessEmployees r));
   ("totalFailedEmployees", SlInt (ImportStatusResponse_TotalFailedEmployees r));
   ("failedEmployees", slog_len (ImportStatusResponse_FailedEmployees r))].

(** ** Lemmas *)

(** Two values of which a log may show only whether they are there. *)
Definition hidden (a b : string) : Prop := a = "" ↔ b = "".

Lemma redactID_hidden a b : redactID a = redactID b ↔ hidden a b.
Proof. apply redactTIN_inj. Qed.

Lemma nonempty_hidden a b : nonempty a = nonempty b ↔ hidden a b.
Proof. apply nonempty_inj. Qed.

Lemma redactIBAN_class a b : redactIBAN a = redactIBAN b ↔ iban_class a = iban_class b.
Proof. apply redactIBAN_inj. Qed.

(** ** Properties *)

(** C40: what the log of a contact, of a salary recipient and of a payment
    request lets out is exactly: identifiers, document types, amounts,
    currencies and references in clear; of a tax code or a document number only
    whether it is there; of a card number and a payment destination only
    whether it is there; of an IBAN its country and last four characters; of a
    name its mask.  Everything else (additional info, pay code, the whole
    ultimate debtor but for its presence) leaves no trace. *)
Theorem business_log_leaks (c1 c2 : Contact) (r1 r2 : SalaryRecipient) (p1 p2 : PaymentRequest) :
  (Contact_LogValue c1 = Contact_LogValue c2 ↔
     Contact_ID c1 = Contact_ID c2 ∧ Contact_LEClientID c1 = Contact_LEClientID c2 ∧
     maskName (Contact_FullName c1) = maskName (Contact_FullName c2) ∧
     hidden (Contact_INN c1) (Contact_INN c2) ∧ Contact_DocumentType c1 = Contact_DocumentType c2 ∧
     hidden (Contact_DocumentNumber c1) (Contact_DocumentNumber c2) ∧
     hidden (Contact_DocumentSeries c1) (Contact_DocumentSeries c2) ∧
     iban_class (Contact_IBAN c1) = iban_class (Contact_IBAN c2) ∧ hidden (Contact_PAN c1) (Contact_PAN c2)) ∧
  (SalaryRecipient_LogValue r1 = SalaryRecipient_LogValue r2 ↔
     maskName (SalaryRecipient_FullName r1) = maskName (SalaryRecipient_FullName r2) ∧
     hidden (SalaryRecipient_INN r1) (SalaryRecipient_INN r2) ∧
     SalaryRecipient_DocumentType r1 = SalaryRecipient_DocumentType r2 ∧
     hidden (SalaryRecipient_DocumentNumber r1) (SalaryRecipient_DocumentNumber r2) ∧
     hidden (SalaryRecipient_DocumentSeries r1) (SalaryRecipient_DocumentSeries r2) ∧
     iban_class (SalaryRecipient_IBAN r1) = iban_class (SalaryRecipient_IBAN r2) ∧
     SalaryRecipient_Amount r1 = SalaryRecipient_Amount r2) ∧
  (PaymentRequest_LogValue p1 = PaymentRequest_LogValue p2 ↔
     iban_class (PaymentRequest_SenderIBAN p1) = iban_class (PaymentRequest_SenderIBAN p2) ∧
     iban_class (PaymentReceiver_IBAN (PaymentRequest_Receiver p1)) =
       iban_class (PaymentReceiver_IBAN (PaymentRequest_Receiver p2)) ∧
     hidden (PaymentReceiver_EDRPOU (PaymentRequest_Receiver p1)) (PaymentReceiver_EDRPOU (PaymentRequest_Receiver p2)) ∧
     maskName (PaymentReceiver_Name (PaymentRequest_Receiver p1)) =
       maskName (PaymentReceiver_Name (PaymentRequest_Receiver p2)) ∧
     hidden (PaymentRequest_Destination p1) (PaymentRequest_Destination p2) ∧
     PaymentRequest_Amount p1 = PaymentRequest_Amount p2 ∧
     PaymentRequest_Currency p1 = PaymentRequest_Currency p2 ∧
     PaymentRequest_ExternalReference p1 = PaymentRequest_ExternalReference p2 ∧
     isSome (PaymentRequest_UltimateDebit p1) = isSome (PaymentRequest_UltimateDebit p2)).
Proof.
  split; [|split].
  - rewrite <- !redactIBAN_class, <- (nonempty_hidden (Contact_PAN c1)), <- !redactID_hidden.
    unfold Contact_LogValue. split; [intros He; injection He; intros; split_and!; assumption|].
    intros (-> & -> & -> & -> & -> & -> & -> & -> & ->). done.
  - rewrite <- !redactIBAN_class, <- !redactID_hidden.
    unfold SalaryRecipient_LogValue. split; [intros He; injection He; intros; split_and!; assumption|].
    intros (-> & -> & -> & -> & -> & -> & ->). done.
  - rewrite <- !redactIBAN_class, <- (nonempty_hidden (PaymentRequest_Destination p1)), <- !redactID_hidden.
    unfold PaymentRequest_LogValue, PaymentReceiver_LogValue.
    split; [intros He; injection He; intros; split_and!; assumption|].
    intros (-> & -> & -> & -> & -> & -> & -> & -> & ->). done.
Qed.
