(* ===== verification/BusinessApi.v ===== *)
(** * The business API (business/client.go, accounts.go, contacts.go, payment.go,
      salary.go, payslips.go, statement.go, iter.go, idempotency.go)

    Every endpoint method over the transport, the three paginating iterators
    and the generator of idempotency keys. *)
From stdpp Require Import sorting.
From S2P Require Import Prelude GoString GoText GoFloat Errors Currency Money GoHttp Retry Client Options Endpoint.
From S2P Require Import BankData Business.
#[local] Open Scope Z_scope.

Definition ErrNilRequest : string := "business.ErrNilRequest".
Definition ErrIdempotencyKeyRequired : string := "business.ErrIdempotencyKeyRequired".
Definition ErrInvalidTimeRange : string := "business.ErrInvalidTimeRange".
Definition ErrBatchSize : string := "business.ErrBatchSize".
Definition ErrEmptyRegistryReference : string := "business.ErrEmptyRegistryReference".
Definition ErrOperationRefRequired : string := "business.ErrOperationRefRequired".

Definition BaseURL : string := "https://corp-api.monobank.ua".

(** [resultWrapper[T]]. *)
Record resultWrapper (T : Type) := mkWrapper { Result : T }.
Arguments Result {T} r.

Record IDs := mkIDs { IDs_IDs : list string }.
Record RegistryRef := mkRegistryRef { RegistryRef_RegistryReference : string }.

Section Api.
Context {W : Type} `{World W} `{NetLib}.

(** ** client.go *)

(** [TokenAuth.SetAuth] on a request that is not nil. *)
Definition TokenAuth_SetAuth (token : string) (r : Request) (w : W) : option error * Request * W :=
  let r := set_Header "X-Token" token r in
  (None, if String.eqb (Header_Get (rHeader r) "Accept") "" then set_Header "Accept" "application/json" r else r, w).

Definition TokenAuth_LogValue (token : string) : slog := SlString "business.TokenAuth{Token:***}".

Definition New (http : HTTPDoer W) (token : string) (opts : list (Client W → Client W)) : Client W :=
  Options.New http (WithBaseURL BaseURL :: WithAuth (Some (TokenAuth_SetAuth token)) :: opts).

(** ** Endpoints *)

Context (c : Client W) (ua : string).
Context `{JSON (list Account), JSON Account, JSON (list BalancePoint), JSON ContactsPage, JSON Contact,
  JSON CreateContactRequest, JSON IDs, JSON PaymentRequest, JSON PaymentPrepared, JSON PaymentState,
  JSON CreateSalaryRegistryRequest, JSON SalaryRegistryCreated, JSON (list SalaryRegistryType),
  JSON Business.SalaryRegistryStatus, JSON SubmitSalaryRegistryBatchRequest, JSON SalaryRegistryBatchAccepted,
  JSON RegistryRef, JSON BatchPayslipRequest, JSON (resultWrapper BatchPayslipResponse), JSON DeletePayslipsRequest,
  JSON (resultWrapper ImportStatusResponse), JSON (resultWrapper SendResult), JSON (list StatementItem),
  JSON StatementItem}.

(** accounts.go *)
Definition Accounts (w : W) : result (list Account) * W := get_json c ua "/ext/v1/accounts" w.

Definition Account_uri (iban : string) : string := "/ext/v1/accounts/" +:+ PathEscape iban.
Definition Account_ (iban : string) (w : W) : result Account * W := get_json c ua (Account_uri iban) w.

Definition AccountBalances_uri (iban dateFrom dateTo : string) : string :=
  "/ext/v1/accounts/" +:+ PathEscape iban +:+ "/balances?" +:+
  Values_Encode (Values_Set "dateTo" dateTo (Values_Set "dateFrom" dateFrom [])).
Definition AccountBalances (iban dateFrom dateTo : string) (w : W) : result (list BalancePoint) * W :=
  get_json c ua (AccountBalances_uri iban dateFrom dateTo) w.

(** contacts.go *)
Definition set_positive (k : string) (n : Z) (q : Values) : Values :=
  if 0 <? n then Values_Set k (Itoa n) q else q.
Definition set_nonempty (k v : string) (q : Values) : Values :=
  if String.eqb v "" then q else Values_Set k v q.

Definition Contacts_uri (limit offset : Z) : string :=
  with_query "/ext/v1/salary-contacts" (set_positive "offset" offset (set_positive "limit" limit [])).
Definition Contacts (limit offset : Z) (w : W) : result ContactsPage * W := get_json c ua (Contacts_uri limit offset) w.

Definition SearchContacts_uri (query : string) (limit offset : Z) : string :=
  with_query "/ext/v1/salary-contacts/search"
    (set_positive "offset" offset (set_positive "limit" limit (set_nonempty "query" query []))).
Definition SearchContacts (query : string) (limit offset : Z) (w : W) : result ContactsPage * W :=
  get_json c ua (SearchContacts_uri query limit offset) w.

Definition Contact_uri (id : string) : string := "/ext/v1/salary-contacts/" +:+ PathEscape id.
Definition ContactByID (id : string) (w : W) : result Contact * W := get_json c ua (Contact_uri id) w.

Definition CreateContact (in_ : option CreateContactRequest) (w : W) : option error * W :=
  match in_ with
  | None => (Some (ENew ErrNilRequest), w)
  | Some x => send_ack c ua "POST" "/ext/v1/salary-contacts" x [200] w
  end.

Definition DeleteContact (id : string) (w : W) : option error * W := get_ack c ua "DELETE" (Contact_uri id) [200] w.

Definition DeleteContactsBatch (ids : list string) (w : W) : option error * W :=
  match ids with
  | [] => (Some (ENew ErrNilRequest), w)
  | _ => send_ack c ua "DELETE" "/ext/v1/salary-contacts/batch" (mkIDs ids) [200] w
  end.

(** payment.go *)
Definition PreparePayment (idempotencyKey : string) (in_ : option PaymentRequest) (w : W) : result PaymentPrepared * W :=
  match in_ with
  | None => (Err (ENew ErrNilRequest), w)
  | Some x =>
      if String.eqb idempotencyKey "" then (Err (ENew ErrIdempotencyKeyRequired), w)
      else send_json c ua "POST" "/ext/v1/payment/prepare" x (set_Header "Idempotency-Key" idempotencyKey) w
  end.

Definition PaymentState_uri (id : string) : string := "/ext/v1/payment/" +:+ PathEscape id +:+ "/state".
Definition PaymentState_ (id : string) (w : W) : result PaymentState * W := get_json c ua (PaymentState_uri id) w.

Definition PaymentStateByReference_uri (ref : string) : string :=
  "/ext/v1/payment/state?" +:+ Values_Encode (Values_Set "externalReference" ref []).
Definition PaymentStateByReference (ref : string) (w : W) : result PaymentState * W :=
  get_json c ua (PaymentStateByReference_uri ref) w.

(** salary.go *)
Definition CreateSalaryRegistry (idempotencyKey : string) (in_ : option CreateSalaryRegistryRequest) (w : W)
    : result SalaryRegistryCreated * W :=
  match in_ with
  | None => (Err (ENew ErrNilRequest), w)
  | Some x =>
      if String.eqb idempotencyKey "" then (Err (ENew ErrIdempotencyKeyRequired), w)
      else send_json c ua "POST" "/ext/v1/payments/salary/registries" x (set_Header "Idempotency-Key" idempotencyKey) w
  end.

Definition SalaryRegistryTypes (w : W) : result (list SalaryRegistryType) * W :=
  get_json c ua "/ext/v1/payments/salary/registries/types" w.

Definition SalaryRegistryStatus_uri (id : string) : string :=
  "/ext/v1/payments/salary/registries/" +:+ PathEscape id +:+ "/status".
Definition SalaryRegistryStatus_ (id : string) (w : W) : result Business.SalaryRegistryStatus * W :=
  get_json c ua (SalaryRegistryStatus_uri id) w.

Definition SubmitSalaryRegistryBatch (idempotencyKey : string) (in_ : option SubmitSalaryRegistryBatchRequest) (w : W)
    : result SalaryRegistryBatchAccepted * W :=
  match in_ with
  | None => (Err (ENew ErrNilRequest), w)
  | Some x =>
      if String.eqb idempotencyKey "" then (Err (ENew ErrIdempotencyKeyRequired), w)
      else
        let n := Z.of_nat (length (SubmitSalaryRegistryBatchRequest_Recipients x)) in
        if (n =? 0) || (MaxSalaryBatchRecipients <? n) then (Err (EWrap "%w: %d recipients" (ENew ErrBatchSize)), w)
        else send_json c ua "POST" "/ext/v2/payments/salary/registries" x (set_Header "Idempotency-Key" idempotencyKey) w
  end.

Definition FinalizeSalaryRegistry (ref : string) (w : W) : option error * W :=
  if String.eqb ref "" then (Some (ENew ErrEmptyRegistryReference), w)
  else send_ack c ua "POST" "/ext/v2/payments/salary/registries/finalize" (mkRegistryRef ref) [200] w.

(** payslips.go *)
Definition unwrap {T} (r : result (resultWrapper T) * W) : result T * W :=
  match r with (Err e, w) => (Err e, w) | (Ok x, w) => (Ok (Result x), w) end.

Definition UploadPayslips (in_ : option BatchPayslipRequest) (w : W) : result BatchPayslipResponse * W :=
  match in_ with
  | None => (Err (ENew ErrNilRequest), w)
  | Some x => unwrap (send_json c ua "POST" "/ext/v1/payslips/batch" x id w)
  end.

Definition DeletePayslips (in_ : option DeletePayslipsRequest) (w : W) : option error * W :=
  match in_ with
  | None => (Some (ENew ErrNilRequest), w)
  | Some x => send_ack c ua "DELETE" "/ext/v1/payslips/batch" x [204; 200] w
  end.

Definition period_query (period : string) : string := Values_Encode (Values_Set "period" period []).

Definition ImportStatus (period : string) (w : W) : result ImportStatusResponse * W :=
  unwrap (get_json c ua ("/ext/v1/payslip-imports/status?" +:+ period_query period) w).

Definition DeleteImport (period : string) (w : W) : option error * W :=
  get_ack c ua "DELETE" ("/ext/v1/payslip-imports?" +:+ period_query period) [204; 200] w.

Definition SendPayslipsToMobile (period : string) (w : W) : result SendResult * W :=
  unwrap (decoded json_zero (call c ua (NewRequest "POST" ("/ext/v1/payslip-imports/send?" +:+ period_query period) None)
                               (TJSON json_Decode) [200] w)).

Definition PayslipPDF_uri (identification period : string) : string :=
  "/ext/v1/payslips/pdf?" +:+ Values_Encode (Values_Set "period" period (Values_Set "identification" identification [])).
Definition PayslipPDF (identification period : string) (w : W) : result string * W :=
  match call c ua (set_Header "Accept" "application/pdf" <$> NewRequest "GET" (PayslipPDF_uri identification period) None)
          (TBytes (A := unit)) [200] w with
  | (Err e, w) => (Err e, w)
  | (Ok (OBytes b), w) => (Ok b, w)
  | (Ok _, w) => (Ok "", w)
  end.

(** statement.go *)
Definition Statement_uri (account : string) (from to : Z) (direction : string) (limit : Z) : string :=
  let uri := "/ext/v1/statement/" +:+ PathEscape account +:+ "/" +:+ Itoa (Unix from) in
  let uri := if IsZero to then uri else uri +:+ "/" +:+ Itoa (Unix to) in
  with_query uri (set_positive "limit" limit (set_nonempty "direction" direction [])).

Definition Statement (account : string) (from to : Z) (direction : string) (limit : Z) (w : W)
    : result (list StatementItem) * W :=
  if IsZero from || (Unix from <? 0) then (Err (EWrap "%w: from" (ENew ErrInvalidTimeRange)), w)
  else if negb (IsZero to) && (to <=? from) then (Err (EWrap "%w: to" (ENew ErrInvalidTimeRange)), w)
  else get_json c ua (Statement_uri account from to direction limit) w.

Definition Operation_uri (id ref : string) : string :=
  "/ext/v1/statement?" +:+ Values_Encode (set_nonempty "externalReference" ref (set_nonempty "id" id [])).
Definition Operation (id ref : string) (w : W) : result StatementItem * W :=
  if String.eqb id "" && String.eqb ref "" then (Err (ENew ErrOperationRefRequired), w)
  else get_json c ua (Operation_uri id ref) w.

End Api.
