(* ===== verification/Statement.v ===== *)
(** * Draining statements (bank/statement.go, the range readers of personal/ and corporate/)

    [DrainWindow] reads one window through a fetcher that caps its answers,
    [TransactionsRange] and [TransactionsRangeIter] slice a long interval into
    windows.  The loops are driven by fuel; the theorems give an amount that
    always suffices.  They are proved against a model of the documented
    endpoint: rows newest first, inclusive in whole seconds, at most
    [StatementMaxRows], which may fail at any call. *)
From stdpp Require Import sorting.
From S2P Require Import Prelude GoString GoFloat Errors Money BankData.
#[local] Open Scope Z_scope.

Definition StatementMaxRows : Z := 500.
Definition MaxStatementWindow : Z := 31 * 24 * Hour.

(** [StatementFetcher], with the state it runs on. *)
Abbreviation StatementFetcher W := (Z → Z → W → result (list Transaction) * W) (only parsing).

Section Drain.
Context {W : Type}.

(** The loop over one answer: the rows not seen go to [yield]; [None] when it
    stops the iteration, else the number of rows yielded. *)
Fixpoint drain_chunk (yield : Transaction → W → bool * W) (seen : gset string)
    (chunk : list Transaction) (newly : Z) (w : W) : option Z * W :=
  match chunk with
  | [] => (Some newly, w)
  | tx :: chunk =>
      if bool_decide (tID tx ∈ seen) then drain_chunk yield seen chunk newly w
      else
        let '(more, w) := yield tx w in
        if more then drain_chunk yield seen chunk (newly + 1) w else (None, w)
  end.

(** The ids of the answer's rows at the second [oldest]. *)
Definition boundary_ids (oldest : Z) (chunk : list Transaction) (seen : gset string) : gset string :=
  foldr (λ tx s, if tTime tx =? oldest then {[tID tx]} ∪ s else s) seen chunk.

Fixpoint drain_loop (fuel : nat) (fetch : StatementFetcher W) (yield : Transaction → W → bool * W)
    (from : Z) (seen : gset string) (boundarySecond cursorTo : Z) (w : W)
    : option (bool * option error * W) :=
  match fuel with
  | O => None
  | S fuel =>
      let '(r, w) := fetch from cursorTo w in
      match r with
      | Err e => Some (true, Some e, w)
      | Ok chunk =>
          match last chunk with
          | None => Some (true, None, w)
          | Some tx_last =>
              match drain_chunk yield seen chunk 0 w with
              | (None, w) => Some (false, None, w)
              | (Some newly, w) =>
                  if Z.of_nat (length chunk) <? StatementMaxRows then Some (true, None, w)
                  else if newly =? 0 then Some (true, None, w)
                  else
                    let oldest := tTime tx_last in
                    let seen := if oldest =? boundarySecond then seen else ∅ in
                    let seen := boundary_ids oldest chunk seen in
                    drain_loop fuel fetch yield from seen oldest oldest w
              end
          end
      end
  end.

Definition DrainWindow (fuel : nat) (from to : Z) (fetch : StatementFetcher W)
    (yield : Transaction → W → bool * W) (w : W) : option (bool * option error * W) :=
  drain_loop fuel fetch yield from ∅ zero_time to w.

End Drain.

(** ** Ranges

    [TransactionsRange] accumulates; on a failure it returns no rows. *)
Section Range.
Context {W : Type}.

Fixpoint range_loop (fuel drain_fuel : nat) (fetch : StatementFetcher W) (to cursor : Z)
    (all : list Transaction) (w : W) : option (result (list Transaction) * W) :=
  match fuel with
  | O => None
  | S fuel =>
      if to <? cursor then Some (Ok all, w)
      else
        let end_ := cursor + MaxStatementWindow in
        let end_ := if to <? end_ then to else end_ in
        let fetch' f t (s : W * list Transaction) := let '(r, w) := fetch f t s.1 in (r, (w, s.2)) in
        match drain_loop drain_fuel fetch' (λ tx s, (true, (s.1, s.2 ++ [tx]))) cursor ∅ zero_time end_ (w, all) with
        | None => None
        | Some (_, Some e, (w, _)) => Some (Err (EWrap "range %s..%s: %w" e), w)
        | Some (_, None, (w, all)) =>
            let next := end_ + Second in
            if next <=? cursor then Some (Ok all, w)
            else range_loop fuel drain_fuel fetch to next all w
        end
  end.

Definition TransactionsRange (fuel drain_fuel : nat) (fetch : StatementFetcher W) (from to : Z) (w : W)
    : option (result (list Transaction) * W) :=
  if IsZero to || (to <=? from) then Some (Ok [], w)
  else range_loop fuel drain_fuel fetch to from [] w.

(** The iterator: rows and a final error go to the consumer's [yield]. *)
Fixpoint iter_loop (fuel drain_fuel : nat) (ctx_Err : W → option error) (fetch : StatementFetcher W)
    (yield : result Transaction → W → bool * W) (to cursor : Z) (w : W) : option W :=
  match fuel with
  | O => None
  | S fuel =>
      if to <? cursor then Some w
      else match ctx_Err w with
           | Some e => Some (yield (Err e) w).2
           | None =>
               let end_ := cursor + MaxStatementWindow in
               let end_ := if to <? end_ then to else end_ in
               match drain_loop drain_fuel fetch (λ tx, yield (Ok tx)) cursor ∅ zero_time end_ w with
               | None => None
               | Some (_, Some e, w) => Some (yield (Err e) w).2
               | Some (false, None, w) => Some w
               | Some (true, None, w) =>
                   let next := end_ + Second in
                   if next <=? cursor then Some w
                   else iter_loop fuel drain_fuel ctx_Err fetch yield to next w
               end
           end
  end.

Definition TransactionsRangeIter (fuel drain_fuel : nat) (ctx_Err : W → option error)
    (fetch : StatementFetcher W) (yield : result Transaction → W → bool * W) (from to : Z) (w : W) : option W :=
  if IsZero to || (to <=? from) then Some w
  else iter_loop fuel drain_fuel ctx_Err fetch yield to from w.

End Range.

(** ** The documented endpoint *)

Definition sec (tx : Transaction) : Z := Unix (tTime tx).

Definition in_window (from to : Z) (tx : Transaction) : Prop := Unix from <= sec tx <= Unix to.

#[global] Instance in_window_dec from to tx : Decision (in_window from to tx).
Proof. unfold in_window. apply _. Defined.

(** The rows of the account in a window, newest first. *)
Definition window_rows (db : list Transaction) (from to : Z) : list Transaction :=
  filter (in_window from to) db.

(** The state of a session: the rows the consumer took, the calls made so far,
    the call that fails, if any. *)
Record Session := mkSession { s_out : list Transaction; s_calls : nat; s_fail : option nat }.

Definition server (db : list Transaction) : StatementFetcher Session := λ from to s,
  let s' := mkSession (s_out s) (S (s_calls s)) (s_fail s) in
  if bool_decide (s_fail s = Some (s_calls s)) then (Err (EText "fetch"), s')
  else (Ok (take (Z.to_nat StatementMaxRows) (window_rows db from to)), s').

(** A consumer that stops as its history decides. *)
Definition consumer (keep : list Transaction → bool) (tx : Transaction) (s : Session) : bool * Session :=
  let out := s_out s ++ [tx] in (keep out, mkSession out (s_calls s) (s_fail s)).

(** What the bank's statement guarantees: identifiers are unique, rows are
    sorted newest first, times are whole seconds. *)
Record statement (db : list Transaction) : Prop := {
  st_nodup : NoDup (tID <$> db);
  st_sorted : StronglySorted (λ x y, sec y <= sec x) db;
  st_whole : Forall (λ x, tTime x = sec x * Second) db
}.

(** Fewer rows than the cap share any second. *)
Definition sparse (db : list Transaction) : Prop :=
  ∀ t, Z.of_nat (length (filter (λ x, sec x = t) db)) < StatementMaxRows.

(** ** Lemmas on sorted rows *)

Lemma sorted_filter {A} (R : A → A → Prop) (P : A → Prop) `{!∀ x, Decision (P x)} l :
  StronglySorted R l → StronglySorted R (filter P l).
Proof.
  induction 1 as [|x l Hs IH Hx]; [constructor|]. destruct (decide (P x)).
  - rewrite filter_cons_True by done. constructor; [done|].
    rewrite Forall_forall in Hx |- *. intros y [_ Hy]%list_elem_of_filter. by apply Hx.
  - by rewrite filter_cons_False.
Qed.

(** A list sorted by descending seconds splits at any second. *)
Lemma sorted_split k l :
  StronglySorted (λ x y, sec y <= sec x) l →
  l = filter (λ x, k < sec x) l ++ filter (λ x, sec x <= k) l.
Proof.
  induction 1 as [|x l Hs IH Hx]; [done|]. destruct (decide (k < sec x)) as [Hk|Hk].
  - rewrite filter_cons_True by done. rewrite (filter_cons_False _ x) by lia. simpl. by f_equal.
  - rewrite (filter_cons_False _ x) by done. rewrite filter_cons_True by lia.
    assert (Forall (λ y, ¬ k < sec y) l) as Hn by (eapply Forall_impl; [exact Hx|]; simpl; lia).
    rewrite (filter_none _ _ Hn). simpl. f_equal. symmetry. apply filter_all.
    eapply Forall_impl; [exact Hn|]; simpl; lia.
Qed.

Lemma statement_filter db (P : Transaction → Prop) `{!∀ x, Decision (P x)} :
  statement db → statement (filter P db).
Proof.
  intros [Hn Hs Hw]. split.
  - eapply sublist_NoDup; [exact Hn|]. apply fmap_sublist. clear.
    induction db as [|x db IH]; [constructor|]. destruct (decide (P x)).
    + rewrite filter_cons_True by done. by constructor.
    + rewrite filter_cons_False by done. by constructor.
  - by apply sorted_filter.
  - apply Forall_forall. intros x [_ Hx]%list_elem_of_filter. by rewrite Forall_forall in Hw; apply Hw.
Qed.

(** ** The draining loop against an endpoint

    [Endpoint out fetch yield db]: the fetcher answers from the statement or
    fails, the consumer records in order what it is given. *)
Record Endpoint {W} (out : W → list Transaction) (fetch : StatementFetcher W)
    (yield : Transaction → W → bool * W) (db : list Transaction) : Prop := {
  ep_out f t w : out (fetch f t w).2 = out w;
  ep_page f t w chunk : (fetch f t w).1 = Ok chunk →
    chunk = take (Z.to_nat StatementMaxRows) (window_rows db f t);
  ep_yield tx w : out (yield tx w).2 = out w ++ [tx]
}.

Lemma sec_time db x y : statement db → x ∈ db → y ∈ db → sec x = sec y → tTime x = tTime y.
Proof. intros [_ _ Hw] Hx Hy He. rewrite Forall_forall in Hw. by rewrite (Hw x Hx), (Hw y Hy), He. Qed.

Lemma sorted_lookup rows i j x y :
  StronglySorted (λ x y, sec y <= sec x) rows → (i <= j)%nat →
  rows !! i = Some x → rows !! j = Some y → sec y <= sec x.
Proof.
  intros Hs. revert i j. induction Hs as [|z rows Hs IH Hz]; intros [|i] [|j] Hij Hx Hy; simplify_eq/=; try lia.
  - rewrite Forall_forall in Hz. by apply Hz, list_elem_of_lookup_2 with j.
  - apply (IH i j); [lia|done|done].
Qed.

Lemma boundary_ids_spec oldest chunk seen id :
  id ∈ boundary_ids oldest chunk seen ↔ id ∈ seen ∨ id ∈ tID <$> filter (λ x, tTime x = oldest) chunk.
Proof.
  induction chunk as [|x chunk IH]; simpl; [set_solver|].
  destruct (Z.eqb_spec (tTime x) oldest).
  - rewrite filter_cons_True by done. set_solver.
  - rewrite filter_cons_False by done. set_solver.
Qed.

Lemma sublist_filter_mono {A} (P : A → Prop) `{!∀ x, Decision (P x)} (l k : list A) :
  sublist l k → sublist (filter P l) (filter P k).
Proof.
  induction 1 as [|x l k Hs IH|x l k Hs IH]; [constructor| |]; destruct (decide (P x));
    rewrite ?(filter_cons_True P x), ?(filter_cons_False P x) by done; by constructor || done.
Qed.

Lemma subseteq_take_le {A} (l : list A) n n' : (n <= n')%nat → take n l ⊆ take n' l.
Proof. intros Hn. replace (take n l) with (take n (take n' l)) by (rewrite take_take; f_equal; lia). apply subseteq_take. Qed.

Section DrainFacts.
Context {W : Type} (out : W → list Transaction) (fetch : StatementFetcher W)
  (yield : Transaction → W → bool * W) (db : list Transaction).
Hypothesis Hep : Endpoint out fetch yield db.
Hypothesis Hst : statement db.

Lemma drain_chunk_spec seen chunk k w :
  let fresh := filter (λ x, tID x ∉ seen) chunk in
  match drain_chunk yield seen chunk k w with
  | (Some n, w') => n = k + Z.of_nat (length fresh) ∧ out w' = out w ++ fresh
  | (None, w') => ∃ p q tx w0, fresh = p ++ q ∧ out w' = out w ++ p ∧ yield tx w0 = (false, w')
  end.
Proof.
  revert k w. induction chunk as [|x chunk IH]; intros k w; cbn [drain_chunk].
  { simpl. rewrite app_nil_r. split; [lia|done]. }
  case_bool_decide as Hx.
  { cbv zeta. rewrite filter_cons_False by (intros H; by apply H). apply IH. }
  cbv zeta. rewrite filter_cons_True by done.
  pose proof (ep_yield _ _ _ _ Hep x w) as Hy. destruct (yield x w) as [more w1] eqn:Ey. simpl in Hy.
  destruct more.
  - specialize (IH (k + 1) w1). cbv zeta in IH. destruct (drain_chunk yield seen chunk (k + 1) w1) as [[n|] w2].
    + destruct IH as [-> ->]. rewrite Hy, <- app_assoc. simpl. split; [lia|done].
    + destruct IH as (p & q & tx & w0 & -> & -> & Hf). exists (x :: p), q, tx, w0.
      rewrite Hy, <- app_assoc. done.
  - exists [x], (filter (λ x, tID x ∉ seen) chunk), x, w. done.
Qed.

Section Window.
Variables (from to : Z).
Abbreviation rows := (window_rows db from to).

Lemma rows_statement : statement rows.
Proof. by apply statement_filter. Qed.

(** Re-anchoring the window at [c] drops the rows newer than [c]. *)
Lemma window_rows_anchor c :
  Unix c <= Unix to → window_rows db from c = filter (λ x, sec x <= Unix c) rows.
Proof.
  intros Hc. unfold window_rows. rewrite list_filter_filter. apply list_filter_iff.
  intros x. unfold in_window. lia.
Qed.

(** The invariant of the loop when [n] rows have been yielded. *)
Definition drained (n : nat) (seen : gset string) (b c : Z) : Prop :=
  (n <= length rows)%nat ∧
  ((n = 0%nat ∧ seen = ∅ ∧ c = to) ∨
   (∃ i x, n = S i ∧ rows !! i = Some x ∧ c = tTime x ∧ b = c ∧
           ∀ id, id ∈ seen ↔ id ∈ tID <$> filter (λ x, tTime x = c) (take n rows))).

(** The answer fetched at [c] starts at some row [m], before or at the ones
    not yielded; exactly the rows from [m] to [n] are marked as seen. *)
Lemma drained_page n seen b c : drained n seen b c →
  ∃ m, (m <= n)%nat ∧ window_rows db from c = drop m rows ∧ Unix c <= Unix to ∧
    Forall (λ x, Unix c < sec x) (take m rows) ∧
    Forall (λ x, sec x <= Unix c) (drop m rows) ∧
    Forall (λ x, sec x = Unix c) (drop m (take n rows)) ∧
    (∀ id, id ∈ seen ↔ id ∈ tID <$> drop m (take n rows)).
Proof.
  intros [Hn [(-> & -> & ->)|(i & x & -> & Hx & -> & -> & Hseen)]].
  - exists 0%nat. rewrite !drop_0. split; [lia|]. split; [done|]. split; [lia|].
    split; [constructor|]. split.
    { apply Forall_forall. intros y Hy. unfold window_rows in Hy. apply list_elem_of_filter in Hy as [Hy _].
      unfold in_window in Hy. lia. }
    split; [constructor|]. set_solver.
  - set (c := tTime x) in *. pose proof rows_statement as [Hnd Hs Hw].
    pose proof (list_elem_of_lookup_2 _ _ _ Hx) as Hxin.
    assert (Unix c = sec x) as Hcx by done.
    assert (Unix c <= Unix to) as Hct.
    { unfold window_rows in Hxin. apply list_elem_of_filter in Hxin as [Hi _]. unfold in_window in Hi. lia. }
    pose proof (sorted_split (Unix c) rows Hs) as Hsplit.
    set (A := filter (λ x, Unix c < sec x) rows) in *. set (B := filter (λ x, sec x <= Unix c) rows) in *.
    assert (take (length A) rows = A) as HtA by (rewrite Hsplit at 1; by rewrite take_app_length).
    assert (drop (length A) rows = B) as HdB by (rewrite Hsplit at 1; by rewrite drop_app_length).
    assert (length A <= i)%nat as Hm.
    { destruct (decide (length A <= i)%nat) as [|Hlt]; [done|]. exfalso.
      assert (A !! i = Some x) as Ha by (rewrite <- HtA, lookup_take by lia; by rewrite Hx; case_decide; [|lia]).
      apply list_elem_of_lookup_2, list_elem_of_filter in Ha as [Ha _]. lia. }
    exists (length A). split; [lia|]. rewrite HtA, HdB. split; [by rewrite window_rows_anchor|].
    split; [done|]. split; [apply Forall_forall; by intros y [? _]%list_elem_of_filter|].
    split; [apply Forall_forall; by intros y [? _]%list_elem_of_filter|].
    assert (Forall (λ y, sec y = Unix c) (drop (length A) (take (S i) rows))) as Hmid.
    { apply Forall_lookup_2. intros j y Hj. rewrite lookup_drop in Hj.
      apply lookup_take_Some in Hj as [Hj Hlt].
      pose proof (sorted_lookup rows (length A + j) i y x Hs ltac:(lia) Hj Hx).
      assert (B !! j = Some y) as Hb by (by rewrite <- HdB, lookup_drop).
      apply list_elem_of_lookup_2, list_elem_of_filter in Hb as [Hb _]. lia. }
    split; [done|]. intros id. rewrite Hseen.
    assert (take (S i) rows = A ++ drop (length A) (take (S i) rows)) as Ht.
    { rewrite <- HtA at 1. rewrite <- (take_drop (length A) (take (S i) rows)) at 1.
      f_equal. rewrite take_take. f_equal. lia. }
    rewrite Ht at 1. rewrite filter_app, fmap_app.
    rewrite (filter_none A) by (apply Forall_forall; intros y [Hy _]%list_elem_of_filter He;
      unfold sec in Hy; rewrite He in Hy; lia).
    rewrite (filter_all (drop (length A) _)); [done|].
    rewrite Forall_forall in Hmid |- *. intros y Hy.
    eapply sec_time; [apply rows_statement| |exact Hxin|by rewrite Hmid].
    eapply elem_of_subseteq; [|exact Hy]. intros z Hz.
    by eapply subseteq_take, subseteq_drop.
Qed.

(** The rows of the answer that are new are those after the first [n]. *)
Lemma drained_fresh n m (N : nat) (seen : gset string) :
  (m <= n)%nat → (∀ id, id ∈ seen ↔ id ∈ tID <$> drop m (take n rows)) →
  filter (λ x, tID x ∉ seen) (take N (drop m rows)) = take (N - (n - m)) (drop n rows).
Proof.
  intros Hmn Hseen. pose proof rows_statement as [Hnd _ _].
  set (pg := take N (drop m rows)). rewrite <- (take_drop (n - m) pg) at 1. rewrite filter_app.
  rewrite (filter_none (take (n - m) pg)).
  2:{ apply Forall_forall. intros x Hx Hn. apply Hn, Hseen, list_elem_of_fmap. exists x. split; [done|].
      rewrite skipn_firstn_comm. unfold pg in Hx. rewrite take_take in Hx.
      eapply subseteq_take_le; [|exact Hx]. lia. }
  assert (drop (n - m) pg = take (N - (n - m)) (drop n rows)) as ->.
  { unfold pg. rewrite skipn_firstn_comm, drop_drop. do 2 f_equal. lia. }
  simpl. apply filter_all, Forall_forall. intros x Hx Hin.
  apply Hseen in Hin. rewrite <- (take_drop n rows) in Hnd. rewrite fmap_app in Hnd.
  apply NoDup_app in Hnd as (_ & Hnd & _). apply (Hnd (tID x)).
  - apply list_elem_of_fmap in Hin as (y & -> & Hy). apply list_elem_of_fmap. exists y. split; [done|].
    by eapply subseteq_drop.
  - apply list_elem_of_fmap. exists x. split; [done|]. by eapply subseteq_take.
Qed.

(** Re-anchoring at the oldest row of a full answer keeps the invariant. *)
Lemma drained_step n m N seen b c y :
  drained n seen b c → (m <= n)%nat → (n <= m + N)%nat → (0 < N)%nat → (m + N <= length rows)%nat →
  Unix c <= Unix to →
  Forall (λ x, Unix c < sec x) (take m rows) → Forall (λ x, sec x <= Unix c) (drop m rows) →
  last (take N (drop m rows)) = Some y →
  drained (m + N) (boundary_ids (tTime y) (take N (drop m rows)) (if tTime y =? b then seen else ∅))
    (tTime y) (tTime y).
Proof.
  intros [Hn Hinv] Hmn HnN HN Hlen Hct Hnew Hold Hy. split; [lia|]. right.
  rewrite last_lookup, length_take, length_drop in Hy.
  replace (Init.Nat.pred (N `min` (length rows - m))) with (pred N) in Hy by lia.
  apply lookup_take_Some in Hy as [Hy _]. rewrite lookup_drop in Hy.
  exists (m + pred N)%nat, y. split; [lia|]. split; [done|]. split; [done|]. split; [done|].
  intros id. rewrite boundary_ids_spec.
  replace (take (m + N) rows) with (take m rows ++ take N (drop m rows)) by (apply take_take_drop).
  assert (sec y <= Unix c) as Hyc.
  { rewrite Forall_forall in Hold. apply Hold. apply list_elem_of_lookup_2 with (pred N). by rewrite lookup_drop. }
  rewrite filter_app, fmap_app.
  rewrite (filter_none (take m rows)).
  2:{ eapply Forall_impl; [exact Hnew|]. simpl. intros x Hx He. unfold sec in *. rewrite He in Hx. lia. }
  simpl. split; [|by right]. intros [Hin|Hin]; [|done].
  destruct (Z.eqb_spec (tTime y) b) as [->|]; [|set_solver].
  destruct Hinv as [(-> & -> & ->)|(i & x & -> & Hx & Hc & -> & Hseen)]; [set_solver|].
  apply Hseen in Hin. clear Hseen.
  apply list_elem_of_fmap in Hin as (z & -> & Hz). apply list_elem_of_filter in Hz as [Hz Hzin].
  apply list_elem_of_fmap. exists z. split; [done|]. apply list_elem_of_filter. split; [done|].
  assert (z ∈ take m rows ++ take N (drop m rows)) as Hin.
  { rewrite take_take_drop. eapply subseteq_take_le; [|exact Hzin]. lia. }
  apply elem_of_app in Hin as [Hin|Hin]; [|done]. exfalso.
  rewrite Forall_forall in Hnew. specialize (Hnew z Hin). simpl in Hnew. unfold sec in Hnew.
  rewrite Hz in Hnew. lia.
Qed.

(** What a run of the loop does, [n] rows after its start. *)
Definition drain_result (n : nat) (w : W) (res : bool * option error * W) : Prop :=
  let '(cont, err, w') := res in
  ∃ p, out w' = out w ++ p ∧ p `prefix_of` drop n rows ∧
    (cont = false → err = None ∧ ∃ tx w0, yield tx w0 = (false, w')) ∧
    (∀ e, err = Some e → cont = true ∧ ∃ f t w0, fetch f t w0 = (Err e, w')) ∧
    (cont = true → err = None → sparse db → p = drop n rows).

(** A full answer without a new row means a second at the cap. *)
Lemma stuck_not_sparse n m c :
  (m <= n)%nat → (n <= length rows)%nat → Forall (λ x, sec x = Unix c) (drop m (take n rows)) →
  (500 <= n - m)%nat → ¬ sparse db.
Proof.
  intros Hmn Hn Hsame Hbig Hsp. specialize (Hsp (Unix c)).
  assert (n - m <= length (filter (λ x, sec x = Unix c) db))%nat; [|unfold StatementMaxRows in *; lia].
  transitivity (length (filter (λ x, sec x = Unix c) (drop m (take n rows)))).
  - rewrite filter_all by done. rewrite length_drop, length_take. lia.
  - apply sublist_length, sublist_filter_mono. etrans; [apply sublist_drop|].
    etrans; [apply sublist_take|]. apply sublist_filter.
Qed.

Lemma drain_loop_spec fuel n seen b c w :
  drained n seen b c → (length rows - n < fuel)%nat →
  ∃ res, drain_loop fuel fetch yield from seen b c w = Some res ∧ drain_result n w res.
Proof.
  revert n seen b c w. induction fuel as [|fuel IH]; intros n seen b c w Hinv Hfuel; [lia|].
  cbn [drain_loop]. pose proof (ep_out _ _ _ _ Hep from c w) as Hout.
  pose proof (ep_page _ _ _ _ Hep from c w) as Hpage.
  destruct (fetch from c w) as [[chunk|e] w1] eqn:Hf; simpl in Hout, Hpage.
  2:{ eexists. split; [done|]. exists []. rewrite app_nil_r. split; [done|]. split; [apply prefix_nil|].
      split; [done|]. split; [|done]. intros e' [= <-]. split; [done|]. by exists from, c, w. }
  specialize (Hpage chunk eq_refl).
  destruct (drained_page _ _ _ _ Hinv) as (m & Hmn & Hwin & Hct & Hnew & Hold & Hsame & Hseen).
  rewrite Hwin in Hpage. set (N := Z.to_nat StatementMaxRows) in *.
  assert (N = 500%nat) as HN by done. clearbody N.
  assert (n <= length rows)%nat as Hn by (by destruct Hinv).
  pose proof (drained_fresh n m N seen Hmn Hseen) as Hfresh. rewrite <- Hpage in Hfresh.
  assert (length chunk = N `min` (length rows - m))%nat as Hlc
    by (by rewrite Hpage, length_take, length_drop).
  destruct (last chunk) as [y|] eqn:Hlast.
  2:{ apply last_None in Hlast as ->. rewrite length_nil in Hlc.
      assert (drop n rows = []) as Hnil by (apply drop_ge; lia).
      eexists. split; [done|]. exists []. rewrite app_nil_r, Hnil, Hout. split; [done|].
      split; [apply prefix_nil|]. done. }
  pose proof (drain_chunk_spec seen chunk 0 w1) as Hd. cbv zeta in Hd. rewrite Hfresh in Hd.
  destruct (drain_chunk yield seen chunk 0 w1) as [[k|] w2].
  2:{ destruct Hd as (p & q & tx & w0 & Hpq & Hw2 & Hstop). eexists. split; [done|]. exists p.
      rewrite Hw2, Hout. split; [done|]. split; [|split; [by eauto|done]].
      etrans; [by exists q|]. apply prefix_take. }
  destruct Hd as [-> Hw2]. rewrite Hout in Hw2.
  rewrite length_take, length_drop.
  destruct (Z.ltb_spec (Z.of_nat (length chunk)) StatementMaxRows) as [Hshort|Hfull].
  { assert (take (N - (n - m)) (drop n rows) = drop n rows) as Hall
      by (apply take_ge; rewrite length_drop; unfold StatementMaxRows in *; lia).
    eexists. split; [done|]. exists (drop n rows). by rewrite Hw2, Hall. }
  assert (m + N <= length rows)%nat as HmN by (unfold StatementMaxRows in *; lia).
  case_match eqn:Hk.
  { apply Z.eqb_eq in Hk. eexists. split; [done|]. exists (take (N - (n - m)) (drop n rows)).
    split; [done|]. split; [apply prefix_take|]. split; [done|]. split; [done|].
    intros _ _ Hsp. destruct (decide (N <= n - m)%nat) as [Hbig|Hsmall].
    - exfalso. apply (stuck_not_sparse n m c); try done. lia.
    - rewrite !take_ge; [done|rewrite length_drop; lia..]. }
  apply Z.eqb_neq in Hk.
  assert (0 < N)%nat by lia.
  assert (n < m + N)%nat by lia.
  pose proof (drained_step n m N seen b c y Hinv Hmn ltac:(lia) ltac:(lia) HmN Hct Hnew Hold) as Hstep.
  rewrite <- Hpage in Hstep. specialize (Hstep Hlast).
  destruct (IH _ _ _ _ w2 Hstep ltac:(lia)) as (res & -> & Hres). exists res. split; [done|].
  destruct res as [[cont err] w']. destruct Hres as (p & Hp & Hpre & Hc & He & Hcomp).
  assert (drop n rows = take (N - (n - m)) (drop n rows) ++ drop (m + N) rows) as Hdn.
  { rewrite <- (take_drop (N - (n - m)) (drop n rows)) at 1. rewrite drop_drop. do 2 f_equal. lia. }
  exists (take (N - (n - m)) (drop n rows) ++ p). rewrite Hp, Hw2, <- app_assoc.
  split; [done|]. split; [rewrite Hdn at 2; by apply prefix_app|]. split; [done|]. split; [done|].
  intros. rewrite Hcomp by done. by symmetry.
Qed.

Lemma DrainWindow_spec fuel w :
  (length rows < fuel)%nat →
  ∃ res, DrainWindow fuel from to fetch yield w = Some res ∧ drain_result 0 w res.
Proof.
  intros Hf. apply drain_loop_spec; [|lia]. split; [lia|]. by left.
Qed.

End Window.
End DrainFacts.

(** ** Ranges against an endpoint *)

Definition window_end (to cursor : Z) : Z :=
  if to <? cursor + MaxStatementWindow then to else cursor + MaxStatementWindow.

(** The windows of a range, each newest first. *)
Fixpoint range_rows (fuel : nat) (db : list Transaction) (to cursor : Z) : list Transaction :=
  match fuel with
  | O => []
  | S fuel =>
      if to <? cursor then []
      else window_rows db cursor (window_end to cursor) ++
           range_rows fuel db to (window_end to cursor + Second)
  end.

(** Enough windows to reach [to]. *)
Definition enough (fuel : nat) (to cursor : Z) : Prop :=
  (0 < fuel)%nat ∧ to - cursor < (Z.of_nat fuel - 1) * MaxStatementWindow.

Lemma window_end_bounds to cursor : cursor <= to → cursor <= window_end to cursor <= to.
Proof. unfold window_end, MaxStatementWindow, Hour, Minute, Second. case_match; lia. Qed.

Lemma enough_step fuel to cursor :
  enough (S fuel) to cursor → cursor <= to → enough fuel to (window_end to cursor + Second).
Proof.
  intros [_ He] Hc. unfold enough, window_end, MaxStatementWindow, Hour, Minute, Second in *.
  case_match; lia.
Qed.

Lemma Unix_mono a b : a <= b → Unix a <= Unix b.
Proof. intros. unfold Unix. apply Z.div_le_mono; [done|lia]. Qed.

Lemma Unix_next a : Unix (a + Second) = Unix a + 1.
Proof. unfold Unix. replace (a + Second) with (a + 1 * Second) by lia. by rewrite Z.div_add. Qed.

(** The last window is not cut short when [from] is no later within its second
    than [to] within its own. *)
Lemma Unix_beyond from to :
  from mod Second <= to mod Second → to < from → Unix to < Unix from.
Proof.
  intros Hm Hlt. unfold Unix. assert (Second ≠ 0) by done.
  pose proof (Z.div_mod from Second ltac:(done)). pose proof (Z.div_mod to Second ltac:(done)).
  destruct (Z.lt_ge_cases (to / Second) (from / Second)) as [|Hge]; [done|].
  pose proof (Z.mul_le_mono_nonneg_l (from / Second) (to / Second) Second ltac:(done) Hge). lia.
Qed.

Lemma window_end_frac to cursor :
  cursor mod Second <= to mod Second → (window_end to cursor + Second) mod Second <= to mod Second.
Proof.
  intros Hm. replace (window_end to cursor + Second) with (window_end to cursor + 1 * Second) by lia.
  rewrite Z.mod_add by done. unfold window_end. case_match; [done|].
  replace (cursor + MaxStatementWindow) with (cursor + 2678400 * Second) by done. by rewrite Z.mod_add.
Qed.

Lemma window_rows_split db cursor mid to :
  statement db → Unix cursor <= Unix mid + 1 → Unix mid <= Unix to →
  window_rows db cursor to ≡ₚ window_rows db cursor mid ++ window_rows db (mid + Second) to.
Proof.
  intros [_ Hs _] Hc Ht. rewrite (sorted_split (Unix mid) (window_rows db cursor to)) at 1 by by apply sorted_filter.
  rewrite Permutation_app_comm. unfold window_rows. rewrite !list_filter_filter.
  apply reflexive_eq. f_equal; apply list_filter_iff; intros x; unfold in_window; rewrite ?Unix_next; lia.
Qed.

(** The windows hold every row of the range, once. *)
Lemma range_rows_perm fuel db to cursor :
  statement db → enough fuel to cursor → cursor mod Second <= to mod Second →
  range_rows fuel db to cursor ≡ₚ window_rows db cursor to.
Proof.
  intros Hst. revert cursor. induction fuel as [|fuel IH]; intros cursor [Hf He] Hm; [lia|].
  cbn [range_rows]. destruct (Z.ltb_spec to cursor) as [Hlt|Hge].
  - apply Unix_beyond in Hlt; [|done]. unfold window_rows. rewrite filter_none; [done|].
    apply Forall_forall. intros x _. unfold in_window. lia.
  - pose proof (window_end_bounds to cursor Hge) as Hw.
    rewrite (IH _ (enough_step _ _ _ (conj Hf He) Hge) (window_end_frac _ _ Hm)).
    symmetry. apply window_rows_split; [done| |apply Unix_mono; lia].
    pose proof (Unix_mono cursor (window_end to cursor)). lia.
Qed.

(** A fetcher that answers from the statement, or fails. *)
Definition serves {W} (fetch : StatementFetcher W) (db : list Transaction) : Prop :=
  ∀ f t w chunk, (fetch f t w).1 = Ok chunk → chunk = take (Z.to_nat StatementMaxRows) (window_rows db f t).

Section RangeFacts.
Context {W : Type} (fetch : StatementFetcher W) (db : list Transaction).
Hypothesis Hserves : serves fetch db.
Hypothesis Hst : statement db.
Hypothesis Hsparse : sparse db.

Lemma range_loop_spec fuel drain_fuel to cursor all w :
  (length db < drain_fuel)%nat → enough fuel to cursor →
  ∃ r w', range_loop fuel drain_fuel fetch to cursor all w = Some (r, w') ∧
    (∀ l, r = Ok l → l = all ++ range_rows fuel db to cursor) ∧
    (∀ e, r = Err e → ∃ e0 f t w0, e = EWrap "range %s..%s: %w" e0 ∧ (fetch f t w0).1 = Err e0).
Proof.
  intros Hdf. revert cursor all w. induction fuel as [|fuel IH]; intros cursor all w [Hf He]; [lia|].
  cbn [range_loop range_rows]. destruct (Z.ltb_spec to cursor) as [Hlt|Hge].
  { eexists _, _. split; [done|]. split; [|done]. intros l [= <-]. by rewrite app_nil_r. }
  cbv zeta. fold (window_end to cursor).
  set (fetch' := λ (f t : Z) (s : W * list Transaction), let '(r, w) := fetch f t s.1 in (r, (w, s.2))).
  set (yield' := λ (tx : Transaction) (s : W * list Transaction), (true, (s.1, s.2 ++ [tx]))).
  assert (Endpoint snd fetch' yield' db) as Hep.
  { split; [| |done]; unfold fetch'; intros f t [w0 l0]; simpl; [by destruct (fetch f t w0)|].
    intros chunk. pose proof (Hserves f t w0 chunk) as Hp. by destruct (fetch f t w0). }
  destruct (DrainWindow_spec snd fetch' yield' db Hep Hst cursor (window_end to cursor) drain_fuel (w, all))
    as ([[cont err] [w1 all1]] & Hrun & p & Hp & _ & Hstop & Herr & Hcomp).
  { unfold window_rows. pose proof (length_filter (in_window cursor (window_end to cursor)) db). lia. }
  unfold DrainWindow in Hrun. rewrite Hrun. simpl in Hp. destruct err as [e|].
  { eexists _, _. split; [done|]. split; [done|]. intros e' [= <-].
    destruct (Herr e eq_refl) as (_ & f & t & [w0 l0] & Hfe). exists e, f, t, w0. split; [done|].
    unfold fetch' in Hfe. simpl in Hfe. by destruct (fetch f t w0); simplify_eq/=. }
  destruct cont; [|destruct (Hstop eq_refl) as (_ & tx & [w0 l0] & Hy); unfold yield' in Hy; simplify_eq].
  rewrite drop_0 in Hcomp. rewrite (Hcomp eq_refl eq_refl Hsparse) in Hp. subst all1.
  pose proof (window_end_bounds to cursor Hge).
  rewrite (proj2 (Z.leb_gt _ _)) by (unfold Second; lia).
  destruct (IH _ (all ++ window_rows db cursor (window_end to cursor)) w1 (enough_step _ _ _ (conj Hf He) Hge))
    as (r & w' & -> & Hok & Hfail).
  exists r, w'. split; [done|]. split; [|done]. intros l Hl. rewrite (Hok l Hl). by rewrite <- app_assoc.
Qed.

End RangeFacts.

(** ** The iterator against the accumulating reader

    A drain does the same on two worlds that a map relates. *)
Section Simulation.
Context {W V : Type} (m : W → V) (fetch : StatementFetcher W) (fetch' : StatementFetcher V)
  (yield : Transaction → W → bool * W) (yield' : Transaction → V → bool * V).
Hypothesis Hfetch : ∀ f t w, fetch' f t (m w) = ((fetch f t w).1, m (fetch f t w).2).
Hypothesis Hyield : ∀ tx w, yield' tx (m w) = ((yield tx w).1, m (yield tx w).2).

Lemma drain_chunk_map seen chunk n w :
  drain_chunk yield' seen chunk n (m w) =
    ((drain_chunk yield seen chunk n w).1, m (drain_chunk yield seen chunk n w).2).
Proof.
  revert n w. induction chunk as [|tx chunk IH]; intros n w; [done|]. cbn [drain_chunk].
  case_bool_decide; [by apply IH|]. rewrite Hyield. destruct (yield tx w) as [[|] w1]; simpl; [by apply IH|done].
Qed.

Lemma drain_loop_map fuel from seen b c w :
  drain_loop fuel fetch' yield' from seen b c (m w) =
    (λ r, (r.1, m r.2)) <$> drain_loop fuel fetch yield from seen b c w.
Proof.
  revert seen b c w. induction fuel as [|fuel IH]; intros seen b c w; [done|]. cbn [drain_loop].
  rewrite Hfetch. destruct (fetch from c w) as [[chunk|e] w1]; [|done]. simpl.
  destruct (last chunk) as [tx|]; [|done]. rewrite drain_chunk_map.
  destruct (drain_chunk yield seen chunk 0 w1) as [[newly|] w2]; [|done]. simpl.
  destruct (_ <? StatementMaxRows); [done|]. destruct (newly =? 0); [done|]. apply IH.
Qed.
End Simulation.

(** A drain whose consumer never stops runs to its end. *)
Lemma drain_chunk_goes_on {W} (yield : Transaction → W → bool * W) seen chunk n w :
  (∀ tx w, (yield tx w).1 = true) → (drain_chunk yield seen chunk n w).1 ≠ None.
Proof.
  intros Hy. revert n w. induction chunk as [|tx chunk IH]; intros n w; [done|]. cbn [drain_chunk].
  case_bool_decide; [by apply IH|]. specialize (Hy tx w). destruct (yield tx w) as [[|] w1]; [by apply IH|done].
Qed.

Lemma drain_loop_goes_on {W} fetch (yield : Transaction → W → bool * W) fuel from seen b c w more e w' :
  (∀ tx w, (yield tx w).1 = true) →
  drain_loop fuel fetch yield from seen b c w = Some (more, e, w') → more = true.
Proof.
  intros Hy. revert seen b c w. induction fuel as [|fuel IH]; intros seen b c w; [done|]. cbn [drain_loop].
  destruct (fetch from c w) as [[chunk|e'] w1]; [|congruence].
  destruct (last chunk) as [tx|]; [|congruence].
  pose proof (drain_chunk_goes_on yield seen chunk 0 w1 Hy) as Hc.
  destruct (drain_chunk yield seen chunk 0 w1) as [[newly|] w2]; [|done].
  destruct (_ <? StatementMaxRows); [congruence|]. destruct (newly =? 0); [congruence|]. apply IH.
Qed.

(** A fetcher beside a log, and the consumer that logs everything. *)
Definition beside {W L} (fetch : StatementFetcher W) : StatementFetcher (W * L) := λ f t s,
  let '(r, w) := fetch f t s.1 in (r, (w, s.2)).

Definition collect {W A} (x : A) (s : W * list A) : bool * (W * list A) := (true, (s.1, s.2 ++ [x])).

Lemma iter_loop_same {W} (fetch : StatementFetcher W) ctx_Err fuel drain_fuel to cursor all w :
  (∀ s, ctx_Err s = None) →
  match range_loop fuel drain_fuel fetch to cursor all w with
  | None => iter_loop fuel drain_fuel ctx_Err (beside fetch) collect to cursor (w, Ok <$> all) = None
  | Some (Ok rows, w') =>
      iter_loop fuel drain_fuel ctx_Err (beside fetch) collect to cursor (w, Ok <$> all) = Some (w', Ok <$> rows)
  | Some (Err e, w') => ∃ rows e0, e = EWrap "range %s..%s: %w" e0 ∧
      iter_loop fuel drain_fuel ctx_Err (beside fetch) collect to cursor (w, Ok <$> all)
        = Some (w', (Ok <$> rows) ++ [Err e0])
  end.
Proof.
  intros Hctx. revert cursor all w. induction fuel as [|fuel IH]; intros cursor all w; [done|].
  cbn [iter_loop range_loop]. destruct (to <? cursor); [done|]. rewrite Hctx. cbv zeta.
  set (fetch' := λ (f t : Z) (s : W * list Transaction), let '(r, w) := fetch f t s.1 in (r, (w, s.2))).
  set (yield := λ (tx : Transaction) (s : W * list Transaction), (true, (s.1, s.2 ++ [tx]))).
  pose proof (drain_loop_map (λ s : W * list Transaction, (s.1, Ok (A := Transaction) <$> s.2)) fetch' (beside fetch)
    yield (λ tx, collect (Ok tx))) as Hm.
  specialize (Hm ltac:(intros f t [w0 l0]; unfold beside, fetch'; simpl; by destruct (fetch f t w0))
    ltac:(intros tx [w0 l0]; unfold collect, yield; simpl; by rewrite fmap_app)
    drain_fuel cursor ∅ zero_time (if to <? cursor + MaxStatementWindow then to else cursor + MaxStatementWindow) (w, all)).
  simpl in Hm. rewrite Hm. clear Hm.
  destruct (drain_loop _ fetch' yield _ _ _ _ (w, all)) as [[[more [e|]] [w1 all1]]|] eqn:Hd; simpl; [|..|done].
  - exists all1, e. split; [done|]. by destruct more.
  - assert (more = true) as -> by (eapply drain_loop_goes_on; [|exact Hd]; done).
    destruct (_ + Second <=? cursor); [done|apply IH].
Qed.

(** ** Statements for examples *)

Definition row (i : nat) (t : Z) : Transaction :=
  mkTx (pretty (N.of_nat i)) (t * Second) "" 0 0 false (mkMoney 0 980) (mkMoney 0 980) 980 (mkMoney 0 980)
    (mkMoney 0 980) (mkMoney 0 980) "" "" "" "" "" "".

(** One row per time, numbered in order. *)
Definition ledger (ts : list Z) : list Transaction := imap row ts.

Lemma sec_row i t : sec (row i t) = t.
Proof. unfold sec, row, Unix. simpl. by rewrite Z.div_mul. Qed.

Lemma ledger_statement ts : StronglySorted (λ a b, b <= a) ts → statement (ledger ts).
Proof.
  intros Hs. unfold ledger. split.
  - apply NoDup_alt. intros i j id Hi Hj. rewrite list_lookup_fmap, list_lookup_imap in Hi, Hj.
    apply fmap_Some in Hi as (x & Hx & ->). apply fmap_Some in Hj as (y & Hy & He).
    apply fmap_Some in Hx as (a & _ & ->). apply fmap_Some in Hy as (b & _ & ->).
    simpl in He. apply (inj pretty) in He. lia.
  - cut (∀ f, (∀ i t, sec (f i t) = t) → StronglySorted (λ x y, sec y <= sec x) (imap f ts)).
    { intros Hc. apply Hc, sec_row. }
    induction Hs as [|t ts Hs IH Ht]; intros f Hf; simpl; [constructor|]. constructor.
    + apply IH. intros i t'. apply Hf.
    + apply Forall_forall. intros x [i [t' [-> Hin]]]%elem_of_lookup_imap. rewrite Forall_forall in Ht.
      simpl. rewrite !Hf. apply Ht. by apply list_elem_of_lookup_2 in Hin.
  - apply Forall_forall. intros x [i [t [-> _]]]%elem_of_lookup_imap. by rewrite sec_row.
Qed.

Lemma repeat_sorted k n t : k <= t → StronglySorted (λ a b, b <= a) (replicate n t ++ [k]).
Proof.
  intros Hk. induction n as [|n IH]; simpl; [by repeat constructor|]. constructor; [done|].
  apply Forall_app_2; [|by repeat constructor]. apply Forall_forall. intros x Hx.
  apply elem_of_replicate in Hx as [-> _]. lia.
Qed.

Lemma short_sparse db : Z.of_nat (length db) < StatementMaxRows → sparse db.
Proof. intros Hl t. pose proof (length_filter (λ x, sec x = t) db). lia. Qed.

Lemma server_endpoint db keep : Endpoint s_out (server db) (consumer keep) db.
Proof.
  split; unfold server; intros; simpl; [by case_bool_decide| |done].
  case_bool_decide; simpl in *; by simplify_eq.
Qed.

(** ** Properties *)

(** [DrainWindow] yields every row of the window exactly once, newest first,
    and reports that it went through, whatever the size of the window: when no
    second holds as many rows as an answer can carry, the cap of the endpoint
    is invisible.  One more call than there are rows is always enough. *)
Theorem DrainWindow_complete {W} (out : W → list Transaction) fetch yield db fuel from to w :
  Endpoint out fetch yield db → statement db → sparse db →
  (∀ f t w e, (fetch f t w).1 ≠ Err e) → (∀ tx w, (yield tx w).1 = true) →
  (length (window_rows db from to) < fuel)%nat →
  ∃ w', DrainWindow fuel from to fetch yield w = Some (true, None, w') ∧
        out w' = out w ++ window_rows db from to.
Proof.
  intros Hep Hst Hsp Hok Hgo Hf.
  destruct (DrainWindow_spec out fetch yield db Hep Hst from to fuel w Hf)
    as ([[cont err] w'] & Hrun & p & Hp & _ & Hstop & Herr & Hcomp).
  destruct err as [e|].
  { destruct (Herr e eq_refl) as (_ & f & t & w0 & Hfe). exfalso. apply (Hok f t w0 e). by rewrite Hfe. }
  destruct cont; [|destruct (Hstop eq_refl) as (_ & tx & w0 & Hy); by specialize (Hgo tx w0); rewrite Hy in Hgo].
  exists w'. split; [done|]. by rewrite Hp, Hcomp.
Qed.

Lemma DrainWindow_complete_witness :
  let db := ledger [30; 20; 20; 10] in
  ∃ s, DrainWindow 10 0 (20 * Second) (server db) (consumer (λ _, true)) (mkSession [] 0 None) = Some (true, None, s) ∧
       tID <$> s_out s = ["1"; "2"; "3"].
Proof.
  intros db.
  destruct (DrainWindow_complete (λ s : list Transaction, s)
              (λ f t s, (Ok (take (Z.to_nat StatementMaxRows) (window_rows db f t)), s)) (λ tx s, (true, s ++ [tx])) db
              10 0 (20 * Second) []) as (w' & _ & Hw).
  - split; [done| |done]. by intros f t w chunk [= <-].
  - apply ledger_statement. by repeat constructor.
  - by apply short_sparse.
  - done.
  - done.
  - by vm_compute; lia.
  - eexists. split; [by vm_compute|by vm_compute].
Defined.

(** Whatever the fetcher and the consumer do, what has been yielded when
    [DrainWindow] returns is a prefix of the window's rows: no row twice, none
    out of order, none from outside; it returns [false] only when the consumer
    stopped it, an error only when a fetch returned that very error, and a
    normal return under the cap per second means that nothing is missing. *)
Theorem DrainWindow_prefix {W} (out : W → list Transaction) fetch yield db fuel from to w :
  Endpoint out fetch yield db → statement db → (length (window_rows db from to) < fuel)%nat →
  ∃ cont err w' p, DrainWindow fuel from to fetch yield w = Some (cont, err, w') ∧
    out w' = out w ++ p ∧ p `prefix_of` window_rows db from to ∧ NoDup (tID <$> p) ∧
    (cont = false → err = None ∧ ∃ tx w0, yield tx w0 = (false, w')) ∧
    (∀ e, err = Some e → cont = true ∧ ∃ f t w0, fetch f t w0 = (Err e, w')) ∧
    (cont = true → err = None → sparse db → p = window_rows db from to).
Proof.
  intros Hep Hst Hf.
  destruct (DrainWindow_spec out fetch yield db Hep Hst from to fuel w Hf)
    as ([[cont err] w'] & Hrun & p & Hp & Hpre & Hrest).
  exists cont, err, w', p. split; [done|]. split; [done|]. split; [done|]. split; [|done].
  destruct (rows_statement db Hst from to) as [Hnd _ _]. destruct Hpre as [q Hq]. rewrite drop_0 in Hq.
  rewrite Hq, fmap_app in Hnd. by apply NoDup_app in Hnd as [? _].
Qed.

Lemma DrainWindow_prefix_witness :
  let db := ledger [30; 20; 20; 10] in
  ∃ cont err s p, DrainWindow 10 0 (40 * Second) (server db) (consumer (λ l, Nat.ltb (length l) 2))
      (mkSession [] 0 None) = Some (cont, err, s) ∧
    s_out s = p ∧ p `prefix_of` window_rows db 0 (40 * Second).
Proof.
  intros db.
  destruct (DrainWindow_prefix s_out (server db) (consumer (λ l, Nat.ltb (length l) 2)) db 10 0 (40 * Second)
              (mkSession [] 0 None)) as (cont & err & s & p & H1 & H2 & H3 & _).
  - apply server_endpoint.
  - apply ledger_statement. by repeat constructor.
  - by vm_compute; lia.
  - exists cont, err, s, p. done.
Defined.

(** With exactly as many rows in one second as an answer can carry, and no
    more, every older row of the window is silently lost: 500 rows share second
    10, the row at second 5 is never yielded, and the call reports success. *)
Theorem DrainWindow_full_second_loses :
  let db := ledger (replicate 500 10 ++ [5]) in
  statement db ∧ (∀ t, Z.of_nat (length (filter (λ x, sec x = t) db)) <= StatementMaxRows) ∧
  row 500 5 ∈ window_rows db 0 (20 * Second) ∧
  ∃ s, DrainWindow 600 0 (20 * Second) (server db) (consumer (λ _, true)) (mkSession [] 0 None)
         = Some (true, None, s) ∧ length (s_out s) = 500%nat ∧ row 500 5 ∉ s_out s.
Proof.
  intros db. split; [by apply ledger_statement, repeat_sorted|]. split; [|split].
  - intros t. assert (length db = 501%nat) as Hl by by vm_compute.
    assert (∃ x, x ∈ db ∧ sec x ≠ t) as (x & Hx & Ht).
    { destruct (decide (t = 5)) as [->|].
      - exists (row 0 10). split; [|by rewrite sec_row]. apply list_elem_of_lookup_2 with 0%nat. by vm_compute.
      - exists (row 500 5). split; [|by rewrite sec_row]. apply list_elem_of_lookup_2 with 500%nat. by vm_compute. }
    pose proof (length_filter_lt (λ x, sec x = t) db x Hx Ht). unfold StatementMaxRows. lia.
  - apply (bool_decide_unpack _). by vm_compute.
  - eexists. split; [by vm_compute|]. split; [by vm_compute|].
    apply (bool_decide_unpack _). by vm_compute.
Qed.

(** C3: against an endpoint that answers a window with its newest 500 rows or
    fails, and a statement in which fewer than 500 rows share a second,
    [TransactionsRange] over any interval, however many windows and answers it
    takes, returns all the rows of the interval, each once, or the error of a
    fetch that failed and no rows: never some of the rows.  ([from] must
    not be later within its second than [to] within its own, as it is when both
    are whole seconds; the fuel bounds are those of the code's loops.  What a
    full second loses is [DrainWindow_full_second_loses].) *)
Theorem TransactionsRange_complete {W} (fetch : StatementFetcher W) db fuel drain_fuel from to w :
  serves fetch db → statement db → sparse db →
  from mod Second <= to mod Second → IsZero to = false → from < to →
  (length db < drain_fuel)%nat → enough fuel to from →
  ∃ r w', TransactionsRange fuel drain_fuel fetch from to w = Some (r, w') ∧
    (∀ l, r = Ok l → l ≡ₚ window_rows db from to ∧ NoDup (tID <$> l)) ∧
    (∀ e, r = Err e → ∃ e0 f t w0, e = EWrap "range %s..%s: %w" e0 ∧ (fetch f t w0).1 = Err e0).
Proof.
  intros Hs Hst Hsp Hm Hz Hlt Hdf Hen. unfold TransactionsRange.
  rewrite Hz, (proj2 (Z.leb_gt to from)) by lia. simpl.
  destruct (range_loop_spec fetch db Hs Hst Hsp fuel drain_fuel to from [] w Hdf Hen) as (r & w' & -> & Hok & Herr).
  exists r, w'. split; [done|]. split; [|done]. intros l Hl. rewrite (Hok l Hl). simpl.
  pose proof (range_rows_perm fuel db to from Hst Hen Hm) as Hp. split; [done|].
  rewrite Hp. by destruct (rows_statement db Hst from to).
Qed.

Lemma TransactionsRange_complete_witness :
  let db := ledger [6000000; 3000000; 1000; 1000] in
  ∃ r s, TransactionsRange 5 10 (server db) 0 (7000000 * Second) (mkSession [] 0 None) = Some (r, s) ∧
    ∀ l, r = Ok l → l ≡ₚ window_rows db 0 (7000000 * Second).
Proof.
  intros db.
  destruct (TransactionsRange_complete (server db) db 5 10 0 (7000000 * Second) (mkSession [] 0 None))
    as (r & s & Hr & Hl & _); [| | | | | | | |exists r, s; split; [exact Hr|intros l Hok; by apply Hl]].
  - intros f t w chunk. unfold server. case_bool_decide; simpl; [done|by intros [= <-]].
  - apply ledger_statement. by repeat constructor.
  - by apply short_sparse.
  - by vm_compute.
  - by vm_compute.
  - by vm_compute.
  - by vm_compute; lia.
  - split; [lia|by vm_compute].
Defined.

(** C31: for every fetcher, whatever it answers and wherever it fails, while
    the context is alive and the consumer goes on, [TransactionsRangeIter]
    makes the calls [TransactionsRange] makes and yields the rows it returns,
    in its order; where [TransactionsRange] drops its rows and returns the
    wrapped error of a failed fetch, the iterator has yielded the rows read
    until then and ends with that error, unwrapped. *)
Theorem TransactionsRangeIter_same {W} (fetch : StatementFetcher W) ctx_Err fuel drain_fuel from to w :
  (∀ s, ctx_Err s = None) →
  match TransactionsRange fuel drain_fuel fetch from to w with
  | None => TransactionsRangeIter fuel drain_fuel ctx_Err (beside fetch) collect from to (w, []) = None
  | Some (Ok rows, w') =>
      TransactionsRangeIter fuel drain_fuel ctx_Err (beside fetch) collect from to (w, []) = Some (w', Ok <$> rows)
  | Some (Err e, w') => ∃ rows e0, e = EWrap "range %s..%s: %w" e0 ∧
      TransactionsRangeIter fuel drain_fuel ctx_Err (beside fetch) collect from to (w, [])
        = Some (w', (Ok <$> rows) ++ [Err e0])
  end.
Proof.
  intros Hctx. unfold TransactionsRangeIter, TransactionsRange. destruct (IsZero to || (to <=? from)); [done|].
  apply (iter_loop_same fetch ctx_Err fuel drain_fuel to from [] w Hctx).
Qed.

Lemma TransactionsRangeIter_same_witness :
  let db := ledger [6000000; 3000000; 1000; 1000] in
  let s := mkSession [] 0 (Some 1%nat) in
  let r := TransactionsRange 5 10 (server db) 0 (7000000 * Second) s in
  (∃ e s', r = Some (Err (EWrap "range %s..%s: %w" e), s')) ∧
  match r with
  | None => TransactionsRangeIter 5 10 (λ _, None) (beside (server db)) collect 0 (7000000 * Second) (s, []) = None
  | Some (Ok rows, w') =>
      TransactionsRangeIter 5 10 (λ _, None) (beside (server db)) collect 0 (7000000 * Second) (s, [])
        = Some (w', Ok <$> rows)
  | Some (Err e, w') => ∃ rows e0, e = EWrap "range %s..%s: %w" e0 ∧
      TransactionsRangeIter 5 10 (λ _, None) (beside (server db)) collect 0 (7000000 * Second) (s, [])
        = Some (w', (Ok <$> rows) ++ [Err e0])
  end.
Proof.
  intros db s r. split; [eexists _, _; by vm_compute|].
  by apply (TransactionsRangeIter_same (server db) (λ _, None) 5 10 0 (7000000 * Second) s).
Defined.

(** With bounds inside a second the last second can be missed: for [from]
    half a second in and [to] a fifth of a second in, the second windows would
    start after [to], and a row inside the interval, in the second of [to], is
    not returned although every call succeeded. *)
Theorem TransactionsRange_subsecond_misses :
  let db := ledger [2678401] in
  let from := 500000000 in let to := 2678401 * Second + 200000000 in
  statement db ∧ sparse db ∧ (∃ tx, tx ∈ db ∧ from < tTime tx < to) ∧
  ∃ s, TransactionsRange 5 10 (server db) from to (mkSession [] 0 None) = Some (Ok [], s).
Proof.
  intros db from to. split; [by apply ledger_statement; repeat constructor|].
  split; [by apply short_sparse|]. split.
  - exists (row 0 2678401). split; [by left|]. by vm_compute.
  - eexists. by vm_compute.
Qed.
