(* ===== verification/KeyCache.v ===== *)
(** * The cached verification key (webhook/handler.go, acquiring/handler.go)

    Both webhook handlers keep the bank's public key and refetch it at most
    once per [minRefreshInterval]: [refresh] and [refreshCoalesced], over any
    key type and fetcher.  A cached key carries the generation of the pointer
    that holds it, which the acquiring handler compares.  Calls run one after
    the other here; [singleflight] only merges concurrent ones. *)
From S2P Require Import Prelude GoString Errors GoHttp.

Definition minRefreshInterval : Z := 30 * Second.

Record KeyCache (K : Type) := mkCache { kc_key : option (nat * K); kc_gen : nat; lastRefreshAt : Z }.
Arguments mkCache {K} kc_key kc_gen lastRefreshAt.
Arguments kc_key {K} k.
Arguments kc_gen {K} k.
Arguments lastRefreshAt {K} k.

(** The cache of a handler that has fetched nothing. *)
Definition empty_cache {K} : KeyCache K := mkCache None 0 zero_time.

Section KeyCache.
Context {W : Type} `{World W} {K : Type} (fetch : W → result K * W).

Definition currentKey (c : KeyCache K) : option (nat * K) := kc_key c.

Definition refresh (c : KeyCache K) (w : W) : option error * KeyCache K * W :=
  let '(r, w) := fetch w in
  match r with
  | Err e => (Some e, c, w)
  | Ok k => (None, mkCache (Some (kc_gen c, k)) (S (kc_gen c)) (lastRefreshAt c), w)
  end.

Definition refreshCoalesced (c : KeyCache K) (w : W) : option error * KeyCache K * W :=
  let '(t, w) := now w in
  if time_Sub t (lastRefreshAt c) <? minRefreshInterval then (None, c, w)
  else
    let '(t, w) := now w in
    if time_Sub t (lastRefreshAt c) <? minRefreshInterval then (None, c, w)
    else
      let '(e, c, w) := refresh c w in
      match e with
      | Some e => (Some e, c, w)
      | None =>
          let '(t, w) := now w in
          (None, mkCache (kc_key c) (kc_gen c) t, w)
      end.

(** A flood: one call per element, the world moving on in between. *)
Fixpoint flood (between : list (W → W)) (c : KeyCache K) (w : W) : KeyCache K * W :=
  match between with
  | [] => (c, w)
  | f :: between => let '(_, c, w) := refreshCoalesced c (f w) in flood between c w
  end.

(** [Clocked clk fetches]: the clock never goes back, [now] reads it, and
    [fetches] counts the fetches. *)
Record Clocked (clk fetches : W → Z) : Prop := {
  ck_now w : (now w).1 = clk (now w).2 ∧ clk w <= clk (now w).2 ∧ fetches (now w).2 = fetches w;
  ck_fetch w : clk w <= clk (fetch w).2 ∧ fetches (fetch w).2 = fetches w + 1
}.

Definition passes (clk fetches : W → Z) (f : W → W) : Prop :=
  ∀ w, clk w <= clk (f w) ∧ fetches (f w) = fetches w.

(** Without a fetch error the key is there and the time of the fetch kept. *)
Lemma refreshCoalesced_cases clk fetches c w :
  Clocked clk fetches →
  let '(e, c', w') := refreshCoalesced c w in
  clk w <= clk w' ∧
  ((e = None ∧ c' = c ∧ fetches w' = fetches w) ∨
   (∃ e0, e = Some e0 ∧ c' = c ∧ fetches w' = fetches w + 1) ∨
   (e = None ∧ fetches w' = fetches w + 1 ∧
    ∃ t, minRefreshInterval <= time_Sub t (lastRefreshAt c) ∧ clk w <= t <= lastRefreshAt c' ∧
         lastRefreshAt c' <= clk w' ∧ is_Some (kc_key c'))).
Proof.
  intros Hck. unfold refreshCoalesced, refresh.
  destruct (ck_now _ _ Hck w) as (Hk1 & Hk2 & Hk3). destruct (now w) as [t1 w1]. simpl in Hk1, Hk2, Hk3.
  destruct (Z.ltb_spec (time_Sub t1 (lastRefreshAt c)) minRefreshInterval).
  { split; [lia|]. left. done. }
  destruct (ck_now _ _ Hck w1) as (Hk4 & Hk5 & Hk6). destruct (now w1) as [t2 w2]. simpl in Hk4, Hk5, Hk6.
  destruct (Z.ltb_spec (time_Sub t2 (lastRefreshAt c)) minRefreshInterval).
  { split; [lia|]. left. split; [done|]. split; [done|lia]. }
  destruct (ck_fetch _ _ Hck w2) as (Hk7 & Hk8). destruct (fetch w2) as [[k|e] w3]; simpl in Hk7, Hk8.
  - destruct (ck_now _ _ Hck w3) as (Hk9 & Hk10 & Hk11). destruct (now w3) as [t4 w4].
    simpl in Hk9, Hk10, Hk11. split; [lia|]. right. right. split; [done|]. split; [lia|].
    exists t2. simpl. split; [done|]. split; [lia|]. split; [lia|]. by eexists.
  - split; [lia|]. right. left. exists e. split; [done|]. split; [done|lia].
Qed.

End KeyCache.

(** ** A clock that fetches *)

Record Ticker := mkTicker { tk_clock : Z; tk_fetches : Z; tk_ok : bool }.

#[export] Instance ticker_world : World Ticker := {|
  now w := (tk_clock w, w); rand_Int64N _ w := (0, w); ctx_Err _ := None;
  wait d w := (None, mkTicker (tk_clock w + d) (tk_fetches w) (tk_ok w)) |}.

Definition ticker_fetch (w : Ticker) : result string * Ticker :=
  (if tk_ok w then Ok "key" else Err (EText "503"), mkTicker (tk_clock w) (tk_fetches w + 1) (tk_ok w)).

Definition good_fetch (w : Ticker) : result string * Ticker :=
  (Ok "key", mkTicker (tk_clock w) (tk_fetches w + 1) (tk_ok w)).

Definition tick (d : Z) (w : Ticker) : Ticker := mkTicker (tk_clock w + d) (tk_fetches w) (tk_ok w).

(** ** Properties *)

(** As long as the fetches succeed, a flood of requests with unknown keys
    costs the bank at most one fetch per [minRefreshInterval] of elapsed time,
    plus one, whatever the number of requests and however they are spaced. *)
Theorem flood_throttled {W} `{World W} {K} (fetch : W → result K * W) clk fetches between c w :
  Clocked fetch clk fetches → Forall (passes clk fetches) between →
  (∀ w e, (fetch w).1 ≠ Err e) →
  let n := fetches (flood fetch between c w).2 - fetches w in
  (n - 1) * minRefreshInterval <= clk (flood fetch between c w).2 - clk w.
Proof.
  intros Hck Hb Hok. cbv zeta.
  cut (∀ c w, clk w <= clk (flood fetch between c w).2 ∧
         ((fetches (flood fetch between c w).2 - fetches w - 1) * minRefreshInterval
            <= clk (flood fetch between c w).2 - clk w) ∧
         (∀ b, lastRefreshAt c <= b → b <= clk w →
            (fetches (flood fetch between c w).2 - fetches w) * minRefreshInterval
              <= clk (flood fetch between c w).2 - lastRefreshAt c)).
  { intros Hc. apply Hc. }
  assert (0 < minRefreshInterval) as Hpos by done.
  clear c w. induction Hb as [|f between Hf Hb IH]; intros c w; simpl; [split; [lia|]; split; [lia|]; intros; lia|].
  destruct (Hf w) as [Hfc Hff].
  pose proof (refreshCoalesced_cases fetch clk fetches c (f w) Hck) as Hr.
  destruct (refreshCoalesced fetch c (f w)) as [[e c'] w'] eqn:Er.
  destruct Hr as (Hc1 & [(-> & -> & Hn)|[(e0 & -> & -> & Hn)|(-> & Hn & t & Ht & Ht1 & Ht2 & _)]]).
  - destruct (IH c w') as (IH1 & IH2 & IH3). split; [lia|]. split; [lia|].
    intros b Hb1 Hb2. specialize (IH3 b ltac:(lia) ltac:(lia)). lia.
  - exfalso. revert Er. unfold refreshCoalesced, refresh. destruct (now (f w)) as [t1 w1].
    case_match; [congruence|]. destruct (now w1) as [t2 w2]. case_match; [congruence|].
    specialize (Hok w2 e0). destruct (fetch w2) as [[k|e1] w3]; [by destruct (now w3)|].
    intros Heq. by simplify_eq.
  - destruct (IH c' w') as (IH1 & IH2 & IH3).
    specialize (IH3 (lastRefreshAt c') ltac:(lia) ltac:(lia)). split; [lia|]. split; [lia|].
    intros b Hb1 Hb2. unfold time_Sub in Ht.
    assert (minRefreshInterval <= t - lastRefreshAt c) by (unfold minRefreshInterval in *; lia64). lia.
Qed.

Lemma flood_throttled_witness :
  let between := replicate 100 (tick Second) in let w := mkTicker 0 0 true in
  let w' := (flood good_fetch between empty_cache w).2 in
  tk_clock w' = 100 * Second ∧
  (tk_fetches w' - tk_fetches w - 1) * minRefreshInterval <= tk_clock w' - tk_clock w.
Proof.
  intros between w w'. split; [by vm_compute|].
  apply (flood_throttled good_fetch tk_clock tk_fetches between empty_cache w).
  - split; intros x; simpl; lia.
  - apply Forall_replicate. intros x. unfold tick, Second. simpl. lia.
  - done.
Defined.

(** The throttle counts successes only: while the endpoint fails, every
    call past the interval fetches again, so a flood of [n] requests makes [n]
    fetches, all in the same instant. *)
Theorem flood_failing_unthrottled n t0 c :
  minRefreshInterval <= time_Sub t0 (lastRefreshAt c) →
  tk_fetches (flood ticker_fetch (replicate n (tick 0)) c (mkTicker t0 0 false)).2 = Z.of_nat n.
Proof.
  intros Ht. cut (∀ k, tk_fetches (flood ticker_fetch (replicate n (tick 0)) c (mkTicker t0 k false)).2 = k + Z.of_nat n).
  { intros Hc. by rewrite Hc. }
  induction n as [|n IH]; intros k; [simpl; lia|]. cbn [replicate flood].
  unfold refreshCoalesced, tick. cbn [now ticker_world tk_clock tk_fetches tk_ok].
  rewrite Z.add_0_r, (proj2 (Z.ltb_ge _ _)) by done. unfold refresh, ticker_fetch. simpl.
  rewrite IH. lia.
Qed.

Lemma flood_failing_unthrottled_witness :
  tk_fetches (flood ticker_fetch (replicate 100 (tick 0)) (empty_cache (K := string)) (mkTicker 0 0 false)).2 = 100.
Proof. exact (flood_failing_unthrottled 100 0 empty_cache ltac:(by vm_compute)). Defined.
