(* ===== verification/Signature.v ===== *)
(** * Webhook signatures (webhook/signature.go, acquiring/webhook.go)

    [Verify] and [VerifyWebhook] around the primitives of [crypto]: SHA-256,
    ECDSA verification of a DER signature and the PEM/X.509 decoder of public
    keys are the class [Crypto].  The conversion of a raw r||s signature to DER
    is written out down to the bytes. *)
From S2P Require Import Prelude GoString GoText Errors.

Inductive Curve := P256 | OtherCurve (name : string).

Class Crypto := {
  PublicKey : Type;
  (* sha256.Sum256 *)
  sha256 : string → string;
  (* ecdsa.VerifyASN1(pub, digest, sig) *)
  VerifyASN1 : PublicKey → string → string → bool;
  (* pem.Decode: the bytes of the first block *)
  pem_Decode : string → option string;
  (* x509.ParsePKIXPublicKey: None on an error, Some None for a key that is not ECDSA *)
  ParsePKIXPublicKey : string → option (option PublicKey);
  key_Curve : PublicKey → Curve
}.

(** ** DER *)

(** The content of a DER INTEGER for a non-negative value: minimal big-endian
    bytes, with a leading zero when the high bit is set. *)
Definition der_int_content (z : Z) : list Z :=
  match be_bytes z with
  | [] => [0]
  | b :: l => if 128 <=? b then 0 :: b :: l else b :: l
  end.

(** [asn1.Marshal(struct{ R, S *big.Int })]; every length here is below 128. *)
Definition der_marshal (r s : Z) : list Z :=
  let ri := der_int_content r in
  let si := der_int_content s in
  let body := 2 :: Z.of_nat (length ri) :: ri ++ 2 :: Z.of_nat (length si) :: si in
  48 :: Z.of_nat (length body) :: body.

Definition rawSigLen : Z := 64.

Definition marshalRawSigToDER (sig : string) : result string :=
  if negb (slen sig =? rawSigLen) then Err (EText "raw signature must be 64 bytes")
  else
    let half := Z.to_nat (rawSigLen / 2) in
    Ok (byte_string (der_marshal (SetBytes (str_take half sig)) (SetBytes (str_drop half sig)))).

(** Reading such a signature back: the value of the bytes of each INTEGER. *)
Definition be_value (l : list Z) : Z := fold_left (λ acc b, acc * 256 + b) l 0.

Definition der_unmarshal (l : list Z) : option (Z * Z) :=
  match l with
  | 48 :: n :: 2 :: nr :: rest =>
      let r := take (Z.to_nat nr) rest in
      match drop (Z.to_nat nr) rest with
      | 2 :: ns :: s =>
          if bool_decide (Z.of_nat (length s) = ns ∧ n = 2 + nr + 2 + ns) then Some (be_value r, be_value s) else None
      | _ => None
      end
  | _ => None
  end.

(** ** Verification *)

Definition ErrBadSignature : string := "webhook.ErrBadSignature".
Definition ErrBadSignatureEncoding : string := "webhook.ErrBadSignatureEncoding".
Definition ErrMissingPubKey : string := "webhook.ErrMissingPubKey".

Section Verify.
Context `{Crypto}.

(** [Verify]: [None] is the nil error. *)
Definition Verify (pub : option PublicKey) (body xSign : string) : option error :=
  match pub with
  | None => Some (ENew ErrMissingPubKey)
  | Some pub =>
      match b64_DecodeString xSign with
      | None => Some (EWrap "%w: %v" (ENew ErrBadSignatureEncoding))
      | Some sig =>
          let digest := sha256 body in
          if VerifyASN1 pub digest sig then None
          else if slen sig =? rawSigLen then
            match marshalRawSigToDER sig with
            | Ok der => if VerifyASN1 pub digest der then None else Some (ENew ErrBadSignature)
            | Err _ => Some (ENew ErrBadSignature)
            end
          else Some (ENew ErrBadSignature)
      end
  end.

(** The acquiring variants (acquiring/webhook.go). *)
Definition AcqErrBadSignature : string := "acquiring.ErrBadSignature".
Definition AcqErrBadSignatureEncoding : string := "acquiring.ErrBadSignatureEncoding".
Definition AcqErrMissingPubKey : string := "acquiring.ErrMissingPubKey".
Definition ErrInvalidPubKey : string := "acquiring.ErrInvalidPubKey".

Definition VerifyWebhook (pub : option PublicKey) (body xSign : string) : option error :=
  match pub with
  | None => Some (ENew AcqErrMissingPubKey)
  | Some pub =>
      match b64_DecodeString xSign with
      | None => Some (EWrap "%w: %v" (ENew AcqErrBadSignatureEncoding))
      | Some sig => if VerifyASN1 pub (sha256 body) sig then None else Some (ENew AcqErrBadSignature)
      end
  end.

Definition ParsePubKey (keyB64 : string) : result PublicKey :=
  let bad := Err (EWrap "%w" (ENew ErrInvalidPubKey)) in
  if slen keyB64 =? 0 then bad
  else match b64_DecodeString keyB64 with
       | None => bad
       | Some pemBytes =>
           match pem_Decode pemBytes with
           | None => bad
           | Some block =>
               match ParsePKIXPublicKey block with
               | None | Some None => bad
               | Some (Some ecPub) =>
                   match key_Curve ecPub with P256 => Ok ecPub | OtherCurve _ => bad end
               end
           end
       end.

(** [ServerKey] (acquiring/merchant.go) and its [Public]. *)
Record AcqServerKey := mkAcqKey { Key : string }.

Definition Public (k : option AcqServerKey) : result PublicKey :=
  match k with None => Err (ENew AcqErrMissingPubKey) | Some k => ParsePubKey (Key k) end.

End Verify.

(** ** Lemmas *)

Lemma be_value_app acc l b : fold_left (λ acc b, acc * 256 + b) (l ++ [b]) acc = fold_left (λ acc b, acc * 256 + b) l acc * 256 + b.
Proof. by rewrite fold_left_app. Qed.

Lemma be_bytes_fuel_value n z acc :
  0 <= z → z < 256 ^ Z.of_nat n →
  be_value (be_bytes_fuel n z acc) = fold_left (λ a b, a * 256 + b) acc z.
Proof.
  revert z acc. induction n as [|n IH]; intros z acc Hz Hlt; cbn [be_bytes_fuel].
  - assert (z = 0) as -> by (change (256 ^ Z.of_nat 0) with 1 in Hlt; lia). done.
  - destruct (Z.leb_spec z 0); [assert (z = 0) as -> by lia; done|].
    rewrite Nat2Z.inj_succ, Z.pow_succ_r in Hlt by lia.
    pose proof (Z.div_mod z 256 ltac:(lia)) as Hd. pose proof (Z.mod_pos_bound z 256 ltac:(lia)).
    rewrite IH; [simpl; f_equal; lia| |].
    + apply Z.div_pos; lia.
    + apply Z.div_lt_upper_bound; lia.
Qed.

Lemma be_bytes_value z : 0 <= z → be_value (be_bytes z) = z.
Proof.
  intros Hz. unfold be_bytes. rewrite be_bytes_fuel_value; [done|done|].
  pose proof (Z.log2_nonneg z). pose proof (Z.div_pos (Z.log2 z) 8 ltac:(lia) ltac:(lia)).
  rewrite Z2Nat.id by lia. destruct (Z.eq_dec z 0) as [->|]; [by vm_compute|].
  destruct (Z.log2_spec z ltac:(lia)) as [_ Hl].
  eapply Z.lt_le_trans; [exact Hl|]. change 256 with (2 ^ 8). rewrite <- Z.pow_mul_r by lia.
  apply Z.pow_le_mono_r; [lia|].
  pose proof (Z.div_mod (Z.log2 z) 8 ltac:(lia)). pose proof (Z.mod_pos_bound (Z.log2 z) 8 ltac:(lia)). lia.
Qed.

Lemma be_bytes_fuel_length n z acc : (length (be_bytes_fuel n z acc) <= n + length acc)%nat.
Proof.
  revert z acc. induction n as [|n IH]; intros z acc; cbn [be_bytes_fuel]; [lia|].
  case_match; [lia|]. specialize (IH (z / 256) (z mod 256 :: acc)). simpl in IH. lia.
Qed.

Lemma be_bytes_length z : 0 <= z < 2 ^ 256 → (length (be_bytes z) <= 32)%nat.
Proof.
  intros Hz. unfold be_bytes. etrans; [apply be_bytes_fuel_length|]. simpl.
  destruct (Z.eq_dec z 0) as [->|]; [by vm_compute; lia|].
  pose proof (Z.log2_lt_pow2 z 256 ltac:(lia)) as Hl.
  pose proof (Z.div_mod (Z.log2 z) 8 ltac:(lia)). pose proof (Z.mod_pos_bound (Z.log2 z) 8 ltac:(lia)). lia.
Qed.

Lemma be_bytes_fuel_bytes n z acc :
  Forall (λ b, 0 <= b < 256) acc → Forall (λ b, 0 <= b < 256) (be_bytes_fuel n z acc).
Proof.
  revert z acc. induction n as [|n IH]; intros z acc Ha; cbn [be_bytes_fuel]; [done|].
  case_match; [done|]. apply IH. constructor; [|done]. apply Z.mod_pos_bound. lia.
Qed.

Lemma der_int_content_spec z : 0 <= z < 2 ^ 256 →
  be_value (der_int_content z) = z ∧ (1 <= length (der_int_content z) <= 33)%nat ∧
  Forall (λ b, 0 <= b < 256) (der_int_content z).
Proof.
  intros Hz. pose proof (be_bytes_value z ltac:(lia)) as Hv. pose proof (be_bytes_length z Hz) as Hl.
  pose proof (be_bytes_fuel_bytes (Z.to_nat (Z.log2 z / 8 + 1)) z [] ltac:(constructor)) as Hb.
  fold (be_bytes z) in Hb. unfold der_int_content. destruct (be_bytes z) as [|b l].
  - split; [by rewrite <- Hv|]. split; [simpl; lia|]. by repeat constructor.
  - case_match; split; try done; simpl in *; split; try lia; try done. by constructor.
Qed.

(** The marshalled signature is read back as the same pair. *)
Lemma der_unmarshal_marshal r s :
  0 <= r < 2 ^ 256 → 0 <= s < 2 ^ 256 →
  der_unmarshal (der_marshal r s) = Some (r, s) ∧ Forall (λ b, 0 <= b < 256) (der_marshal r s) ∧
  (length (der_marshal r s) <= 72)%nat.
Proof.
  intros Hr Hs. destruct (der_int_content_spec r Hr) as (Vr & Lr & Br).
  destruct (der_int_content_spec s Hs) as (Vs & Ls & Bs). unfold der_marshal.
  set (ri := der_int_content r) in *. set (si := der_int_content s) in *. clearbody ri si.
  split; [|split].
  - cbn [der_unmarshal]. rewrite Nat2Z.id, drop_app_length, take_app_length.
    rewrite bool_decide_true, Vr, Vs; [done|]. split; [done|]. cbn [length]. rewrite length_app. cbn [length]. lia.
  - repeat constructor; try lia; cbn [length]; rewrite ?length_app; cbn [length]; try lia.
    apply Forall_app_2; [done|]. constructor; [lia|]. constructor; [lia|done].
  - cbn [length]. rewrite length_app. cbn [length]. lia.
Qed.

Lemma byte_string_bytes l : Forall (λ b, 0 <= b < 256) l → byte_of <$> chars (byte_string l) = l.
Proof.
  intros Hl. unfold chars, byte_string. rewrite String.list_ascii_of_string_of_list_ascii.
  induction Hl as [|b l Hb Hl IH]; [done|]. rewrite !fmap_cons, byte_of_ascii by done. by f_equal.
Qed.

Lemma SetBytes_bounds s : 0 <= SetBytes s < 256 ^ slen s.
Proof.
  unfold SetBytes, slen.
  assert (length (String.list_ascii_of_string s) = String.length s) as <-
    by (induction s as [|a s IH]; simpl; [done|by rewrite IH]).
  induction (String.list_ascii_of_string s) as [|a l IH] using rev_ind; [by vm_compute; split|].
  rewrite fold_left_app, length_app. simpl. pose proof (byte_of_bound a).
  rewrite Nat.add_1_r, Nat2Z.inj_succ, Z.pow_succ_r by lia. lia.
Qed.

Lemma half_lengths sig : slen sig = rawSigLen → slen (str_take 32 sig) = 32 ∧ slen (str_drop 32 sig) = 32.
Proof.
  unfold slen, rawSigLen. intros Hl. pose proof (str_take_drop 32 sig) as Ht.
  assert (String.length (str_take 32 sig) = 32%nat) as Htk by (rewrite str_take_length; lia).
  split; [lia|]. apply (f_equal slen) in Ht. rewrite slen_app in Ht. unfold slen in Ht. lia.
Qed.

(** A checker for examples: key ["k"] accepts exactly the signature that
    repeats the digest. *)
#[local] Instance toy_crypto : Crypto := {|
  PublicKey := string; sha256 b := b; VerifyASN1 k d s := String.eqb s (k +:+ d);
  pem_Decode s := Some s; ParsePKIXPublicKey s := Some (Some s);
  key_Curve k := if String.eqb k "k" then P256 else OtherCurve k |}.

(** ** Properties *)

(** C26: a raw 64-byte signature becomes the DER sequence of its two halves read
    as big-endian integers: decoding the bytes gives the pair back, so two
    different raw signatures never give the same DER, and the lengths fit the
    one-byte form; every other length is refused. *)
Theorem marshalRawSigToDER_roundtrip sig :
  (slen sig = rawSigLen →
   ∃ der, marshalRawSigToDER sig = Ok der ∧ slen der <= 72 ∧
     der_unmarshal (byte_of <$> chars der) = Some (SetBytes (str_take 32 sig), SetBytes (str_drop 32 sig))) ∧
  (slen sig ≠ rawSigLen → ∃ e, marshalRawSigToDER sig = Err e).
Proof.
  unfold marshalRawSigToDER. split; intros Hl.
  - rewrite Hl. change (negb (rawSigLen =? rawSigLen)) with false. cbv zeta iota.
    change (Z.to_nat (rawSigLen / 2)) with 32%nat.
    destruct (half_lengths sig Hl) as [H1 H2].
    pose proof (SetBytes_bounds (str_take 32 sig)) as Hr. rewrite H1 in Hr.
    pose proof (SetBytes_bounds (str_drop 32 sig)) as Hs. rewrite H2 in Hs.
    change (256 ^ 32) with (2 ^ 256) in Hr, Hs.
    destruct (der_unmarshal_marshal _ _ Hr Hs) as (Hu & Hb & Hlen).
    eexists. split; [done|]. rewrite byte_string_bytes by done. split; [|done].
    pose proof (f_equal length (byte_string_bytes _ Hb)) as He. rewrite length_fmap in He.
    unfold slen. unfold chars in He.
    set (l := der_marshal _ _) in *. clearbody l.
    assert (∀ s, length (String.list_ascii_of_string s) = String.length s) as Hlas
      by (induction s as [|a s IH]; simpl; [done|by rewrite IH]).
    rewrite Hlas in He. lia.
  - rewrite (proj2 (Z.eqb_neq _ _) Hl). simpl. by eexists.
Qed.

Lemma marshalRawSigToDER_roundtrip_witness :
  let sig := Repeat "A" 64 in
  ∃ der, marshalRawSigToDER sig = Ok der ∧ slen der <= 72.
Proof.
  intros sig. destruct (proj1 (marshalRawSigToDER_roundtrip sig) ltac:(by vm_compute)) as (der & H1 & H2 & _).
  exists der. split; [exact H1|exact H2].
Defined.

(** [Verify] accepts exactly when there is a key, the header is valid
    base64, and the decoded signature, or the DER form of a 64-byte one, passes
    ECDSA verification of the body's SHA-256 digest; every refusal is one of
    the three documented errors. *)
Theorem Verify_iff `{Crypto} pub body xSign :
  (Verify pub body xSign = None ↔
   ∃ k sig, pub = Some k ∧ b64_DecodeString xSign = Some sig ∧
     (VerifyASN1 k (sha256 body) sig = true ∨
      slen sig = rawSigLen ∧ ∃ der, marshalRawSigToDER sig = Ok der ∧ VerifyASN1 k (sha256 body) der = true)) ∧
  (∀ e, Verify pub body xSign = Some e →
     errors_Is e ErrMissingPubKey || errors_Is e ErrBadSignatureEncoding || errors_Is e ErrBadSignature = true).
Proof.
  unfold Verify. split.
  - split.
    + intros Hv. destruct pub as [k|]; [|done]. destruct (b64_DecodeString xSign) as [sig|]; [|done].
      exists k, sig. split; [done|]. split; [done|]. cbv zeta in Hv.
      destruct (VerifyASN1 k (sha256 body) sig); [by left|]. right.
      destruct (Z.eqb_spec (slen sig) rawSigLen); [|done]. split; [done|].
      destruct (marshalRawSigToDER sig) as [der|]; [|done]. exists der. split; [done|]. by case_match.
    + intros (k & sig & -> & -> & Hor). cbv zeta. destruct (VerifyASN1 k (sha256 body) sig); [done|].
      destruct Hor as [?|(-> & der & -> & ->)]; [done|]. done.
  - intros e He. repeat case_match; by simplify_eq/=.
Qed.

(** [ParsePubKey] yields a key only for base64 of a PEM block holding an
    ECDSA key on P-256, the curve Mono signs on; anything else is
    [ErrInvalidPubKey], and a missing [ServerKey] is [ErrMissingPubKey]. *)
Theorem ParsePubKey_P256 `{Crypto} keyB64 :
  (∀ k, ParsePubKey keyB64 = Ok k ↔
     keyB64 ≠ "" ∧ ∃ pem block, b64_DecodeString keyB64 = Some pem ∧ pem_Decode pem = Some block ∧
       ParsePKIXPublicKey block = Some (Some k) ∧ key_Curve k = P256) ∧
  (∀ e, ParsePubKey keyB64 = Err e → errors_Is e ErrInvalidPubKey = true) ∧
  Public (Some (mkAcqKey keyB64)) = ParsePubKey keyB64 ∧ Public None = Err (ENew AcqErrMissingPubKey).
Proof.
  assert (slen keyB64 = 0 ↔ keyB64 = "") as Hz.
  { unfold slen. destruct keyB64; simpl; split; intros; [done|done|lia|done]. }
  unfold ParsePubKey. cbv zeta. split; [|split; [|done]].
  - intros k. destruct (Z.eqb_spec (slen keyB64) 0) as [He|He].
    { split; [done|]. intros [Hn _]. tauto. }
    assert (∀ (P : Prop), (P → False) → (Err (EWrap "%w" (ENew ErrInvalidPubKey)) = Ok k ↔ P)) as Hbad
      by (intros P HP; split; [done|by intros ?%HP]).
    destruct (b64_DecodeString keyB64) as [pem|]; [|by apply Hbad; intros (_ & ? & ? & ? & _)].
    destruct (pem_Decode pem) as [block|] eqn:Hp; [|apply Hbad; intros (_ & ? & ? & ? & ? & _); congruence].
    destruct (ParsePKIXPublicKey block) as [[k'|]|] eqn:Hk;
      [|apply Hbad; intros (_ & ? & ? & ? & ? & ? & _); congruence..].
    destruct (key_Curve k') eqn:Hc; [|apply Hbad; intros (_ & ? & ? & ? & ? & ? & ?); congruence].
    split; [intros [= <-]; split; [tauto|by eauto 10]|].
    intros (_ & ? & ? & ? & ? & ? & _). congruence.
  - intros e He. repeat case_match; by simplify_eq/=.
Qed.
