(* ===== verification/Keys.v ===== *)
(** * ECDSA keys on secp256k1 (auth/corporate.go, auth/pubkey.go, bank/serverkey.go)

    Reading the private key of a corporate service, serializing its public
    point, the PEM the registration sends, and reading the server key of the
    bank.  The curve library and the PEM and ASN.1 decoders are the class
    [KeyLib]; everything the code does around them, and the DER it writes, is
    defined down to the bytes. *)
From S2P Require Import Prelude GoString GoText Base64 Errors Signature.

(** What is outside: github.com/decred/dcrd/dcrec/secp256k1 and the decoders of
    the standard library. *)
Class KeyLib := {
  (* secp256k1.ParsePubKey: the coordinates of the point *)
  secp_ParsePubKey : string → option (Z * Z);
  (* secp256k1.PrivKeyFromBytes(b).ToECDSA(): D, X, Y *)
  secp_PrivKeyFromBytes : string → Z * Z * Z;
  (* secp256k1.S256().Params().N *)
  curve_N : Z;
  (* pem.Decode: type and bytes of the first block, and the rest *)
  pem_DecodeBlock : string → option (string * string * string);
  (* asn1.Unmarshal into ecPrivateKey: Version and PrivateKey *)
  asn1_ecPrivateKey : string → option (Z * string);
  (* crypto/sha1 *)
  sha1 : string → string
}.

(** Their documented behaviour: the order of secp256k1 has 256 bits, an
    uncompressed point carries its coordinates big-endian, a scalar below the
    order is kept, and the points of a key pair have 32-byte coordinates; what
    follows a PEM block is shorter than the input. *)
Class KeyLibLaws `{KeyLib} : Prop := {
  curve_N_bits : 2 ^ 255 <= curve_N < 2 ^ 256;
  ParsePubKey_uncompressed b x y :
    slen b = 65 → String.get 0 b = Some (ascii_of_Z 4) → secp_ParsePubKey b = Some (x, y) →
    x = SetBytes (str_take 32 (str_drop 1 b)) ∧ y = SetBytes (str_drop 32 (str_drop 1 b));
  PrivKeyFromBytes_scalar b :
    slen b = 32 → SetBytes b < curve_N →
    (secp_PrivKeyFromBytes b).1.1 = SetBytes b ∧
    0 <= (secp_PrivKeyFromBytes b).1.2 < 2 ^ 256 ∧ 0 <= (secp_PrivKeyFromBytes b).2 < 2 ^ 256;
  pem_DecodeBlock_rest s ty b rest : pem_DecodeBlock s = Some (ty, b, rest) → slen rest < slen s
}.

(** [ecdsa.PublicKey] and [ecdsa.PrivateKey] on this curve. *)
Record PubKey := mkPub { PubX : Z; PubY : Z }.
Record PrivKey := mkPriv { PrivD : Z; Pub : PubKey }.

#[global] Instance PubKey_eq_dec : EqDecision PubKey.
Proof. solve_decision. Defined.

(** [z.BitLen()]. *)
Definition BitLen (z : Z) : Z := if Z.abs z =? 0 then 0 else Z.log2 (Z.abs z) + 1.

(** ** auth/corporate.go *)

Definition ErrDecodePrivateKey : string := "auth.ErrDecodePrivateKey".
Definition ErrEncodePublicKey : string := "auth.ErrEncodePublicKey".
Definition ErrNoPrivateKey : string := "auth.ErrNoPrivateKey".
Definition ErrInvalidEC : string := "auth.ErrInvalidEC".
Definition ErrInvalidPrivateKey : string := "auth.ErrInvalidPrivateKey".
Definition ecPrivateKeyBlockType : string := "EC PRIVATE KEY".
Definition ecPrivateKeyVersion : Z := 1.

(** [copy(out[low:…], src)] where [src] fits; [None] when the slice expression
    panics. *)
Definition copy_into (low : Z) (src out : list Z) : option (list Z) :=
  if (low <? 0) || (Z.of_nat (length out) <? low + Z.of_nat (length src)) then None
  else Some (take (Z.to_nat low) out ++ src ++ drop (Z.to_nat low + length src) out).

Definition coordSize : Z := 32.

Definition serializeECDSAPubKeyUncompressed (pub : PubKey) : option string :=
  let out := 4 :: replicate 64 0 in
  let xb := be_bytes (PubX pub) in
  let yb := be_bytes (PubY pub) in
  out ← copy_into (1 + coordSize - Z.of_nat (length xb)) xb out;
  out ← copy_into (1 + 2 * coordSize - Z.of_nat (length yb)) yb out;
  Some (byte_string out).

(** [for len(raw) > expected && raw[0] == 0 { raw = raw[1:] }]. *)
Fixpoint strip_zeros (expected : Z) (raw : string) : string :=
  match raw with
  | String a raw' => if (expected <? slen raw) && (byte_of a =? 0) then strip_zeros expected raw' else raw
  | "" => ""
  end.

Section Decode.
Context `{KeyLib}.

Definition parseECPrivateKey (b : string) : result PrivKey :=
  match asn1_ecPrivateKey b with
  | None => Err (EWrap "failed to parse EC private key: %w" (EText "asn1"))
  | Some (Version, raw) =>
      if negb (Version =? ecPrivateKeyVersion) then Err (EText "unknown EC private key version %d")
      else
        let expected := (BitLen curve_N + 7) / 8 in
        let raw := strip_zeros expected raw in
        if expected <? slen raw then Err (ENew ErrInvalidPrivateKey)
        else if curve_N <=? SetBytes raw then Err (ENew ErrInvalidEC)
        else
          let padded := Repeat (String "000" "") (Z.to_nat (expected - slen raw)) +:+ raw in
          let '(d, x, y) := secp_PrivKeyFromBytes padded in Ok (mkPriv d (mkPub x y))
  end.

(** The loop over the PEM blocks of the input. *)
Fixpoint decodePrivateKey (fuel : nat) (b : string) : option (result PrivKey) :=
  match fuel with
  | O => None
  | S fuel =>
      match pem_DecodeBlock b with
      | None => Some (Err (ENew ErrNoPrivateKey))
      | Some (ty, blk, rest) =>
          if String.eqb ty ecPrivateKeyBlockType then Some (parseECPrivateKey blk)
          else decodePrivateKey fuel rest
      end
  end.

(** [CorpAuthMaker]. *)
Record CorpAuthMaker := mkMaker { privateKey : PrivKey; KeyID : string }.

(** [hash.Write] of SHA-1 never fails. [None] is a panic of the serialization
    or missing fuel. *)
Definition NewCorpAuthMaker (fuel : nat) (secKey : string) : option (result CorpAuthMaker) :=
  match decodePrivateKey fuel secKey with
  | None => None
  | Some (Err _) => Some (Err (ENew ErrDecodePrivateKey))
  | Some (Ok k) =>
      pk ← serializeECDSAPubKeyUncompressed (Pub k);
      Some (Ok (mkMaker k (hex_Encode (bytes (sha1 pk)))))
  end.

(** ** bank/serverkey.go *)

Definition ErrInvalidServerKey : string := "bank.ErrInvalidPubKey".
Definition uncompressedPointPrefix : Z := 4.
Definition uncompressedPointLength : Z := 1 + 2 * 32.

Record bankSyncResponse := mkSync { ServerKeyID : string; ServerPubKey : string; ServerTimeMsec : Z }.

(** [bank.ServerKey]: identifier, point and [time.UnixMilli]. *)
Record SyncedKey := mkSynced { SyncedID : string; PubPoint : PubKey; SyncedTime : Z }.

Definition asServerKey (r : bankSyncResponse) : result SyncedKey :=
  match b64_DecodeString (ServerPubKey r) with
  | None => Err (EWrap "decode serverPubKey: %w" (EText "base64"))
  | Some pubBytes =>
      if negb (slen pubBytes =? uncompressedPointLength) || negb (byte_at pubBytes 0 =? uncompressedPointPrefix) then
        Err (ENew ErrInvalidServerKey)
      else match secp_ParsePubKey pubBytes with
           | None => Err (EWrap "%w: %s" (ENew ErrInvalidServerKey))
           | Some (x, y) => Ok (mkSynced (ServerKeyID r) (mkPub x y) (ServerTimeMsec r * Millisecond))
           end
  end.
End Decode.

(** ** auth/pubkey.go *)

(** DER: a tag, a definite length, the content; an object identifier in base
    128; a bit string of whole bytes. *)
Definition der_length (n : Z) : list Z :=
  if n <? 128 then [n] else if n <? 256 then [129; n] else [130; n / 256; n mod 256].
Definition der_tlv (tag : Z) (content : list Z) : list Z :=
  tag :: der_length (Z.of_nat (length content)) ++ content.

Fixpoint base128 (fuel : nat) (n : Z) (acc : list Z) : list Z :=
  match fuel with
  | O => acc
  | S fuel => if n <? 128 then (n + if bool_decide (acc = []) then 0 else 128) :: acc
              else base128 fuel (n / 128) ((n mod 128 + if bool_decide (acc = []) then 0 else 128) :: acc)
  end.

Definition der_oid (arcs : list Z) : list Z :=
  match arcs with
  | a :: b :: l => der_tlv 6 (mbind (λ n, base128 5 n []) (40 * a + b :: l))
  | _ => der_tlv 6 []
  end.

Definition der_bits (b : list Z) : list Z := der_tlv 3 (0 :: b).

Definition oidPublicKeyECDSA : list Z := [1; 2; 840; 10045; 2; 1].
Definition oidSecp256k1 : list Z := [1; 3; 132; 0; 10].
Definition pointCoordinateBytes : Z := 32.

(** [asn1.Marshal(pkixPublicKey{…})]. *)
Definition pkixPublicKey (point : list Z) : list Z :=
  der_tlv 48 (der_tlv 48 (der_oid oidPublicKeyECDSA ++ der_oid oidSecp256k1) ++ der_bits point).

(** [None] when the serialization panics. *)
Definition PublicKeyPEM (c : CorpAuthMaker) : option (result string) :=
  let pub := Pub (privateKey c) in
  if (8 * pointCoordinateBytes <? BitLen (PubX pub)) || (8 * pointCoordinateBytes <? BitLen (PubY pub)) then
    Some (Err (EText "auth: public-key coordinates exceed 32 bytes"))
  else
    point ← serializeECDSAPubKeyUncompressed pub;
    Some (Ok (pem_EncodeToMemory "PUBLIC KEY" (byte_string (pkixPublicKey (bytes point))))).

(** ** Lemmas *)

Lemma be_value_fold l acc : fold_left (λ a b, a * 256 + b) l acc = acc * 256 ^ Z.of_nat (length l) + be_value l.
Proof.
  unfold be_value. revert acc. induction l as [|b l IH]; intros acc; cbn [fold_left length].
  { change (256 ^ Z.of_nat 0) with 1. lia. }
  rewrite IH, (IH (0 * 256 + b)), Nat2Z.inj_succ, Z.pow_succ_r by lia. lia.
Qed.

Lemma SetBytes_value s : SetBytes s = be_value (bytes s).
Proof.
  unfold SetBytes, be_value, bytes, chars. generalize 0.
  induction (String.list_ascii_of_string s) as [|a l IH]; intros z; [done|]. rewrite fmap_cons. cbn. by rewrite IH.
Qed.

Lemma be_value_zeros n l : be_value (replicate n 0 ++ l) = be_value l.
Proof.
  unfold be_value. rewrite fold_left_app.
  assert (fold_left (λ a b, a * 256 + b) (replicate n 0) 0 = 0) as ->; [|done].
  induction n as [|n IH]; [done|]. cbn. done.
Qed.

Lemma SetBytes_cons a s : SetBytes (String a s) = byte_of a * 256 ^ slen s + SetBytes s.
Proof.
  rewrite !SetBytes_value. change (bytes (String a s)) with (byte_of a :: bytes s). rewrite <- length_bytes.
  unfold be_value at 1. cbn [fold_left]. rewrite be_value_fold. lia.
Qed.

(** A coordinate, padded to 32 bytes. *)
Definition be32 (z : Z) : list Z := replicate (32 - length (be_bytes z)) 0 ++ be_bytes z.

Lemma be32_spec z : 0 <= z < 2 ^ 256 →
  length (be32 z) = 32%nat ∧ be_value (be32 z) = z ∧ Forall (λ b, 0 <= b < 256) (be32 z).
Proof.
  intros Hz. pose proof (be_bytes_length z Hz). unfold be32. split; [|split].
  - rewrite length_app, length_replicate. lia.
  - rewrite be_value_zeros. apply be_bytes_value. lia.
  - apply Forall_app_2; [apply Forall_replicate; lia|]. by apply be_bytes_fuel_bytes.
Qed.

(** The point is the prefix and the two padded coordinates: no write of the
    serialization is out of range or touches the prefix. *)
Lemma serialize_point p : 0 <= PubX p < 2 ^ 256 → 0 <= PubY p < 2 ^ 256 →
  serializeECDSAPubKeyUncompressed p = Some (byte_string (4 :: be32 (PubX p) ++ be32 (PubY p))).
Proof.
  intros Hx Hy. pose proof (be_bytes_length _ Hx) as Lx. pose proof (be_bytes_length _ Hy) as Ly.
  unfold serializeECDSAPubKeyUncompressed, copy_into, coordSize, be32.
  set (xb := be_bytes (PubX p)) in *. set (yb := be_bytes (PubY p)) in *. clearbody xb yb.
  set (nx := (32 - length xb)%nat). set (ny := (32 - length yb)%nat).
  replace (Z.to_nat (1 + 32 - Z.of_nat (length xb))) with (S nx) by lia.
  replace (Z.to_nat (1 + 2 * 32 - Z.of_nat (length yb))) with (33 + ny)%nat by lia.
  rewrite (proj2 (orb_false_iff _ _)).
  2:{ split; [apply Z.ltb_ge; lia|]. apply Z.ltb_ge. cbn [length]. rewrite length_replicate. lia. }
  cbn [mbind option_bind take drop app].
  replace (S nx + length xb)%nat with 33%nat by lia. cbn [drop].
  rewrite take_replicate, drop_replicate, Nat.min_l by lia. change (64 - 32)%nat with 32%nat.
  rewrite (proj2 (orb_false_iff _ _)).
  2:{ split; [apply Z.ltb_ge; lia|]. apply Z.ltb_ge. cbn [length]. rewrite !length_app, !length_replicate. lia. }
  do 2 f_equal. rewrite (app_assoc (replicate nx 0) xb).
  assert (length (replicate nx 0 ++ xb) = 32%nat) as Hl by (rewrite length_app, length_replicate; lia).
  change (33 + ny)%nat with (S (32 + ny)). cbn [take]. cbn [app]. f_equal.
  rewrite take_app, drop_ge by (cbn [length]; rewrite length_app, length_replicate, Hl; lia).
  rewrite app_nil_r, take_ge by lia. rewrite Hl. replace (32 + ny - 32)%nat with ny by lia.
  by rewrite take_replicate, Nat.min_l, <- app_assoc by lia.
Qed.

Lemma str_drop_bytes n s : bytes (str_drop n s) = drop n (bytes s).
Proof.
  revert s. induction n as [|n IH]; intros s; [done|]. destruct s as [|a s]; [done|].
  cbn [str_drop]. by rewrite IH.
Qed.

Lemma str_take_bytes n s : bytes (str_take n s) = take n (bytes s).
Proof.
  revert s. induction n as [|n IH]; intros s; [by destruct s|]. destruct s as [|a s]; [done|].
  cbn [str_take]. change (byte_of a :: bytes (str_take n s) = byte_of a :: take n (bytes s)). by rewrite IH.
Qed.

(** What a reader of the serialized point finds. *)
Lemma serialized_fields p : 0 <= PubX p < 2 ^ 256 → 0 <= PubY p < 2 ^ 256 →
  ∃ s, serializeECDSAPubKeyUncompressed p = Some s ∧ slen s = 65 ∧ String.get 0 s = Some (ascii_of_Z 4) ∧
       SetBytes (str_take 32 (str_drop 1 s)) = PubX p ∧ SetBytes (str_drop 32 (str_drop 1 s)) = PubY p ∧
       bytes s = 4 :: be32 (PubX p) ++ be32 (PubY p).
Proof.
  intros Hx Hy. destruct (be32_spec _ Hx) as (Lx & Vx & Bx). destruct (be32_spec _ Hy) as (Ly & Vy & By).
  rewrite (serialize_point p Hx Hy). eexists. split; [done|].
  assert (bytes (byte_string (4 :: be32 (PubX p) ++ be32 (PubY p))) = 4 :: be32 (PubX p) ++ be32 (PubY p)) as Hb.
  { apply bytes_of_byte_string. constructor; [lia|]. by apply Forall_app_2. }
  split; [|split; [done|split; [|split; [|done]]]].
  - rewrite <- length_bytes, Hb. cbn [length]. rewrite length_app, Lx, Ly. done.
  - rewrite SetBytes_value, str_take_bytes, str_drop_bytes, Hb. cbn [drop]. rewrite drop_0.
    by rewrite take_app_length' by done.
  - rewrite SetBytes_value, !str_drop_bytes, Hb. cbn [drop]. rewrite drop_0.
    by rewrite drop_app_length' by done.
Qed.

Lemma strip_zeros_value n s : SetBytes (strip_zeros n s) = SetBytes s.
Proof.
  induction s as [|a s IH]; [done|]. cbn [strip_zeros].
  destruct ((n <? slen (String a s)) && (byte_of a =? 0)) eqn:Hc; [|done].
  apply andb_true_iff in Hc as [_ Ha%Z.eqb_eq]. rewrite IH, SetBytes_cons, Ha. lia.
Qed.

(** What is left is short exactly when the value is. *)
Lemma strip_zeros_short n s : 0 <= n → slen (strip_zeros n s) <= n ↔ SetBytes s < 256 ^ n.
Proof.
  intros Hn. induction s as [|a s IH].
  { split; [|done]. intros _. change (SetBytes "") with 0. apply Z.pow_pos_nonneg; lia. }
  cbn [strip_zeros]. assert (slen (String a s) = slen s + 1) as Hl by (unfold slen; cbn [String.length]; lia).
  pose proof (byte_of_bound a). pose proof (SetBytes_bounds s). pose proof (slen_nonneg s).
  destruct (Z.ltb_spec n (slen (String a s))); cbn [andb].
  - destruct (Z.eqb_spec (byte_of a) 0) as [Ha|Ha]; [by rewrite IH, SetBytes_cons, Ha|].
    split; [lia|]. rewrite SetBytes_cons. intros Hlt. exfalso.
    pose proof (Z.pow_le_mono_r 256 n (slen s) ltac:(lia) ltac:(lia)). nia.
  - split; [intros _|lia]. pose proof (SetBytes_bounds (String a s)).
    pose proof (Z.pow_le_mono_r 256 (slen (String a s)) n ltac:(lia) ltac:(lia)). lia.
Qed.

Lemma BitLen_le z n : 0 <= z → 0 <= n → BitLen z <= n ↔ z < 2 ^ n.
Proof.
  intros Hz Hn. unfold BitLen. rewrite Z.abs_eq by lia. destruct (Z.eqb_spec z 0) as [->|].
  { split; [|lia]. intros _. apply Z.pow_pos_nonneg; lia. }
  pose proof (Z.log2_lt_pow2 z n ltac:(lia)). lia.
Qed.

Lemma Repeat_zeros n s : bytes (Repeat (String "000" "") n +:+ s) = replicate n 0 ++ bytes s.
Proof. induction n as [|n IH]; [done|]. cbn [Repeat replicate]. change (bytes ((String "000" "" +:+ Repeat (String "000" "") n) +:+ s)) with (0 :: bytes (Repeat (String "000" "") n +:+ s)). by rewrite IH. Qed.

(** The first block of the wanted type, if any. *)
Inductive first_block `{KeyLib} (ty : string) : string → option string → Prop :=
| first_none b : pem_DecodeBlock b = None → first_block ty b None
| first_here b blk rest : pem_DecodeBlock b = Some (ty, blk, rest) → first_block ty b (Some blk)
| first_skip b ty' blk rest o :
    pem_DecodeBlock b = Some (ty', blk, rest) → ty' ≠ ty → first_block ty rest o → first_block ty b o.

Lemma decodePrivateKey_first `{KeyLibLaws} fuel b : (String.length b < fuel)%nat →
  ∃ o, first_block ecPrivateKeyBlockType b o ∧
       decodePrivateKey fuel b = Some (match o with None => Err (ENew ErrNoPrivateKey) | Some blk => parseECPrivateKey blk end).
Proof.
  revert b. induction fuel as [|fuel IH]; intros b Hf; [lia|]. cbn [decodePrivateKey].
  destruct (pem_DecodeBlock b) as [[[ty blk] rest]|] eqn:Hb.
  - destruct (String.eqb_spec ty ecPrivateKeyBlockType) as [->|Hty].
    + exists (Some blk). split; [by eapply first_here|done].
    + pose proof (pem_DecodeBlock_rest _ _ _ _ Hb) as Hr. unfold slen in Hr.
      destruct (IH rest ltac:(lia)) as (o & Ho & He). exists o. split; [by eapply first_skip|done].
  - exists None. split; [by apply first_none|done].
Qed.

Lemma expected_length `{KeyLibLaws} : (BitLen curve_N + 7) / 8 = 32.
Proof.
  pose proof curve_N_bits as HN. unfold BitLen. rewrite Z.abs_eq by lia.
  rewrite (proj2 (Z.eqb_neq _ _)) by lia. rewrite (Z.log2_unique curve_N 255); [done|lia|].
  change (2 ^ Z.succ 255) with (2 ^ 256). lia.
Qed.

(** What a DER key of the file is taken for. *)
Definition is_scalar `{KeyLib} (blk raw : string) : Prop :=
  asn1_ecPrivateKey blk = Some (ecPrivateKeyVersion, raw) ∧ SetBytes raw < curve_N.

Lemma parseECPrivateKey_spec `{KeyLibLaws} blk :
  (∀ raw, is_scalar blk raw →
     ∃ k, parseECPrivateKey blk = Ok k ∧ PrivD k = SetBytes raw ∧
          0 <= PubX (Pub k) < 2 ^ 256 ∧ 0 <= PubY (Pub k) < 2 ^ 256) ∧
  ((¬ ∃ raw, is_scalar blk raw) → ∃ e, parseECPrivateKey blk = Err e).
Proof.
  unfold parseECPrivateKey, is_scalar. rewrite expected_length. pose proof curve_N_bits as HN.
  destruct (asn1_ecPrivateKey blk) as [[v raw]|].
  2:{ split; [by intros raw [? _]|by eexists]. }
  destruct (Z.eqb_spec v ecPrivateKeyVersion) as [->|Hv]; cbn [negb].
  2:{ split; [intros raw' [[= ? _] _]; done|by eexists]. }
  pose proof (strip_zeros_short 32 raw ltac:(lia)) as Hs. pose proof (strip_zeros_value 32 raw) as Hval.
  set (s := strip_zeros 32 raw) in *. change (256 ^ 32) with (2 ^ 256) in Hs.
  destruct (Z.ltb_spec 32 (slen s)).
  { split; [intros raw' [[= <-] ?]; lia|by eexists]. }
  rewrite Hval. destruct (Z.leb_spec curve_N (SetBytes raw)).
  { split; [intros raw' [[= <-] ?]; lia|by eexists]. }
  split; [intros raw' [[= <-] _]|intros Hn; exfalso; by apply Hn; exists raw].
  set (padded := Repeat _ _ +:+ s). pose proof (slen_nonneg s).
  assert (bytes padded = replicate (Z.to_nat (32 - slen s)) 0 ++ bytes s) as Hb by apply Repeat_zeros.
  assert (SetBytes padded = SetBytes raw) as Hp by (by rewrite SetBytes_value, Hb, be_value_zeros, <- SetBytes_value).
  assert (slen padded = 32) as Hl.
  { rewrite <- length_bytes, Hb, length_app, length_replicate. pose proof (length_bytes s). lia. }
  pose proof (PrivKeyFromBytes_scalar padded Hl ltac:(by rewrite Hp)) as (Hd & Hx & Hy).
  destruct (secp_PrivKeyFromBytes padded) as [[d x] y]. cbn in *. eexists. split; [done|]. cbn.
  split; [congruence|done].
Qed.

(** ** An instance for examples

    PEM blocks are "K" or "P" followed by the block, one byte long; a key block
    of one byte is a version 1 key; the point of a scalar is (scalar, 1). *)
Definition toy_order : Z := 2 ^ 255 + 95.

#[local] Instance toy_keys : KeyLib := {|
  secp_ParsePubKey b := if SetBytes (str_drop 33 b) =? 1 then Some (SetBytes (str_take 32 (str_drop 1 b)), 1) else None;
  secp_PrivKeyFromBytes b := (SetBytes b, SetBytes b mod 2 ^ 256, 1);
  curve_N := toy_order;
  pem_DecodeBlock s := match s with
                       | String "K" (String a r) => Some (ecPrivateKeyBlockType, String a "", r)
                       | String "P" (String a r) => Some ("EC PARAMETERS", String a "", r)
                       | _ => None
                       end;
  asn1_ecPrivateKey b := Some (1, b);
  sha1 s := str_take 20 s |}.

Lemma str_drop_drop m n s : str_drop n (str_drop m s) = str_drop (m + n) s.
Proof. revert s. induction m as [|m IH]; intros [|a s]; try done; [by destruct n|]. cbn. apply IH. Qed.

#[local] Instance toy_keys_laws : KeyLibLaws.
Proof.
  split.
  - unfold curve_N, toy_keys, toy_order. lia.
  - intros b x y _ _. unfold secp_ParsePubKey, toy_keys. rewrite str_drop_drop. change (1 + 32)%nat with 33%nat.
    destruct (Z.eqb_spec (SetBytes (str_drop 33 b)) 1) as [He|]; [|done]. by intros [= <- <-].
  - intros b Hb _. cbn. split; [done|]. split; [|lia]. apply Z.mod_pos_bound. lia.
  - intros s ty b rest. cbn. intros He.
    destruct s as [|a [|a' s]]; try (by repeat case_match).
    assert (rest = s) as -> by (repeat case_match; by simplify_eq). unfold slen. cbn. lia.
Qed.

(** ** Properties *)

(** C25: reading a corporate private key never panics and never loops, however
    many PEM blocks come before the key. It succeeds exactly when the first
    block of type EC PRIVATE KEY is a version 1 key whose value, leading zeros
    or not, is below the order of the curve; the key then has that value and
    the identifier is the hexadecimal SHA-1 of its uncompressed point. Every
    failure is reported as [ErrDecodePrivateKey]. *)
Theorem NewCorpAuthMaker_spec `{KeyLibLaws} fuel pem :
  (String.length pem < fuel)%nat →
  (∃ blk raw maker point,
     first_block ecPrivateKeyBlockType pem (Some blk) ∧ is_scalar blk raw ∧
     NewCorpAuthMaker fuel pem = Some (Ok maker) ∧ PrivD (privateKey maker) = SetBytes raw ∧
     serializeECDSAPubKeyUncompressed (Pub (privateKey maker)) = Some point ∧
     KeyID maker = hex_Encode (bytes (sha1 point))) ∨
  ((¬ ∃ blk raw, first_block ecPrivateKeyBlockType pem (Some blk) ∧ is_scalar blk raw) ∧
   NewCorpAuthMaker fuel pem = Some (Err (ENew ErrDecodePrivateKey))).
Proof.
  intros Hf. destruct (decodePrivateKey_first fuel pem Hf) as (o & Ho & Hd).
  assert (∀ o', first_block ecPrivateKeyBlockType pem o' → o' = o) as Huniq.
  { clear Hf Hd. intros o'. induction Ho; intros Ho'; inversion Ho'; subst; try congruence.
    apply IHHo. congruence. }
  unfold NewCorpAuthMaker. rewrite Hd. destruct o as [blk|].
  2:{ right. split; [|done]. intros (blk & _ & Hb & _). by apply Huniq in Hb. }
  destruct (parseECPrivateKey_spec blk) as [Hok Hbad].
  destruct (parseECPrivateKey blk) as [k|e] eqn:Hp.
  - left. assert (∃ raw, is_scalar blk raw) as [raw Hr].
    { destruct (asn1_ecPrivateKey blk) as [[v raw]|] eqn:Ha.
      - destruct (decide (v = ecPrivateKeyVersion ∧ SetBytes raw < curve_N)) as [[-> ?]|Hn]; [by exists raw|].
        exfalso. destruct Hbad as [? ?]; [|done]. intros (raw' & Ha' & Hlt). rewrite Ha in Ha'. simplify_eq. by apply Hn.
      - exfalso. destruct Hbad as [? ?]; [|done]. intros (raw' & Ha' & _). congruence. }
    destruct (Hok raw Hr) as (k' & Hk & Hv & Hx & Hy). simplify_eq.
    destruct (serialized_fields (Pub k') Hx Hy) as (pt & Hpt & _).
    exists blk, raw. rewrite Hpt. cbn. eexists _, pt. done.
  - right. split; [|done]. intros (blk' & raw & Hb & Hr). apply Huniq in Hb. simplify_eq.
    destruct (Hok raw Hr) as (k' & Hk & _). done.
Qed.

Lemma NewCorpAuthMaker_spec_witness :
  (String.length "PxKy" < 5)%nat ∧
  ∃ maker raw, NewCorpAuthMaker (H := toy_keys) 5 "PxKy" = Some (Ok maker) ∧ PrivD (privateKey maker) = SetBytes raw.
Proof.
  assert (String.length "PxKy" < 5)%nat as Hf by (vm_compute; lia). split; [exact Hf|].
  destruct (NewCorpAuthMaker_spec (H := toy_keys) 5 "PxKy" Hf) as [(blk & raw & m & pt & _ & _ & Hm & Hd & _)|[_ Hn]].
  - exists m, raw. exact (conj Hm Hd).
  - exfalso. vm_compute in Hn. discriminate Hn.
Defined.

(** The bank reads the point this package writes: for coordinates of 32
    bytes, the uncompressed serialization, sent in base64 as the server key of
    [/bank/sync], decodes to the same point under the identifier and the time
    of the answer, as long as the curve library finds it on the curve, and is
    refused with [ErrInvalidPubKey] otherwise. *)
Theorem server_key_roundtrip `{KeyLibLaws} p id msec :
  0 <= PubX p < 2 ^ 256 → 0 <= PubY p < 2 ^ 256 →
  ∃ point, serializeECDSAPubKeyUncompressed p = Some point ∧
    let r := asServerKey (mkSync id (b64_EncodeToString point) msec) in
    match secp_ParsePubKey point with
    | Some _ => r = Ok (mkSynced id p (msec * Millisecond))
    | None => ∃ e, r = Err e ∧ errors_Is e ErrInvalidServerKey = true
    end.
Proof.
  intros Hx Hy. destruct (serialized_fields p Hx Hy) as (pt & Hpt & Hl & Hg & HX & HY & _).
  exists pt. split; [done|]. unfold asServerKey. cbn [ServerPubKey ServerKeyID ServerTimeMsec].
  rewrite b64_Decode_Encode, Hl, Z.eqb_refl. cbn [negb orb].
  unfold byte_at. rewrite Hg. cbn [negb].
  destruct (secp_ParsePubKey pt) as [[x y]|] eqn:Hp; [|by eexists].
  destruct (ParsePubKey_uncompressed pt x y Hl Hg Hp) as [-> ->]. rewrite HX, HY. by destruct p.
Qed.

Lemma server_key_roundtrip_witness :
  ∃ point, serializeECDSAPubKeyUncompressed (mkPub 5 1) = Some point ∧
    asServerKey (H := toy_keys) (mkSync "k1" (b64_EncodeToString point) 7) = Ok (mkSynced "k1" (mkPub 5 1) 7000000).
Proof.
  destruct (server_key_roundtrip (H := toy_keys) (mkPub 5 1) "k1" 7 ltac:(cbn; lia) ltac:(cbn; lia)) as (pt & Hpt & Hr).
  exists pt. split; [exact Hpt|]. vm_compute in Hpt. injection Hpt as <-. exact Hr.
Defined.

(** A server key that is accepted is the base64 of a 65-byte uncompressed
    point that the curve library accepts; anything else is an error, and after
    the base64 is read always one that is [ErrInvalidPubKey]. *)
Theorem asServerKey_strict `{KeyLib} r :
  match asServerKey r with
  | Ok k => ∃ b, b64_DecodeString (ServerPubKey r) = Some b ∧ slen b = 65 ∧ byte_at b 0 = 4 ∧
                 secp_ParsePubKey b = Some (PubX (PubPoint k), PubY (PubPoint k)) ∧ SyncedID k = ServerKeyID r
  | Err e => b64_DecodeString (ServerPubKey r) = None ∨ errors_Is e ErrInvalidServerKey = true
  end.
Proof.
  unfold asServerKey. destruct (b64_DecodeString (ServerPubKey r)) as [b|]; [|by left].
  destruct (Z.eqb_spec (slen b) uncompressedPointLength) as [Hl|]; cbn [negb orb]; [|by right].
  destruct (Z.eqb_spec (byte_at b 0) uncompressedPointPrefix) as [H4|]; cbn [negb]; [|by right].
  destruct (secp_ParsePubKey b) as [[x y]|] eqn:Hp; [|by right]. cbn. by exists b.
Qed.

(** The public key sent at registration is the SubjectPublicKeyInfo of
    RFC 5480 for secp256k1: a fixed 23-byte header (id-ecPublicKey, secp256k1,
    a bit string of 66 bytes), then the uncompressed point, 88 bytes in all,
    in a PUBLIC KEY block; a key whose coordinates do not fit in 32 bytes is
    refused before anything is written, so the serialization never panics. *)
Theorem PublicKeyPEM_spki c :
  0 <= PubX (Pub (privateKey c)) → 0 <= PubY (Pub (privateKey c)) →
  let header := [48; 86; 48; 16; 6; 7; 42; 134; 72; 206; 61; 2; 1; 6; 5; 43; 129; 4; 0; 10; 3; 66; 0] in
  if bool_decide (PubX (Pub (privateKey c)) < 2 ^ 256 ∧ PubY (Pub (privateKey c)) < 2 ^ 256) then
    ∃ der, PublicKeyPEM c = Some (Ok (pem_EncodeToMemory "PUBLIC KEY" der)) ∧ slen der = 88 ∧
      bytes der = header ++ 4 :: be32 (PubX (Pub (privateKey c))) ++ be32 (PubY (Pub (privateKey c)))
  else ∃ e, PublicKeyPEM c = Some (Err e).
Proof.
  intros Hx Hy header. unfold PublicKeyPEM, pointCoordinateBytes. set (p := Pub (privateKey c)) in *.
  pose proof (BitLen_le (PubX p) 256 Hx ltac:(lia)) as Bx. pose proof (BitLen_le (PubY p) 256 Hy ltac:(lia)) as By.
  case_bool_decide as Hc.
  - destruct Hc as [Hx2 Hy2]. rewrite (proj2 (orb_false_iff _ _)) by (split; apply Z.ltb_ge; lia).
    destruct (serialized_fields p ltac:(lia) ltac:(lia)) as (pt & Hpt & Hl & _ & _ & _ & Hb).
    rewrite Hpt. cbn [mbind option_bind]. eexists. split; [done|].
    destruct (be32_spec (PubX p) ltac:(lia)) as (Lx & _ & Fx). destruct (be32_spec (PubY p) ltac:(lia)) as (Ly & _ & Fy).
    assert (pkixPublicKey (bytes pt) = header ++ bytes pt) as Hd.
    { unfold pkixPublicKey, der_bits, der_tlv at 1 3, header. pose proof (length_bytes pt).
      replace (Z.of_nat (length (0 :: bytes pt))) with 66 by (cbn [length]; lia).
      match goal with |- context [der_length (Z.of_nat (length ?l))] =>
        replace (Z.of_nat (length l)) with 86; [by vm_compute|] end.
      rewrite length_app. change (length (der_tlv 48 _)) with 18%nat.
      change (length (3 :: _)) with (3 + length (bytes pt))%nat. lia. }
    rewrite Hd, Hb, bytes_of_byte_string; [split; [|done]|].
    + rewrite <- length_bytes, bytes_of_byte_string; [cbn; rewrite length_app, Lx, Ly; done|].
      unfold header. repeat (constructor; [lia|]). by apply Forall_app_2.
    + unfold header. repeat (constructor; [lia|]). by apply Forall_app_2.
  - rewrite (proj2 (orb_true_iff _ _)); [by eexists|].
    destruct (Z.ltb_spec (8 * 32) (BitLen (PubX p))); [by left|]. right. apply Z.ltb_lt. lia.
Qed.

Lemma PublicKeyPEM_spki_witness :
  ∃ der, PublicKeyPEM (mkMaker (mkPriv 5 (mkPub 5 1)) "") = Some (Ok (pem_EncodeToMemory "PUBLIC KEY" der)) ∧ slen der = 88.
Proof.
  pose proof (PublicKeyPEM_spki (mkMaker (mkPriv 5 (mkPub 5 1)) "") ltac:(cbn; lia) ltac:(cbn; lia)) as H.
  destruct H as (der & Hd & Hl & _). exists der. exact (conj Hd Hl).
Defined.
