(* ===== verification/CorpAuth.v ===== *)
(** * Authorizers (auth/personal.go, auth/corporate.go)

    The personal token and the signature of the corporate API: each is a
    function on the outgoing request. ECDSA signing is the class [Signing]; its
    law is that [VerifyASN1] of the key accepts what was signed. *)
From S2P Require Import Prelude GoString GoText Base64 Errors GoHttp Signature Keys.
From S2P Require Import BankData.

(** ** auth/personal.go *)

Definition personalTokenHeader : string := "X-Token".
Definition ErrEmptyToken : string := "auth.ErrEmptyToken".

(** [NewPersonal(token)] is the token. *)
Definition Personal_SetAuth {W} (token : string) (r : Request) (w : W) : option error * Request * W :=
  if String.eqb token "" then (Some (ENew ErrEmptyToken), r, w)
  else (None, set_Header personalTokenHeader token r, w).

Definition Personal_LogValue (token : string) : slog := SlString "auth.Personal{token:***}".

(** ** auth/corporate.go *)

Definition PermSt : string := "s".
Definition PermPI : string := "p".
Definition PermFOP : string := "f".

(** [ecdsa.SignASN1(rand.Reader, key, digest)] and the public key of a point. *)
Class Signing (W : Type) `{Crypto} := {
  SignASN1 : PrivKey → string → W → result string * W;
  ecdsa_PublicKey : PubKey → PublicKey
}.

Class SigningLaws (W : Type) `{Signing W} : Prop := {
  SignASN1_verifies k digest w sig :
    (SignASN1 k digest w).1 = Ok sig → VerifyASN1 (ecdsa_PublicKey (Pub k)) digest sig = true
}.

(** [Corp]: the authorizer of one request. *)
Record Corp := mkCorp { Corp_maker : CorpAuthMaker; Corp_requestID : string; Corp_permissions : string }.

Definition CorpAuthMaker_New (c : CorpAuthMaker) (requestID : string) : Corp := mkCorp c requestID "".

Definition CorpAuthMaker_NewPermissions (c : CorpAuthMaker) (permissions : list string) : Corp :=
  mkCorp c "" (String.concat "" permissions).

Definition CorpAuthMaker_LogValue (c : CorpAuthMaker) : slog :=
  SlGroup [("KeyID", SlString (KeyID c)); ("privateKey", SlString "***")].

Section Sign.
Context {W : Type} `{World W} `{Signing W}.

Definition signString (a : Corp) (str : string) (w : W) : result string * W :=
  match SignASN1 (privateKey (Corp_maker a)) (sha256 str) w with
  | (Err e, w) => (Err e, w)
  | (Ok der, w) => (Ok (b64_EncodeToString der), w)
  end.

Definition sign (a : Corp) (timestamp actor urlPath : string) (w : W) : result string * W :=
  signString a (timestamp +:+ actor +:+ urlPath) w.

(** [SetAuth] on a request, which always has a URL here; the headers set before
    a failure stay set. *)
Definition Corp_SetAuth (a : Corp) (r : Request) (w : W) : option error * Request * W :=
  let '(actor, r) :=
    if negb (String.eqb (Corp_requestID a) "") then
      (Corp_requestID a, set_Header "X-Request-Id" (Corp_requestID a) r)
    else if negb (String.eqb (Corp_permissions a) "") then
      (Corp_permissions a, set_Header "X-Permissions" (Corp_permissions a) r)
    else ("", r) in
  let '(t, w) := now w in
  let timestamp := Itoa (Unix t) in
  match sign a timestamp actor (Path (rURL r)) w with
  | (Err e, w) => (Some (EWrap "calculate Sign: %w" e), r, w)
  | (Ok s, w) =>
      (None, set_Header "X-Sign" s (set_Header "X-Time" timestamp (set_Header "X-Key-Id" (KeyID (Corp_maker a)) r)), w)
  end.
End Sign.

(** ** Lemmas *)

(** Who a [Corp] acts for. *)
Definition actor_of (a : Corp) : string :=
  if String.eqb (Corp_requestID a) "" then Corp_permissions a else Corp_requestID a.

(** A request signed by [a] for [path], as the bank would check it. *)
Definition signed `{Signing W} (a : Corp) (path : string) (q : Request) : Prop :=
  let h := rHeader q in
  Header_Get h "X-Key-Id" = KeyID (Corp_maker a) ∧
  Verify (Some (ecdsa_PublicKey (Pub (privateKey (Corp_maker a)))))
         (Header_Get h "X-Time" +:+ actor_of a +:+ path) (Header_Get h "X-Sign") = None.

Definition auth_headers : list string := ["X-Key-Id"; "X-Time"; "X-Sign"; "X-Request-Id"; "X-Permissions"].

Lemma signed_headers `{Signing W} a path q q' :
  (∀ k, k ∈ auth_headers → Header_Get (rHeader q') k = Header_Get (rHeader q) k) → signed a path q → signed a path q'.
Proof. unfold signed. intros Hk [H1 H2]. rewrite !Hk; [done|set_solver..]. Qed.

(** The actor and the headers before the signature. *)
Definition with_actor (a : Corp) (r : Request) : Request :=
  if negb (String.eqb (Corp_requestID a) "") then set_Header "X-Request-Id" (Corp_requestID a) r
  else if negb (String.eqb (Corp_permissions a) "") then set_Header "X-Permissions" (Corp_permissions a) r
  else r.

Lemma Corp_SetAuth_eq `{World W} `{Signing W} (a : Corp) r (w : W) :
  Corp_SetAuth a r w =
  (let '(t, w) := now w in
   match sign a (Itoa (Unix t)) (actor_of a) (Path (rURL r)) w with
   | (Err e, w) => (Some (EWrap "calculate Sign: %w" e), with_actor a r, w)
   | (Ok s, w) => (None, set_Header "X-Sign" s (set_Header "X-Time" (Itoa (Unix t))
                     (set_Header "X-Key-Id" (KeyID (Corp_maker a)) (with_actor a r))), w)
   end).
Proof.
  unfold Corp_SetAuth, with_actor, actor_of.
  destruct (String.eqb_spec (Corp_requestID a) "") as [Hr|Hr]; cbn [negb]; [|done].
  destruct (String.eqb_spec (Corp_permissions a) "") as [Hp|Hp]; cbn [negb]; [|done].
  by rewrite Hp.
Qed.

Lemma with_actor_frame a r :
  rMethod (with_actor a r) = rMethod r ∧ rURL (with_actor a r) = rURL r ∧ rBody (with_actor a r) = rBody r ∧
  rGetBody (with_actor a r) = rGetBody r ∧
  (∀ k, k ≠ "X-Request-Id" → k ≠ "X-Permissions" → Header_Get (rHeader (with_actor a r)) k = Header_Get (rHeader r) k).
Proof. unfold with_actor. repeat case_match; repeat split; intros; by rewrite ?set_Header_other. Qed.

Lemma signString_spec `{SigningLaws W} (a : Corp) str (w : W) s w' :
  signString a str w = (Ok s, w') →
  Verify (Some (ecdsa_PublicKey (Pub (privateKey (Corp_maker a))))) str s = None.
Proof.
  unfold signString. destruct (SignASN1 _ _ w) as [[der|e] w1] eqn:Hs; [|done]. intros [= <- <-].
  pose proof (SignASN1_verifies (privateKey (Corp_maker a)) (sha256 str) w der) as Hv. rewrite Hs in Hv.
  unfold Verify. rewrite b64_Decode_Encode. by rewrite Hv.
Qed.

(** Text before the first slash. *)
Lemma before_slash a b p q :
  Forall (λ c, c ≠ "/"%char) (chars a) → Forall (λ c, c ≠ "/"%char) (chars b) →
  a +:+ String "/" p = b +:+ String "/" q → a = b ∧ p = q.
Proof.
  revert b. induction a as [|x a IH]; intros [|y b] Ha Hb He;
    rewrite ?str_app_cons, ?str_app_nil in He; simplify_eq; [done| | |].
  - inversion Hb; subst. done.
  - inversion Ha; subst. done.
  - inversion Ha; subst. inversion Hb; subst. by destruct (IH b) as [-> ->].
Qed.

(** ** An instance for examples: the signature of a digest is the digest under
    the key's scalar; signing fails in the world 0. *)
#[local] Instance toy_crypto : Crypto := {|
  PublicKey := Z; sha256 b := b; VerifyASN1 k d s := String.eqb s (Itoa k +:+ d);
  pem_Decode s := None; ParsePKIXPublicKey s := None; key_Curve k := P256 |}.

#[local] Instance toy_world : World Z := {|
  now w := (1700000000 * Second, w); rand_Int64N n w := (0, w); ctx_Err w := None; wait d w := (None, w) |}.

#[local] Instance toy_signing : Signing Z := {|
  SignASN1 k d w := (if w =? 0 then Err (EText "entropy") else Ok (Itoa (PubX (Pub k)) +:+ d), w);
  ecdsa_PublicKey p := PubX p |}.

#[local] Instance toy_signing_laws : SigningLaws Z.
Proof. split. intros k d w sig. cbn. case_match; [done|]. intros [= <-]. apply String.eqb_refl. Qed.

Definition toy_maker : CorpAuthMaker := mkMaker (mkPriv 5 (mkPub 7 1)) "key-1".
Definition toy_request : Request := mkRequest "GET" (mkURL "" "" "/personal/client-info" "") ∅ BNoBody None 0.

(** ** Properties *)

(** The corporate authorizer leaves the method, the URL, the body and every
    other header of the request alone. When it succeeds, the request names the
    key and carries exactly the request id or the permissions it was made for,
    and its X-Sign is a signature that the bank's check accepts for X-Time, the
    actor and the path of the request; when signing fails, no signature is
    written. *)
Theorem Corp_SetAuth_signed `{World W} `{SigningLaws W} (a : Corp) r (w : W) :
  let '(e, q, _) := Corp_SetAuth a r w in
  rMethod q = rMethod r ∧ rURL q = rURL r ∧ rBody q = rBody r ∧ rGetBody q = rGetBody r ∧
  (∀ k, k ∉ auth_headers → Header_Get (rHeader q) k = Header_Get (rHeader r) k) ∧
  (Corp_requestID a ≠ "" → Header_Get (rHeader q) "X-Request-Id" = Corp_requestID a) ∧
  (Corp_requestID a = "" → Corp_permissions a ≠ "" → Header_Get (rHeader q) "X-Permissions" = Corp_permissions a) ∧
  match e with
  | None => signed a (Path (rURL r)) q
  | Some _ => Header_Get (rHeader q) "X-Sign" = Header_Get (rHeader r) "X-Sign"
  end.
Proof.
  rewrite Corp_SetAuth_eq. destruct (now w) as [t w1]. destruct (with_actor_frame a r) as (Hm & Hu & Hb & Hg & Hh).
  assert ((Corp_requestID a ≠ "" → Header_Get (rHeader (with_actor a r)) "X-Request-Id" = Corp_requestID a) ∧
          (Corp_requestID a = "" → Corp_permissions a ≠ "" →
           Header_Get (rHeader (with_actor a r)) "X-Permissions" = Corp_permissions a)) as [Hr Hp].
  { unfold with_actor. destruct (String.eqb_spec (Corp_requestID a) ""), (String.eqb_spec (Corp_permissions a) "");
      split; intros; try done; apply set_Header_same. }
  unfold sign. destruct (signString a _ w1) as [[s|e] w2] eqn:Hs.
  - cbn [set_Header rMethod rURL rBody rGetBody]. split; [done|]. split; [done|]. split; [done|]. split; [done|].
    split; [intros k Hk; rewrite !set_Header_other, Hh by set_solver; done|].
    split; [intros; rewrite !set_Header_other by done; auto|].
    split; [intros; rewrite !set_Header_other by done; auto|].
    split; [by rewrite !(set_Header_other _ "X-Key-Id"), set_Header_same by done|].
    rewrite set_Header_same, (set_Header_other _ "X-Time"), set_Header_same by done.
    by eapply signString_spec.
  - do 4 (split; [done|]). split; [intros k Hk; apply Hh; set_solver|]. split; [done|]. split; [done|]. by apply Hh.
Qed.

Lemma Corp_SetAuth_signed_witness :
  signed (mkCorp toy_maker "req-1" "") "/personal/client-info"
    (Corp_SetAuth (mkCorp toy_maker "req-1" "") toy_request 1).1.2.
Proof. exact (proj2 (proj2 (proj2 (proj2 (proj2 (proj2 (proj2 (Corp_SetAuth_signed (mkCorp toy_maker "req-1" "") toy_request 1)))))))). Defined.

(** What the signature binds. The three parts are signed without separators;
    for timestamps of one length (every second from 2001 to 2286 has ten
    digits), actors without a slash and absolute paths, equal signed texts mean
    equal timestamp, actor and path. It does not bind the header the actor came
    in: a request id and the same text as permissions sign alike. *)
Theorem signature_binds t1 t2 a1 a2 p1 p2 :
  slen t1 = slen t2 → Forall (λ c, c ≠ "/"%char) (chars a1) → Forall (λ c, c ≠ "/"%char) (chars a2) →
  t1 +:+ a1 +:+ String "/" p1 = t2 +:+ a2 +:+ String "/" p2 →
  (t1 = t2 ∧ a1 = a2 ∧ p1 = p2) ∧
  (∀ maker x, actor_of (CorpAuthMaker_New maker x) = actor_of (CorpAuthMaker_NewPermissions maker [x])).
Proof.
  intros Ht H1 H2 He. destruct (str_app_inj _ _ _ _ (Nat2Z.inj _ _ Ht) He) as [-> He2].
  destruct (before_slash _ _ _ _ H1 H2 He2) as [-> ->]. split; [done|].
  intros maker x. unfold actor_of. cbn. by destruct (String.eqb_spec x "") as [->|].
Qed.

Lemma signature_binds_witness :
  "1700000000" = "1700000000" ∧
  (∀ maker x, actor_of (CorpAuthMaker_New maker x) = actor_of (CorpAuthMaker_NewPermissions maker [x])).
Proof.
  destruct (signature_binds "1700000000" "1700000000" "sp" "sp" "x" "x" eq_refl) as [[H _] Hm];
    [by repeat constructor|by repeat constructor|reflexivity|]. exact (conj H Hm).
Defined.
