(* ===== verification/Acquiring.v ===== *)
(** * The acquiring data (acquiring/types.go, terminal.go, split.go, pos.go,
      monopay.go, subscription.go, lifecycle.go)

    The request and response records of the acquiring API, the currency the
    decoders attach to the bare amounts, and the classification of
    subscription states that drives the decision to keep or revoke access.
    String enumerations are strings, as on the wire. *)
From S2P Require Import Prelude GoString GoFloat Errors Currency Money BankData.

(** ** Records *)

Record MerchantDetails := mkMerchantDetails { MerchantDetails_MerchantID : string ;
  MerchantDetails_MerchantName : string ; MerchantDetails_EDRPOU : string }.

Record Employee := mkEmployee { Employee_ID : string ; Employee_Name : string ; Employee_ExtRef : string
  }.

Record EmployeeList := mkEmployeeList { EmployeeList_List : list Employee }.

Record ServerKey := mkServerKey { ServerKey_Key : string }.

Record QR := mkQR { QR_ShortQrID : string ; QR_QrID : string ; QR_AmountType : string ; QR_PageURL :
  string }.

Record QRList := mkQRList { QRList_List : list QR }.

Record QRDetails := mkQRDetails { QRDetails_ShortQrID : string ; QRDetails_InvoiceID : string ;
  QRDetails_Amount : Money ; QRDetails_Currency : Z }.

Record Submerchant := mkSubmerchant { Submerchant_Code : string ; Submerchant_EDRPOU : string ;
  Submerchant_IBAN : string ; Submerchant_Owner : string }.

Record SubmerchantList := mkSubmerchantList { SubmerchantList_List : list Submerchant }.

Record Adjustment := mkAdjustment { Adjustment_Type : string ; Adjustment_Mode : string ;
  Adjustment_Value : float64 ; Adjustment_Tax : list Z }.

Record BasketItem := mkBasketItem { BasketItem_Name : string ; BasketItem_Qty : float64 ; BasketItem_Sum
  : Z ; BasketItem_Total : Z ; BasketItem_Icon : string ; BasketItem_Unit : string ; BasketItem_Code :
  string ; BasketItem_Barcode : string ; BasketItem_Header : string ; BasketItem_Footer : string ;
  BasketItem_Tax : list Z ; BasketItem_UKTZED : string ; BasketItem_Discounts : list Adjustment ;
  BasketItem_SplitReceiverID : string }.

Record CancelItem := mkCancelItem { CancelItem_Name : string ; CancelItem_Qty : float64 ; CancelItem_Sum
  : Z ; CancelItem_Code : string ; CancelItem_Barcode : string ; CancelItem_Header : string ;
  CancelItem_Footer : string ; CancelItem_Tax : list Z ; CancelItem_UKTZED : string }.

Record MerchantPaymInfo := mkMerchantPaymInfo { MerchantPaymInfo_Reference : string ;
  MerchantPaymInfo_Destination : string ; MerchantPaymInfo_Comment : string ;
  MerchantPaymInfo_CustomerEmails : list string ; MerchantPaymInfo_Discounts : list Adjustment ;
  MerchantPaymInfo_BasketOrder : list BasketItem ; MerchantPaymInfo_Metadata : gmap string string }.

Record SaveCardData := mkSaveCardData { SaveCardData_SaveCard : bool ; SaveCardData_WalletID : string }.

Record CreateInvoiceRequest := mkCreateInvoiceRequest { CreateInvoiceRequest_Amount : Z ;
  CreateInvoiceRequest_Currency : Z ; CreateInvoiceRequest_MerchantPaymInfo : option MerchantPaymInfo ;
  CreateInvoiceRequest_RedirectURL : string ; CreateInvoiceRequest_SuccessURL : string ;
  CreateInvoiceRequest_FailURL : string ; CreateInvoiceRequest_WebHookURL : string ;
  CreateInvoiceRequest_Validity : Z ; CreateInvoiceRequest_PaymentType : string ;
  CreateInvoiceRequest_QrID : string ; CreateInvoiceRequest_Code : string ;
  CreateInvoiceRequest_SaveCardData : option SaveCardData ; CreateInvoiceRequest_AgentFeePercent :
  float64 ; CreateInvoiceRequest_TipsEmployeeID : string ; CreateInvoiceRequest_DisplayType : string ;
  CreateInvoiceRequest_WithAppURL : bool }.

Record CreateInvoiceResponse := mkCreateInvoiceResponse { CreateInvoiceResponse_InvoiceID : string ;
  CreateInvoiceResponse_PageURL : string ; CreateInvoiceResponse_AppURL : string }.

Record PaymentInfo := mkPaymentInfo { PaymentInfo_MaskedPan : string ; PaymentInfo_ApprovalCode : string
  ; PaymentInfo_RRN : string ; PaymentInfo_TranID : string ; PaymentInfo_Terminal : string ;
  PaymentInfo_Bank : string ; PaymentInfo_PaymentSystem : string ; PaymentInfo_PaymentMethod : string ;
  PaymentInfo_Fee : Money ; PaymentInfo_Country : string ; PaymentInfo_AgentFee : Money }.

Record WalletData := mkWalletData { WalletData_CardToken : string ; WalletData_WalletID : string ;
  WalletData_Status : string }.

Record TipsInfo := mkTipsInfo { TipsInfo_EmployeeID : string ; TipsInfo_Amount : Z }.

Record CancelOp := mkCancelOp { CancelOp_Status : string ; CancelOp_Amount : Money ; CancelOp_Currency :
  Z ; CancelOp_CreatedDate : string ; CancelOp_ModifiedDate : string ; CancelOp_ApprovalCode : string ;
  CancelOp_RRN : string ; CancelOp_ExtRef : string }.

Record InvoiceStatusResponse := mkInvoiceStatusResponse { InvoiceStatusResponse_InvoiceID : string ;
  InvoiceStatusResponse_Status : string ; InvoiceStatusResponse_FailureReason : string ;
  InvoiceStatusResponse_ErrCode : string ; InvoiceStatusResponse_Amount : Money ;
  InvoiceStatusResponse_Currency : Z ; InvoiceStatusResponse_FinalAmount : Money ;
  InvoiceStatusResponse_CreatedDate : string ; InvoiceStatusResponse_ModifiedDate : string ;
  InvoiceStatusResponse_Reference : string ; InvoiceStatusResponse_Destination : string ;
  InvoiceStatusResponse_CancelList : list CancelOp ; InvoiceStatusResponse_PaymentInfo : option
  PaymentInfo ; InvoiceStatusResponse_WalletData : option WalletData ; InvoiceStatusResponse_TipsInfo :
  option TipsInfo }.

Record CancelRequest := mkCancelRequest { CancelRequest_InvoiceID : string ; CancelRequest_ExtRef :
  string ; CancelRequest_Amount : Z ; CancelRequest_Items : list CancelItem }.

Record CancelResponse := mkCancelResponse { CancelResponse_Status : string ; CancelResponse_CreatedDate :
  string ; CancelResponse_ModifiedDate : string }.

Record FinalizeRequest := mkFinalizeRequest { FinalizeRequest_InvoiceID : string ; FinalizeRequest_Amount
  : Z ; FinalizeRequest_Items : list CancelItem }.

Record FinalizeResponse := mkFinalizeResponse { FinalizeResponse_Status : string }.

Record RemoveRequest := mkRemoveRequest { RemoveRequest_InvoiceID : string }.

Record FiscalCheck := mkFiscalCheck { FiscalCheck_ID : string ; FiscalCheck_Type : string ;
  FiscalCheck_Status : string ; FiscalCheck_StatusDescription : string ; FiscalCheck_TaxURL : string ;
  FiscalCheck_File : string ; FiscalCheck_FiscalizationSource : string }.

Record FiscalChecksResponse := mkFiscalChecksResponse { FiscalChecksResponse_Checks : list FiscalCheck }.

Record ReceiptResponse := mkReceiptResponse { ReceiptResponse_File : string }.

Record CardData := mkCardData { CardData_PAN : string ; CardData_Exp : string ; CardData_CVV : string }.

Record PaymentDirectRequest := mkPaymentDirectRequest { PaymentDirectRequest_Amount : Z ;
  PaymentDirectRequest_Currency : Z ; PaymentDirectRequest_CardData : CardData ;
  PaymentDirectRequest_MerchantPaymInfo : option MerchantPaymInfo ; PaymentDirectRequest_WebHookURL :
  string ; PaymentDirectRequest_PaymentType : string ; PaymentDirectRequest_SaveCardData : option
  SaveCardData ; PaymentDirectRequest_RedirectURL : string ; PaymentDirectRequest_InitiationKind : string
  }.

Record PaymentDirectResponse := mkPaymentDirectResponse { PaymentDirectResponse_InvoiceID : string ;
  PaymentDirectResponse_TDSUrl : string ; PaymentDirectResponse_Status : string ;
  PaymentDirectResponse_FailureReason : string ; PaymentDirectResponse_Amount : Money ;
  PaymentDirectResponse_Currency : Z ; PaymentDirectResponse_CreatedDate : string ;
  PaymentDirectResponse_ModifiedDate : string }.

Record SyncCardData := mkSyncCardData { SyncCardData_PAN : string ; SyncCardData_Type : string ;
  SyncCardData_Exp : string ; SyncCardData_CVV : string ; SyncCardData_EciIndicator : string ;
  SyncCardData_Cavv : string ; SyncCardData_Tavv : string ; SyncCardData_DsTranID : string ;
  SyncCardData_TReqID : string ; SyncCardData_Mit : string ; SyncCardData_Sst : float64 ;
  SyncCardData_Tid : string }.

Record ApplePayPayload := mkApplePayPayload { ApplePayPayload_Token : string ; ApplePayPayload_Exp :
  string ; ApplePayPayload_EciIndicator : string ; ApplePayPayload_Cryptogram : string }.

Record GooglePayPayload := mkGooglePayPayload { GooglePayPayload_Token : string ; GooglePayPayload_Exp :
  string ; GooglePayPayload_EciIndicator : string ; GooglePayPayload_Cryptogram : string }.

Record SyncPaymentRequest := mkSyncPaymentRequest { SyncPaymentRequest_Amount : Z ;
  SyncPaymentRequest_Currency : Z ; SyncPaymentRequest_MerchantPaymInfo : option MerchantPaymInfo ;
  SyncPaymentRequest_CardData : option SyncCardData ; SyncPaymentRequest_ApplePay : option
  ApplePayPayload ; SyncPaymentRequest_GooglePay : option GooglePayPayload }.

Record ResetAmountRequest := mkResetAmountRequest { ResetAmountRequest_QrID : string }.

Record StatementRefund := mkStatementRefund { StatementRefund_Amount : Money ; StatementRefund_Currency :
  Z ; StatementRefund_Date : string ; StatementRefund_ApprovalCode : string ; StatementRefund_RRN :
  string ; StatementRefund_MaskedPan : string }.

Record StatementInvoice := mkStatementInvoice { StatementInvoice_InvoiceID : string ;
  StatementInvoice_Status : string ; StatementInvoice_MaskedPan : string ; StatementInvoice_Date : string
  ; StatementInvoice_PaymentScheme : string ; StatementInvoice_Amount : Money ;
  StatementInvoice_ProfitAmount : Money ; StatementInvoice_Currency : Z ; StatementInvoice_ApprovalCode :
  string ; StatementInvoice_RRN : string ; StatementInvoice_Reference : string ;
  StatementInvoice_ShortQrID : string ; StatementInvoice_Destination : string ;
  StatementInvoice_CancelList : list StatementRefund ; StatementInvoice_Metadata : gmap string string }.

Record StatementResponse := mkStatementResponse { StatementResponse_List : list StatementInvoice }.

Record WalletCard := mkWalletCard { WalletCard_CardToken : string ; WalletCard_MaskedPan : string ;
  WalletCard_Country : string }.

Record WalletResponse := mkWalletResponse { WalletResponse_Wallet : list WalletCard }.

Record WalletPaymentRequest := mkWalletPaymentRequest { WalletPaymentRequest_CardToken : string ;
  WalletPaymentRequest_Amount : Z ; WalletPaymentRequest_Currency : Z ; WalletPaymentRequest_RedirectURL
  : string ; WalletPaymentRequest_WebHookURL : string ; WalletPaymentRequest_InitiationKind : string ;
  WalletPaymentRequest_MerchantPaymInfo : option MerchantPaymInfo ; WalletPaymentRequest_PaymentType :
  string }.

Record Terminal := mkTerminal { Terminal_Code : string ; Terminal_Name : string ; Terminal_Terminal :
  string }.

Record TerminalListResponse := mkTerminalListResponse { TerminalListResponse_List : list Terminal }.

Record T2PPaymentStatusResponse := mkT2PPaymentStatusResponse { T2PPaymentStatusResponse_Bank : string ;
  T2PPaymentStatusResponse_Terminal : string ; T2PPaymentStatusResponse_PaymentType : string ;
  T2PPaymentStatusResponse_Amount : Money ; T2PPaymentStatusResponse_Currency : string ;
  T2PPaymentStatusResponse_Status : string ; T2PPaymentStatusResponse_InternalPaymentID : string ;
  T2PPaymentStatusResponse_ExternalPaymentID : string ; T2PPaymentStatusResponse_TransactionID : string ;
  T2PPaymentStatusResponse_MaskedPan : string ; T2PPaymentStatusResponse_CardMask : string ;
  T2PPaymentStatusResponse_ApprovalCode : string ; T2PPaymentStatusResponse_RRN : string ;
  T2PPaymentStatusResponse_DataTime : string ; T2PPaymentStatusResponse_ResponseCode : string ;
  T2PPaymentStatusResponse_CountryCard : string ; T2PPaymentStatusResponse_ErrorMessage : string }.

Record SplitReceiver := mkSplitReceiver { SplitReceiver_SplitReceiverID : string ; SplitReceiver_OKPO :
  string ; SplitReceiver_Name : string }.

Record SplitReceiverListResponse := mkSplitReceiverListResponse { SplitReceiverListResponse_List : list
  SplitReceiver }.

Record POSTransactionCancelRequest := mkPOSTransactionCancelRequest { POSTransactionCancelRequest_RRN :
  string ; POSTransactionCancelRequest_Amount : Z }.

Record MonoPayKey := mkMonoPayKey { MonoPayKey_KeyID : string ; MonoPayKey_KeyValue : string ;
  MonoPayKey_KeyName : string ; MonoPayKey_ExpiresAt : string }.

Record MonoPayKeyImportRequest := mkMonoPayKeyImportRequest { MonoPayKeyImportRequest_KeyValue : string ;
  MonoPayKeyImportRequest_KeyName : string ; MonoPayKeyImportRequest_ExpiresAt : string }.

Record MonoPayKeyImportResponse := mkMonoPayKeyImportResponse { MonoPayKeyImportResponse_Result_KeyID : string }.

Record MonoPayKeyDeleteRequest := mkMonoPayKeyDeleteRequest { MonoPayKeyDeleteRequest_KeyID : string }.

Record MonoPayKeyListResponse := mkMonoPayKeyListResponse { MonoPayKeyListResponse_Result : list
  MonoPayKey }.

Record SubscriptionWebHookURLs := mkSubscriptionWebHookURLs { SubscriptionWebHookURLs_ChargeURL : string
  ; SubscriptionWebHookURLs_StatusURL : string }.

Record SubscriptionCreateRequest := mkSubscriptionCreateRequest { SubscriptionCreateRequest_Amount : Z ;
  SubscriptionCreateRequest_Currency : Z ; SubscriptionCreateRequest_RedirectURL : string ;
  SubscriptionCreateRequest_WebHookURLs : option SubscriptionWebHookURLs ;
  SubscriptionCreateRequest_Interval : string ; SubscriptionCreateRequest_Validity : Z }.

Record SubscriptionCreateResponse := mkSubscriptionCreateResponse {
  SubscriptionCreateResponse_SubscriptionID : string ; SubscriptionCreateResponse_PageURL : string }.

Record SubscriptionEditRequest := mkSubscriptionEditRequest { SubscriptionEditRequest_SubscriptionID :
  string ; SubscriptionEditRequest_Action : string ; SubscriptionEditRequest_RefundAmount : Z }.

Record SubscriptionRemoveRequest := mkSubscriptionRemoveRequest {
  SubscriptionRemoveRequest_SubscriptionID : string }.

Record SubscriptionSummary := mkSubscriptionSummary { SubscriptionSummary_TotalPaid : Z ;
  SubscriptionSummary_TotalFailed : Z }.

Record SubscriptionWalletData := mkSubscriptionWalletData { SubscriptionWalletData_CardToken : string ;
  SubscriptionWalletData_WalletID : string ; SubscriptionWalletData_Status : string ;
  SubscriptionWalletData_FailureDescription : string }.

Record SubscriptionStatusResponse := mkSubscriptionStatusResponse {
  SubscriptionStatusResponse_SubscriptionID : string ; SubscriptionStatusResponse_Status : string ;
  SubscriptionStatusResponse_StartDate : string ; SubscriptionStatusResponse_EndDate : string ;
  SubscriptionStatusResponse_Amount : Z ; SubscriptionStatusResponse_Currency : Z ;
  SubscriptionStatusResponse_Interval : string ; SubscriptionStatusResponse_NextChargeDate : string ;
  SubscriptionStatusResponse_CancellationDesc : string ; SubscriptionStatusResponse_Summary :
  SubscriptionSummary ; SubscriptionStatusResponse_WalletData : SubscriptionWalletData }.

Record Pagination := mkPagination { Pagination_TotalItems : Z ; Pagination_ItemsPerPage : Z ;
  Pagination_CurrentPage : Z ; Pagination_TotalPages : Z }.

Record SubscriptionPayment := mkSubscriptionPayment { SubscriptionPayment_Amount : Z ;
  SubscriptionPayment_Currency : Z ; SubscriptionPayment_Status : string ; SubscriptionPayment_ChargedAt
  : string }.

Record SubscriptionPaymentsResponse := mkSubscriptionPaymentsResponse {
  SubscriptionPaymentsResponse_Payments : list SubscriptionPayment ;
  SubscriptionPaymentsResponse_Pagination : Pagination }.

Record SubscriptionListItem := mkSubscriptionListItem { SubscriptionListItem_SubscriptionID : string ;
  SubscriptionListItem_Amount : Z ; SubscriptionListItem_Interval : string ;
  SubscriptionListItem_StartDate : string ; SubscriptionListItem_Created : string ;
  SubscriptionListItem_NextChargeDate : string ; SubscriptionListItem_EndDate : string ;
  SubscriptionListItem_Status : string }.

Record SubscriptionsListResponse := mkSubscriptionsListResponse { SubscriptionsListResponse_List : list
  SubscriptionListItem ; SubscriptionsListResponse_Pagination : Pagination }.

Record SubscriptionListOptions := mkSubscriptionListOptions { SubscriptionListOptions_Status : string ;
  SubscriptionListOptions_Limit : Z ; SubscriptionListOptions_Page : Z ; SubscriptionListOptions_DateFrom
  : Z ; SubscriptionListOptions_DateTo : Z }.

Record SubscriptionPaymentsOptions := mkSubscriptionPaymentsOptions {
  SubscriptionPaymentsOptions_SubscriptionID : string ; SubscriptionPaymentsOptions_Limit : Z ;
  SubscriptionPaymentsOptions_Page : Z ; SubscriptionPaymentsOptions_DateFrom : Z ;
  SubscriptionPaymentsOptions_DateTo : Z }.

(** ** Enumerations *)

Definition InvoiceCreated : string := "created".
Definition InvoiceProcessing : string := "processing".
Definition InvoiceHold : string := "hold".
Definition InvoiceSuccess : string := "success".
Definition InvoiceFailure : string := "failure".
Definition InvoiceReversed : string := "reversed".
Definition InvoiceExpired : string := "expired".
Definition WalletFailed : string := "failed".
Definition SubscriptionActive : string := "active".
Definition SubscriptionCancelled : string := "cancelled".
Definition SubscriptionPaymentNew : string := "new".
Definition SubscriptionPaymentSuccess : string := "success".
Definition SubscriptionPaymentFailed : string := "failed".

(** [IsTerminal] (reconcile.go). *)
Definition InvoiceStatus_IsTerminal (s : string) : bool :=
  bool_decide (s ∈ [InvoiceSuccess; InvoiceFailure; InvoiceReversed; InvoiceExpired]).

(** ** Decoding

    [raw] is [json.Unmarshal] at the type without the method; the elements of
    [CancelList] have gone through their own decoder by then. *)

Definition QRDetails_UnmarshalJSON (raw : string → result QRDetails) (data : string) : result QRDetails :=
  match raw data with
  | Err e => Err e
  | Ok r => let c := QRDetails_Currency r in
      Ok (mkQRDetails (QRDetails_ShortQrID r) (QRDetails_InvoiceID r) (with_code c (QRDetails_Amount r))
       (QRDetails_Currency r))
  end.

Definition CancelOp_UnmarshalJSON (raw : string → result CancelOp) (data : string) : result CancelOp :=
  match raw data with
  | Err e => Err e
  | Ok r => let c := CancelOp_Currency r in
      Ok (mkCancelOp (CancelOp_Status r) (with_code c (CancelOp_Amount r)) (CancelOp_Currency r)
       (CancelOp_CreatedDate r) (CancelOp_ModifiedDate r) (CancelOp_ApprovalCode r) (CancelOp_RRN r)
       (CancelOp_ExtRef r))
  end.

(** [i.PaymentInfo.Fee.Code = c; i.PaymentInfo.AgentFee.Code = c]. *)
Definition PaymentInfo_with_code (c : Z) (p : PaymentInfo) : PaymentInfo :=
  mkPaymentInfo (PaymentInfo_MaskedPan p) (PaymentInfo_ApprovalCode p) (PaymentInfo_RRN p)
       (PaymentInfo_TranID p) (PaymentInfo_Terminal p) (PaymentInfo_Bank p)
       (PaymentInfo_PaymentSystem p) (PaymentInfo_PaymentMethod p) (with_code c (PaymentInfo_Fee p))
       (PaymentInfo_Country p) (with_code c (PaymentInfo_AgentFee p)).

Definition InvoiceStatusResponse_UnmarshalJSON (raw : string → result InvoiceStatusResponse) (data : string) : result InvoiceStatusResponse :=
  match raw data with
  | Err e => Err e
  | Ok r => let c := InvoiceStatusResponse_Currency r in
      Ok (mkInvoiceStatusResponse (InvoiceStatusResponse_InvoiceID r) (InvoiceStatusResponse_Status r)
       (InvoiceStatusResponse_FailureReason r) (InvoiceStatusResponse_ErrCode r)
       (with_code c (InvoiceStatusResponse_Amount r)) (InvoiceStatusResponse_Currency r)
       (with_code c (InvoiceStatusResponse_FinalAmount r)) (InvoiceStatusResponse_CreatedDate r)
       (InvoiceStatusResponse_ModifiedDate r) (InvoiceStatusResponse_Reference r)
       (InvoiceStatusResponse_Destination r) (InvoiceStatusResponse_CancelList r)
       (PaymentInfo_with_code c <$> InvoiceStatusResponse_PaymentInfo r)
       (InvoiceStatusResponse_WalletData r) (InvoiceStatusResponse_TipsInfo r))
  end.

Definition PaymentDirectResponse_UnmarshalJSON (raw : string → result PaymentDirectResponse) (data : string) : result PaymentDirectResponse :=
  match raw data with
  | Err e => Err e
  | Ok r => let c := PaymentDirectResponse_Currency r in
      Ok (mkPaymentDirectResponse (PaymentDirectResponse_InvoiceID r) (PaymentDirectResponse_TDSUrl r)
       (PaymentDirectResponse_Status r) (PaymentDirectResponse_FailureReason r)
       (with_code c (PaymentDirectResponse_Amount r)) (PaymentDirectResponse_Currency r)
       (PaymentDirectResponse_CreatedDate r) (PaymentDirectResponse_ModifiedDate r))
  end.

Definition StatementInvoice_UnmarshalJSON (raw : string → result StatementInvoice) (data : string) : result StatementInvoice :=
  match raw data with
  | Err e => Err e
  | Ok r => let c := StatementInvoice_Currency r in
      Ok (mkStatementInvoice (StatementInvoice_InvoiceID r) (StatementInvoice_Status r)
       (StatementInvoice_MaskedPan r) (StatementInvoice_Date r) (StatementInvoice_PaymentScheme r)
       (with_code c (StatementInvoice_Amount r)) (with_code c (StatementInvoice_ProfitAmount r))
       (StatementInvoice_Currency r) (StatementInvoice_ApprovalCode r) (StatementInvoice_RRN r)
       (StatementInvoice_Reference r) (StatementInvoice_ShortQrID r)
       (StatementInvoice_Destination r) (StatementInvoice_CancelList r)
       (StatementInvoice_Metadata r))
  end.

Definition StatementRefund_UnmarshalJSON (raw : string → result StatementRefund) (data : string) : result StatementRefund :=
  match raw data with
  | Err e => Err e
  | Ok r => let c := StatementRefund_Currency r in
      Ok (mkStatementRefund (with_code c (StatementRefund_Amount r)) (StatementRefund_Currency r)
       (StatementRefund_Date r) (StatementRefund_ApprovalCode r) (StatementRefund_RRN r)
       (StatementRefund_MaskedPan r))
  end.

Definition T2PPaymentStatusResponse_UnmarshalJSON (raw : string → result T2PPaymentStatusResponse) (data : string) : result T2PPaymentStatusResponse :=
  match raw data with
  | Err e => Err e
  | Ok r => Ok (mkT2PPaymentStatusResponse (T2PPaymentStatusResponse_Bank r) (T2PPaymentStatusResponse_Terminal r)
       (T2PPaymentStatusResponse_PaymentType r)
       (let (code, ok) := Currency.Parse (T2PPaymentStatusResponse_Currency r) in if ok then with_code code (T2PPaymentStatusResponse_Amount r) else T2PPaymentStatusResponse_Amount r)
       (T2PPaymentStatusResponse_Currency r) (T2PPaymentStatusResponse_Status r)
       (T2PPaymentStatusResponse_InternalPaymentID r) (T2PPaymentStatusResponse_ExternalPaymentID r)
       (T2PPaymentStatusResponse_TransactionID r) (T2PPaymentStatusResponse_MaskedPan r)
       (T2PPaymentStatusResponse_CardMask r) (T2PPaymentStatusResponse_ApprovalCode r)
       (T2PPaymentStatusResponse_RRN r) (T2PPaymentStatusResponse_DataTime r)
       (T2PPaymentStatusResponse_ResponseCode r) (T2PPaymentStatusResponse_CountryCard r)
       (T2PPaymentStatusResponse_ErrorMessage r))
  end.

Definition SubscriptionStatusResponse_AmountMoney (s : SubscriptionStatusResponse) : Money :=
  Money.New (SubscriptionStatusResponse_Amount s) (SubscriptionStatusResponse_Currency s).
Definition SubscriptionPayment_AmountMoney (p : SubscriptionPayment) : Money :=
  Money.New (SubscriptionPayment_Amount p) (SubscriptionPayment_Currency p).
Definition SubscriptionListItem_AmountMoney (i : SubscriptionListItem) : Money :=
  Money.New (SubscriptionListItem_Amount i) 0.

(** ** Subscription health (lifecycle.go) *)

Abbreviation SubscriptionHealth := string (only parsing).
Definition HealthActive : SubscriptionHealth := "active".
Definition HealthChargeFailed : SubscriptionHealth := "charge_failed".
Definition HealthWalletDead : SubscriptionHealth := "wallet_dead".
Definition HealthCancelled : SubscriptionHealth := "cancelled".
Definition HealthUnknown : SubscriptionHealth := "unknown".

Definition GraceEligible (h : SubscriptionHealth) : bool := String.eqb h HealthChargeFailed.
Definition Health_Terminal (h : SubscriptionHealth) : bool := String.eqb h HealthCancelled || String.eqb h HealthWalletDead.
Definition RetainAccess (h : SubscriptionHealth) : bool := negb (Health_Terminal h).

Definition ClassifySubscription (st : option SubscriptionStatusResponse) : SubscriptionHealth :=
  match st with
  | None => HealthUnknown
  | Some st =>
      if String.eqb (SubscriptionStatusResponse_Status st) SubscriptionCancelled then HealthCancelled
      else if String.eqb (SubscriptionWalletData_Status (SubscriptionStatusResponse_WalletData st)) WalletFailed
      then HealthWalletDead
      else if String.eqb (SubscriptionStatusResponse_Status st) SubscriptionActive then HealthActive
      else HealthUnknown
  end.

Definition ClassifyCharge (payment walletStatus : string) : SubscriptionHealth :=
  if String.eqb walletStatus WalletFailed then HealthWalletDead
  else if String.eqb payment SubscriptionPaymentFailed then HealthChargeFailed
  else if String.eqb payment SubscriptionPaymentSuccess || String.eqb payment SubscriptionPaymentNew then HealthActive
  else HealthUnknown.

(** ** Properties *)

(** Access is revoked exactly on a cancelled subscription or a failed card
    token, never because a status is missing or unknown; a failed charge keeps
    access in a grace window unless the token is dead, and only a failed charge
    is grace-eligible. *)
Theorem access_decision st payment wallet :
  (RetainAccess (ClassifySubscription st) = false ↔
     ∃ s, st = Some s ∧ (SubscriptionStatusResponse_Status s = SubscriptionCancelled ∨
            SubscriptionWalletData_Status (SubscriptionStatusResponse_WalletData s) = WalletFailed)) ∧
  (RetainAccess (ClassifyCharge payment wallet) = false ↔ wallet = WalletFailed) ∧
  (GraceEligible (ClassifyCharge payment wallet) = true ↔ payment = SubscriptionPaymentFailed ∧ wallet ≠ WalletFailed) ∧
  GraceEligible (ClassifySubscription st) = false ∧
  (∀ h, GraceEligible h = true → RetainAccess h = true).
Proof.
  split_and!.
  - unfold ClassifySubscription. destruct st as [s|]; [|split; [done|intros (? & ? & _); done]].
    destruct (String.eqb_spec (SubscriptionStatusResponse_Status s) SubscriptionCancelled) as [Hc|Hc].
    { split; [intros _; exists s; split; [done|by left]|done]. }
    destruct (String.eqb_spec (SubscriptionWalletData_Status (SubscriptionStatusResponse_WalletData s)) WalletFailed) as [Hw|Hw].
    { split; [intros _; exists s; split; [done|by right]|done]. }
    split; [case_match; done|]. intros (s' & [= <-] & [?|?]); done.
  - unfold ClassifyCharge. destruct (String.eqb_spec wallet WalletFailed); [done|]. split; [|done].
    repeat case_match; done.
  - unfold ClassifyCharge. destruct (String.eqb_spec wallet WalletFailed); [split; [done|intros [_ ?]; done]|].
    destruct (String.eqb_spec payment SubscriptionPaymentFailed); [done|].
    split; [case_match; done|intros [? _]; done].
  - unfold ClassifySubscription. destruct st as [s|]; [|done]. repeat case_match; done.
  - unfold GraceEligible. intros h Hh. apply String.eqb_eq in Hh. by subst h.
Qed.

(** Every amount of a decoded record carries its currency. *)
Definition in_currency (c : Z) (l : list Money) : Prop := Forall (λ m, MCode m = c) l.

(** Decoding an invoice status gives its amount, final amount, fee and agent
    fee the currency of the invoice without touching the minor units, the cancel
    history is left as its own decoder made it, a statement row gets its currency
    on both amounts, and a terminal payment takes the code its spelling names, or
    keeps no code when the spelling is unknown. *)
Theorem acquiring_currency rawI rawS rawT data :
  (∀ i, InvoiceStatusResponse_UnmarshalJSON rawI data = Ok i →
     ∃ r, rawI data = Ok r ∧
     in_currency (InvoiceStatusResponse_Currency i)
       ([InvoiceStatusResponse_Amount i; InvoiceStatusResponse_FinalAmount i] ++
        match InvoiceStatusResponse_PaymentInfo i with
        | Some p => [PaymentInfo_Fee p; PaymentInfo_AgentFee p] | None => [] end) ∧
     Minor (InvoiceStatusResponse_Amount i) = Minor (InvoiceStatusResponse_Amount r) ∧
     Minor (InvoiceStatusResponse_FinalAmount i) = Minor (InvoiceStatusResponse_FinalAmount r) ∧
     InvoiceStatusResponse_CancelList i = InvoiceStatusResponse_CancelList r ∧
     (InvoiceStatusResponse_PaymentInfo i = None ↔ InvoiceStatusResponse_PaymentInfo r = None)) ∧
  (∀ s, StatementInvoice_UnmarshalJSON rawS data = Ok s →
     in_currency (StatementInvoice_Currency s) [StatementInvoice_Amount s; StatementInvoice_ProfitAmount s]) ∧
  (∀ t r, T2PPaymentStatusResponse_UnmarshalJSON rawT data = Ok t → rawT data = Ok r →
     MCode (T2PPaymentStatusResponse_Amount t) =
       (if (Currency.Parse (T2PPaymentStatusResponse_Currency t)).2
        then (Currency.Parse (T2PPaymentStatusResponse_Currency t)).1
        else MCode (T2PPaymentStatusResponse_Amount r)) ∧
     Minor (T2PPaymentStatusResponse_Amount t) = Minor (T2PPaymentStatusResponse_Amount r)).
Proof.
  split; [|split].
  - unfold InvoiceStatusResponse_UnmarshalJSON. intros i Hi. destruct (rawI data) as [r|]; [|done]. injection Hi as <-. cbn.
    exists r. split; [done|]. split_and!; try done.
    + destruct (InvoiceStatusResponse_PaymentInfo r); by repeat constructor.
    + by destruct (InvoiceStatusResponse_PaymentInfo r).
  - unfold StatementInvoice_UnmarshalJSON. intros s Hs. destruct (rawS data) as [r|]; [|done]. injection Hs as <-. cbn. by repeat constructor.
  - unfold T2PPaymentStatusResponse_UnmarshalJSON. intros t r Ht Hr. rewrite Hr in Ht. apply Ok_inj in Ht. rewrite <- Ht. clear Ht.
    cbn [T2PPaymentStatusResponse_Amount T2PPaymentStatusResponse_Currency].
    generalize (Currency.Parse (T2PPaymentStatusResponse_Currency r)). by intros [code []].
Qed.

Definition example_invoice : InvoiceStatusResponse :=
  mkInvoiceStatusResponse "i" InvoiceSuccess "" "" (mkMoney 4200 0) 980 (mkMoney 4200 0) "" "" "" "" [] None None None.

Lemma acquiring_currency_witness :
  ∃ i, InvoiceStatusResponse_UnmarshalJSON (λ _, Ok example_invoice) "{}" = Ok i ∧
       in_currency 980 [InvoiceStatusResponse_Amount i; InvoiceStatusResponse_FinalAmount i].
Proof.
  destruct (acquiring_currency (λ _, Ok example_invoice) (λ _, Err (EText "x")) (λ _, Err (EText "x")) "{}") as (Hi & _).
  eexists. split; [reflexivity|]. destruct (Hi _ eq_refl) as (r & _ & Hc & _). exact Hc.
Defined.

