(* ===== verification/Enums.v ===== *)
(** * String enumerations (acquiring/types.go, acquiring/terminal.go, acquiring/subscription.go, business/types.go)

    The values of the string types that the records of [Acquiring] and
    [Business] carry, as they stand on the wire, for the types whose values no
    operation of the SDK decides on.  Go leaves such a type open: a decoder keeps
    any string, so the records hold strings, and these are the spellings a
    program compares them with. *)
From S2P Require Import Prelude Acquiring.

(** ** acquiring/types.go *)

(** [AdjustmentType]. *)
Definition AdjustmentDiscount : string := "DISCOUNT".
Definition AdjustmentExtraCharge : string := "EXTRA_CHARGE".
Definition AdjustmentType_values : list string := [AdjustmentDiscount; AdjustmentExtraCharge].

(** [AdjustmentMode]. *)
Definition AdjustmentPercent : string := "PERCENT".
Definition AdjustmentValue : string := "VALUE".
Definition AdjustmentMode_values : list string := [AdjustmentPercent; AdjustmentValue].

(** [PaymentType]. *)
Definition PaymentDebit : string := "debit".
Definition PaymentHold : string := "hold".
Definition PaymentVerification : string := "verification".
Definition PaymentType_values : list string := [PaymentDebit; PaymentHold; PaymentVerification].

(** [DisplayType]. *)
Definition DisplayIframe : string := "iframe".
Definition DisplayType_values : list string := [DisplayIframe].

(** [PaymentSystem]. *)
Definition Visa : string := "visa".
Definition Mastercard : string := "mastercard".
Definition PaymentSystem_values : list string := [Visa; Mastercard].

(** [PaymentMethod]. *)
Definition MethodPAN : string := "pan".
Definition MethodApple : string := "apple".
Definition MethodGoogle : string := "google".
Definition MethodMonobank : string := "monobank".
Definition MethodWallet : string := "wallet".
Definition MethodDirect : string := "direct".
Definition PaymentMethod_values : list string := [MethodPAN; MethodApple; MethodGoogle; MethodMonobank; MethodWallet; MethodDirect].

(** [WalletStatus]. *)
Definition WalletNew : string := "new".
Definition WalletCreated : string := "created".
Definition WalletStatus_values : list string := [WalletNew; WalletCreated; WalletFailed].

(** [ProcessingStatus]. *)
Definition StatusProcessing : string := "processing".
Definition StatusSuccess : string := "success".
Definition StatusFailure : string := "failure".
Definition StatusHold : string := "hold".
Definition ProcessingStatus_values : list string := [StatusProcessing; StatusSuccess; StatusFailure; StatusHold].

(** [FiscalCheckType]. *)
Definition FiscalSale : string := "sale".
Definition FiscalReturn : string := "return".
Definition FiscalCheckType_values : list string := [FiscalSale; FiscalReturn].

(** [FiscalCheckStatus]. *)
Definition FiscalNew : string := "new".
Definition FiscalProcess : string := "process".
Definition FiscalDone : string := "done".
Definition FiscalFailed : string := "failed".
Definition FiscalCheckStatus_values : list string := [FiscalNew; FiscalProcess; FiscalDone; FiscalFailed].

(** [FiscalizationSource]. *)
Definition SourceCheckbox : string := "checkbox".
Definition SourceMonopay : string := "monopay".
Definition SourceVchasnoKasa : string := "vchasnokasa".
Definition FiscalizationSource_values : list string := [SourceCheckbox; SourceMonopay; SourceVchasnoKasa].

(** [InitiationKind]. *)
Definition InitMerchant : string := "merchant".
Definition InitClient : string := "client".
Definition InitiationKind_values : list string := [InitMerchant; InitClient].

(** [CardDataType]. *)
Definition FPAN : string := "FPAN".
Definition DPAN : string := "DPAN".
Definition CardDataType_values : list string := [FPAN; DPAN].

(** [PaymentScheme]. *)
Definition SchemeFull : string := "full".
Definition SchemeBNPLParts4 : string := "bnpl_parts_4".
Definition SchemeBNPLLater30 : string := "bnpl_later_30".
Definition PaymentScheme_values : list string := [SchemeFull; SchemeBNPLParts4; SchemeBNPLLater30].

(** ** acquiring/terminal.go *)

(** [T2PPaymentType]. *)
Definition T2PPurchase : string := "purchase".
Definition T2PRefund : string := "refund".
Definition T2PPaymentType_values : list string := [T2PPurchase; T2PRefund].

(** [T2PStatus]. *)
Definition T2PStatusPending : string := "pending".
Definition T2PStatusSuccess : string := "success".
Definition T2PStatusRejected : string := "rejected".
Definition T2PStatusFailed : string := "failed".
Definition T2PStatus_values : list string := [T2PStatusPending; T2PStatusSuccess; T2PStatusRejected; T2PStatusFailed].

(** ** acquiring/subscription.go *)

(** [SubscriptionAction]. *)
Definition SubscriptionCancel : string := "cancel".
Definition SubscriptionAction_values : list string := [SubscriptionCancel].

(** ** business/types.go *)

(** [DocumentType]. *)
Definition OldPassport : string := "OLD_PASSPORT".
Definition IDCard : string := "ID_CARD".
Definition ForeignPassport : string := "FOREIGN_PASSPORT".
Definition DocumentType_values : list string := [OldPassport; IDCard; ForeignPassport].

(** [PaymentStateValue]. *)
Definition PaymentDraft : string := "DRAFT".
Definition PaymentDeclined : string := "DECLINED".
Definition PaymentInStatement : string := "IN_STATEMENT".
Definition PaymentStateValue_values : list string := [PaymentDraft; PaymentDeclined; PaymentInStatement].

(** [FailedEmployeeReason]. *)
Definition ContactNotFound : string := "CONTACT_NOT_FOUND".
Definition FailedEmployeeReason_values : list string := [ContactNotFound].

(** [ImportStatus]. *)
Definition ImportLoading : string := "LOADING".
Definition ImportLoaded : string := "LOADED".
Definition ImportFailed : string := "FAILED".
Definition ImportSent : string := "SENT".
Definition ImportDeleted : string := "DELETED".
Definition ImportStatus_values : list string := [ImportLoading; ImportLoaded; ImportFailed; ImportSent; ImportDeleted].

(** ** Telling values apart *)

Definition enumerations : list (list string) :=
  [AdjustmentType_values;
   AdjustmentMode_values;
   PaymentType_values;
   DisplayType_values;
   PaymentSystem_values;
   PaymentMethod_values;
   WalletStatus_values;
   ProcessingStatus_values;
   FiscalCheckType_values;
   FiscalCheckStatus_values;
   FiscalizationSource_values;
   InitiationKind_values;
   CardDataType_values;
   PaymentScheme_values;
   T2PPaymentType_values;
   T2PStatus_values;
   SubscriptionAction_values;
   DocumentType_values;
   PaymentStateValue_values;
   FailedEmployeeReason_values;
   ImportStatus_values].

(** No two constants of one type share a spelling: a comparison decides which
    constant a value is. *)
Theorem enumerations_distinct : Forall NoDup enumerations.
Proof. by apply (bool_decide_unpack _); vm_compute. Qed.

(** The types do not share a spelling of failure: a status compared with the
    constant of another type is never equal to it. *)
Theorem failure_spellings :
  (StatusFailure ∉ T2PStatus_values) ∧ (T2PStatusFailed ∉ ProcessingStatus_values) ∧
  (StatusFailure ∉ WalletStatus_values) ∧ (WalletFailed ∉ ProcessingStatus_values) ∧
  (FiscalFailed ∉ ProcessingStatus_values).
Proof. by apply (bool_decide_unpack _); vm_compute. Qed.
