(* ===== verification/Webhook.v ===== *)
(** * The webhook handlers (webhook/handler.go, webhook/parse.go, acquiring/handler.go, acquiring/webhook.go)

    [NewHandler] and [ServeHTTP] of both handlers, as functions of the request,
    the handler's state (cached key, deduper) and the world the callbacks and
    the key provider run in.  Requests are served one after the other here;
    [Delivery] interleaves them. *)
From S2P Require Import Prelude GoString GoText Errors GoHttp GoFloat Money BankData Acquiring Dedup KeyCache Signature.

Definition DefaultMaxBodyBytes : Z := 1048576.

(** ** Requests, replies, payloads *)

(** An incoming request: the headers read and a body that may fail. *)
Record Incoming := mkIncoming {
  iMethod : string; iKeyID : string; iSign : string; iBody : string; iBodyErr : option error
}.

(** What is written to the [ResponseWriter]: the status and the text of [http.Error]. *)
Record reply := mkReply { rStatus : Z; rText : string }.

Definition ok_reply : reply := mkReply 200 "".

(** [io.ReadAll(http.MaxBytesReader(w, body, limit))]. *)
Definition read_limited (limit : Z) (data : string) (fails : option error) : result string :=
  if limit <? slen data then Err (EMaxBytes limit)
  else match fails with Some e => Err e | None => Ok data end.

(** The refusals before the key is looked at, or the body. *)
Definition intake (maxBody : Z) (r : Incoming) : reply + string :=
  if String.eqb (iMethod r) "GET" then inl ok_reply
  else if negb (String.eqb (iMethod r) "POST") then inl (mkReply 405 "method not allowed")
  else match read_limited maxBody (iBody r) (iBodyErr r) with
       | Err e => if errors_As_MaxBytes e then inl (mkReply 413 "request body too large")
                  else inl (mkReply 400 "read body")
       | Ok body => inr body
       end.

Record Data := mkData { dAccountID : string; dTransaction : Transaction }.
Record WResponse := mkWResponse { wType : string; wData : Data }.

Definition TypeStatementItem : string := "StatementItem".
Definition ErrUnknownType : string := "webhook.ErrUnknownType".
Definition ErrNilKeyProvider : string := "webhook.ErrNilKeyProvider".
Definition ErrNilOnEvent : string := "webhook.ErrNilOnEvent".
Definition AcqErrNilKeyProvider : string := "acquiring.ErrNilKeyProvider".
Definition AcqErrNilOnEvent : string := "acquiring.ErrNilOnEvent".

(** The acquiring payload is the invoice state of [Acquiring]. *)
Abbreviation Invoice := InvoiceStatusResponse.

(** The decoders of the two payloads, and of a date under a layout. *)
Class WebhookLib := {
  json_Response : string → result WResponse;
  json_Invoice : string → result Invoice;
  json_modifiedDate : string → result string;
  time_Parse : string → string → option Z
}.

(** ** Shared tail: deduplication and the callback *)

Section Deliver.
Context {W D E : Type} `{Deduper D}.

(** From the call of [OnEvent] to the end of [ServeHTTP].  [add_empty] tells
    whether the handler calls [Add] for an event without id (webhook does,
    acquiring does not). *)
Definition run_callback (OnEvent : E → W → option error * W) (report : error → W → W) (add_empty : bool)
    (id : string) (event : E) (d : option D) (w : W) : reply * option D * W :=
  let '(e, w) := OnEvent event w in
  match e with
  | Some e => (mkReply 500 "callback failed", d, report (EWrap "OnEvent: %w" e) w)
  | None =>
      (ok_reply,
       match d with
       | Some d => if add_empty || negb (String.eqb id "") then Some (Add id d) else Some d
       | None => None
       end, w)
  end.

(** From [id := …] on. *)
Definition deliver (OnEvent : E → W → option error * W) (report : error → W → W) (add_empty : bool)
    (id : string) (event : E) (d : option D) (w : W) : reply * option D * W :=
  if String.eqb id "" then
    run_callback OnEvent report add_empty id event d (report (EText "empty id, dedup skipped") w)
  else match d with
       | Some d => let '(dup, d) := Has id d in
                   if dup then (ok_reply, Some d, w)
                   else run_callback OnEvent report add_empty id event (Some d) w
       | None => run_callback OnEvent report add_empty id event None w
       end.

End Deliver.

Section Handlers.
Context {W D : Type} `{World W} `{Deduper D} `{Crypto} `{WebhookLib}.

(** ** webhook.Handler *)

(** [bank.ServerKey]. *)
Record ServerKey := mkServerKey { skID : string; skPubKey : option PublicKey; ServerTime : Z }.

Record Options := mkOptions {
  Keys : option (W → result ServerKey * W);
  OnEvent : option (WResponse → W → option error * W);
  OnUnknownType : option (string → W → W);
  OnError : option (error → W → W);
  oDedup : option D;
  MaxBodyBytes : Z
}.

(** [Handler]: the options in force and the mutable part. *)
Record Handler := mkHandler {
  hKeys : W → result ServerKey * W;
  hOnEvent : WResponse → W → option error * W;
  hOnUnknownType : option (string → W → W);
  hOnError : option (error → W → W);
  maxBodyBytes : Z;
  hCache : KeyCache ServerKey;
  hDedup : option D
}.

Definition set_state (h : Handler) (c : KeyCache ServerKey) (d : option D) : Handler :=
  mkHandler (hKeys h) (hOnEvent h) (hOnUnknownType h) (hOnError h) (maxBodyBytes h) c d.

Definition effective_max (m : Z) : Z := if m <=? 0 then DefaultMaxBodyBytes else m.

Definition NewHandler (o : Options) (w : W) : result Handler * W :=
  match Keys o with
  | None => (Err (ENew ErrNilKeyProvider), w)
  | Some keys =>
      match OnEvent o with
      | None => (Err (ENew ErrNilOnEvent), w)
      | Some onEvent =>
          let '(e, c, w) := refresh keys empty_cache w in
          match e with
          | Some e => (Err (EWrap "initial ServerKey fetch: %w" e), w)
          | None => (Ok (mkHandler keys onEvent (OnUnknownType o) (OnError o)
                           (effective_max (MaxBodyBytes o)) c (oDedup o)), w)
          end
      end
  end.

Definition KeyID (h : Handler) : string :=
  match kc_key (hCache h) with None => "" | Some (_, k) => skID k end.

Definition reportError (h : Handler) (e : error) (w : W) : W :=
  match hOnError h with Some f => f e w | None => w end.

(** [Parse] (webhook/parse.go): the response is returned along with the error
    for an unknown type. *)
Definition Parse (body : string) : option WResponse * option error :=
  match json_Response body with
  | Err e => (None, Some (EWrap "decode webhook: %w" e))
  | Ok v => if String.eqb (wType v) TypeStatementItem then (Some v, None)
            else (Some v, Some (EWrap "%w: %q" (ENew ErrUnknownType)))
  end.

(** The key to verify with: the cached one, refetched when the request names
    another. *)
Definition choose_key (h : Handler) (key : ServerKey) (r : Incoming) (w : W)
    : ServerKey * KeyCache ServerKey * W :=
  if negb (String.eqb (iKeyID r) "") && negb (String.eqb (iKeyID r) (skID key)) then
    let '(e, c, w) := refreshCoalesced (hKeys h) (hCache h) w in
    match e with
    | Some e => (key, c, reportError h (EWrap "refresh ServerKey on X-Key-Id mismatch: %w" e) w)
    | None => (match currentKey c with Some (_, k) => k | None => key end, c, w)
    end
  else (key, hCache h, w).

Definition ServeHTTP (h : Handler) (r : Incoming) (w : W) : reply * Handler * W :=
  match intake (maxBodyBytes h) r with
  | inl rep => (rep, h, w)
  | inr body =>
      match currentKey (hCache h) with
      | None => (mkReply 503 "key not ready", h, reportError h (EText "ServerKey not loaded") w)
      | Some (_, key) =>
          let '(key, c, w) := choose_key h key r w in
          let h := set_state h c (hDedup h) in
          match Verify (skPubKey key) body (iSign r) with
          | Some _ => (mkReply 401 "bad signature", h, w)
          | None =>
              let '(event, err) := Parse body in
              match err with
              | Some e =>
                  if errors_Is e ErrUnknownType then
                    (ok_reply, h, match hOnUnknownType h with Some f => f body w | None => w end)
                  else (mkReply 400 "malformed payload", h, reportError h (EWrap "parse webhook: %w" e) w)
              | None =>
                  match event with
                  | None => (ok_reply, h, w)   (* never: see Parse_event *)
                  | Some event =>
                      let id := tID (dTransaction (wData event)) in
                      let '(rep, d, w) := deliver (hOnEvent h) (reportError h) true id event (hDedup h) w in
                      (rep, set_state h (hCache h) d, w)
                  end
              end
          end
      end
  end.

(** ** acquiring.WebhookHandler *)

Record WebhookHandlerOptions := mkAcqOptions {
  aKeys : option (W → result AcqServerKey * W);
  aOnEvent : option (Invoice → W → option error * W);
  aDedup : option D;
  MaxAge : Z;
  aOnError : option (error → W → W);
  aMaxBodyBytes : Z
}.

Record WebhookHandler := mkAcqHandler {
  whKeys : W → result AcqServerKey * W;
  whOnEvent : Invoice → W → option error * W;
  whMaxAge : Z;
  whOnError : option (error → W → W);
  whMaxBodyBytes : Z;
  whCache : KeyCache PublicKey;
  whDedup : option D
}.

Definition acq_set_state (h : WebhookHandler) (c : KeyCache PublicKey) (d : option D) : WebhookHandler :=
  mkAcqHandler (whKeys h) (whOnEvent h) (whMaxAge h) (whOnError h) (whMaxBodyBytes h) c d.

(** The fetch inside [refresh]: [Keys.PubKey] and [Public]. *)
Definition acq_fetch (keys : W → result AcqServerKey * W) (w : W) : result PublicKey * W :=
  let '(r, w) := keys w in
  match r with Err e => (Err e, w) | Ok sk => (Public (Some sk), w) end.

Definition acq_refresh (keys : W → result AcqServerKey * W) := refresh (acq_fetch keys).
Definition acq_refreshCoalesced (keys : W → result AcqServerKey * W) := refreshCoalesced (acq_fetch keys).

Definition NewWebhookHandler (o : WebhookHandlerOptions) (w : W) : result WebhookHandler * W :=
  match aKeys o with
  | None => (Err (ENew AcqErrNilKeyProvider), w)
  | Some keys =>
      match aOnEvent o with
      | None => (Err (ENew AcqErrNilOnEvent), w)
      | Some onEvent =>
          let '(e, c, w) := acq_refresh keys empty_cache w in
          match e with
          | Some e => (Err (EWrap "initial PubKey fetch: %w" e), w)
          | None => (Ok (mkAcqHandler keys onEvent (MaxAge o) (aOnError o)
                           (effective_max (aMaxBodyBytes o)) c (aDedup o)), w)
          end
      end
  end.

Definition acq_reportError (h : WebhookHandler) (e : error) (w : W) : W :=
  match whOnError h with Some f => f e w | None => w end.

Definition ErrWebhookStale : string := "acquiring.ErrWebhookStale".
Definition ErrWebhookNoTimestamp : string := "acquiring.ErrWebhookNoTimestamp".

(** The layouts of [parseModifiedDate], in order. *)
Definition date_layouts : list string :=
  ["2006-01-02T15:04:05.999999999Z07:00"; "2006-01-02T15:04:05Z07:00"; "2006-01-02T15:04:05.000Z";
   "2006-01-02T15:04:05Z"; "2006-01-02 15:04:05"].

Fixpoint first_layout (layouts : list string) (s : string) : option Z :=
  match layouts with
  | [] => None
  | l :: layouts => match time_Parse l s with Some t => Some t | None => first_layout layouts s end
  end.

Definition parseModifiedDate (s : string) : result Z :=
  if String.eqb s "" then Err (ENew ErrWebhookNoTimestamp)
  else match first_layout date_layouts s with
       | Some t => Ok t
       | None => Err (EWrap "%w: %q" (ENew ErrWebhookNoTimestamp))
       end.

Definition VerifyWebhookFresh (pub : option PublicKey) (body xSign : string) (maxAge : Z) (w : W)
    : option error * W :=
  match VerifyWebhook pub body xSign with
  | Some e => (Some e, w)
  | None =>
      match json_modifiedDate body with
      | Err _ => (Some (EWrap "%w: %v" (ENew ErrWebhookNoTimestamp)), w)
      | Ok md =>
          match parseModifiedDate md with
          | Err e => (Some e, w)
          | Ok t =>
              if 0 <? maxAge then
                let '(n, w) := now w in
                if maxAge <? time_Sub n t then (Some (EWrap "%w: modifiedDate" (ENew ErrWebhookStale)), w)
                else (None, w)
              else (None, w)
          end
      end
  end.

Definition ParseWebhook (body : string) : result Invoice :=
  match json_Invoice body with
  | Err e => Err (EWrap "acquiring: decode webhook: %w" e)
  | Ok i => Ok i
  end.

(** [DedupKey] (acquiring/dedup.go). *)
Definition DedupKey (inv : option Invoice) : string :=
  match inv with
  | None => ""
  | Some inv =>
      let id := InvoiceStatusResponse_InvoiceID inv in
      let date := InvoiceStatusResponse_ModifiedDate inv in
      if String.eqb date "" then id else id +:+ "|" +:+ date
  end.

(** The method [verify]: one retry with a refetched key, then freshness. *)
Definition acq_verify (h : WebhookHandler) (gen : nat) (key : PublicKey) (body xSign : string) (w : W)
    : option error * KeyCache PublicKey * W :=
  let err := VerifyWebhook (Some key) body xSign in
  let bad := match err with Some e => errors_Is e AcqErrBadSignature | None => false end in
  let '(key, err, c, w) :=
    if bad then
      let '(re, c, w) := acq_refreshCoalesced (whKeys h) (whCache h) w in
      match re with
      | Some re => (key, err, c, acq_reportError h (EWrap "refresh PubKey after bad signature: %w" re) w)
      | None =>
          match currentKey c with
          | Some (g, k) => if Nat.eqb g gen then (key, err, c, w)
                           else (k, VerifyWebhook (Some k) body xSign, c, w)
          | None => (key, err, c, w)
          end
      end
    else (key, err, whCache h, w) in
  match err with
  | Some e => (Some e, c, w)
  | None =>
      if 0 <? whMaxAge h then
        let '(e, w) := VerifyWebhookFresh (Some key) body xSign (whMaxAge h) w in (e, c, w)
      else (None, c, w)
  end.

Definition acq_ServeHTTP (h : WebhookHandler) (r : Incoming) (w : W) : reply * WebhookHandler * W :=
  match intake (whMaxBodyBytes h) r with
  | inl rep => (rep, h, w)
  | inr body =>
      match currentKey (whCache h) with
      | None => (mkReply 503 "key not ready", h, acq_reportError h (EText "acquiring: PubKey not loaded") w)
      | Some (gen, key) =>
          let '(verr, c, w) := acq_verify h gen key body (iSign r) w in
          let h := acq_set_state h c (whDedup h) in
          match verr with
          | Some e => (mkReply 401 (if errors_Is e ErrWebhookStale then "stale webhook" else "bad signature"), h, w)
          | None =>
              match ParseWebhook body with
              | Err e => (mkReply 400 "malformed payload", h, acq_reportError h (EWrap "parse webhook: %w" e) w)
              | Ok inv =>
                  let '(rep, d, w) :=
                    deliver (whOnEvent h) (acq_reportError h) false (DedupKey (Some inv)) inv (whDedup h) w in
                  (rep, acq_set_state h (whCache h) d, w)
              end
          end
      end
  end.

End Handlers.

Arguments ServerKey {_}.
Arguments Handler W D {_}.
Arguments WebhookHandler W D {_}.

(** ** Lemmas *)

Definition known_of {D} `{Deduper D} (d : option D) : gset string :=
  match d with Some d => known d | None => ∅ end.

Definition opt_wf {D} `{Deduper D} (d : option D) : Prop := ∀ d0, d = Some d0 → dd_wf d0.

Section DeliverFacts.
Context {W D E : Type} `{DeduperLaws D} (ev : W → list E) (onEvent : E → W → option error * W)
  (report : error → W → W) (add_empty : bool).
Hypothesis Hrep : ∀ e w, ev (report e w) = ev w.
Hypothesis Hev : ∀ x w, ev (onEvent x w).2 = ev w ++ [x].

(** What the callback leads to: a failure that changes nothing, or success. *)
Definition called (id : string) (event : E) (known0 : gset string) (dedup : bool) (rep : reply)
    (d' : option D) : Prop :=
  (∃ e w0, (onEvent event w0).1 = Some e ∧ rep = mkReply 500 "callback failed" ∧ known_of d' = known0) ∨
  (∃ w0, (onEvent event w0).1 = None ∧ rep = ok_reply ∧ known_of d' ⊆ {[id]} ∪ known0 ∧
         (dedup = true → id ≠ "" → id ∈ known_of d')).

Lemma run_callback_spec id event (d : option D) w rep d' w' :
  opt_wf d → run_callback onEvent report add_empty id event d w = (rep, d', w') →
  opt_wf d' ∧ ev w' = ev w ++ [event] ∧
  called id event (known_of d) (bool_decide (is_Some d)) rep d'.
Proof.
  intros Hwf. unfold run_callback. pose proof (Hev event w) as He.
  destruct (onEvent event w) as [[e|] w1] eqn:Eo; simpl in He; intros [= <- <- <-].
  { split; [done|]. split; [by rewrite Hrep|]. left. exists e, w. by rewrite Eo. }
  destruct d as [d|]; [destruct (add_frame id d (Hwf d eq_refl)) as [Hsub Hwf1];
                       destruct (add_empty || negb (String.eqb id "")) eqn:Ha|].
  - split; [by intros ? [= <-]|]. split; [done|]. right. exists w. rewrite Eo.
    split; [done|]. split; [done|]. split; [done|]. intros _ Hne. apply add_new; [by apply Hwf|done].
  - split; [done|]. split; [done|]. right. exists w. rewrite Eo.
    split; [done|]. split; [done|]. split; [set_solver|]. intros _ Hne. exfalso.
    apply orb_false_iff in Ha as [_ Ha]. by apply negb_false_iff, String.eqb_eq in Ha.
  - split; [done|]. split; [done|]. right. exists w. rewrite Eo.
    split; [done|]. split; [done|]. split; [set_solver|]. done.
Qed.

(** [deliver] on every branch: a known id is acknowledged, any other event
    reaches the callback. *)
Lemma deliver_spec id event (d : option D) w rep d' w' :
  opt_wf d → deliver onEvent report add_empty id event d w = (rep, d', w') →
  opt_wf d' ∧
  ((id ∈ known_of d ∧ rep = ok_reply ∧ ev w' = ev w ∧ known_of d' = known_of d) ∨
   ((id ∉ known_of d) ∧ ev w' = ev w ++ [event] ∧
    called id event (known_of d) (bool_decide (is_Some d)) rep d')).
Proof.
  intros Hwf. unfold deliver. destruct (String.eqb_spec id "") as [->|Hne].
  { intros Hr. destruct (run_callback_spec _ _ _ _ _ _ _ Hwf Hr) as (Hwf' & He & Hc).
    split; [done|]. right. rewrite He, Hrep. split; [|done].
    destruct d as [d|]; [by apply known_nonempty, Hwf|set_solver]. }
  destruct d as [d|].
  2:{ intros Hr. destruct (run_callback_spec _ _ _ _ _ _ _ Hwf Hr) as (Hwf' & He & Hc).
      split; [done|]. right. split; [set_solver|done]. }
  destruct (has_frame id d (Hwf d eq_refl)) as [Hk Hwf1]. pose proof (has_iff id d (Hwf d eq_refl)) as Hi.
  destruct (Has id d) as [[] d1]; simpl in Hk, Hwf1, Hi.
  - intros [= <- <- <-]. split; [by intros ? [= <-]|]. left. split; [by apply Hi|]. done.
  - intros Hr. assert (opt_wf (Some d1)) as Hwf2 by (by intros ? [= <-]).
    destruct (run_callback_spec _ _ _ _ _ _ _ Hwf2 Hr) as (Hwf' & He & Hc).
    split; [done|]. right. simpl in Hc |- *. rewrite Hk in Hc. split; [|done].
    intros Hin. by apply Hi in Hin.
Qed.

(** A new event with an id: the callback runs here and now, and decides the answer. *)
Lemma deliver_new id event (d : option D) w :
  opt_wf d → id ≠ "" → id ∉ known_of d →
  (deliver onEvent report add_empty id event d w).1.1 =
    match (onEvent event w).1 with Some _ => mkReply 500 "callback failed" | None => ok_reply end.
Proof.
  intros Hwf Hne Hnew. unfold deliver. rewrite (proj2 (String.eqb_neq id "") Hne).
  assert (∀ d0, (run_callback onEvent report add_empty id event d0 w).1.1 =
    match (onEvent event w).1 with Some _ => mkReply 500 "callback failed" | None => ok_reply end) as Hr.
  { intros d0. unfold run_callback. by destruct (onEvent event w) as [[e|] w1]. }
  destruct d as [d|]; [|apply Hr]. pose proof (has_iff id d (Hwf d eq_refl)) as Hi.
  destruct (Has id d) as [[] d1]; simpl in Hi; [|apply Hr]. by destruct Hnew; apply Hi.
Qed.

End DeliverFacts.

Lemma intake_body maxBody r body :
  intake maxBody r = inr body → iMethod r = "POST" ∧ body = iBody r ∧ slen body <= maxBody.
Proof.
  unfold intake, read_limited. intros Hi. destruct (String.eqb (iMethod r) "GET"); [done|].
  destruct (String.eqb_spec (iMethod r) "POST") as [Hm|]; [|done]. simpl in Hi.
  destruct (Z.ltb_spec maxBody (slen (iBody r))); [done|].
  destruct (iBodyErr r) as [e|]; [by destruct (errors_As_MaxBytes e)|]. by simplify_eq.
Qed.

(** ** webhook.Handler *)

Section HandlerFacts.
Context {W D : Type} `{World W} `{DeduperLaws D} `{Crypto} `{WebhookLib}.

(** [ev] lists the events the callback was given; nothing else moves it. *)
Record Observes (ev : W → list WResponse) (h : Handler W D) : Prop := {
  ob_event x w : ev (hOnEvent h x w).2 = ev w ++ [x];
  ob_unknown f b w : hOnUnknownType h = Some f → ev (f b w) = ev w;
  ob_error f e w : hOnError h = Some f → ev (f e w) = ev w;
  ob_keys w : ev (hKeys h w).2 = ev w;
  ob_now (w : W) : ev (now w).2 = ev w
}.

Lemma Parse_event body event e : Parse body = (event, e) → e = None → is_Some event.
Proof. unfold Parse. intros Hp He. repeat case_match; by simplify_eq/=. Qed.

Lemma refreshCoalesced_frame {K T} (ev : W → T) (fetch : W → result K * W) c w :
  (∀ w, ev (fetch w).2 = ev w) → (∀ w : W, ev (now w).2 = ev w) →
  let '(e, c', w') := refreshCoalesced fetch c w in
  ev w' = ev w ∧ (is_Some e → c' = c) ∧ (is_Some (kc_key c) → is_Some (kc_key c')).
Proof.
  intros Hf Hn. unfold refreshCoalesced, refresh.
  pose proof (Hn w) as Hn1. destruct (now w) as [t1 w1]. simpl in Hn1.
  destruct (time_Sub t1 _ <? _); [done|].
  pose proof (Hn w1) as Hn2. destruct (now w1) as [t2 w2]. simpl in Hn2.
  destruct (time_Sub t2 _ <? _); [by rewrite Hn2, Hn1|].
  pose proof (Hf w2) as Hf1. destruct (fetch w2) as [[k|e] w3]; simpl in Hf1.
  - pose proof (Hn w3) as Hn3. destruct (now w3) as [t3 w4]. simpl in Hn3.
    split; [congruence|]. split; [by intros [? ?]|]. simpl. by eexists.
  - split; [congruence|]. done.
Qed.

Lemma refreshCoalesced_keeps {K} (P : W → Prop) (fetch : W → result K * W) c w :
  (∀ w, P w → P (fetch w).2) → (∀ w : W, P w → P (now w).2) → P w → P (refreshCoalesced fetch c w).2.
Proof.
  intros Hf Hn Hw. unfold refreshCoalesced, refresh.
  pose proof (Hn w Hw) as Hn1. destruct (now w) as [t1 w1]. simpl in Hn1.
  destruct (time_Sub t1 _ <? _); [done|].
  pose proof (Hn w1 Hn1) as Hn2. destruct (now w1) as [t2 w2]. simpl in Hn2.
  destruct (time_Sub t2 _ <? _); [done|].
  pose proof (Hf w2 Hn2) as Hf1. destruct (fetch w2) as [[k|e] w3]; simpl in Hf1; [|done].
  pose proof (Hn w3 Hf1) as Hn3. by destruct (now w3) as [t3 w4].
Qed.

Lemma choose_key_spec ev h g key r w key' c' w' :
  Observes ev h → currentKey (hCache h) = Some (g, key) → choose_key h key r w = (key', c', w') →
  ev w' = ev w ∧ ∃ g', currentKey c' = Some (g', key').
Proof.
  intros Hob Hk. unfold choose_key. destruct (negb _ && negb _); [|intros [= <- <- <-]; by eauto].
  pose proof (refreshCoalesced_frame ev (hKeys h) (hCache h) w (ob_keys _ _ Hob) (ob_now _ _ Hob)) as Hr.
  destruct (refreshCoalesced (hKeys h) (hCache h) w) as [[e c] w1].
  destruct Hr as (He & Hc & Hs). destruct e as [e|]; intros [= <- <- <-].
  - split.
    + unfold reportError. destruct (hOnError h) eqn:Ho; [by rewrite (ob_error _ _ Hob)|done].
    + rewrite (Hc ltac:(by eexists)). by eauto.
  - split; [done|]. destruct Hs as [[g' k'] Hk']; [unfold currentKey in Hk; by rewrite Hk|].
    unfold currentKey. rewrite Hk'. by eauto.
Qed.

(** The body was sent by POST, fits, and verifies under the key the handler
    holds when it answers. *)
Definition authentic (h h' : Handler W D) (r : Incoming) : Prop :=
  iMethod r = "POST" ∧ slen (iBody r) <= maxBodyBytes h ∧
  ∃ g key, currentKey (hCache h') = Some (g, key) ∧ Verify (skPubKey key) (iBody r) (iSign r) = None.

Definition event_id (event : WResponse) : string := tID (dTransaction (wData event)).

Lemma ServeHTTP_cases ev h r w rep h' w' :
  Observes ev h → opt_wf (hDedup h) → ServeHTTP h r w = (rep, h', w') →
  opt_wf (hDedup h') ∧
  ((ev w' = ev w ∧ known_of (hDedup h') = known_of (hDedup h) ∧ rStatus rep ≠ 200) ∨
   (ev w' = ev w ∧ known_of (hDedup h') = known_of (hDedup h) ∧ iMethod r = "GET" ∧ rep = ok_reply) ∨
   (authentic h h' r ∧ ev w' = ev w ∧ known_of (hDedup h') = known_of (hDedup h) ∧ rep = ok_reply ∧
    ∃ x e, Parse (iBody r) = (x, Some e) ∧ errors_Is e ErrUnknownType = true) ∨
   (authentic h h' r ∧ ∃ event, Parse (iBody r) = (Some event, None) ∧
    let id := event_id event in
    ((id ∈ known_of (hDedup h) ∧ rep = ok_reply ∧ ev w' = ev w ∧
      known_of (hDedup h') = known_of (hDedup h)) ∨
     ((id ∉ known_of (hDedup h)) ∧ ev w' = ev w ++ [event] ∧
      called (hOnEvent h) id event (known_of (hDedup h)) (bool_decide (is_Some (hDedup h))) rep (hDedup h'))))).
Proof.
  intros Hob Hwf. unfold ServeHTTP. destruct (intake (maxBodyBytes h) r) as [rep0|body] eqn:Hi.
  { intros [= <- <- <-]. split; [done|]. unfold intake in Hi.
    destruct (String.eqb_spec (iMethod r) "GET"); [simplify_eq; by right; left|]. left.
    split; [done|]. split; [done|]. repeat case_match; simplify_eq/=; done. }
  destruct (intake_body _ _ _ Hi) as (Hm & -> & Hlen). clear Hi.
  assert (∀ e w, ev (reportError h e w) = ev w) as Hrep.
  { intros e w0. unfold reportError. destruct (hOnError h) eqn:Ho; [by rewrite (ob_error _ _ Hob)|done]. }
  destruct (currentKey (hCache h)) as [[g key]|] eqn:Hk.
  2:{ intros [= <- <- <-]. split; [done|]. left. by rewrite Hrep. }
  destruct (choose_key h key r w) as [[key' c'] w1] eqn:Hck.
  destruct (choose_key_spec ev _ _ _ _ _ _ _ _ Hob Hk Hck) as [He [g' Hg]]. cbv zeta.
  destruct (Verify (skPubKey key') (iBody r) (iSign r)) as [e|] eqn:Hv.
  { intros [= <- <- <-]. split; [done|]. left. done. }
  destruct (Parse (iBody r)) as [x [e|]] eqn:Hp.
  { assert (∀ e w, ev (reportError (set_state h c' (hDedup h)) e w) = ev w) as Hrep' by done.
    destruct (errors_Is e ErrUnknownType) eqn:Hu; intros [= <- <- <-]; (split; [done|]).
    - right. right. left. split; [by repeat split; eauto|]. split; [|by eauto 10]. simpl.
      destruct (hOnUnknownType h) eqn:Hou; [by rewrite (ob_unknown _ _ Hob)|done].
    - left. rewrite Hrep'. done. }
  destruct (Parse_event _ _ _ Hp eq_refl) as [event ->]. simpl.
  destruct (deliver _ _ true _ event (hDedup h) w1) as [[rep1 d1] w2] eqn:Hd. intros [= <- <- <-]. simpl.
  destruct (deliver_spec ev (hOnEvent h) _ true Hrep (ob_event _ _ Hob) _ _ _ _ _ _ _ Hwf Hd) as [Hwf' Hout].
  split; [done|]. right. right. right. split; [by repeat split; eauto|]. exists event. split; [done|].
  by rewrite <- He.
Qed.

End HandlerFacts.

(** ** A recorded delivery

    The callback records its events and fails while [wl_fail] is positive; the
    key provider serves key ["k"]. *)
Record Wire := mkWire { wl_events : list WResponse; wl_invoices : list Invoice; wl_fail : nat; wl_clock : Z }.

#[export] Instance wire_world : World Wire := {|
  now w := (wl_clock w, w); rand_Int64N _ w := (0, w); ctx_Err _ := None; wait _ w := (None, w) |}.

Definition wire_event (x : WResponse) (w : Wire) : option error * Wire :=
  (match wl_fail w with O => None | S _ => Some (EText "db down") end,
   mkWire (wl_events w ++ [x]) (wl_invoices w) (pred (wl_fail w)) (wl_clock w)).
Definition wire_invoice (x : Invoice) (w : Wire) : option error * Wire :=
  (match wl_fail w with O => None | S _ => Some (EText "db down") end,
   mkWire (wl_events w) (wl_invoices w ++ [x]) (pred (wl_fail w)) (wl_clock w)).

Definition example_event (body : string) : WResponse :=
  mkWResponse TypeStatementItem (mkData "acc"
    (mkTx body 0 "" 0 0 false (mkMoney 0 0) (mkMoney 0 0) 980 (mkMoney 0 0) (mkMoney 0 0) (mkMoney 0 0)
       "" "" "" "" "" "")).

(** The body of an example is the id of its transaction. *)
#[local] Instance toy_lib : WebhookLib := {|
  json_Response b := Ok (example_event b);
  json_Invoice b := Ok (mkInvoiceStatusResponse b "success" "" "" (mkMoney 100 980) 980 (mkMoney 100 980) "" "2024-01-01T00:00:00Z"
                       "" "" [] None None None);
  json_modifiedDate b := Ok "2024-01-01T00:00:00Z";
  time_Parse l s := if String.eqb l "2006-01-02T15:04:05Z" then Some (1704067200 * Second) else None |}.

(** "aw==" decodes to "k"; the toy checker wants the key followed by the body. *)
Definition toy_request (body sign : string) : Incoming := mkIncoming "POST" "id1" sign body None.

#[local] Existing Instance toy_crypto.

Definition toy_key : @ServerKey toy_crypto := mkServerKey "id1" (Some "k") 0.

Definition toy_handler (d : gset string) : Handler Wire (gset string) :=
  mkHandler (λ w, (Ok toy_key, w)) wire_event None None 1024 (mkCache (Some (0%nat, toy_key)) 1 zero_time) (Some d).

Lemma toy_observes d : Observes wl_events (toy_handler d).
Proof. by split. Qed.

(** ** Properties *)

(** C1: only authentic events reach [OnEvent]: a call of the callback means a
    POST within the size limit whose body verifies under the key the handler
    holds and parses to that event, which is delivered once, and whose id the
    deduper did not know. *)
Theorem ServeHTTP_authentic {W D} `{World W} `{DeduperLaws D} `{Crypto} `{WebhookLib}
    (ev : W → list WResponse) (h : Handler W D) r w rep h' w' :
  Observes ev h → opt_wf (hDedup h) → ServeHTTP h r w = (rep, h', w') → ev w' ≠ ev w →
  authentic h h' r ∧ ∃ event, Parse (iBody r) = (Some event, None) ∧ ev w' = ev w ++ [event] ∧
    event_id event ∉ known_of (hDedup h).
Proof.
  intros Hob Hwf Hs Hne.
  destruct (ServeHTTP_cases ev _ _ _ _ _ _ Hob Hwf Hs) as
    [_ [(? & _)|[(? & _)|[(_ & ? & _)|(Ha & event & Hp & [(_ & _ & ? & _)|(Hid & He & _)])]]]]; try done.
  split; [done|]. by exists event.
Qed.

Lemma ServeHTTP_authentic_witness :
  let '(rep, h', w') := ServeHTTP (toy_handler ∅) (toy_request "e" "a2U=") (mkWire [] [] 0 0) in
  authentic (toy_handler ∅) h' (toy_request "e" "a2U=") ∧ wl_events w' = [example_event "e"].
Proof.
  destruct (ServeHTTP (toy_handler ∅) (toy_request "e" "a2U=") (mkWire [] [] 0 0)) as [[rep h'] w'] eqn:Hs.
  assert (wl_events w' = [example_event "e"]) as He.
  { transitivity (wl_events (ServeHTTP (toy_handler ∅) (toy_request "e" "a2U=") (mkWire [] [] 0 0)).2);
      [by rewrite Hs|by vm_compute]. }
  split; [|exact He].
  apply (ServeHTTP_authentic wl_events (toy_handler ∅) (toy_request "e" "a2U=") (mkWire [] [] 0 0) rep h' w');
    [apply toy_observes| |exact Hs|by rewrite He].
  intros d0 [= <-]. simpl. set_solver.
Defined.

(** A POST is acknowledged with 200 only when its body is authentic and it
    is of an unknown type, or its event is known to the deduper already, or
    [OnEvent] has just accepted it, in which case the deduper records it: an
    acknowledged event is never one that was not processed. *)
Theorem ServeHTTP_ack {W D} `{World W} `{DeduperLaws D} `{Crypto} `{WebhookLib}
    (ev : W → list WResponse) (h : Handler W D) r w rep h' w' :
  Observes ev h → opt_wf (hDedup h) → ServeHTTP h r w = (rep, h', w') →
  iMethod r = "POST" → rStatus rep = 200 →
  authentic h h' r ∧
  ((∃ x e, Parse (iBody r) = (x, Some e) ∧ errors_Is e ErrUnknownType = true) ∨
   (∃ event, Parse (iBody r) = (Some event, None) ∧
     (event_id event ∈ known_of (hDedup h) ∨
      ev w' = ev w ++ [event] ∧ (∃ w0, (hOnEvent h event w0).1 = None) ∧
      (hDedup h ≠ None → event_id event ≠ "" → event_id event ∈ known_of (hDedup h'))))).
Proof.
  intros Hob Hwf Hs Hm H200.
  destruct (ServeHTTP_cases ev _ _ _ _ _ _ Hob Hwf Hs) as
    [_ [(_ & _ & ?)|[(_ & _ & Hget & _)|[(Ha & _ & _ & _ & Hu)|(Ha & event & Hp & Hd)]]]];
    [done|by rewrite Hm in Hget|by split; [|left]|].
  split; [done|]. right. exists event. split; [done|].
  destruct Hd as [(Hk & _)|(_ & He & [(e & w0 & _ & -> & _)|(w0 & Hok & _ & _ & Hin)])]; [by left|done|].
  right. split; [done|]. split; [by exists w0|]. intros Hd Hne. apply Hin; [|done].
  apply bool_decide_eq_true. by destruct (hDedup h); [eexists|].
Qed.

Lemma ServeHTTP_ack_witness :
  let '(rep, h', w') := ServeHTTP (toy_handler {["e"]}) (toy_request "e" "a2U=") (mkWire [] [] 0 0) in
  rStatus rep = 200 ∧ authentic (toy_handler {["e"]}) h' (toy_request "e" "a2U=").
Proof.
  destruct (ServeHTTP (toy_handler {["e"]}) (toy_request "e" "a2U=") (mkWire [] [] 0 0)) as [[rep h'] w'] eqn:Hs.
  assert (rStatus rep = 200) as Hr.
  { transitivity (rStatus (ServeHTTP (toy_handler {["e"]}) (toy_request "e" "a2U=") (mkWire [] [] 0 0)).1.1);
      [by rewrite Hs|by vm_compute]. }
  split; [exact Hr|].
  apply (ServeHTTP_ack wl_events (toy_handler {["e"]}) (toy_request "e" "a2U=") (mkWire [] [] 0 0) rep h' w');
    [apply toy_observes| |exact Hs|done|exact Hr].
  intros d0 [= <-]. simpl. set_solver.
Defined.

(** A signed statement item under the cached key goes straight to [deliver]. *)
Lemma ServeHTTP_known_key {W D} `{World W} `{Deduper D} `{Crypto} `{WebhookLib} (h : Handler W D) r w g key body event :
  intake (maxBodyBytes h) r = inr body → currentKey (hCache h) = Some (g, key) →
  iKeyID r = "" ∨ iKeyID r = skID key → Verify (skPubKey key) body (iSign r) = None →
  Parse body = (Some event, None) →
  ServeHTTP h r w =
    let '(rep, d, w') := deliver (hOnEvent h) (reportError h) true (event_id event) event (hDedup h) w in
    (rep, set_state h (hCache h) d, w').
Proof.
  intros Hi Hk Hid Hv Hp. unfold ServeHTTP, choose_key. rewrite Hi, Hk.
  assert (negb (String.eqb (iKeyID r) "") && negb (String.eqb (iKeyID r) (skID key)) = false) as ->.
  { destruct Hid as [-> | ->]; [done|]. rewrite String.eqb_refl. by rewrite andb_false_r. }
  cbv zeta. simpl. rewrite Hv, Hp. by destruct (deliver _ _ true _ event (hDedup h) w) as [[rep d] w'].
Qed.

(** C23: redelivery of a new event that has an id, to a handler with a
    deduper, signed under the key it holds.  When the callback fails on it,
    the answer is 500 and delivering the same request again runs the callback
    again, whose result again decides the answer; when the callback accepts
    it, the answer is 200 and a second delivery is acknowledged without
    running it: with a deduper that keeps its entries every event is processed
    until it succeeds once, and not again. *)
Theorem ServeHTTP_redelivery {W D} `{World W} `{DeduperLaws D} `{Crypto} `{WebhookLib}
    (ev : W → list WResponse) (h : Handler W D) r w g key body event :
  Observes ev h → opt_wf (hDedup h) → hDedup h ≠ None →
  intake (maxBodyBytes h) r = inr body → currentKey (hCache h) = Some (g, key) →
  iKeyID r = "" ∨ iKeyID r = skID key → Verify (skPubKey key) body (iSign r) = None →
  Parse body = (Some event, None) → event_id event ≠ "" → event_id event ∉ known_of (hDedup h) →
  let '(rep1, h1, w1) := ServeHTTP h r w in
  let '(rep2, h2, w2) := ServeHTTP h1 r w1 in
  match (hOnEvent h event w).1 with
  | Some _ => rep1 = mkReply 500 "callback failed" ∧ ev w2 = ev w ++ [event; event] ∧
      rep2 = match (hOnEvent h event w1).1 with Some _ => mkReply 500 "callback failed" | None => ok_reply end
  | None => rep1 = ok_reply ∧ rep2 = ok_reply ∧ ev w2 = ev w ++ [event]
  end.
Proof.
  intros Hob Hwf Hd Hi Hk Hid Hv Hp Hne Hnew.
  assert (∀ e w, ev (reportError h e w) = ev w) as Hrep.
  { intros e w0. unfold reportError. destruct (hOnError h) eqn:Ho; [by rewrite (ob_error _ _ Hob)|done]. }
  rewrite (ServeHTTP_known_key h r w g key body event) by done.
  pose proof (deliver_new (hOnEvent h) (reportError h) true (event_id event) event (hDedup h) w Hwf Hne Hnew) as Hr1.
  destruct (deliver _ _ true _ event (hDedup h) w) as [[rep1 d1] w1] eqn:Hd1. simpl in Hr1.
  destruct (deliver_spec ev _ _ true Hrep (ob_event _ _ Hob) _ _ _ _ _ _ _ Hwf Hd1)
    as [Hwf1 [(? & _)|(_ & He1 & Hc1)]]; [done|].
  rewrite (ServeHTTP_known_key (set_state h (hCache h) d1) r w1 g key body event) by done. simpl.
  pose proof (deliver_new (hOnEvent h) (reportError (set_state h (hCache h) d1)) true (event_id event) event d1 w1 Hwf1 Hne) as Hr2.
  destruct (deliver (hOnEvent h) (reportError (set_state h (hCache h) d1)) true _ event d1 w1)
    as [[rep2 d2] w2] eqn:Hd2. simpl in Hr2.
  destruct (deliver_spec ev _ _ true Hrep (ob_event _ _ Hob) _ _ _ _ _ _ _ Hwf1 Hd2) as [_ Hsnd].
  destruct Hc1 as [(e & w0 & _ & Hrep1 & Hk1)|(w0 & _ & Hrep1 & _ & Hk1)]; rewrite Hrep1 in Hr1;
    destruct (hOnEvent h event w).1; try discriminate Hr1.
  - split; [done|]. rewrite Hk1 in Hsnd, Hr2. destruct Hsnd as [(? & _)|(_ & He2 & _)]; [done|].
    by rewrite He2, He1, <- app_assoc, Hr2.
  - assert (event_id event ∈ known_of d1) as Hin.
    { apply Hk1; [|done]. apply bool_decide_eq_true. by destruct (hDedup h); [eexists|]. }
    destruct Hsnd as [(_ & -> & He2 & _)|(Hn & _)]; [by rewrite He2|done].
Qed.

Lemma ServeHTTP_redelivery_witness :
  let '(rep1, h1, w1) := ServeHTTP (toy_handler ∅) (toy_request "e" "a2U=") (mkWire [] [] 1 0) in
  let '(rep2, h2, w2) := ServeHTTP h1 (toy_request "e" "a2U=") w1 in
  rep1 = mkReply 500 "callback failed" ∧ wl_events w2 = [] ++ [example_event "e"; example_event "e"] ∧ rep2 = ok_reply.
Proof.
  refine (ServeHTTP_redelivery wl_events (toy_handler ∅) (toy_request "e" "a2U=") (mkWire [] [] 1 0)
            0%nat toy_key "e" (example_event "e") _ _ _ _ _ _ _ _ _ _).
  - apply toy_observes.
  - intros d0 [= <-]. simpl. set_solver.
  - done.
  - by vm_compute.
  - done.
  - by right.
  - by vm_compute.
  - done.
  - done.
  - simpl. set_solver.
Defined.

(** ** acquiring.WebhookHandler *)

Record AcqObserves {W D} `{World W} `{Crypto} (ev : W → list Invoice) (h : WebhookHandler W D) : Prop := {
  ao_event x w : ev (whOnEvent h x w).2 = ev w ++ [x];
  ao_error f e w : whOnError h = Some f → ev (f e w) = ev w;
  ao_keys w : ev (whKeys h w).2 = ev w;
  ao_now (w : W) : ev (now w).2 = ev w
}.

(** The clock the handler reads never goes back. *)
Record AcqClock {W D} `{World W} `{Crypto} (clk : W → Z) (h : WebhookHandler W D) : Prop := {
  ac_now (w : W) : clk w <= (now w).1 ∧ clk w <= clk (now w).2;
  ac_keys w : clk w <= clk (whKeys h w).2;
  ac_error f e w : whOnError h = Some f → clk w <= clk (f e w)
}.

(** The payload's date is no older than [maxAge] at the instant [n]. *)
Definition fresh_at `{WebhookLib} (maxAge : Z) (body : string) (n : Z) : Prop :=
  ∃ md t, json_modifiedDate body = Ok md ∧ parseModifiedDate md = Ok t ∧ time_Sub n t <= maxAge.

Section AcqFacts.
Context {W D : Type} `{World W} `{DeduperLaws D} `{Crypto} `{WebhookLib}.

Lemma acq_reportError_frame (ev : W → list Invoice) (h : WebhookHandler W D) e w :
  AcqObserves ev h → ev (acq_reportError h e w) = ev w.
Proof. intros Hob. unfold acq_reportError. destruct (whOnError h) eqn:Ho; [by apply (ao_error _ _ Hob)|done]. Qed.

Lemma fresh_at_mono maxAge body n m : n <= m → fresh_at maxAge body m → fresh_at maxAge body n.
Proof. intros Hle (md & t & ? & ? & Hs). exists md, t. split; [done|]. split; [done|]. unfold time_Sub, sat64 in *. lia64. Qed.

Lemma VerifyWebhookFresh_frame (ev : W → list Invoice) pub body xSign maxAge w :
  (∀ w : W, ev (now w).2 = ev w) → ev (VerifyWebhookFresh pub body xSign maxAge w).2 = ev w.
Proof.
  intros Hn. specialize (Hn w). unfold VerifyWebhookFresh. destruct (VerifyWebhook pub body xSign); [done|].
  destruct (json_modifiedDate body) as [md|]; [|done]. destruct (parseModifiedDate md) as [t|]; [|done].
  destruct (0 <? maxAge); [|done]. destruct (now w) as [n w1]. by case_match.
Qed.

Lemma VerifyWebhookFresh_fresh pub body xSign maxAge w :
  (VerifyWebhookFresh pub body xSign maxAge w).1 = None → 0 < maxAge → fresh_at maxAge body (now w).1.
Proof.
  unfold VerifyWebhookFresh, fresh_at. destruct (VerifyWebhook pub body xSign); [done|].
  destruct (json_modifiedDate body) as [md|]; [|done]. destruct (parseModifiedDate md) as [t|] eqn:Ht; [|done].
  intros Hv Hm. rewrite (proj2 (Z.ltb_lt 0 maxAge) Hm) in Hv. destruct (now w) as [n w1].
  destruct (Z.ltb_spec maxAge (time_Sub n t)); [done|]. by exists md, t.
Qed.

(** [verify] once a key and its verdict are settled. *)
Definition acq_settle (h : WebhookHandler W D) (body xSign : string) (k : option error * PublicKey * KeyCache PublicKey) (w : W)
    : option error * KeyCache PublicKey * W :=
  let '(err, key, c) := k in
  match err with
  | Some e => (Some e, c, w)
  | None =>
      if 0 <? whMaxAge h then
        let '(e, w) := VerifyWebhookFresh (Some key) body xSign (whMaxAge h) w in (e, c, w)
      else (None, c, w)
  end.

(** The key [verify] settles on is in the cache it leaves when it accepts. *)
Lemma acq_verify_inv (P : W → Prop) (h : WebhookHandler W D) g key body xSign w :
  currentKey (whCache h) = Some (g, key) →
  (∀ w, P w → P (now w).2) → (∀ w, P w → P (whKeys h w).2) → (∀ e w, P w → P (acq_reportError h e w)) → P w →
  ∃ err k c w0, acq_verify h g key body xSign w = acq_settle h body xSign (err, k, c) w0 ∧ P w0 ∧
    (err = None → (∃ g', currentKey c = Some (g', k)) ∧ VerifyWebhook (Some k) body xSign = None).
Proof.
  intros Hk Hn Hf He Hw. unfold acq_verify, acq_settle. cbv zeta.
  destruct (match VerifyWebhook (Some key) body xSign with
            | Some e => errors_Is e AcqErrBadSignature | None => false end) eqn:Hbad.
  2:{ exists (VerifyWebhook (Some key) body xSign), key, (whCache h), w. split; [done|]. eauto. }
  assert (VerifyWebhook (Some key) body xSign ≠ None) as Hnn by (intros Hx; by rewrite Hx in Hbad).
  pose proof (refreshCoalesced_keeps P (acq_fetch (whKeys h)) (whCache h) w) as Hr. unfold acq_refreshCoalesced.
  destruct (refreshCoalesced (acq_fetch (whKeys h)) (whCache h) w) as [[re c1] w1].
  assert (P w1) as Hw1.
  { apply Hr; [|done|done]. intros w0 Hw0. unfold acq_fetch. specialize (Hf w0 Hw0). by destruct (whKeys h w0) as [[sk|e0] w2]. }
  destruct re as [re|]; [|destruct (currentKey c1) as [[g1 k1]|] eqn:Hc1; [destruct (Nat.eqb g1 g)|]].
  - eexists (VerifyWebhook (Some key) body xSign), key, c1, _. split; [done|]. split; [by apply He|done].
  - exists (VerifyWebhook (Some key) body xSign), key, c1, w1. done.
  - exists (VerifyWebhook (Some k1) body xSign), k1, c1, w1. split; [done|]. split; [done|]. eauto.
  - exists (VerifyWebhook (Some key) body xSign), key, c1, w1. done.
Qed.

Lemma acq_verify_frame (ev : W → list Invoice) (h : WebhookHandler W D) g key body xSign w e c w' :
  AcqObserves ev h → currentKey (whCache h) = Some (g, key) →
  acq_verify h g key body xSign w = (e, c, w') → ev w' = ev w.
Proof.
  intros Hob Hk Hv.
  destruct (acq_verify_inv (λ w0, ev w0 = ev w) h g key body xSign w Hk) as (err & k & c0 & w0 & Hs & He & _).
  - intros w0 <-. apply (ao_now _ _ Hob).
  - intros w0 <-. apply (ao_keys _ _ Hob).
  - intros x w0 <-. by apply acq_reportError_frame.
  - done.
  - rewrite Hv in Hs. unfold acq_settle in Hs. destruct err; [by simplify_eq|].
    destruct (0 <? whMaxAge h); [|by simplify_eq].
    pose proof (VerifyWebhookFresh_frame ev (Some k) body xSign (whMaxAge h) w0 (ao_now _ _ Hob)) as Hf.
    destruct (VerifyWebhookFresh _ _ _ _ w0). simplify_eq/=. congruence.
Qed.

Lemma acq_verify_spec (clk : W → Z) (h : WebhookHandler W D) g key body xSign w c w' :
  AcqClock clk h → currentKey (whCache h) = Some (g, key) →
  acq_verify h g key body xSign w = (None, c, w') →
  ∃ g' key', currentKey c = Some (g', key') ∧ VerifyWebhook (Some key') body xSign = None ∧
     (0 < whMaxAge h → fresh_at (whMaxAge h) body (clk w)).
Proof.
  intros Hck Hk Hv.
  destruct (acq_verify_inv (λ w0, clk w <= clk w0) h g key body xSign w Hk) as (err & k & c0 & w0 & Hs & Hle & Hok).
  - intros w0 ?. pose proof (ac_now _ _ Hck w0). lia.
  - intros w0 ?. pose proof (ac_keys _ _ Hck w0). lia.
  - intros x w0 ?. unfold acq_reportError. destruct (whOnError h) as [f|] eqn:Hf; [|done].
    pose proof (ac_error _ _ Hck f x w0 Hf). lia.
  - lia.
  - rewrite Hv in Hs. unfold acq_settle in Hs. destruct err; [done|]. destruct (Hok eq_refl) as [[g' Hc] Hvk].
    exists g', k. destruct (Z.ltb_spec 0 (whMaxAge h)).
    + pose proof (VerifyWebhookFresh_fresh (Some k) body xSign (whMaxAge h) w0) as Hf.
      destruct (VerifyWebhookFresh _ _ _ _ w0) as [e w1]. simplify_eq/=. split; [done|]. split; [done|]. intros Hm.
      apply (fresh_at_mono _ _ _ (now w0).1); [|by apply Hf]. pose proof (ac_now _ _ Hck w0). lia.
    + simplify_eq. split; [done|]. split; [done|lia].
Qed.

(** The invoice came by POST, fits, is signed by the key the handler holds
    when it answers, and is fresh at the instant [n] when freshness is asked for. *)
Definition acq_authentic (h h' : WebhookHandler W D) (r : Incoming) (n : Z) : Prop :=
  iMethod r = "POST" ∧ slen (iBody r) <= whMaxBodyBytes h ∧
  (∃ g key, currentKey (whCache h') = Some (g, key) ∧ VerifyWebhook (Some key) (iBody r) (iSign r) = None) ∧
  (0 < whMaxAge h → fresh_at (whMaxAge h) (iBody r) n).

Lemma acq_ServeHTTP_cases (ev : W → list Invoice) (clk : W → Z) (h : WebhookHandler W D) r w rep h' w' :
  AcqObserves ev h → AcqClock clk h → opt_wf (whDedup h) → acq_ServeHTTP h r w = (rep, h', w') →
  opt_wf (whDedup h') ∧
  ((ev w' = ev w ∧ known_of (whDedup h') = known_of (whDedup h) ∧ (rStatus rep ≠ 200 ∨ iMethod r = "GET")) ∨
   (acq_authentic h h' r (clk w) ∧ ∃ inv, ParseWebhook (iBody r) = Ok inv ∧
    let id := DedupKey (Some inv) in
    ((id ∈ known_of (whDedup h) ∧ rep = ok_reply ∧ ev w' = ev w ∧ known_of (whDedup h') = known_of (whDedup h)) ∨
     ((id ∉ known_of (whDedup h)) ∧ ev w' = ev w ++ [inv] ∧
      called (whOnEvent h) id inv (known_of (whDedup h)) (bool_decide (is_Some (whDedup h))) rep (whDedup h'))))).
Proof.
  intros Hob Hck Hwf. unfold acq_ServeHTTP. destruct (intake (whMaxBodyBytes h) r) as [rep0|body] eqn:Hi.
  { intros [= <- <- <-]. split; [done|]. left. split; [done|]. split; [done|]. unfold intake in Hi.
    destruct (String.eqb_spec (iMethod r) "GET"); [by right|]. left. repeat case_match; simplify_eq/=; done. }
  destruct (intake_body _ _ _ Hi) as (Hm & -> & Hlen). clear Hi.
  destruct (currentKey (whCache h)) as [[g key]|] eqn:Hk.
  2:{ intros [= <- <- <-]. split; [done|]. left. rewrite acq_reportError_frame by done. by split; [|split; [|left]]. }
  destruct (acq_verify h g key (iBody r) (iSign r) w) as [[verr c1] w1] eqn:Hv.
  pose proof (acq_verify_frame ev _ _ _ _ _ _ _ _ _ Hob Hk Hv) as Hev. cbv zeta.
  destruct verr as [e|]; [intros [= <- <- <-]; by split; [|left; split; [|split; [|left]]]|].
  destruct (acq_verify_spec clk _ _ _ _ _ _ _ _ Hck Hk Hv) as (g' & key' & Hc & Hvk & Hfresh).
  destruct (ParseWebhook (iBody r)) as [inv|e].
  2:{ intros [= <- <- <-]. split; [done|]. left.
      rewrite (acq_reportError_frame ev (acq_set_state h c1 (whDedup h))) by (by destruct Hob). by split; [|split; [|left]]. }
  simpl. destruct (deliver _ _ false _ inv (whDedup h) w1) as [[rep1 d1] w2] eqn:Hd. intros [= <- <- <-]. simpl.
  destruct (deliver_spec ev (whOnEvent h) (acq_reportError (acq_set_state h c1 (whDedup h))) false
              (λ e w, acq_reportError_frame ev h e w Hob) (ao_event _ _ Hob) _ _ _ _ _ _ _ Hwf Hd) as [Hwf' Hout].
  split; [done|]. right. split; [by repeat split; eauto|]. exists inv. split; [done|]. by rewrite <- Hev.
Qed.

End AcqFacts.

(** C15: the acquiring handler runs [OnEvent] only for an invoice state that
    came by POST within the size limit, is signed by the key it holds when it
    answers, has a date that was at most [MaxAge] old when the call began if
    [MaxAge] is set, parses, and whose dedup key is not known; and it answers
    200 to a POST only when such a state is known or [OnEvent] accepted it and
    its key is recorded; an answer of 500 records nothing.  The clock does not
    go back during the call, and only [OnEvent] moves the log of events. *)
Theorem acq_ServeHTTP_sound {W D} `{World W} `{DeduperLaws D} `{Crypto} `{WebhookLib}
    (ev : W → list Invoice) (clk : W → Z) (h : WebhookHandler W D) r w rep h' w' :
  AcqObserves ev h → AcqClock clk h → opt_wf (whDedup h) → acq_ServeHTTP h r w = (rep, h', w') →
  (ev w' ≠ ev w → acq_authentic h h' r (clk w) ∧ ∃ inv, ParseWebhook (iBody r) = Ok inv ∧ ev w' = ev w ++ [inv] ∧
     DedupKey (Some inv) ∉ known_of (whDedup h)) ∧
  (iMethod r = "POST" → rStatus rep = 200 → acq_authentic h h' r (clk w) ∧ ∃ inv, ParseWebhook (iBody r) = Ok inv ∧
     (DedupKey (Some inv) ∈ known_of (whDedup h) ∨
      ev w' = ev w ++ [inv] ∧ (∃ w0, (whOnEvent h inv w0).1 = None) ∧
      (whDedup h ≠ None → DedupKey (Some inv) ≠ "" → DedupKey (Some inv) ∈ known_of (whDedup h')))) ∧
  (rStatus rep = 500 → known_of (whDedup h') = known_of (whDedup h)).
Proof.
  intros Hob Hck Hwf Hs.
  destruct (acq_ServeHTTP_cases ev clk _ _ _ _ _ _ Hob Hck Hwf Hs) as
    [_ [(He & Hd & Hst)|(Ha & inv & Hp & [(Hk & -> & He & Hd)|(Hk & He & Hc)])]].
  - split; [done|]. split; [|done]. intros Hm H200. rewrite Hm in Hst. destruct Hst; done.
  - split; [done|]. split; [|done]. intros _ _. split; [done|]. exists inv. split; [done|]. by left.
  - split; [by eauto|]. split.
    + intros _ H200. split; [done|]. exists inv. split; [done|]. right.
      destruct Hc as [(e & w0 & _ & -> & _)|(w0 & Hok & _ & _ & Hin)]; [done|].
      split; [done|]. split; [by exists w0|]. intros Hd Hne. apply Hin; [|done].
      apply bool_decide_eq_true. by destruct (whDedup h); [eexists|].
    + intros H500. destruct Hc as [(e & w0 & _ & _ & Hd)|(w0 & _ & -> & _)]; [done|done].
Qed.

Definition toy_acq (d : gset string) : WebhookHandler Wire (gset string) :=
  mkAcqHandler (λ w, (Ok (mkAcqKey "aw=="), w)) wire_invoice (5 * Minute) None 1024
    (mkCache (Some (0%nat, "old")) 1 zero_time) (Some d).

(** The cached key is stale: the first verification fails, the refetched key
    accepts. *)
Lemma acq_ServeHTTP_sound_witness :
  let r := toy_request "e" "a2U=" in let w := mkWire [] [] 0 (1704067260 * Second) in
  let '(rep, h', w') := acq_ServeHTTP (toy_acq ∅) r w in
  length (wl_invoices w') = 1%nat ∧ acq_authentic (toy_acq ∅) h' r (1704067260 * Second).
Proof.
  intros r w. destruct (acq_ServeHTTP (toy_acq ∅) r w) as [[rep h'] w'] eqn:Hs.
  assert (length (wl_invoices w') = 1%nat) as Hl.
  { transitivity (length (wl_invoices (acq_ServeHTTP (toy_acq ∅) r w).2)); [by rewrite Hs|by vm_compute]. }
  split; [exact Hl|].
  refine (proj1 (proj1 (acq_ServeHTTP_sound wl_invoices wl_clock (toy_acq ∅) r w rep h' w' _ _ _ Hs) _)); [by split| | |].
  - split; simpl; intros; simplify_eq; lia.
  - intros d0 [= <-]. simpl. set_solver.
  - intros He. by rewrite He in Hl.
Defined.
