(* ===== verification/OpenApi.v ===== *)
(** * The bank and personal clients (bank/currency.go, bank/client.go, personal/client.go)

    Exchange rates and their conversion, the public endpoints of the bank, and
    the endpoints of a personal token; the statement ranges of the personal
    client are those of [Statement] over its [Transactions]. *)
From S2P Require Import Prelude GoString GoText GoFloat Errors Currency Money GoHttp Retry Client Options Endpoint.
From S2P Require Import BankData Statement Signature Keys CorpAuth.

(** ** bank/currency.go *)

Record Rate := mkRate {
  CurrencyCodeA : Z; CurrencyCodeB : Z; RateDate : Z;
  RateSell : float64; RateBuy : float64; RateCross : float64
}.

Definition ErrNoRate : string := "bank.ErrNoRate".

Section Convert.
Context `{GoArch}.

(** The loop over the rows; a row of the pair without a rate is skipped. *)
Fixpoint convert_rows (rs : list Rate) (amount : Money) (to : Z) : result Money :=
  match rs with
  | [] => Err (EWrap "%w: %s → %s" (ENew ErrNoRate))
  | r :: rs =>
      if (MCode amount =? CurrencyCodeA r) && (to =? CurrencyCodeB r) then
        let rate := if f_eq (RateBuy r) f_zero then RateCross r else RateBuy r in
        if f_eq rate f_zero then convert_rows rs amount to
        else Ok (mkMoney (Minor (Scale amount rate)) to)
      else if (MCode amount =? CurrencyCodeB r) && (to =? CurrencyCodeA r) then
        let rate := if f_eq (RateSell r) f_zero then RateCross r else RateSell r in
        if f_eq rate f_zero then convert_rows rs amount to
        else Ok (mkMoney (Minor (Scale amount (f_div f_one rate))) to)
      else convert_rows rs amount to
  end.

Definition Convert (rs : list Rate) (amount : Money) (to : Z) : result Money :=
  if MCode amount =? to then Ok amount else convert_rows rs amount to.

End Convert.

(** ** bank/client.go *)

Section Bank.
Context {W : Type} `{World W} `{NetLib} (ua : string).

Definition Bank_New (http : HTTPDoer W) (opts : list (Client W → Client W)) : Client W := Options.New http opts.

Context (c : Client W) `{JSON (list Rate), JSON bankSyncResponse, KeyLib}.

Definition Rates (w : W) : result (list Rate) * W := get_json c ua "/bank/currency" w.

Definition ServerKey (w : W) : result SyncedKey * W :=
  match get_json (A := bankSyncResponse) c ua "/bank/sync" w with
  | (Err e, w) => (Err e, w)
  | (Ok raw, w) => (asServerKey raw, w)
  end.
End Bank.

(** ** personal/client.go *)

Record webhookRequest := mkWebhookRequest { webhookRequest_WebHookURL : string }.

Section Personal.
Context {W : Type} `{World W} `{NetLib} (ua : string).

Definition Personal_New (http : HTTPDoer W) (token : string) (opts : list (Client W → Client W)) : Client W :=
  Options.New http (WithAuth (Some (Personal_SetAuth token)) :: opts).

Context (c : Client W) `{JSON BankData.ClientInfo, JSON (list Transaction), JSON webhookRequest}.

Definition Personal_ClientInfo (w : W) : result BankData.ClientInfo * W := get_json c ua "/personal/client-info" w.

Definition Transactions_uri (accountID : string) (from to : Z) : string :=
  "/personal/statement/" +:+ PathEscape accountID +:+ "/" +:+ Itoa (Unix from) +:+ "/" +:+ Itoa (Unix to).

Definition Personal_Transactions (accountID : string) (from to : Z) (w : W) : result (list Transaction) * W :=
  get_json c ua (Transactions_uri accountID from to) w.

Definition Personal_TransactionsRange (fuel drain_fuel : nat) (accountID : string) (from to : Z) (w : W)
    : option (result (list Transaction) * W) :=
  TransactionsRange fuel drain_fuel (Personal_Transactions accountID) from to w.

Definition Personal_TransactionsRangeIter (fuel drain_fuel : nat) (accountID : string)
    (yield : result Transaction → W → bool * W) (from to : Z) (w : W) : option W :=
  TransactionsRangeIter fuel drain_fuel ctx_Err (Personal_Transactions accountID) yield from to w.

Definition Personal_SetWebHook (uri : string) (w : W) : option error * W :=
  send_ack c ua "POST" "/personal/webhook" (mkWebhookRequest uri) [200] w.
End Personal.

(** ** Properties *)

(** The multiplier a row quotes for a conversion, if it quotes one: the buying
    rate from its first currency to its second, the inverse of the selling rate
    the other way, the cross rate in the place of a missing one. *)
Definition quote (from to : Z) (r : Rate) : option float64 :=
  let usable x := if f_eq x f_zero then RateCross r else x in
  if bool_decide (from = CurrencyCodeA r ∧ to = CurrencyCodeB r) then
    if f_eq (usable (RateBuy r)) f_zero then None else Some (usable (RateBuy r))
  else if bool_decide (from = CurrencyCodeB r ∧ to = CurrencyCodeA r) then
    if f_eq (usable (RateSell r)) f_zero then None else Some (f_div f_one (usable (RateSell r)))
  else None.

(** [Convert] is the identity on the currency the amount is in; otherwise it
    scales the amount by the quotation of the first row that quotes the pair,
    whatever rows without a rate precede it, and labels it with the target
    currency; without such a row it is [ErrNoRate]. *)
Theorem Convert_first_quote `{GoArch} rs amount to :
  Convert rs amount to =
  (if MCode amount =? to then Ok amount
   else match head (omap (quote (MCode amount) to) rs) with
        | Some f => Ok (mkMoney (Minor (Scale amount f)) to)
        | None => Err (EWrap "%w: %s → %s" (ENew ErrNoRate))
        end).
Proof.
  unfold Convert. case_match; [done|]. induction rs as [|r rs IH]; [done|].
  cbn [convert_rows omap list_omap]. unfold quote at 1. cbv zeta.
  assert (∀ a b c d, bool_decide (a = b ∧ c = d) = (a =? b) && (c =? d)) as Hb.
  { intros a b c d. case_bool_decide as Hc.
    - by destruct Hc as [-> ->]; rewrite !Z.eqb_refl.
    - destruct (Z.eqb_spec a b), (Z.eqb_spec c d); tauto. }
  rewrite !Hb, IH. repeat case_match; simplify_eq/=; congruence.
Qed.

(** One hundred dollars at 41.25 and back. *)
Example convert_usd :
  let rs := [mkRate 840 978 0 f_zero f_zero f_zero;
             mkRate 840 980 0 (f_div (float64_of_Z 4150) (float64_of_Z 100)) (f_div (float64_of_Z 4125) (float64_of_Z 100)) f_zero] in
  Convert (H := amd64) rs (mkMoney 10000 840) 980 = Ok (mkMoney 412500 980) ∧
  Convert (H := amd64) rs (mkMoney 415000 980) 840 = Ok (mkMoney 10000 840).
Proof. by vm_compute. Qed.

(** The options that leave the authorizer alone: all but [WithAuth]. *)
Definition keeps_auth {W} (o : Client W → Client W) : Prop := ∀ c, c_auth (o c) = c_auth c.

Lemma apply_keeps_auth {W} `{World W} `{NetLib} (opts : list (Client W → Client W)) (c : Client W) :
  Forall keeps_auth opts → c_auth (apply_options opts c) = c_auth c.
Proof.
  intros Ho. unfold apply_options. revert c. induction Ho as [|o opts Ho Hopts IH]; intros c; [done|].
  simpl. by rewrite IH.
Qed.

Lemma Personal_New_auth {W} `{World W} `{NetLib} http token (opts : list (Client W → Client W)) :
  Forall keeps_auth opts → c_auth (Personal_New http token opts) = Some (Personal_SetAuth token).
Proof.
  intros Ho. unfold Personal_New, Options.New. cbv zeta.
  exact (apply_keeps_auth opts (WithAuth (Some (Personal_SetAuth token)) _) Ho).
Qed.

(** No request of a personal client leaves without its token: on every
    attempt of every call the transport is handed the token the client was
    made with, as long as the request hook leaves X-Token alone; and a client
    made with an empty token sends nothing at all, reporting [ErrEmptyToken]
    unless the call is refused before authorization. *)
Theorem personal_authenticated {W} `{World W} `{NetLib} {A} (P : W → Prop) http token opts ua r
    (v : target W A) exp (w : W) :
  Forall keeps_auth opts →
  let c := Personal_New http token opts in
  (Guarded P (λ q, token ≠ "" ∧ Header_Get (rHeader q) "X-Token" = token) c v → P w → P (Do c ua (Some r) v exp w).2) ∧
  (token = "" →
   ∃ e, Do c ua (Some r) v exp w = (Err e, w) ∧
        (errors_Is e ErrEmptyToken = true ∨ resolve c (Some r) = Err e)).
Proof.
  intros Ho c. pose proof (Personal_New_auth http token opts Ho) as Ha. fold c in Ha. clearbody c.
  assert (token = "" → ∃ e, Do c ua (Some r) v exp w = (Err e, w) ∧
            (errors_Is e ErrEmptyToken = true ∨ resolve c (Some r) = Err e)) as Hempty.
  { intros ->. unfold Do. destruct (resolve c (Some r)) as [[r' u]|e]; [|eexists; split; [done|by right]].
    rewrite Ha. cbn. eexists. split; [done|by left]. }
  split; [|done]. intros Hg Hw.
  destruct (decide (token = "")) as [He|Hne]; [by destruct (Hempty He) as (e & -> & _)|].
  assert (String.eqb token "" = false) as Htok by (by apply String.eqb_neq).
  apply (Do_guarded P _ c ua r v exp w Hg Hw).
  - intros a q w' Ha' Hw'. rewrite Ha in Ha'. simplify_eq. unfold Personal_SetAuth. by rewrite Htok.
  - intros u q Hb. rewrite Ha in Hb. unfold Personal_SetAuth in Hb. rewrite Htok in Hb. cbn in Hb.
    destruct (buffer_body_frame _ _ Hb) as [_ ->]. split; [done|]. apply set_Header_same.
Qed.

Lemma personal_authenticated_witness :
  let c := Personal_New (H0 := net_netlib) (OtherDoer net_send) "t0" [WithRetry 2 1 1] in
  let tokened q := "t0" ≠ "" ∧ Header_Get (rHeader q) "X-Token" = "t0" in
  let r := mkRequest "GET" (mkURL "" "" "/personal/client-info" "") ∅ BNoBody None 0 in
  let w' := (Do (H0 := net_netlib) c "sdk" (Some r) (@TBytes Net string) [] (mkNet [bad_gateway; ok_200 "{}"] [] 0)).2 in
  length (n_seen w') = 2%nat ∧ Forall tokened (n_seen w').
Proof.
  intros c tokened r w'. split; [by vm_compute|].
  apply (proj1 (personal_authenticated (A := string) (H0 := net_netlib) (λ w, Forall tokened (n_seen w)) (OtherDoer net_send) "t0"
           [WithRetry 2 1 1] "sdk" r TBytes [] (mkNet [bad_gateway; ok_200 "{}"] [] 0)
           ltac:(constructor; [intros c0; unfold WithRetry; by case_match|constructor]))); [|by apply Forall_nil].
  split; simpl; try done; intros; simplify_eq; try done.
  unfold net_send. case_match; simpl; apply Forall_app_2; try done; by apply Forall_singleton.
Defined.
