(* ===== verification/Corporate.v ===== *)
(** * The corporate client (corporate/client.go, auth.go, registration.go,
      settings.go, signature.go, client_data.go, iter.go)

    Every endpoint method of the corporate API over [do], which signs the
    request with the authorizer of the call and hands it to the base client;
    the guard on the callback URL; the statement ranges of [Statement] over the
    corporate [Transactions]. *)
From S2P Require Import Prelude GoString GoText Base64 GoFloat Errors Currency Money GoHttp Retry Client Options Endpoint.
From S2P Require Import BankData Statement Signature Keys CorpAuth OpenApi.

(** ** Data *)

Definition ErrEmptyAuthMaker : string := "corporate.ErrEmptyAuthMaker".
Definition ErrNilRequest : string := "corporate.ErrNilRequest".
Definition ErrInsecureCallback : string := "corporate.ErrInsecureCallback".
Definition ErrInvalidCallback : string := "corporate.ErrInvalidCallback".
Definition ErrLogoTooLarge : string := "corporate.ErrLogoTooLarge".
Definition MaxRegistrationLogoBytes : Z := 1048576.
Definition urlPathAuth : string := "/personal/auth/request".
Definition SignatureRequestTTL : Z := 72 * Hour.

Definition registration_states : list string := ["New"; "Declined"; "Approved"].
Definition document_statuses : list string := ["pending"; "signed"; "canceled"; "expired"].
Definition hash_types : list string := ["Gost"; "Dstu256"].

Record TokenRequest := mkTokenRequest { TokenRequest_RequestID : string; TokenRequest_AcceptURL : string }.

Record RegistrationRequest := mkRegistrationRequest {
  RegistrationRequest_Pubkey : string; RegistrationRequest_Name : string; RegistrationRequest_Description : string;
  RegistrationRequest_ContactPerson : string; RegistrationRequest_Phone : string; RegistrationRequest_Email : string;
  RegistrationRequest_Logo : string
}.
Record RegistrationResponse := mkRegistrationResponse { RegistrationResponse_Status : string }.
Record RegistrationStatusRequest := mkRegistrationStatusRequest { RegistrationStatusRequest_Pubkey : string }.
Record RegistrationStatusResponse := mkRegistrationStatusResponse {
  RegistrationStatusResponse_Status : string; RegistrationStatusResponse_KeyID : string
}.

Record Settings := mkSettings {
  Settings_ID : string; Settings_Pubkey : string; Settings_Name : string; Settings_Permission : string;
  Settings_Logo : string; Settings_Webhook : option string
}.

Record Signer := mkSigner {
  Signer_Name : string; Signer_TIN : string; Signer_CertSerial : string; Signer_Signature : string;
  Signer_Date : string; Signer_EDRPOU : string; Signer_Company : string; Signer_Post : string
}.
Record Document := mkDocument {
  Document_Name : string; Document_Hash : string; Document_HashType : string; Document_Type : string;
  Document_Link : string; Document_Status : string; Document_Signers : list Signer
}.
Record SignatureCreateRequest := mkSignatureCreateRequest {
  SignatureCreateRequest_Documents : list Document; SignatureCreateRequest_OneSigner : option bool;
  SignatureCreateRequest_CallbackURL : string
}.
Record SignatureCreateResponse := mkSignatureCreateResponse {
  SignatureCreateResponse_RequestID : string; SignatureCreateResponse_Deeplink : string
}.
Record SignatureStatusResponse := mkSignatureStatusResponse { SignatureStatusResponse_Documents : list Document }.

(** ** The callback guard *)

Section Callback.
Context `{NetLib}.

Definition validateCallbackURL (callbackURL : string) (allowInsecure : bool) : option error :=
  if String.eqb callbackURL "" then Some (EWrap "%w: empty" (ENew ErrInvalidCallback))
  else match url_Parse callbackURL with
       | None => Some (EWrap "%w: %q" (ENew ErrInvalidCallback))
       | Some u =>
           if String.eqb (Scheme u) "" then Some (EWrap "%w: %q" (ENew ErrInvalidCallback))
           else if String.eqb (Scheme u) "https" then None
           else if allowInsecure then None
           else
             let host := url_Hostname u in
             if String.eqb host "localhost" then None
             else if ip_IsLoopback host then None
             else Some (EWrap "%w: got %q" (ENew ErrInsecureCallback))
       end.
End Callback.

(** ** The client *)

Section Corporate.
Context {W : Type} `{World W} `{Signing W} `{NetLib}.

(** [Client]; the auth maker is the one of [CorpAuth]. *)
Record CorpClient := mkCorpClient {
  cc_c : Client W; cc_authMaker : CorpAuthMaker; cc_allowInsecureCallback : bool
}.

Definition Corporate_New (http : HTTPDoer W) (authMaker : option CorpAuthMaker) (opts : list (Client W → Client W))
    : result CorpClient :=
  match authMaker with
  | None => Err (ENew ErrEmptyAuthMaker)
  | Some m => Ok (mkCorpClient (Options.New http opts) m false)
  end.

Definition AllowInsecureCallback (allow : bool) (c : CorpClient) : CorpClient :=
  mkCorpClient (cc_c c) (cc_authMaker c) allow.

(** [do]: the error of the authorizer as it is, then the base client. *)
Definition do {A} (c : CorpClient) (ua : string) (req : Request) (a : Corp) (v : target W A) (statuses : list Z) (w : W)
    : result (output A) * W :=
  let '(e, req, w) := Corp_SetAuth a req w in
  match e with
  | Some e => (Err e, w)
  | None => Do (cc_c c) ua (Some req) v statuses w
  end.

Context (c : CorpClient) (ua : string).

(** A request, or the refusal before one exists, through [do]. *)
Definition via {A} (req : result Request) (a : Corp) (v : target W A) (w : W) : result (output A) * W :=
  match req with
  | Err e => (Err e, w)
  | Ok r => do c ua r a v [200] w
  end.

Context `{JSON TokenRequest, JSON RegistrationRequest, JSON RegistrationResponse, JSON RegistrationStatusRequest,
  JSON RegistrationStatusResponse, JSON Settings, JSON webhookRequest, JSON SignatureCreateRequest,
  JSON SignatureCreateResponse, JSON SignatureStatusResponse, JSON BankData.ClientInfo, JSON (list Transaction)}.

Let unscoped : Corp := CorpAuthMaker_New (cc_authMaker c) "".

(** auth.go *)
Definition Auth (callbackURL : string) (permissions : list string) (w : W) : result TokenRequest * W :=
  match validateCallbackURL callbackURL (cc_allowInsecureCallback c) with
  | Some e => (Err e, w)
  | None =>
      decoded json_zero (via (set_Header "X-Callback" callbackURL <$> NewRequest "POST" urlPathAuth None)
        (CorpAuthMaker_NewPermissions (cc_authMaker c) permissions) (TJSON json_Decode) w)
  end.

Definition CheckAuth (requestID : string) (w : W) : option error * W :=
  ack (via (NewRequest "GET" urlPathAuth None) (CorpAuthMaker_New (cc_authMaker c) requestID) (TNil (A := unit)) w).

(** registration.go *)
Definition Register (in_ : option RegistrationRequest) (w : W) : result RegistrationResponse * W :=
  match in_ with
  | None => (Err (ENew ErrNilRequest), w)
  | Some x =>
      if MaxRegistrationLogoBytes <? slen (RegistrationRequest_Logo x) then
        (Err (EWrap "%w: %d bytes (max %d)" (ENew ErrLogoTooLarge)), w)
      else decoded json_zero (via (NewJSONRequest "POST" "/personal/auth/registration" (json_Marshal x)) unscoped (TJSON json_Decode) w)
  end.

Definition RegistrationStatus (pubkeyPEM : string) (w : W) : result RegistrationStatusResponse * W :=
  decoded json_zero (via (NewJSONRequest "POST" "/personal/auth/registration/status"
    (json_Marshal (mkRegistrationStatusRequest pubkeyPEM))) unscoped (TJSON json_Decode) w).

(** settings.go *)
Definition GetSettings (w : W) : result Settings * W :=
  decoded json_zero (via (NewRequest "GET" "/personal/corp/settings" None) unscoped (TJSON json_Decode) w).

Definition Corporate_SetWebHook (uri : string) (w : W) : option error * W :=
  ack (via (NewJSONRequest "POST" "/personal/corp/webhook" (json_Marshal (mkWebhookRequest uri))) unscoped (TNil (A := unit)) w).

(** signature.go *)
Definition SignatureCreate (in_ : option SignatureCreateRequest) (w : W) : result SignatureCreateResponse * W :=
  match in_ with
  | None => (Err (ENew ErrNilRequest), w)
  | Some x => decoded json_zero (via (NewJSONRequest "POST" "/personal/signature/create" (json_Marshal x)) unscoped (TJSON json_Decode) w)
  end.

(** [RequestURI] of a path and a query that is not empty. *)
Definition Signature_uri (path requestID : string) : string :=
  path +:+ "?" +:+ Values_Encode (Values_Set "requestId" requestID []).

Definition SignatureStatus (requestID : string) (w : W) : result SignatureStatusResponse * W :=
  decoded json_zero (via (NewRequest "GET" (Signature_uri "/personal/signature/status" requestID) None) unscoped (TJSON json_Decode) w).

Definition SignatureCancel (requestID : string) (w : W) : option error * W :=
  ack (via (NewRequest "DELETE" (Signature_uri "/personal/signature/cancel" requestID) None) unscoped (TNil (A := unit)) w).

(** client_data.go, iter.go *)
Definition Corporate_ClientInfo (requestID : string) (w : W) : result BankData.ClientInfo * W :=
  decoded json_zero (via (NewRequest "GET" "/personal/client-info" None)
    (CorpAuthMaker_New (cc_authMaker c) requestID) (TJSON json_Decode) w).

Definition Corporate_Transactions (requestID accountID : string) (from to : Z) (w : W) : result (list Transaction) * W :=
  decoded json_zero (via (NewRequest "GET" (Transactions_uri accountID from to) None)
    (CorpAuthMaker_New (cc_authMaker c) requestID) (TJSON json_Decode) w).

Definition Corporate_TransactionsRange (fuel drain_fuel : nat) (requestID accountID : string) (from to : Z) (w : W)
    : option (result (list Transaction) * W) :=
  TransactionsRange fuel drain_fuel (Corporate_Transactions requestID accountID) from to w.

Definition Corporate_TransactionsRangeIter (fuel drain_fuel : nat) (requestID accountID : string)
    (yield : result Transaction → W → bool * W) (from to : Z) (w : W) : option W :=
  TransactionsRangeIter fuel drain_fuel ctx_Err (Corporate_Transactions requestID accountID) yield from to w.

End Corporate.
Arguments CorpClient W : clear implicits.

(** ** Lemmas *)

Lemma decoded_world {W A} (zero : A) (r : result (output A) * W) : (decoded zero r).2 = r.2.
Proof. by destruct r as [[[]|] w]. Qed.

Lemma ack_world {W A} (r : result (output A) * W) : (ack r).2 = r.2.
Proof. by destruct r as [[|] w]. Qed.

(** An authorizer of the base client that leaves the signature alone, as
    [auth.Public] does. *)
Definition keeps_signature {W} (c : Client W) : Prop :=
  ∀ a q w k, c_auth c = Some a → k ∈ auth_headers → Header_Get (rHeader (a q w).1.2) k = Header_Get (rHeader q) k.

(** Signed by [a], the actor it was made for named in its header, for the path
    of one of [uris]. *)
Definition signed_at `{Signing W} `{NetLib} (a : Corp) (uris : string → Prop) (q : Request) : Prop :=
  ∃ uri u, uris uri ∧ url_Parse uri = Some u ∧ signed a (Path u) q ∧
    (Corp_requestID a ≠ "" → Header_Get (rHeader q) "X-Request-Id" = Corp_requestID a) ∧
    (Corp_requestID a = "" → Corp_permissions a ≠ "" → Header_Get (rHeader q) "X-Permissions" = Corp_permissions a).

Lemma NewRequest_url `{NetLib} m uri b r : NewRequest m uri b = Ok r → url_Parse uri = Some (rURL r).
Proof. unfold NewRequest. destruct (url_Parse uri); [|done]. destruct b as [[|]|]; by intros [= <-]. Qed.

Lemma NewJSONRequest_url `{NetLib} m uri b r : NewJSONRequest m uri b = Ok r → url_Parse uri = Some (rURL r).
Proof. destruct b; [|done]. apply NewRequest_url. Qed.

Lemma auth_headers_other : ("Content-Type" ∉ auth_headers) ∧ ("User-Agent" ∉ auth_headers).
Proof. by apply (bool_decide_unpack _); vm_compute. Qed.

Section Signed.
Context {W : Type} `{World W} `{SigningLaws W} `{NetLib}.
Context (P : W → Prop) (c : CorpClient W) (ua : string) (a : Corp) (uris : string → Prop).
Hypothesis Hguard : ∀ A (v : target W A), (∀ f, v ≠ TWriter f) → Guarded P (signed_at a uris) (cc_c c) v.
Hypothesis Hsign : ∀ k d w, P w → P (SignASN1 k d w).2.
Hypothesis Hauth : ∀ a q w, c_auth (cc_c c) = Some a → P w → P (a q w).2.
Hypothesis Hkeep : keeps_signature (cc_c c).

Lemma SetAuth_world r w : P w → P (Corp_SetAuth a r w).2.
Proof.
  intros Hw. rewrite Corp_SetAuth_eq.
  pose proof (gd_now _ _ _ _ (Hguard unit TNil ltac:(done)) w Hw) as Hn. destruct (now w) as [t w1]. simpl in Hn.
  unfold sign, signString. pose proof (fun d => Hsign (privateKey (Corp_maker a)) d w1 Hn) as Hs.
  match goal with |- context [SignASN1 ?k ?d w1] => specialize (Hs d); destruct (SignASN1 k d w1) as [[s|e] w2] end; done.
Qed.

(** The base client leaves the five headers as the authorizer of the call wrote them. *)
Lemma Do_keeps_signature u q w q' k :
  buffer_body (match c_auth (cc_c c) with
               | Some f => f (default_headers (cc_c c) ua (set_URL u q)) w
               | None => (None, default_headers (cc_c c) ua (set_URL u q), w) end).1.2 = Ok q' →
  k ∈ auth_headers → Header_Get (rHeader q') k = Header_Get (rHeader q) k.
Proof.
  intros Hb Hk. apply buffer_body_frame in Hb as [_ ->].
  assert (Header_Get (rHeader (default_headers (cc_c c) ua (set_URL u q))) k = Header_Get (rHeader q) k) as Hd.
  { apply (default_headers_get (cc_c c) ua (set_URL u q) k); intros ->; by destruct auth_headers_other. }
  destruct (c_auth (cc_c c)) as [f|] eqn:Hf; [|exact Hd]. by rewrite (Hkeep f).
Qed.

Lemma do_signed {A} r uri (v : target W A) exp w :
  (∀ f, v ≠ TWriter f) → uris uri → url_Parse uri = Some (rURL r) → P w → P (do c ua r a v exp w).2.
Proof.
  intros Hv Hu Hp Hw. unfold do. pose proof (Corp_SetAuth_signed a r w) as Hs. pose proof (SetAuth_world r w Hw) as Hw1.
  destruct (Corp_SetAuth a r w) as [[[e|] q] w1]; [done|]. simpl in Hw1.
  destruct Hs as (_ & _ & _ & _ & _ & Hi & Hperm & Hq).
  apply (Do_guarded P (signed_at a uris) (cc_c c) ua q v exp w1 (Hguard A v Hv) Hw1 Hauth).
  intros u q' Hb. pose proof (fun k => Do_keeps_signature u q w1 q' k Hb) as Hk.
  exists uri, (rURL r). split; [done|]. split; [done|]. split; [by eapply signed_headers|].
  rewrite !Hk by (apply (bool_decide_unpack _); by vm_compute). done.
Qed.

Lemma via_signed {A} req uri (v : target W A) w :
  (∀ f, v ≠ TWriter f) → uris uri → (∀ r, req = Ok r → url_Parse uri = Some (rURL r)) → P w →
  P (via c ua req a v w).2.
Proof. intros Hv Hu Hp Hw. destruct req as [r|]; [|done]. by apply (do_signed r uri); [..|apply Hp|]. Qed.

End Signed.

(** ** A recorded network whose requests are signed, for examples *)
#[local] Instance corp_crypto : Crypto := {|
  PublicKey := Z; sha256 b := b; VerifyASN1 k d s := String.eqb s (Itoa k +:+ d);
  pem_Decode s := None; ParsePKIXPublicKey s := None; key_Curve k := P256 |}.
#[local] Instance corp_signing : Signing Net := {|
  SignASN1 k d w := (Ok (Itoa (PubX (Pub k)) +:+ d), w); ecdsa_PublicKey p := PubX p |}.
#[local] Instance corp_signing_laws : SigningLaws Net.
Proof. split. intros k d w sig. cbn. intros [= <-]. apply String.eqb_refl. Qed.

Definition corp_maker : CorpAuthMaker := mkMaker (mkPriv 5 (mkPub 7 1)) "key-1".
Definition corp_example : CorpClient Net := mkCorpClient
  (mkClient (OtherDoer net_send) (Some Public_SetAuth) (Some (mkURL "https" "api.monobank.ua" "" "")) (mkRetry 2 1 1)
     None "" false false None None None None) corp_maker false.

(** ** Properties *)

(** [Auth] sends a callback URL only when it parses to an absolute URL that
    is https or points at a loopback host, any other scheme needing
    [AllowInsecureCallback]; whatever else it is given is refused with one of
    the two documented errors before anything is signed or sent. *)
Theorem Auth_callback_guard {W} `{World W} `{Signing W} `{NetLib} `{JSON TokenRequest} (c : CorpClient W) ua callback perms (w : W) :
  let acceptable := callback ≠ "" ∧ ∃ u, url_Parse callback = Some u ∧ Scheme u ≠ "" ∧
    (Scheme u = "https" ∨ cc_allowInsecureCallback c = true ∨ url_Hostname u = "localhost" ∨
     ip_IsLoopback (url_Hostname u) = true) in
  (validateCallbackURL callback (cc_allowInsecureCallback c) = None ↔ acceptable) ∧
  (¬ acceptable → ∃ e, Auth c ua callback perms w = (Err e, w) ∧
     (errors_Is e ErrInvalidCallback = true ∨ errors_Is e ErrInsecureCallback = true)).
Proof.
  intros acceptable.
  assert (match validateCallbackURL callback (cc_allowInsecureCallback c) with
          | None => acceptable
          | Some e => ¬ acceptable ∧ (errors_Is e ErrInvalidCallback = true ∨ errors_Is e ErrInsecureCallback = true)
          end) as Hv.
  { unfold validateCallbackURL, acceptable. clear acceptable. destruct (String.eqb_spec callback "") as [He|He].
    { split; [by intros [? _]|by left]. }
    destruct (url_Parse callback) as [u|].
    2:{ split; [by intros (_ & ? & ? & _)|by left]. }
    destruct (String.eqb_spec (Scheme u) "") as [Hs|Hs].
    { split; [by intros (_ & ? & [= <-] & ? & _)|by left]. }
    destruct (String.eqb_spec (Scheme u) "https"); [split; [done|]; exists u; split; [done|]; split; [done|]; tauto|].
    destruct (cc_allowInsecureCallback c); [split; [done|]; exists u; split; [done|]; split; [done|]; tauto|].
    destruct (String.eqb_spec (url_Hostname u) "localhost"); [split; [done|]; exists u; split; [done|]; split; [done|]; tauto|].
    destruct (ip_IsLoopback (url_Hostname u)) eqn:Hl; [split; [done|]; exists u; split; [done|]; split; [done|]; tauto|].
    split; [|by right]. intros (_ & u' & [= <-] & _ & [?|[?|[?|?]]]); congruence. }
  unfold Auth. destruct (validateCallbackURL _ _) as [e|].
  - destruct Hv as [Hn He]. split; [split; [done|by intros]|]. intros _. by exists e.
  - split; [done|by intros].
Qed.
