(* ===== verification/InstMoney.v ===== *)
(** * Amounts of the installment API (installment/money.go)

    A count of kopecks, read from and written to decimals without going
    through [float64]; the conversions from and to floats. *)
From S2P Require Import Prelude GoString GoText Base64 GoFloat Errors.

Definition ErrInvalidMoney : string := "installment.ErrInvalidMoney".

Record Kopeck := mkKopeck { Kopecks : Z }.

#[global] Instance Kopeck_eq_dec : EqDecision Kopeck.
Proof. solve_decision. Defined.

Definition NewMoney (hryvnia kopecks : Z) : Kopeck := mkKopeck (wrap64 (wrap64 (hryvnia * 100) + kopecks)).
Definition MoneyFromKopecks (kopecks : Z) : Kopeck := mkKopeck kopecks.

Definition MoneyFromMajor `{GoArch} (major : float64) : Kopeck :=
  if IsNaN major || IsInf major then mkKopeck 0
  else
    let scaled := f_mul major (float64_of_Z 100) in
    if f_ge scaled (float64_of_Z max_int64) then mkKopeck max_int64
    else if f_le scaled (float64_of_Z min_int64) then mkKopeck min_int64
    else mkKopeck (round_half_away scaled).

Definition Kopeck_Major (m : Kopeck) : float64 := f_div (float64_of_Z (Kopecks m)) (float64_of_Z 100).

(** [%02d]. *)
Definition pad2 (z : Z) : string := let s := Itoa z in if slen s <? 2 then "0" +:+ s else s.

Definition Kopeck_String (m : Kopeck) : string :=
  let neg := Kopecks m <? 0 in
  let abs := if neg then wrap64 (- Kopecks m) else Kopecks m in
  (if neg then "-" else "") +:+ Itoa (Z.quot abs 100) +:+ "." +:+ pad2 (Z.rem abs 100).

Definition Kopeck_IsZero (m : Kopeck) : bool := Kopecks m =? 0.
Definition Kopeck_MarshalJSON (m : Kopeck) : string := Kopeck_String m.

(** [strconv.ParseInt(s, 10, 64)] with its error. *)
Definition parse_int (s : string) : result Z :=
  match ParseInt s with Some z => Ok z | None => Err (EText "strconv.ParseInt") end.

(** The hryvnias: nothing before the point is zero. *)
Definition parse_hr (hrPart : string) : result Z := parse_int (if String.eqb hrPart "" then "0" else hrPart).

(** The kopecks: padded or rounded to two digits. *)
Definition parse_kop (kopPart : string) : result Z :=
  if String.eqb kopPart "" then Ok 0
  else if slen kopPart =? 1 then parse_int (kopPart +:+ "0")
  else if 2 <? slen kopPart then
    if 53 <=? match String.get 2 kopPart with Some a => byte_of a | None => 0 end then
      k ← parse_int (str_take 2 kopPart); Ok (k + 1)
    else parse_int (str_take 2 kopPart)
  else parse_int kopPart.

(** After the sign. *)
Definition parse_unsigned_kopecks (neg : bool) (s : string) : result Z :=
  if String.eqb s "" then Err (EText "empty number")
  else
    let dot := IndexByte s "." in
    let '(hrPart, kopPart) :=
      if dot <? 0 then (s, "") else (str_take (Z.to_nat dot) s, str_drop (Z.to_nat dot + 1) s) in
    hr ← parse_hr hrPart; kop ← parse_kop kopPart;
    if hr <? 0 then Err (EText "hryvnia part must not have its own sign")
    else
      let total := wrap64 (wrap64 (hr * 100) + kop) in
      Ok (if neg then wrap64 (- total) else total).

(** [None]: the index [s[0]] of an empty string panics. *)
Definition parseDecimalKopecks (s : string) : option (result Z) :=
  match s with
  | "" => None
  | String "+" s' => Some (parse_unsigned_kopecks false s')
  | String "-" s' => Some (parse_unsigned_kopecks true s')
  | _ => Some (parse_unsigned_kopecks false s)
  end.

Definition quote_char : Ascii.ascii := Ascii.ascii_of_nat 34.

(** [s[1 : len(s)-1]] when it is quoted. *)
Definition unquote (s : string) : string :=
  match s with
  | String a s' =>
      if (2 <=? slen s) && Ascii.eqb a quote_char &&
         bool_decide (String.get (String.length s - 1) s = Some quote_char)
      then str_take (String.length s' - 1) s' else s
  | "" => ""
  end.

(** [None] is a panic. *)
Definition Kopeck_UnmarshalJSON (data : string) : option (result Kopeck) :=
  let s := TrimSpace data in
  if String.eqb s "null" || String.eqb s "" then Some (Ok (mkKopeck 0))
  else
    let s := unquote s in
    if String.eqb s "" then Some (Ok (mkKopeck 0))
    else match parseDecimalKopecks s with
         | None => None
         | Some (Err e) => Some (Err (EWrap "%w: %q: %v" (ENew ErrInvalidMoney)))
         | Some (Ok k) => Some (Ok (mkKopeck k))
         end.

(** ** Lemmas *)

(** The printable ASCII characters: none begins a white space. *)
Definition plain (s : string) : Prop := Forall (λ a, 33 <= byte_of a < 128) (String.list_ascii_of_string s).

Lemma plain_cons a s : plain (String a s) ↔ 33 <= byte_of a < 128 ∧ plain s.
Proof. unfold plain. cbn. by rewrite Forall_cons. Qed.

Lemma plain_app s t : plain (s +:+ t) ↔ plain s ∧ plain t.
Proof.
  induction s as [|a s IH]; [rewrite str_app_nil; unfold plain at 2; cbn; rewrite Forall_nil; tauto|].
  rewrite str_app_cons, !plain_cons, IH. tauto.
Qed.

Lemma plain_trim_left s : plain s → trim_left s = s.
Proof.
  destruct s as [|a s]; [done|]. intros [Ha _]%plain_cons. cbn [trim_left].
  assert (space1 a = false ∧ (∀ b, space2 a b = false) ∧ (∀ b c, space3 a b c = false)) as (-> & H2 & H3).
  { unfold space1, space2, space3. repeat split; intros; lia. }
  destruct s as [|b s]; [done|]. rewrite H2. destruct s as [|c s]; [done|]. by rewrite H3.
Qed.

Lemma plain_TrimSpace s : plain s → TrimSpace s = s.
Proof.
  intros Hs. unfold TrimSpace. rewrite plain_trim_left by done.
  induction s as [|a s IH]; [done|]. cbn [trim_right]. rewrite plain_trim_left by done.
  apply plain_cons in Hs as [_ Hs]. by rewrite IH.
Qed.

Lemma digits_plain s : all_digits s = true → plain s.
Proof.
  induction s as [|a s IH]; [constructor|]. cbn. intros [Ha Hs]%andb_true_iff. apply plain_cons.
  split; [unfold is_digit in Ha; lia|auto].
Qed.

Lemma IndexByte_from_digits n i t : all_digits i = true →
  IndexByte_from n (i +:+ String "." t) "." = n + slen i.
Proof.
  revert n. induction i as [|a i IH]; intros n Hi.
  - change (n = n + 0). lia.
  - cbn in Hi. apply andb_true_iff in Hi as [Ha Hi]. rewrite str_app_cons. cbn [IndexByte_from].
    destruct (Ascii.eqb_spec a ".") as [->|_]; [done|]. rewrite IH by done. unfold slen. cbn [String.length]. lia.
Qed.

Lemma IndexByte_digits i t : all_digits i = true → IndexByte (i +:+ String "." t) "." = slen i.
Proof. intros. unfold IndexByte. by rewrite IndexByte_from_digits. Qed.

Lemma IndexByte_none n i : all_digits i = true → IndexByte_from n i "." = -1.
Proof.
  revert n. induction i as [|a i IH]; intros n Hi; [done|].
  cbn in Hi. apply andb_true_iff in Hi as [Ha Hi]. cbn [IndexByte_from].
  destruct (Ascii.eqb_spec a ".") as [->|_]; [done|]. by apply IH.
Qed.

(** The fraction of a decimal in kopecks, rounded half away from zero at the
    third digit. *)
Definition frac2 (f : string) : Z :=
  match f with
  | "" => 0
  | String a "" => 10 * digit_val a
  | String a (String b "") => 10 * digit_val a + digit_val b
  | String a (String b (String c _)) => 10 * digit_val a + digit_val b + if 5 <=? digit_val c then 1 else 0
  end.

Lemma frac2_bounds f : all_digits f = true → 0 <= frac2 f <= 100.
Proof.
  destruct f as [|a [|b [|c f]]]; cbn; intros Hf; try lia;
    repeat (apply andb_true_iff in Hf as [?%digit_val_bounds Hf]); repeat case_match; lia.
Qed.

Lemma parse_int_digits s n : s ≠ "" → parse_digits 0 s = Some n → in64 n → parse_int s = Ok n.
Proof. intros. unfold parse_int. by rewrite (ParseInt_digits s n). Qed.

Lemma parse_kop_digits f : all_digits f = true → parse_kop f = Ok (frac2 f).
Proof.
  assert (∀ a b, is_digit a = true → is_digit b = true →
            parse_int (String a (String b "")) = Ok (10 * digit_val a + digit_val b)) as H2.
  { intros a b Ha Hb. apply parse_int_digits; [done| |].
    - cbn. rewrite Ha, Hb. f_equal. lia.
    - pose proof (digit_val_bounds a Ha). pose proof (digit_val_bounds b Hb). lia64. }
  destruct f as [|a [|b [|c f]]]; cbn [all_digits]; intros Hf; [done| | |].
  - apply andb_true_iff in Hf as [Ha _]. change (parse_kop (String a "")) with (parse_int (String a (String "0" ""))).
    rewrite H2 by done. change (digit_val "0") with 0. f_equal.
    change (frac2 (String a "")) with (10 * digit_val a). lia.
  - apply andb_true_iff in Hf as [Ha [Hb _]%andb_true_iff]. 
    change (parse_kop (String a (String b ""))) with (parse_int (String a (String b ""))). by rewrite H2.
  - apply andb_true_iff in Hf as [Ha [Hb [Hc _]%andb_true_iff]%andb_true_iff].
    unfold parse_kop. change (String.eqb (String a (String b (String c f))) "") with false.
    assert (slen (String a (String b (String c f))) = slen f + 3) as -> by (unfold slen; cbn [String.length]; lia).
    pose proof (slen_nonneg f). rewrite (proj2 (Z.eqb_neq _ _)), (proj2 (Z.ltb_lt _ _)) by lia.
    cbn [str_take String.get]. rewrite H2 by done. unfold frac2.
    replace (53 <=? byte_of c) with (5 <=? digit_val c) by (unfold digit_val; lia).
    destruct (5 <=? digit_val c); cbn; [done|]. f_equal. lia.
Qed.

(** What [parse_unsigned_kopecks] makes of an integer part and a fraction, both
    digits, either possibly empty. *)
Lemma parse_unsigned_digits neg i f n :
  all_digits i = true → parse_digits 0 i = Some n → in64 n → all_digits f = true →
  let total := wrap64 (wrap64 (n * 100) + frac2 f) in
  let v := if neg : bool then wrap64 (- total) else total in
  parse_unsigned_kopecks neg (i +:+ String "." f) = Ok v ∧
  (i ≠ "" → frac2 f = 0 → parse_unsigned_kopecks neg i = Ok v).
Proof.
  intros Hi Hn Hin Hf total v.
  assert (parse_hr i = Ok n) as Hr.
  { unfold parse_hr. destruct (String.eqb_spec i "") as [->|].
    - cbn in Hn. simplify_eq. done.
    - by apply parse_int_digits. }
  assert (0 <= n) as Hn0 by (by eapply parse_digits_ge in Hn).
  pose proof (slen_nonneg i) as Hl. split.
  - unfold parse_unsigned_kopecks. rewrite IndexByte_digits by done.
    assert (String.eqb (i +:+ String "." f) "" = false) as -> by (destruct i; done).
    rewrite (proj2 (Z.ltb_ge _ _)) by lia.
    replace (Z.to_nat (slen i)) with (String.length i) by (unfold slen; lia).
    rewrite str_take_app, Nat.add_1_r, str_drop_app_S, Hr, (parse_kop_digits f Hf).
    cbn [mbind result_bind]. by rewrite (proj2 (Z.ltb_ge _ _)).
  - intros Hne H0. unfold parse_unsigned_kopecks. rewrite (proj2 (String.eqb_neq i "") Hne).
    unfold IndexByte. rewrite IndexByte_none by done. cbn [Z.ltb Z.compare].
    change (-1 <? 0) with true. cbv iota. rewrite Hr. change (parse_kop "") with (Ok 0).
    cbn [mbind result_bind]. rewrite (proj2 (Z.ltb_ge _ _)) by done. unfold v, total. by rewrite H0.
Qed.

(** Hryvnias past the 64-bit range are an error of the parser. *)
Lemma parse_unsigned_too_big neg i t n :
  all_digits i = true → parse_digits 0 i = Some n → ¬ in64 n → t = "" ∨ (∃ f, t = String "." f) →
  ∃ e, parse_unsigned_kopecks neg (i +:+ t) = Err e.
Proof.
  intros Hi Hn Hout Ht. assert (i ≠ "") as Hne by (intros ->; cbn in Hn; simplify_eq; by apply Hout).
  assert (parse_hr i = Err (EText "strconv.ParseInt")) as Hr.
  { unfold parse_hr, parse_int. rewrite (proj2 (String.eqb_neq i "") Hne).
    by rewrite (ParseInt_range i n), bool_decide_false. }
  pose proof (slen_nonneg i) as Hl. exists (EText "strconv.ParseInt"). unfold parse_unsigned_kopecks.
  assert (String.eqb (i +:+ t) "" = false) as -> by (destruct i; done). destruct Ht as [->|[f ->]].
  - rewrite str_app_nil_r. unfold IndexByte. rewrite IndexByte_none by done. cbn [Z.ltb Z.compare].
    change (-1 <? 0) with true. cbv iota. by rewrite Hr.
  - rewrite IndexByte_digits by done. rewrite (proj2 (Z.ltb_ge _ _)) by lia.
    replace (Z.to_nat (slen i)) with (String.length i) by (unfold slen; lia).
    rewrite str_take_app. by rewrite Hr.
Qed.

(** The sign of a decimal. *)
Inductive sign_of : string → bool → Prop :=
| sign_none : sign_of "" false
| sign_plus : sign_of "+" false
| sign_minus : sign_of "-" true.

(** Not starting with a sign. *)
Definition unsigned (s : string) : Prop :=
  match s with "" => False | String a _ => a ≠ "+"%char ∧ a ≠ "-"%char end.

Lemma parse_signed sg neg s : sign_of sg neg → unsigned s →
  parseDecimalKopecks (sg +:+ s) = Some (parse_unsigned_kopecks neg s).
Proof.
  intros Hsg Hs. destruct s as [|a s]; [done|]. destruct Hs as [Hp Hm]. destruct Hsg; [|done|done].
  rewrite str_app_nil. destruct a as [[] [] [] [] [] [] [] []]; first [done|by destruct Hp|by destruct Hm].
Qed.

Lemma unsigned_digits i t : all_digits i = true → i ≠ "" → unsigned (i +:+ t).
Proof. destruct i as [|a i]; [done|]. intros Hi _. rewrite str_app_cons. apply (digit_not_sign a). by eapply all_digits_cons. Qed.

(** A plain text that is neither null nor quoted reaches the parser. *)
Lemma Unmarshal_plain s :
  plain s → s ≠ "" → s ≠ "null" → (∀ a t, s = String a t → a ≠ quote_char) →
  Kopeck_UnmarshalJSON s =
  match parseDecimalKopecks s with
  | None => None
  | Some (Err e) => Some (Err (EWrap "%w: %q: %v" (ENew ErrInvalidMoney)))
  | Some (Ok k) => Some (Ok (mkKopeck k))
  end.
Proof.
  intros Hp He Hn Hq. unfold Kopeck_UnmarshalJSON. rewrite plain_TrimSpace by done.
  rewrite (proj2 (String.eqb_neq s "null") Hn), (proj2 (String.eqb_neq s "") He). cbn [orb].
  assert (unquote s = s) as ->.
  { destruct s as [|a s]; [done|]. unfold unquote.
    destruct (Ascii.eqb_spec a quote_char) as [->|_]; [by destruct (Hq quote_char s)|]. by rewrite andb_false_r. }
  by rewrite (proj2 (String.eqb_neq s "") He).
Qed.

(** The shape of a signed decimal. *)
Lemma decimal_shape sg neg s : sign_of sg neg → plain s → unsigned s → 
  (∃ a t, s = String a t ∧ (is_digit a = true ∨ a = "."%char)) →
  plain (sg +:+ s) ∧ sg +:+ s ≠ "" ∧ sg +:+ s ≠ "null" ∧ (∀ a t, sg +:+ s = String a t → a ≠ quote_char).
Proof.
  intros Hsg Hp _ (a & t & -> & Ha).
  assert (plain sg) as Hps by (unfold plain; destruct Hsg; by apply (bool_decide_unpack _); vm_compute).
  assert (a ≠ quote_char ∧ a ≠ "n"%char) as [Hq Hn] by (destruct Ha as [Ha| ->]; [split; intros ->; done|done]).
  split; [by apply plain_app|].
  assert ("+"%char ≠ quote_char ∧ "-"%char ≠ quote_char) as [Hq1 Hq2] by (by split).
  destruct Hsg; rewrite ?str_app_cons, str_app_nil; repeat split; try (by intros a' t' [= <- _]);
    intros He; by simplify_eq.
Qed.

Lemma decimal_reads sg neg i f n :
  sign_of sg neg → all_digits i = true → parse_digits 0 i = Some n → in64 n → all_digits f = true →
  let k := n * 100 + frac2 f in
  let v := wrap64 (if neg then - k else k) in
  Kopeck_UnmarshalJSON (sg +:+ i +:+ String "." f) = Some (Ok (mkKopeck v)) ∧
  (i ≠ "" → f = "" → Kopeck_UnmarshalJSON (sg +:+ i) = Some (Ok (mkKopeck v))) ∧
  (in64 k → v = if neg then - k else k).
Proof.
  intros Hsg Hi Hn Hin Hf k v. destruct (parse_unsigned_digits neg i f n Hi Hn Hin Hf) as [Hpt Hint].
  assert ((if neg then wrap64 (- wrap64 (wrap64 (n * 100) + frac2 f)) else wrap64 (wrap64 (n * 100) + frac2 f)) = v) as Hv.
  { unfold v, k. rewrite wrap64_wrap_l. destruct neg; [|done].
    destruct (wrap64_eq (n * 100 + frac2 f)) as [j ->].
    replace (- (n * 100 + frac2 f + j * two64)) with (- (n * 100 + frac2 f) + (- j) * two64) by lia.
    apply wrap64_cong. }
  rewrite Hv in Hpt, Hint.
  assert (plain i ∧ plain (String "." f)) as [Hpi Hpf].
  { split; [by apply digits_plain|]. apply plain_cons. split; [by vm_compute|by apply digits_plain]. }
  split; [|split].
  - assert (unsigned (i +:+ String "." f) ∧ ∃ a t, i +:+ String "." f = String a t ∧ (is_digit a = true ∨ a = "."%char)) as [Hu Hh].
    { destruct i as [|a i]; [split; [done|by exists "."%char, f; auto]|].
      split; [by apply unsigned_digits|]. exists a, (i +:+ String "." f). split; [done|]. left. by eapply all_digits_cons. }
    destruct (decimal_shape sg neg _ Hsg (proj2 (plain_app _ _) (conj Hpi Hpf)) Hu Hh) as (H1 & H2 & H3 & H4).
    by rewrite (Unmarshal_plain _ H1 H2 H3 H4), (parse_signed sg neg _ Hsg Hu), Hpt.
  - intros Hne ->. destruct i as [|a i]; [done|].
    pose proof (unsigned_digits (String a i) "" Hi Hne) as Hu. rewrite str_app_nil_r in Hu.
    destruct (decimal_shape sg neg _ Hsg Hpi Hu) as (H1 & H2 & H3 & H4).
    { exists a, i. split; [done|]. left. by eapply all_digits_cons. }
    by rewrite (Unmarshal_plain _ H1 H2 H3 H4), (parse_signed sg neg _ Hsg Hu), Hint.
  - unfold v. intros Hk. destruct neg; [|by apply wrap64_id].
    apply wrap64_id. pose proof (frac2_bounds f Hf). assert (0 <= n) by (by eapply parse_digits_ge in Hn).
    unfold k in *. lia64.
Qed.

Lemma decimal_refused sg neg i t n :
  sign_of sg neg → all_digits i = true → parse_digits 0 i = Some n → ¬ in64 n →
  t = "" ∨ (∃ f, t = String "." f ∧ all_digits f = true) →
  Kopeck_UnmarshalJSON (sg +:+ i +:+ t) = Some (Err (EWrap "%w: %q: %v" (ENew ErrInvalidMoney))).
Proof.
  intros Hsg Hi Hn Hout Ht. assert (i ≠ "") as Hne by (intros ->; cbn in Hn; simplify_eq; by apply Hout).
  pose proof (unsigned_digits i t Hi Hne) as Hu.
  assert (plain (i +:+ t)) as Hp.
  { apply plain_app. split; [by apply digits_plain|]. destruct Ht as [->|(f & -> & Hf)]; [by apply (digits_plain "")|].
    apply plain_cons. split; [by vm_compute|by apply digits_plain]. }
  destruct (decimal_shape sg neg _ Hsg Hp Hu) as (H1 & H2 & H3 & H4).
  { destruct i as [|a i]; [done|]. exists a, (i +:+ t). split; [done|]. left. by eapply all_digits_cons. }
  destruct (parse_unsigned_too_big neg i t n Hi Hn Hout) as [e He]; [naive_solver|].
  by rewrite (Unmarshal_plain _ H1 H2 H3 H4), (parse_signed sg neg _ Hsg Hu), He.
Qed.

Lemma pad2_digits z : 0 <= z < 100 → all_digits (pad2 z) = true ∧ frac2 (pad2 z) = z.
Proof.
  intros Hz. assert (z ∈ seqZ 0 100) as Hin by (apply elem_of_seqZ; lia). clear Hz.
  revert z Hin. apply Forall_forall. by apply (bool_decide_unpack _); vm_compute.
Qed.

Lemma Kopeck_String_eq m : min_int64 < Kopecks m <= max_int64 →
  Kopeck_String m = (if Kopecks m <? 0 then "-" else "") +:+ Itoa (Z.abs (Kopecks m) / 100) +:+
                    String "." (pad2 (Z.abs (Kopecks m) mod 100)).
Proof.
  intros Hm. unfold Kopeck_String. cbv zeta.
  assert ((if Kopecks m <? 0 then wrap64 (- Kopecks m) else Kopecks m) = Z.abs (Kopecks m)) as ->.
  { destruct (Z.ltb_spec (Kopecks m) 0); [rewrite wrap64_id by lia64; lia|lia]. }
  by rewrite Z.quot_div_nonneg, Z.rem_mod_nonneg by lia.
Qed.

(** ** Properties *)

(** C36: [UnmarshalJSON] reads a signed decimal, with or without a point, as its
    exact number of kopecks, rounded half away from zero at the third decimal,
    without going through a float, whenever the kopecks fit an [int64]. When
    only the integer part fits an [int64], the kopecks are taken modulo [2^64]
    (no error); when it does not, the text is refused with [ErrInvalidMoney]. *)
Theorem installment_money_reads sg neg i f n :
  sign_of sg neg → all_digits i = true → parse_digits 0 i = Some n → all_digits f = true →
  let k := n * 100 + frac2 f in
  let v := wrap64 (if neg then - k else k) in
  let refused := Err (EWrap "%w: %q: %v" (ENew ErrInvalidMoney)) in
  let answer := if bool_decide (in64 n) then Ok (mkKopeck v) else refused in
  Kopeck_UnmarshalJSON (sg +:+ i +:+ String "." f) = Some answer ∧
  (i ≠ "" → f = "" → Kopeck_UnmarshalJSON (sg +:+ i) = Some answer) ∧
  (in64 k → answer = Ok (mkKopeck (if neg then - k else k))).
Proof.
  intros Hsg Hi Hn Hf k v refused answer. unfold answer. case_bool_decide as Hin.
  - destruct (decimal_reads sg neg i f n Hsg Hi Hn Hin Hf) as (H1 & H2 & H3).
    split_and!; [done|done|]. intros Hk. do 2 f_equal. by apply H3.
  - split_and!.
    + eapply decimal_refused; try done. right. by exists f.
    + intros _ _. rewrite <- (str_app_nil_r i). eapply decimal_refused; try done. by left.
    + intros Hk. destruct Hin. pose proof (frac2_bounds f Hf).
      assert (0 <= n) by (by eapply parse_digits_ge in Hn). unfold k in *. lia64.
Qed.

Lemma installment_money_reads_witness :
  Kopeck_UnmarshalJSON "-2499.995" = Some (Ok (mkKopeck (-250000))) ∧
  Kopeck_UnmarshalJSON "-2499.995" = Some (Ok (mkKopeck (wrap64 (- (2499 * 100 + frac2 "995"))))) ∧
  Kopeck_UnmarshalJSON "99999999999999999999" = Some (Err (EWrap "%w: %q: %v" (ENew ErrInvalidMoney))).
Proof.
  split; [by vm_compute|].
  split; [exact (proj1 (installment_money_reads "-" true "2499" "995" 2499 sign_minus eq_refl eq_refl eq_refl))|].
  exact (proj1 (proj2 (installment_money_reads "" false "99999999999999999999" "" 99999999999999999999
                         sign_none eq_refl eq_refl eq_refl)) ltac:(done) eq_refl).
Defined.

(** What [MarshalJSON] writes, [UnmarshalJSON] reads back, for every amount
    but the smallest [int64]; for that one the text is not even a number (the
    negation wraps) and is refused when read. *)
Theorem installment_money_roundtrip m :
  (min_int64 < Kopecks m <= max_int64 → Kopeck_UnmarshalJSON (Kopeck_MarshalJSON m) = Some (Ok m)) ∧
  Kopeck_MarshalJSON (mkKopeck min_int64) = "--92233720368547758.-8" ∧
  Kopeck_UnmarshalJSON "--92233720368547758.-8" = Some (Err (EWrap "%w: %q: %v" (ENew ErrInvalidMoney))).
Proof.
  split; [|by vm_compute]. intros Hm. unfold Kopeck_MarshalJSON. rewrite Kopeck_String_eq by done.
  set (a := Z.abs (Kopecks m)). assert (0 <= a <= max_int64) as Ha by (unfold a; lia64). 
  zdiv a 100. assert (0 <= a / 100) as Hd by (apply Z.div_pos; lia).
  destruct (pad2_digits (a mod 100) ltac:(lia)) as [Hf Hv].
  assert (sign_of (if Kopecks m <? 0 then "-" else "") (Kopecks m <? 0)) as Hsg by (case_match; constructor).
  destruct (decimal_reads _ _ (Itoa (a / 100)) (pad2 (a mod 100)) (a / 100) Hsg (all_digits_Itoa _ Hd) (parse_Itoa _ Hd)
              ltac:(lia64) Hf) as (He & _ & Hk).
  rewrite He, Hk by (rewrite Hv; lia64). rewrite Hv. destruct m as [m]. cbn in *. do 3 f_equal.
  unfold a in *. destruct (Z.ltb_spec m 0); lia.
Qed.

Lemma installment_money_roundtrip_witness :
  (min_int64 < -5 <= max_int64) ∧ Kopeck_UnmarshalJSON (Kopeck_MarshalJSON (mkKopeck (-5))) = Some (Ok (mkKopeck (-5))).
Proof.
  assert (min_int64 < -5 <= max_int64) as H by lia64. split; [exact H|].
  exact (proj1 (installment_money_roundtrip (mkKopeck (-5))) H).
Defined.

(** What [UnmarshalJSON] accepts beyond decimals: a sign inside the kopecks
    (subtracted from the hryvnias), anything after the second decimal, a lone
    point, and amounts out of range, wrapped without an error. *)
Theorem installment_money_lax :
  parseDecimalKopecks "1.-5" = Some (Ok 95) ∧ parseDecimalKopecks "1.99abc" = Some (Ok 200) ∧
  parseDecimalKopecks "." = Some (Ok 0) ∧
  parseDecimalKopecks "92233720368547758.08" = Some (Ok min_int64) ∧
  parseDecimalKopecks "184467440737095517" = Some (Ok 84).
Proof. by vm_compute. Qed.

(** [MoneyFromMajor] saturates on what is out of range, except the
    infinities, which become zero like NaN. *)
Theorem MoneyFromMajor_saturates `{GoArch} :
  MoneyFromMajor (float64_of_Z (10 ^ 17)) = mkKopeck max_int64 ∧
  MoneyFromMajor (float64_of_Z (- 10 ^ 17)) = mkKopeck min_int64 ∧
  (∀ s, MoneyFromMajor (S754_infinity s) = mkKopeck 0) ∧ MoneyFromMajor S754_nan = mkKopeck 0.
Proof. split; [by vm_compute|]. split; [by vm_compute|]. by split. Qed.
