(* ===== verification/InstTypes.v ===== *)
(** * Data of the installment API (installment/types.go)

    The records of the requests and answers, the states of an order, and what a
    client record shows in a log. *)
From S2P Require Import Prelude GoString GoText GoFloat InstMoney BankData.

(** ** States *)

Definition StateSuccess : string := "SUCCESS".
Definition StateFail : string := "FAIL".
Definition StateInProcess : string := "IN_PROCESS".

Definition OrderState_IsTerminal (s : string) : bool := String.eqb s StateSuccess || String.eqb s StateFail.
Definition OrderState_IsSuccess (s : string) : bool := String.eqb s StateSuccess.

(** The sub-states of each branch. *)
Definition success_sub_states : list string := ["ACTIVE"; "DONE"; "RETURNED"].
Definition in_process_sub_states : list string := ["WAITING_FOR_CLIENT"; "WAITING_FOR_STORE_CONFIRM"].
Definition fail_sub_states : list string :=
  ["CLIENT_NOT_FOUND"; "EXCEEDED_SUM_LIMIT"; "PAY_PARTS_ARE_NOT_ACCEPTABLE"; "EXISTS_OTHER_OPEN_ORDER";
   "NOT_ENOUGH_MONEY_FOR_INIT_DEBIT"; "CLIENT_PUSH_TIMEOUT"; "FRAUD_REJECTED"; "REJECTED_BY_CLIENT";
   "REJECTED_BY_STORE"; "FAIL"; "RESTRICTED_BY_RISKS"].
Definition invoice_sources : list string := ["INTERNET"; "STORE"; "CHECKOUT"; "MARKETPLACE"].

(** ** Records *)

Record CreateOrderInvoice := mkCreateOrderInvoice { CreateOrderInvoice_Number : string;
  CreateOrderInvoice_Date : string; CreateOrderInvoice_Source : string; CreateOrderInvoice_PointID :
  string }.

Record Program := mkProgram { Program_Type : string; Program_AvailablePartsCount : list Z }.

Record Product := mkProduct { Product_Name : string; Product_Count : Z; Product_Sum : Kopeck }.

Record CreateAdditionalParams := mkCreateAdditionalParams { CreateAdditionalParams_SellerPhone : string;
  CreateAdditionalParams_NDS : option Kopeck; CreateAdditionalParams_ExtInitialSum : option Kopeck }.

Record FinancialCompanyMerchantInfo := mkFinancialCompanyMerchantInfo {
  FinancialCompanyMerchantInfo_StoreName : string; FinancialCompanyMerchantInfo_EDRPOUCode : string;
  FinancialCompanyMerchantInfo_IBANAccount : string }.

Record CreateOrderRequest := mkCreateOrderRequest { CreateOrderRequest_StoreOrderID : string;
  CreateOrderRequest_ClientPhone : string; CreateOrderRequest_TotalSum : Kopeck;
  CreateOrderRequest_Invoice : CreateOrderInvoice; CreateOrderRequest_AvailablePrograms : list Program;
  CreateOrderRequest_Products : list Product; CreateOrderRequest_ResultCallback : string;
  CreateOrderRequest_AdditionalParams : option CreateAdditionalParams;
  CreateOrderRequest_FinancialCompanyMerchantInfo : option FinancialCompanyMerchantInfo }.

Record CreateQRCartRequest := mkCreateQRCartRequest { CreateQRCartRequest_QRID : string;
  CreateQRCartRequest_StoreOrderID : string; CreateQRCartRequest_Products : list Product;
  CreateQRCartRequest_ResultCallback : string }.

Record CancelQRCartRequest := mkCancelQRCartRequest { CancelQRCartRequest_QRID : string }.

Record CreateOrderResponse := mkCreateOrderResponse { CreateOrderResponse_OrderID : string }.

Record RequestWithOrderIdentifier := mkRequestWithOrderIdentifier { RequestWithOrderIdentifier_OrderID :
  string }.

Record OrderStateInfo := mkOrderStateInfo { OrderStateInfo_OrderID : string; OrderStateInfo_State :
  string; OrderStateInfo_OrderSubState : string; OrderStateInfo_Message : string }.

Record Reverse := mkReverse { Reverse_Sum : Kopeck; Reverse_Timestamp : string }.

Record OrderShortInfo := mkOrderShortInfo { OrderShortInfo_TotalSum : Kopeck; OrderShortInfo_Source :
  string; OrderShortInfo_InvoiceNumber : string; OrderShortInfo_InvoiceDate : string;
  OrderShortInfo_PointID : string; OrderShortInfo_StoreOrderID : string; OrderShortInfo_CreateTimestamp
  : string; OrderShortInfo_ReverseList : list Reverse; OrderShortInfo_MaskedCard : string;
  OrderShortInfo_IBAN : string }.

Record CheckInstallmentsResponse := mkCheckInstallmentsResponse { CheckInstallmentsResponse_FullyPaid :
  bool; CheckInstallmentsResponse_BankCanReturnMoneyToCard : bool }.

Record ReturnAdditionalParams := mkReturnAdditionalParams { ReturnAdditionalParams_NDS : option Kopeck
  }.

Record ReturnRequest := mkReturnRequest { ReturnRequest_OrderID : string; ReturnRequest_Sum : Kopeck;
  ReturnRequest_StoreReturnID : string; ReturnRequest_ReturnMoneyToCard : bool;
  ReturnRequest_AdditionalParams : option ReturnAdditionalParams }.

Record ReturnResponse := mkReturnResponse { ReturnResponse_Status : string }.

Record ValidateClientRequest := mkValidateClientRequest { ValidateClientRequest_Phone : string }.

Record ClientInfo := mkClientInfo { ClientInfo_FirstName : string; ClientInfo_LastName : string;
  ClientInfo_MiddleName : string; ClientInfo_INN : string }.

Record ValidateClientResponse := mkValidateClientResponse { ValidateClientResponse_Found : bool;
  ValidateClientResponse_Client : option ClientInfo }.

Record ValidateClientSimpleResponse := mkValidateClientSimpleResponse {
  ValidateClientSimpleResponse_Found : bool }.

Record DailyReportRequest := mkDailyReportRequest { DailyReportRequest_Date : string }.

Record ReportOrder := mkReportOrder { ReportOrder_OrderID : string; ReportOrder_InvoiceNumber : string;
  ReportOrder_OrderDate : string; ReportOrder_PayParts : Z; ReportOrder_CommissionPercent : float64;
  ReportOrder_TotalSum : Kopeck; ReportOrder_TransferredSum : Kopeck; ReportOrder_Commission :
  Kopeck; ReportOrder_OperationTimestamp : string; ReportOrder_ODBContractNumber : string }.

Record DailyReportResponse := mkDailyReportResponse { DailyReportResponse_Orders : list ReportOrder }.

Record OrderDataRequestInvoice := mkOrderDataRequestInvoice { OrderDataRequestInvoice_Number : string;
  OrderDataRequestInvoice_Date : string }.

Record OrderDataRequest := mkOrderDataRequest { OrderDataRequest_OrderID : string;
  OrderDataRequest_Invoice : option OrderDataRequestInvoice }.

Record Header := mkHeader { Header_RequestID : string; Header_AnswerDatetime : string;
  Header_FromOrganization : string; Header_OrganizationID : string; Header_ContractNumber : string;
  Header_ContractDate : string }.

Record PassportOrResidencePermitDocument := mkPassportOrResidencePermitDocument {
  PassportOrResidencePermitDocument_Number : string; PassportOrResidencePermitDocument_Issued : string;
  PassportOrResidencePermitDocument_DateOfIssue : string; PassportOrResidencePermitDocument_Series :
  string }.

Record IDCardDocument := mkIDCardDocument { IDCardDocument_Number : string; IDCardDocument_Issued :
  string; IDCardDocument_DateOfIssue : string; IDCardDocument_ValidUntil : string;
  IDCardDocument_RegistryNumber : string }.

Record InternationalPassport := mkInternationalPassport { InternationalPassport_Number : string;
  InternationalPassport_DateOfIssue : string; InternationalPassport_Series : string;
  InternationalPassport_ValidUntil : string }.

Record ClientDocuments := mkClientDocuments { ClientDocuments_Passport : option
  PassportOrResidencePermitDocument; ClientDocuments_IDCard : option IDCardDocument;
  ClientDocuments_ResidencePermit : option PassportOrResidencePermitDocument;
  ClientDocuments_InternationalPassport : option InternationalPassport }.

Record Customer := mkCustomer { Customer_FirstName : string; Customer_LastName : string;
  Customer_MiddleName : string; Customer_INN : string; Customer_Document : option ClientDocuments }.

Record Invoice := mkInvoice { Invoice_InvoiceNumber : string; Invoice_InvoiceDate : string;
  Invoice_InvoiceAmount : Kopeck }.

Record Payment := mkPayment { Payment_DestID : string; Payment_DestName : string; Payment_DestMFO :
  string; Payment_DestBankName : string; Payment_DestAccNo : string }.

Record Bank := mkBank { Bank_Agreement : string; Bank_AgreementDate : string; Bank_CreditAmount :
  Kopeck; Bank_CustomerPayAmount : Kopeck; Bank_ProductTypes : string; Bank_BankID : string;
  Bank_BankName : string; Bank_BankExecutive : string; Bank_AvailablePartsCount : Z;
  Bank_CreditProduct : string }.

Record Expansion := mkExpansion { Expansion_Customer : option Customer; Expansion_Invoice : option
  Invoice; Expansion_PaymentDestination : option Payment; Expansion_Bank : option Bank; Expansion_Sign
  : string; Expansion_Stamp : string }.

Record OrderData := mkOrderData { OrderData_Header : Header; OrderData_Expansion : Expansion }.

(** ** Logging *)

Definition maskNameInitial (s : string) : string :=
  match runes s with
  | [] => ""
  | [_] => "*"
  | r :: _ => rune_string r +:+ "***"
  end.

Definition maskINN (inn : string) : string :=
  if slen inn <=? 4 then "***" else "***" +:+ str_drop (String.length inn - 4) inn.

Definition ClientInfo_LogValue (c : ClientInfo) : slog :=
  SlGroup [("first_name", SlString (maskNameInitial (ClientInfo_FirstName c)));
           ("last_name", SlString (maskNameInitial (ClientInfo_LastName c)));
           ("middle_name", SlString (maskNameInitial (ClientInfo_MiddleName c)));
           ("inn", SlString (maskINN (ClientInfo_INN c)))].
