(* ===== verification/Installment.v ===== *)
(** * The installment client (installment/client.go, validate.go, orders.go,
      guarantee.go, qrcart.go, report.go)

    A client of its own, on [http.Client] and without retries: every request is
    a POST signed with the HMAC of its body. HMAC-SHA256 is the class
    [InstCrypto], of which the code relies on the 32 bytes of the result. *)
From S2P Require Import Prelude GoString GoText Base64 GoFloat Errors GoHttp Endpoint BankData InstMoney InstTypes.
From S2P Require Options.

Class InstCrypto := {
  (* hmac.New(sha256.New, key); Write(body); Sum(nil) *)
  hmac_sha256 : string → string → string
}.
Class InstCryptoLaws `{InstCrypto} : Prop := {
  hmac_sha256_length key body : slen (hmac_sha256 key body) = 32
}.

(** ** Constants and errors *)

Definition BaseURLSandbox : string := "https://u2-demo-ext.mono.st4g3.com".
Definition BaseURLStage : string := "https://u2-ext.mono.st4g3.com".
Definition BaseURLProduction : string := "https://u2.monobank.com.ua".
Definition HeaderStoreID : string := "store-id".
Definition HeaderSignature : string := "signature".
Definition ErrNilRequest : string := "installment.ErrNilRequest".
Definition ErrCallbackSignatureMismatch : string := "installment.ErrCallbackSignatureMismatch".
Definition ErrCallbackBadLength : string := "installment.ErrCallbackBadLength".
Definition ErrEmptyOrderID : string := "installment.ErrEmptyOrderID".
Definition ErrEmptyDate : string := "installment.ErrEmptyDate".
Definition ErrEmptyPhone : string := "installment.ErrEmptyPhone".
Definition ErrInvalidPhone : string := "installment.ErrInvalidPhone".
Definition ErrEmptyQRID : string := "installment.ErrEmptyQRID".
Definition ErrEmptyStoreID : string := "installment.ErrEmptyStoreID".
Definition ErrEmptySecret : string := "installment.ErrEmptySecret".
Definition ErrInsecureBaseURL : string := "installment.ErrInsecureBaseURL".
Definition MaxJSONResponseBytes : Z := 1048576.
Definition MaxPDFResponseBytes : Z := 52428800.

(** [APIError] of this package; an outcome is a value, such an error or a plain
    one. *)
Record InstAPIError := mkInstAPIError { Inst_StatusCode : Z; Inst_Message : string; Inst_TraceID : string }.

Inductive failure := Failed (e : error) | Refused (e : InstAPIError).
Abbreviation outcome A := (A + failure)%type.

Definition InstAPIError_Error (e : InstAPIError) : string :=
  if negb (String.eqb (Inst_TraceID e) "") then
    "installment: " +:+ Itoa (Inst_StatusCode e) +:+ ": " +:+ Inst_Message e +:+ " (trace=" +:+ Inst_TraceID e +:+ ")"
  else "installment: " +:+ Itoa (Inst_StatusCode e) +:+ ": " +:+ Inst_Message e.

(** ** Construction *)

Section Client.
Context {W : Type} `{NetLib}.

Abbreviation HTTPClient := (Request → W → result Response * W) (only parsing).

Record InstClient := mkInstClient {
  ic_h : HTTPClient; ic_baseURL : string; ic_storeID : string; ic_secret : string; ic_allowInsecureBaseURL : bool
}.

Abbreviation InstOption := (InstClient → InstClient) (only parsing).

Definition Inst_WithBaseURL (u : string) : InstOption :=
  λ c, mkInstClient (ic_h c) u (ic_storeID c) (ic_secret c) (ic_allowInsecureBaseURL c).
Definition Inst_WithInsecureBaseURL (allow : bool) : InstOption :=
  λ c, mkInstClient (ic_h c) (ic_baseURL c) (ic_storeID c) (ic_secret c) allow.
Definition Inst_WithHTTPClient (h : HTTPClient) : InstOption :=
  λ c, mkInstClient h (ic_baseURL c) (ic_storeID c) (ic_secret c) (ic_allowInsecureBaseURL c).

Definition Inst_isInsecureBaseURL (u : string) : bool :=
  match url_Parse u with
  | None => false
  | Some parsed =>
      if String.eqb (Scheme parsed) "https" || String.eqb (Scheme parsed) "" then false
      else
        let host := url_Hostname parsed in
        if String.eqb host "localhost" then false
        else if ip_IsLoopback host then false
        else true
  end.

(** [std] is the [http.Client] with a timeout it starts from. *)
Definition Inst_New (std : HTTPClient) (storeID secret : string) (opts : list InstOption) : result InstClient :=
  if String.eqb storeID "" then Err (ENew ErrEmptyStoreID)
  else if String.eqb secret "" then Err (ENew ErrEmptySecret)
  else
    let c := fold_left (λ c o, o c) opts (mkInstClient std BaseURLProduction storeID secret false) in
    if Inst_isInsecureBaseURL (ic_baseURL c) && negb (ic_allowInsecureBaseURL c) then
      Err (EWrap "%w: got %q" (ENew ErrInsecureBaseURL))
    else Ok c.

Definition InstClient_LogValue (c : InstClient) : slog :=
  SlGroup [("storeID", SlString (ic_storeID c)); ("secret", SlString "***"); ("baseURL", SlString (ic_baseURL c))].

(** ** Signatures *)

Context `{InstCrypto}.

Definition Sign (c : InstClient) (body : string) : string := b64_EncodeToString (hmac_sha256 (ic_secret c) body).

Definition VerifyCallback (c : InstClient) (body signatureHeader : string) : option error :=
  if negb (slen signatureHeader =? 44) then Some (ENew ErrCallbackBadLength)
  else if negb (String.eqb (Sign c body) signatureHeader) then Some (ENew ErrCallbackSignatureMismatch)
  else None.

Definition ParseCallback `{JSON OrderStateInfo} (body : string) : result OrderStateInfo :=
  match json_Decode body None with
  | Err e => Err (EWrap "installment: parse callback: %w" e)
  | Ok info => Ok info
  end.

(** ** Requests *)

(** [json.Unmarshal(body, e)] into the error already holding a status and a
    trace id, any of whose fields the body may name. *)
Context (json_APIError : string → InstAPIError → InstAPIError).

Definition decodeAPIError (resp : Response) (body : string) : InstAPIError :=
  let e := json_APIError body (mkInstAPIError (sStatusCode resp) "" (Header_Get (sHeader resp) "Trace-Id")) in
  if String.eqb (Inst_Message e) "" then mkInstAPIError (Inst_StatusCode e) body (Inst_TraceID e) else e.

(** The signed POST both [doJSON] and [doPDF] build. *)
Definition signed_post (c : InstClient) (path accept : string) (body : result string) : result Request :=
  match body with
  | Err e => Err (EWrap "installment: marshal: %w" e)
  | Ok body =>
      match NewRequest "POST" (ic_baseURL c +:+ path) (Some body) with
      | Err e => Err (EWrap "installment: build request: %w" e)
      | Ok req =>
          Ok (set_Header HeaderSignature (Sign c body) (set_Header HeaderStoreID (ic_storeID c)
                (set_Header "Accept" accept (set_Header "Content-Type" "application/json" req))))
      end
  end.

(** [doJSON]; [decode] is [None] for a nil [out], and the value left in [out] is
    [zero] when nothing is decoded. *)
Definition doJSON {A B} `{JSON A} (c : InstClient) (path : string) (in_ : A) (decode : option (string → result B)) (zero : B)
    (wantStatus : Z) (w : W) : outcome B * W :=
  match signed_post c path "application/json" (json_Marshal in_) with
  | Err e => (inr (Failed e), w)
  | Ok req =>
      match ic_h c req w with
      | (Err e, w) => (inr (Failed (EWrap "installment: do request: %w" e)), w)
      | (Ok resp, w) =>
          match read_capped MaxJSONResponseBytes resp with
          | Err e => (inr (Failed (EWrap "installment: read response body: %w" e)), w)
          | Ok respBody =>
              if negb (sStatusCode resp =? wantStatus) then (inr (Refused (decodeAPIError resp respBody)), w)
              else match decode with
                   | None => (inl zero, w)
                   | Some decode =>
                       if slen respBody =? 0 then (inl zero, w)
                       else match decode respBody with
                            | Err e => (inr (Failed (EWrap "installment: decode response: %w" e)), w)
                            | Ok b => (inl b, w)
                            end
                   end
          end
      end
  end.

Definition doPDF {A} `{JSON A} (c : InstClient) (path : string) (in_ : A) (w : W) : outcome string * W :=
  match signed_post c path "application/pdf" (json_Marshal in_) with
  | Err e => (inr (Failed e), w)
  | Ok req =>
      match ic_h c req w with
      | (Err e, w) => (inr (Failed (EWrap "installment: do request: %w" e)), w)
      | (Ok resp, w) =>
          match read_capped MaxPDFResponseBytes resp with
          | Err e => (inr (Failed (EWrap "installment: read response body: %w" e)), w)
          | Ok respBody =>
              if negb (sStatusCode resp =? 200) then (inr (Refused (decodeAPIError resp respBody)), w)
              else (inl respBody, w)
          end
      end
  end.

(** ** Endpoints *)

Context (c : InstClient).
Context `{JSON CreateOrderRequest, JSON CreateOrderResponse, JSON RequestWithOrderIdentifier, JSON OrderStateInfo,
  JSON ReturnRequest, JSON ReturnResponse, JSON OrderShortInfo, JSON CheckInstallmentsResponse, JSON OrderDataRequest,
  JSON OrderData, JSON CreateQRCartRequest, JSON CancelQRCartRequest, JSON DailyReportRequest,
  JSON DailyReportResponse, JSON ValidateClientRequest, JSON ValidateClientResponse, JSON ValidateClientSimpleResponse}.

(** A call whose answer is decoded, and one whose answer is only checked. *)
Definition call {A} (B : Type) `{JSON A, JSON B} (path : string) (in_ : A) (want : Z) (w : W) : outcome B * W :=
  doJSON c path in_ (Some (λ b, json_Decode b None)) json_zero want w.

Definition check {A} `{JSON A} (path : string) (in_ : A) (want : Z) (w : W) : option failure * W :=
  match doJSON c path in_ (None : option (string → result unit)) tt want w with
  | (inl _, w) => (None, w)
  | (inr e, w) => (Some e, w)
  end.

(** orders.go *)
Definition CreateOrder (in_ : option CreateOrderRequest) (w : W) : outcome CreateOrderResponse * W :=
  match in_ with
  | None => (inr (Failed (ENew ErrNilRequest)), w)
  | Some x => call CreateOrderResponse "/api/order/create" x 201 w
  end.

(** The endpoints that take an order id. *)
Definition by_order (B : Type) `{JSON B} (path orderID : string) (w : W) : outcome B * W :=
  if String.eqb orderID "" then (inr (Failed (ENew ErrEmptyOrderID)), w)
  else call B path (mkRequestWithOrderIdentifier orderID) 200 w.

Definition Inst_OrderState (orderID : string) : W → outcome OrderStateInfo * W := by_order _ "/api/order/state" orderID.
Definition ConfirmOrder (orderID : string) : W → outcome OrderStateInfo * W := by_order _ "/api/order/confirm" orderID.
Definition RejectOrder (orderID : string) : W → outcome OrderStateInfo * W := by_order _ "/api/order/reject" orderID.

Definition ReturnOrder (in_ : option ReturnRequest) (w : W) : outcome ReturnResponse * W :=
  match in_ with
  | None => (inr (Failed (ENew ErrNilRequest)), w)
  | Some x => call ReturnResponse "/api/order/return" x 200 w
  end.

Definition OrderInfo (orderID : string) : W → outcome OrderShortInfo * W := by_order _ "/api/order/info" orderID.
Definition Inst_OrderData (orderID : string) : W → outcome OrderShortInfo * W := by_order _ "/api/order/data" orderID.
Definition CheckPaid (orderID : string) : W → outcome CheckInstallmentsResponse * W := by_order _ "/api/order/check/paid" orderID.

(** guarantee.go *)
Definition GuaranteeLetterPDF (in_ : option OrderDataRequest) (w : W) : outcome string * W :=
  match in_ with
  | None => (inr (Failed (ENew ErrNilRequest)), w)
  | Some x => doPDF c "/api/order/guarantee/letter" x w
  end.
Definition GuaranteeLetterData (in_ : option OrderDataRequest) (w : W) : outcome OrderData * W :=
  match in_ with
  | None => (inr (Failed (ENew ErrNilRequest)), w)
  | Some x => call OrderData "/api/order/data/for/guarantee/letter" x 200 w
  end.
Definition GuaranteeLetterDataV2 (in_ : option OrderDataRequest) (w : W) : outcome OrderData * W :=
  match in_ with
  | None => (inr (Failed (ENew ErrNilRequest)), w)
  | Some x => call OrderData "/api/v2/order/data/for/guarantee/letter" x 200 w
  end.

(** qrcart.go *)
Definition CreateQRCart (in_ : option CreateQRCartRequest) (w : W) : option failure * W :=
  match in_ with
  | None => (Some (Failed (ENew ErrNilRequest)), w)
  | Some x =>
      if String.eqb (CreateQRCartRequest_QRID x) "" then (Some (Failed (ENew ErrEmptyQRID)), w)
      else check "/api/v1/qr/cart" x 201 w
  end.
Definition CancelQRCart (qrID : string) (w : W) : option failure * W :=
  if String.eqb qrID "" then (Some (Failed (ENew ErrEmptyQRID)), w)
  else check "/api/v1/qr/cart/cancel" (mkCancelQRCartRequest qrID) 200 w.

(** report.go *)
Definition DailyReport (date : string) (w : W) : outcome (list ReportOrder) * W :=
  if String.eqb date "" then (inr (Failed (ENew ErrEmptyDate)), w)
  else match call DailyReportResponse "/api/store/report" (mkDailyReportRequest date) 200 w with
       | (inl out, w) => (inl (DailyReportResponse_Orders out), w)
       | (inr e, w) => (inr e, w)
       end.

(** validate.go *)
Definition validatePhone (phone : string) : option error :=
  if String.eqb phone "" then Some (ENew ErrEmptyPhone)
  else if (slen phone <? 2) || negb (byte_at phone 0 =? 43) then Some (ENew ErrInvalidPhone)
  else if forallb (λ r, negb ((r <? 48) || (57 <? r))) (runes (str_drop 1 phone)) then None
  else Some (ENew ErrInvalidPhone).

Definition ValidateClientLegacy (phone : string) (w : W) : outcome ValidateClientResponse * W :=
  match validatePhone phone with
  | Some e => (inr (Failed e), w)
  | None => call ValidateClientResponse "/api/client/validate" (mkValidateClientRequest phone) 200 w
  end.
Definition ValidateClient (phone : string) (w : W) : outcome bool * W :=
  match validatePhone phone with
  | Some e => (inr (Failed e), w)
  | None =>
      match call ValidateClientSimpleResponse "/api/v2/client/validate" (mkValidateClientRequest phone) 200 w with
      | (inl out, w) => (inl (ValidateClientSimpleResponse_Found out), w)
      | (inr e, w) => (inr e, w)
      end
  end.

End Client.
Arguments InstClient W : clear implicits.

(** ** Lemmas *)

(** One decimal digit of a phone is one ASCII rune. *)
Lemma decode_rune_digit a s :
  let '(r, w) := decode_rune (String a s) in
  (48 <= r <= 57 → is_digit a = true ∧ w = 1%nat) ∧ (is_digit a = true → r = byte_of a ∧ w = 1%nat).
Proof.
  pose proof (byte_of_bound a). unfold decode_rune, is_digit, is_cont, RuneError. change (byte_at (String a s) 0) with (byte_of a).
  set (b1 := byte_at _ 1). set (b2 := byte_at _ 2). set (b3 := byte_at _ 3). clearbody b1 b2 b3.
  destruct (Z.ltb_spec (byte_of a) 128).
  { split; intros; [|done]. split; [|done]. apply andb_true_iff. lia. }
  repeat case_match; simplify_eq; split; intros; exfalso; lia.
Qed.

Lemma runes_digits_fuel n s : (String.length s <= n)%nat →
  forallb (λ r, negb ((r <? 48) || (57 <? r))) (runes_fuel n s) = all_digits s.
Proof.
  revert s. induction n as [|n IH]; intros s Hn; [by destruct s; cbn in Hn; [|lia]|].
  destruct s as [|a s]; [done|]. cbn [runes_fuel all_digits]. pose proof (decode_rune_digit a s) as Hd.
  destruct (decode_rune (String a s)) as [r w]. destruct Hd as [H1 H2]. cbn [forallb].
  destruct (is_digit a) eqn:Ha.
  - destruct H2 as [-> ->]; [done|]. cbn [str_drop]. rewrite IH by (cbn in Hn; lia). unfold is_digit in Ha.
    destruct (Z.ltb_spec (byte_of a) 48); [lia|]. destruct (Z.ltb_spec 57 (byte_of a)); [lia|]. done.
  - destruct (Z.ltb_spec r 48); [done|]. destruct (Z.ltb_spec 57 r); [done|]. destruct H1; [lia|done].
Qed.

Lemma validatePhone_cases phone :
  match validatePhone phone with
  | None => ∃ d, phone = String "+" d ∧ d ≠ "" ∧ all_digits d = true
  | Some e => (phone = "" ∧ e = ENew ErrEmptyPhone) ∨
              (phone ≠ "" ∧ (∀ d, phone = String "+" d → d = "" ∨ all_digits d = false) ∧ e = ENew ErrInvalidPhone)
  end.
Proof.
  unfold validatePhone. destruct phone as [|a d]; [by left|]. cbn [String.eqb].
  change (byte_at (String a d) 0) with (byte_of a). cbn [str_drop]. unfold runes. rewrite runes_digits_fuel by done.
  assert (byte_of a = 43 → a = "+"%char) as Ha by (intros E; by rewrite <-(ascii_of_byte a), E).
  destruct d as [|b d].
  - right. split; [done|]. split; [|by destruct (byte_of a =? 43)]. intros d [= _ <-]. by left.
  - assert ((slen (String a (String b d)) <? 2) = false) as -> by (apply Z.ltb_ge; unfold slen; cbn [String.length]; lia).
    destruct (Z.eqb_spec (byte_of a) 43) as [E|E]; cbn [negb orb].
    + rewrite (Ha E). destruct (all_digits (String b d)) eqn:Hd; [by exists (String b d)|].
      right. split; [done|]. split; [|done]. intros d' [= <-]. by right.
    + right. split; [done|]. split; [|done]. intros d' [= -> _]. done.
Qed.

(** ** Properties *)

(** A callback is accepted exactly when its signature header is the base64
    of the HMAC-SHA256, under the store's secret, of the raw body, so a header
    accepted for one body is accepted for another only if the two have the same
    HMAC; a header that is not 44 bytes long is told apart. *)
Theorem VerifyCallback_iff {W} `{NetLib} `{InstCryptoLaws} (c : InstClient W) body header :
  (VerifyCallback c body header = None ↔ header = b64_EncodeToString (hmac_sha256 (ic_secret c) body)) ∧
  (VerifyCallback c body header = None → b64_DecodeString header = Some (hmac_sha256 (ic_secret c) body)) ∧
  (VerifyCallback c body header = Some (ENew ErrCallbackBadLength) ↔ slen header ≠ 44) ∧
  (slen header = 44 → header ≠ Sign c body →
   VerifyCallback c body header = Some (ENew ErrCallbackSignatureMismatch)) ∧
  (∀ body', VerifyCallback c body header = None → VerifyCallback c body' header = None →
     hmac_sha256 (ic_secret c) body = hmac_sha256 (ic_secret c) body').
Proof.
  assert (∀ b h, VerifyCallback c b h = None ↔ h = Sign c b) as Hiff.
  { intros b h. unfold VerifyCallback. assert (slen (Sign c b) = 44) as Hl.
    { unfold Sign. by rewrite slen_b64, hmac_sha256_length. }
    destruct (Z.eqb_spec (slen h) 44); cbn [negb]; [|by split; [|intros ->]].
    destruct (String.eqb_spec (Sign c b) h); cbn [negb]; split; congruence. }
  split; [exact (Hiff body header)|]. split.
  { rewrite Hiff. intros ->. apply b64_Decode_Encode. }
  split.
  { unfold VerifyCallback. destruct (Z.eqb_spec (slen header) 44); cbn [negb]; [|by split].
    by destruct (String.eqb (Sign c body) header); split. }
  split.
  { intros Hl Hn. unfold VerifyCallback. rewrite Hl. cbn [negb Z.eqb]. by destruct (String.eqb_spec (Sign c body) header). }
  intros body'. rewrite !Hiff. intros -> He. unfold Sign in He.
  pose proof (b64_Decode_Encode (hmac_sha256 (ic_secret c) body)) as Hd. rewrite He, b64_Decode_Encode in Hd. congruence.
Qed.

(** A MAC of the right length that depends on the body. *)
#[local] Instance toy_crypto : InstCrypto :=
  { hmac_sha256 key body := Repeat (byte_string [slen body mod 256]) 32 }.
#[local] Instance toy_crypto_laws : InstCryptoLaws.
Proof. by split. Qed.

#[local] Instance toy_net : NetLib :=
  {| http_ParseTime _ := None; url_Parse s := Some (mkURL "https" "" s ""); url_String := Path;
     url_ResolveReference _ r := r; url_Hostname := Host; ip_IsLoopback _ := false; json_errorBody _ := None |}.

Definition toy_client : InstClient unit :=
  mkInstClient (λ _ w, (Err (EText "offline"), w)) BaseURLProduction "store" "secret" false.

Lemma VerifyCallback_iff_witness :
  VerifyCallback toy_client "abc" "AwMDAwMDAwMDAwMDAwMDAwMDAwMDAwMDAwMDAwMDAwM=" = None ∧
  VerifyCallback toy_client "abcd" "AwMDAwMDAwMDAwMDAwMDAwMDAwMDAwMDAwMDAwMDAwM=" = Some (ENew ErrCallbackSignatureMismatch).
Proof.
  split.
  - apply (VerifyCallback_iff toy_client "abc" _). reflexivity.
  - apply (VerifyCallback_iff toy_client "abcd" _); [reflexivity|]. by vm_compute.
Defined.

(** A phone passes the client-side check exactly when it is a plus sign and
    one or more ASCII digits; the empty phone and any other are told apart, and
    neither check of a client sends a request for them. *)
Theorem validatePhone_iff {W} `{NetLib} `{InstCrypto} json_APIError `{JSON ValidateClientRequest, JSON ValidateClientResponse,
    JSON ValidateClientSimpleResponse} (c : InstClient W) phone (w : W) :
  let good := ∃ d, phone = String "+" d ∧ d ≠ "" ∧ all_digits d = true in
  (validatePhone phone = None ↔ good) ∧
  (validatePhone phone = Some (ENew ErrEmptyPhone) ↔ phone = "") ∧
  (validatePhone phone = Some (ENew ErrInvalidPhone) ↔ phone ≠ "" ∧ ¬ good) ∧
  (¬ good → ∃ e, ValidateClientLegacy json_APIError c phone w = (inr (Failed e), w) ∧
                 ValidateClient json_APIError c phone w = (inr (Failed e), w)).
Proof.
  intros good. pose proof (validatePhone_cases phone) as Hc.
  assert (ErrEmptyPhone ≠ ErrInvalidPhone) as Hdiff by done.
  assert (phone = "" → ¬ good) as He by (by intros -> (d & ? & _)).
  unfold ValidateClientLegacy, ValidateClient. destruct (validatePhone phone) as [e|].
  - assert (¬ good) as Hn.
    { destruct Hc as [[-> _]|(_ & Hd & _)]; [by apply He|]. intros (d & Hp & Hne & Ha). destruct (Hd d Hp); congruence. }
    split; [by split|]. split_and!; [| |intros _; by exists e].
    + destruct Hc as [[-> ->]|(Hp & _ & ->)]; split; intros; congruence.
    + destruct Hc as [[-> ->]|(Hp & _ & ->)]; split; intros Hx; try done. by destruct Hx.
  - split; [done|]. split; [split; [done|intros Hp; by destruct (He Hp)]|]. split; [|done].
    split; [done|]. by intros [_ Hn].
Qed.

(** The world after a call that sends [x] to a path: the transport was given one
    request, the POST of the JSON of [x] to the path under the base URL, with the
    store's id and a signature the bank's side of [VerifyCallback] accepts for
    that body; or none, when [x] has no JSON or the URL does not parse. *)
Definition posts {W A} `{NetLib} `{InstCrypto} `{JSON A} (c : InstClient W) (w : W) (path : string) (x : A) (w' : W) : Prop :=
  match json_Marshal x, url_Parse (ic_baseURL c +:+ path) with
  | Ok d, Some u => ∃ req, w' = (ic_h c req w).2 ∧
      rMethod req = "POST" ∧ rURL req = u ∧ rBody req = (if String.eqb d "" then BNoBody else BReader d None) ∧
      Header_Get (rHeader req) HeaderStoreID = ic_storeID c ∧ Header_Get (rHeader req) HeaderSignature = Sign c d
  | _, _ => w' = w
  end.

Section Sent.
Context {W : Type} `{NetLib} `{InstCrypto} (json_APIError : string → InstAPIError → InstAPIError) (c : InstClient W).

Lemma signed_post_posts {A} `{JSON A} path accept (x : A) w w' :
  match signed_post c path accept (json_Marshal x) with Ok req => w' = (ic_h c req w).2 | Err _ => w' = w end →
  posts c w path x w'.
Proof.
  unfold posts, signed_post, NewRequest. destruct (json_Marshal x) as [d|]; [|done].
  destruct (url_Parse (ic_baseURL c +:+ path)) as [u|]; [|done].
  destruct d as [|a d]; intros ->; eexists; (split; [reflexivity|]); by rewrite ?set_Header_at.
Qed.

Lemma doJSON_posts {A B} `{JSON A} path (x : A) (decode : option (string → result B)) zero want w :
  posts c w path x (doJSON json_APIError c path x decode zero want w).2.
Proof.
  apply (signed_post_posts path "application/json"). unfold doJSON.
  destruct (signed_post _ _ _ _) as [req|e]; [|done]. destruct (ic_h c req w) as [[resp|e] w']; [|done].
  by repeat case_match.
Qed.

Lemma doPDF_posts {A} `{JSON A} path (x : A) w : posts c w path x (doPDF json_APIError c path x w).2.
Proof.
  apply (signed_post_posts path "application/pdf"). unfold doPDF.
  destruct (signed_post _ _ _ _) as [req|e]; [|done]. destruct (ic_h c req w) as [[resp|e] w']; [|done].
  by repeat case_match.
Qed.

Lemma call_posts {A B} `{JSON A, JSON B} path (x : A) want w :
  posts c w path x (call json_APIError c B path x want w).2.
Proof. apply doJSON_posts. Qed.

Lemma check_posts {A} `{JSON A} path (x : A) want w : posts c w path x (check json_APIError c path x want w).2.
Proof.
  unfold check. pose proof (doJSON_posts path x (None : option (string → result unit)) tt want w) as Hs.
  by destruct (doJSON _ _ _ _ _ _ _ _) as [[] w'].
Qed.

(** An endpoint that takes a request: nil is refused with nothing sent. *)
Definition nil_guarded {A B} `{JSON A} (w : W) (path : string) (op : option A → W → outcome B * W) : Prop :=
  (∀ x, posts c w path x (op (Some x) w).2) ∧ op None w = (inr (Failed (ENew ErrNilRequest)), w).

(** An endpoint that takes a string [s], sent as [body s]: what [good] excludes is
    refused with nothing sent. *)
Definition guarded {A B} `{JSON A} (w : W) (path : string) (body : string → A) (good : string → Prop)
    (refusal : string → error) (op : string → W → outcome B * W) : Prop :=
  ∀ s, (good s → posts c w path (body s) (op s w).2) ∧ (¬ good s → op s w = (inr (Failed (refusal s)), w)).

Lemma by_order_guarded B `{JSON B, JSON RequestWithOrderIdentifier} path w :
  guarded w path mkRequestWithOrderIdentifier (λ id, id ≠ "") (λ _, ENew ErrEmptyOrderID) (by_order json_APIError c B path).
Proof.
  intros id. unfold by_order. destruct (String.eqb_spec id "") as [->|Hn]; split; intros Hx; try done. by apply call_posts.
Qed.

(** A phone the client-side check lets through. *)
Definition good_phone (phone : string) : Prop := ∃ d, phone = String "+" d ∧ d ≠ "" ∧ all_digits d = true.

Lemma validated_guarded {B} (body : string → W → outcome B * W) {A} `{JSON A} path (mk : string → A) w :
  (∀ p, posts c w path (mk p) (body p w).2) →
  guarded w path mk good_phone (λ p, ENew (if String.eqb p "" then ErrEmptyPhone else ErrInvalidPhone))
    (λ p w, match validatePhone p with Some e => (inr (Failed e), w) | None => body p w end).
Proof.
  intros Hb p. pose proof (validatePhone_cases p) as Hc. destruct (validatePhone p) as [e|].
  - split; intros Hg; [exfalso|].
    + destruct Hg as (d & -> & Hne & Hd). destruct Hc as [[? _]|(_ & Hn & _)]; [done|]. destruct (Hn d eq_refl); congruence.
    + destruct Hc as [[-> ->]|(Hp & _ & ->)]; [done|]. by rewrite (proj2 (String.eqb_neq _ _) Hp).
  - split; [intros _; apply Hb|done].
Qed.

(** C24: every call of the installment API that passes its local checks hands
    the transport exactly one request, never a retry: the POST, to that call's
    own path under the base URL, of the JSON of its argument, carrying the
    store's id and the signature of exactly the bytes it sends (or none, when
    the argument has no JSON or the URL does not parse). A nil request, an
    empty order or QR id, an empty date and a phone that is not a plus sign and
    ASCII digits are refused with their own errors and nothing is sent. *)
Theorem installment_sent_once `{JSON CreateOrderRequest, JSON CreateOrderResponse, JSON RequestWithOrderIdentifier,
    JSON OrderStateInfo, JSON ReturnRequest, JSON ReturnResponse, JSON OrderShortInfo, JSON CheckInstallmentsResponse,
    JSON OrderDataRequest, JSON OrderData, JSON CreateQRCartRequest, JSON CancelQRCartRequest, JSON DailyReportRequest,
    JSON DailyReportResponse, JSON ValidateClientRequest, JSON ValidateClientResponse, JSON ValidateClientSimpleResponse} (w : W) :
  nil_guarded w "/api/order/create" (CreateOrder json_APIError c) ∧
  nil_guarded w "/api/order/return" (ReturnOrder json_APIError c) ∧
  nil_guarded w "/api/order/guarantee/letter" (GuaranteeLetterPDF json_APIError c) ∧
  nil_guarded w "/api/order/data/for/guarantee/letter" (GuaranteeLetterData json_APIError c) ∧
  nil_guarded w "/api/v2/order/data/for/guarantee/letter" (GuaranteeLetterDataV2 json_APIError c) ∧
  (let by_id {B} path (op : string → W → outcome B * W) :=
     guarded w path mkRequestWithOrderIdentifier (λ id, id ≠ "") (λ _, ENew ErrEmptyOrderID) op in
   by_id "/api/order/state" (Inst_OrderState json_APIError c) ∧ by_id "/api/order/confirm" (ConfirmOrder json_APIError c) ∧
   by_id "/api/order/reject" (RejectOrder json_APIError c) ∧ by_id "/api/order/info" (OrderInfo json_APIError c) ∧
   by_id "/api/order/data" (Inst_OrderData json_APIError c) ∧ by_id "/api/order/check/paid" (CheckPaid json_APIError c)) ∧
  (CreateQRCart json_APIError c None w = (Some (Failed (ENew ErrNilRequest)), w) ∧
   (∀ x, CreateQRCartRequest_QRID x = "" → CreateQRCart json_APIError c (Some x) w = (Some (Failed (ENew ErrEmptyQRID)), w)) ∧
   ∀ x, CreateQRCartRequest_QRID x ≠ "" → posts c w "/api/v1/qr/cart" x (CreateQRCart json_APIError c (Some x) w).2) ∧
  (CancelQRCart json_APIError c "" w = (Some (Failed (ENew ErrEmptyQRID)), w) ∧
   ∀ id, id ≠ "" → posts c w "/api/v1/qr/cart/cancel" (mkCancelQRCartRequest id) (CancelQRCart json_APIError c id w).2) ∧
  guarded w "/api/store/report" mkDailyReportRequest (λ d, d ≠ "") (λ _, ENew ErrEmptyDate) (DailyReport json_APIError c) ∧
  (let phone {B} path (op : string → W → outcome B * W) :=
     guarded w path mkValidateClientRequest good_phone
       (λ p, ENew (if String.eqb p "" then ErrEmptyPhone else ErrInvalidPhone)) op in
   phone "/api/client/validate" (ValidateClientLegacy json_APIError c) ∧
   phone "/api/v2/client/validate" (ValidateClient json_APIError c)).
Proof.
  do 5 (split; [split; [intros x; first [apply call_posts|apply doPDF_posts]|done]|]).
  split; [intros by_id; repeat (split; [apply by_order_guarded|]); apply by_order_guarded|].
  split.
  { split; [done|]. unfold CreateQRCart. split; intros x Hx; [by rewrite Hx|].
    rewrite (proj2 (String.eqb_neq _ _) Hx). apply check_posts. }
  split.
  { split; [done|]. intros id Hx. unfold CancelQRCart. rewrite (proj2 (String.eqb_neq _ _) Hx). apply check_posts. }
  split.
  { intros d. unfold DailyReport. destruct (String.eqb_spec d "") as [->|Hn]; split; intros Hx; try done.
    pose proof (call_posts (B := DailyReportResponse) "/api/store/report" (mkDailyReportRequest d) 200 w) as Hs.
    by destruct (call _ _ _ _ _ _ _) as [[] w']. }
  intros phone. split.
  - apply (validated_guarded (λ p, call json_APIError c ValidateClientResponse "/api/client/validate" (mkValidateClientRequest p) 200)).
    intros p. apply call_posts.
  - apply (validated_guarded (λ p w, match call json_APIError c ValidateClientSimpleResponse "/api/v2/client/validate"
        (mkValidateClientRequest p) 200 w with (inl out, w) => (inl (ValidateClientSimpleResponse_Found out), w) | (inr e, w) => (inr e, w) end)).
    intros p. pose proof (call_posts (B := ValidateClientSimpleResponse) "/api/v2/client/validate" (mkValidateClientRequest p) 200 w) as Hs.
    by destruct (call _ _ _ _ _ _ _) as [[] w'].
Qed.

End Sent.

(** The installment client is built exactly when the store id and the
    secret are given and the base URL left by the options is one the guard of
    the whole SDK accepts, or the guard was switched off; its log line never
    depends on the secret. *)
Theorem Inst_New_guard {W} `{NetLib} (std : Request → W → result Response * W) storeID secret opts :
  let c := fold_left (λ c o, o c) opts (mkInstClient std BaseURLProduction storeID secret false) in
  (Inst_New std storeID secret opts = Ok c ↔
     storeID ≠ "" ∧ secret ≠ "" ∧ (Options.isInsecureBaseURL (ic_baseURL c) = false ∨ ic_allowInsecureBaseURL c = true)) ∧
  (∀ e, Inst_New std storeID secret opts = Err e →
     errors_Is e ErrEmptyStoreID = true ∨ errors_Is e ErrEmptySecret = true ∨ errors_Is e ErrInsecureBaseURL = true) ∧
  (∀ s, InstClient_LogValue (mkInstClient (ic_h c) (ic_baseURL c) (ic_storeID c) s (ic_allowInsecureBaseURL c)) =
        InstClient_LogValue c).
Proof.
  intros c. unfold Inst_New. fold c. change (Options.isInsecureBaseURL (ic_baseURL c)) with (Inst_isInsecureBaseURL (ic_baseURL c)).
  split_and!; [| |done].
  - destruct (String.eqb_spec storeID ""); [split; [done|by intros []]|].
    destruct (String.eqb_spec secret ""); [split; [done|by intros (_ & ? & _)]|].
    destruct (Inst_isInsecureBaseURL (ic_baseURL c)), (ic_allowInsecureBaseURL c); cbn [andb negb];
      split; try done; try (intros _; split_and!; [done|done|tauto]). by intros (_ & _ & [|]).
  - intros e. case_match; [intros [= <-]; by left|]. case_match; [intros [= <-]; right; by left|].
    case_match; [|done]. intros [= <-]. right; by right.
Qed.
