(* ===== verification/ObTypes.v ===== *)
(** * Data of the Open Banking API (openbanking/types.go, accounts.go, consents.go,
      payments.go, testintegration.go, logvalue.go)

    The calendar date, the records of requests and answers, what each of them
    shows in a log, and the headers the options write. *)
From S2P Require Import Prelude GoString GoText GoTime Errors Currency Mcc GoHttp Endpoint BankData.

(** ** Headers *)

Definition HeaderRequestID : string := "X-Request-ID".
Definition HeaderConsentID : string := "Consent-ID".
Definition HeaderPSUID : string := "PSU-ID".
Definition HeaderPSUIDType : string := "PSU-ID-Type".
Definition HeaderPSUCorporateID : string := "PSU-Corporate-ID".
Definition HeaderPSUCorporateIDType : string := "PSU-Corporate-ID-Type".
Definition HeaderPSUIPAddress : string := "PSU-IP-Address".
Definition HeaderTPPRedirectURI : string := "TPP-Redirect-URI".
Definition HeaderTPPSCAApproachPreference : string := "TPP-SCA-Approach-Preference".

(** ** Dates

    [Date] is a [time.Time]: an instant and the offset, in seconds, of its
    location at that instant. *)
Record Date := mkDate { d_time : Z; d_offset : Z }.

#[global] Instance Date_eq_dec : EqDecision Date.
Proof. solve_decision. Defined.

Definition NewDate (t : Date) : Date := t.
Definition zero_date : Date := mkDate zero_time 0.
Definition Date_IsZero (d : Date) : bool := IsZero (d_time d).
Definition Date_String (d : Date) : string :=
  if Date_IsZero d then "" else format_date (d_time d + d_offset d * Second).
Definition Date_MarshalJSON `{JSON string} (d : Date) : result string := json_Marshal (Date_String d).
Definition Date_UnmarshalJSON `{JSON string} (data : string) : result Date :=
  s ← json_Decode data None;
  if String.eqb s "" then Ok zero_date
  else match parse_date s with
       | None => Err (EText "time.Parse")
       | Some t => Ok (mkDate t 0)
       end.

(** ** Enumerations *)

Definition PaymentProducts : list string := ["credit-transfers"; "instant-credit-transfers"].
Definition ConsentTypes : list string := ["detailed"; "accountList"].
Definition ConsentStatuses : list string :=
  ["received"; "rejected"; "valid"; "expired"; "revokedByPsu"; "terminatedByTpp"; "replacedByTpp"].
Definition AccessRights : list string := ["accountDetails"; "balances"; "transactions"].
Definition BookingStatuses : list string := ["booked"; "pending"; "both"].
Definition SCAStatuses : list string := ["started"; "finalised"; "failed"].
Definition SCAApproaches : list string := ["REDIRECT"; "DECOUPLED"].
Definition TransactionStatuses : list string := ["RCVD"; "RJCT"; "ACSC"; "ACCC"; "CANC"].
Definition CreditorIDTypes : list string := ["RNRCT"; "PSPT"; "OT"; "UNKN"; "USRC"; "TRAN"; "NA"].

(** ** Records *)

Record Href := mkHref { Href_Href : string }.

Record Amount := mkAmount { Amount_Currency : string; Amount_Value : string }.

Record Account := mkAccount { Account_IBAN : string; Account_Currency : string }.

Record AccountAccessRights := mkAccountAccessRights { AccountAccessRights_Account : Account;
  AccountAccessRights_Rights : list string }.

Record AccountAccess := mkAccountAccess { AccountAccess_Cards : list AccountAccessRights;
  AccountAccess_Payments : list AccountAccessRights; AccountAccess_Savings : list AccountAccessRights;
  AccountAccess_Loans : list AccountAccessRights }.

Record Balance := mkBalance { Balance_BalanceAmount : Amount; Balance_BalanceType : string;
  Balance_CreditLimitIncluded : bool }.

Record AccountDetails := mkAccountDetails { AccountDetails_ResourceID : string; AccountDetails_IBAN :
  string; AccountDetails_Currency : string; AccountDetails_Product : string; AccountDetails_Balances :
  list Balance }.

Record AccountReference := mkAccountReference { AccountReference_IBAN : string;
  AccountReference_Currency : string; AccountReference_Product : string }.

Record PaymentAccountReference := mkPaymentAccountReference { PaymentAccountReference_IBAN : string;
  PaymentAccountReference_Currency : string }.

Record Party := mkParty { Party_Name : string }.

Record Creditor := mkCreditor { Creditor_Name : string; Creditor_CreditorID : string;
  Creditor_CreditorIDType : string }.

Record CardTransactionDetails := mkCardTransactionDetails { CardTransactionDetails_TransactionDateTime :
  Z; CardTransactionDetails_TradeName : string; CardTransactionDetails_MerchantCategoryCode : string }.

Record Transaction := mkTransaction { Transaction_TransactionID : string; Transaction_BookingDate : Date
 ; Transaction_TransactionAmount : Amount; Transaction_Creditor : option Party; Transaction_Debtor :
  option Party; Transaction_CardTransaction : option CardTransactionDetails;
  Transaction_RemittanceInformationUnstructured : list string }.

Record AccountReportLinks := mkAccountReportLinks { AccountReportLinks_First : option Href;
  AccountReportLinks_Next : option Href }.

Record AccountReport := mkAccountReport { AccountReport_Booked : list Transaction; AccountReport_Links :
  AccountReportLinks }.

Record ClientMessage := mkClientMessage { ClientMessage_Category : string; ClientMessage_Code : string;
  ClientMessage_Text : string }.

Record errorBody := mkErrorBody { errorBody_APIClientMessages : list ClientMessage }.

Record PSU := mkPSU { PSU_ID : string; PSU_IDType : string; PSU_CorporateID : string;
  PSU_CorporateIDType : string; PSU_IPAddress : string }.

Record InitiationOptions := mkInitiationOptions { InitiationOptions_PSU : PSU;
  InitiationOptions_TPPRedirectURI : string }.

Record AccountOptions := mkAccountOptions { AccountOptions_ConsentID : string;
  AccountOptions_PSUIPAddress : string }.

Record AccountsOptions := mkAccountsOptions { AccountsOptions_AccountOptions : AccountOptions; AccountsOptions_WithBalance : bool }.

Record TransactionsOptions := mkTransactionsOptions {
  TransactionsOptions_AccountOptions : AccountOptions; TransactionsOptions_BookingStatus : string;
  TransactionsOptions_DateFrom : Date; TransactionsOptions_DateTo : Date; TransactionsOptions_PageID :
  string }.

Record AuthorisationOptions := mkAuthorisationOptions { AuthorisationOptions_SCAApproachPreference :
  string }.

Record AccountsResponse := mkAccountsResponse { AccountsResponse_Accounts : list AccountDetails }.

Record BalancesResponse := mkBalancesResponse { BalancesResponse_Account : AccountReference;
  BalancesResponse_Balances : list Balance }.

Record TransactionsResponse := mkTransactionsResponse { TransactionsResponse_Account : AccountReference;
  TransactionsResponse_Transactions : option AccountReport }.

Record CreateConsentRequest := mkCreateConsentRequest { CreateConsentRequest_Access : AccountAccess;
  CreateConsentRequest_ConsentType : string; CreateConsentRequest_RecurringIndicator : bool;
  CreateConsentRequest_ValidTo : Date; CreateConsentRequest_FrequencyPerDay : Z }.

Record ConsentLinks := mkConsentLinks { ConsentLinks_StartAuthorisation : option Href }.

Record CreateConsentResponse := mkCreateConsentResponse { CreateConsentResponse_ConsentID : string;
  CreateConsentResponse_ConsentStatus : string; CreateConsentResponse_Links : ConsentLinks }.

Record AuthorisationLinks := mkAuthorisationLinks { AuthorisationLinks_SCARedirect : option Href;
  AuthorisationLinks_SCAStatus : option Href }.

Record StartAuthorisationResponse := mkStartAuthorisationResponse {
  StartAuthorisationResponse_AuthorisationID : string; StartAuthorisationResponse_SCAStatus : string;
  StartAuthorisationResponse_Links : AuthorisationLinks }.

Record Consent := mkConsent { Consent_Access : AccountAccess; Consent_ConsentType : string;
  Consent_RecurringIndicator : bool; Consent_ValidTo : Date; Consent_FrequencyPerDay : Z;
  Consent_ConsentStatus : string }.

Record ConsentStatusResponse := mkConsentStatusResponse { ConsentStatusResponse_ConsentStatus : string }.

Record CreatePaymentRequest := mkCreatePaymentRequest { CreatePaymentRequest_InstructedAmount : Amount;
  CreatePaymentRequest_CreditorAccount : PaymentAccountReference; CreatePaymentRequest_Creditor :
  Creditor; CreatePaymentRequest_DebtorAccount : PaymentAccountReference;
  CreatePaymentRequest_RemittanceInformationUnstructured : list string }.

Record PaymentLinks := mkPaymentLinks { PaymentLinks_StartAuthorisation : option Href }.

Record CreatePaymentResponse := mkCreatePaymentResponse { CreatePaymentResponse_TransactionStatus :
  string; CreatePaymentResponse_PaymentID : string; CreatePaymentResponse_Links : PaymentLinks }.

Record PaymentStatusResponse := mkPaymentStatusResponse { PaymentStatusResponse_TransactionStatus :
  string }.

Record Payment := mkPayment { Payment_TransactionStatus : string; Payment_PaymentID : string;
  Payment_InstructedAmount : Amount; Payment_CreditorAccount : PaymentAccountReference;
  Payment_Creditor : Creditor; Payment_DebtorAccount : PaymentAccountReference }.

Record PaymentAuthorisationsResponse := mkPaymentAuthorisationsResponse {
  PaymentAuthorisationsResponse_AuthorisationIDs : list string }.

Record AuthorisationStatusResponse := mkAuthorisationStatusResponse {
  AuthorisationStatusResponse_SCAStatus : string }.

Record CertificateRequest := mkCertificateRequest { CertificateRequest_Organization : string;
  CertificateRequest_ContactPerson : string; CertificateRequest_Phone : string;
  CertificateRequest_Email : string; CertificateRequest_Description : string; CertificateRequest_EDRPOU
  : string; CertificateRequest_CSRPEM : string }.

Record CertificateRequestResponse := mkCertificateRequestResponse { CertificateRequestResponse_Status :
  string }.

Record CertificateStatusResponse := mkCertificateStatusResponse { CertificateStatusResponse_Status :
  string; CertificateStatusResponse_Certificate : string; CertificateStatusResponse_RejectReason :
  string }.

(** ** Operations *)

Definition CurrencyCode (a : Amount) : Z * bool := FromAlpha3 (Amount_Currency a).

Definition CardTransactionDetails_MCCCode (d : CardTransactionDetails) : Z :=
  match Atoi (CardTransactionDetails_MerchantCategoryCode d) with
  | None => 0
  | Some n => if (n <? 1) || (9999 <? n) then 0 else n
  end.

Definition AccountList_ByResourceID (l : list AccountDetails) (id : string) : option nat :=
  index_where (λ a, String.eqb (AccountDetails_ResourceID a) id) l 0.

Definition setIfNotEmpty (name value : string) (h : Header) : Header :=
  if String.eqb value "" then h else Header_Set h name value.

Definition PSU_apply (p : PSU) (h : Header) : Header :=
  setIfNotEmpty HeaderPSUIPAddress (PSU_IPAddress p)
    (setIfNotEmpty HeaderPSUCorporateIDType (PSU_CorporateIDType p)
       (setIfNotEmpty HeaderPSUCorporateID (PSU_CorporateID p)
          (setIfNotEmpty HeaderPSUIDType (PSU_IDType p) (setIfNotEmpty HeaderPSUID (PSU_ID p) h)))).

Definition AccountOptions_apply (o : AccountOptions) (h : Header) : Header :=
  setIfNotEmpty HeaderPSUIPAddress (AccountOptions_PSUIPAddress o)
    (Header_Set h HeaderConsentID (AccountOptions_ConsentID o)).

(** ** Redaction *)

Definition maskName (name : string) : string :=
  if String.eqb name "" then ""
  else match runes name with
       | r :: (_ :: _) as rest => rune_string r +:+ Repeat "*" (length rest - 1)
       | _ => "*"
       end.

Definition redactIBAN (iban : string) : string :=
  if String.eqb iban "" then ""
  else if slen iban <=? 6 then "***"
  else str_take 2 iban +:+ "***" +:+ str_drop (String.length iban - 4) iban.

Definition redactID (id : string) : string := if String.eqb id "" then "" else "***".

(** ** LogValue *)

Definition PSU_LogValue (p : PSU) : slog := SlGroup
  [("id", SlString (redactID (PSU_ID p))); ("idType", SlString (PSU_IDType p));
   ("corporateId", SlString (redactID (PSU_CorporateID p))); ("corporateIdType", SlString (PSU_CorporateIDType p));
   ("ipAddressSet", SlBool (nonempty (PSU_IPAddress p)))].

Definition AccountReference_LogValue (a : AccountReference) : slog := SlGroup
  [("iban", SlString (redactIBAN (AccountReference_IBAN a))); ("currency", SlString (AccountReference_Currency a));
   ("product", SlString (AccountReference_Product a))].

Definition PaymentAccountReference_LogValue (a : PaymentAccountReference) : slog := SlGroup
  [("iban", SlString (redactIBAN (PaymentAccountReference_IBAN a)));
   ("currency", SlString (PaymentAccountReference_Currency a))].

Definition AccountDetails_LogValue (a : AccountDetails) : slog := SlGroup
  [("resourceId", SlString (AccountDetails_ResourceID a)); ("iban", SlString (redactIBAN (AccountDetails_IBAN a)));
   ("currency", SlString (AccountDetails_Currency a)); ("product", SlString (AccountDetails_Product a));
   ("balances", slog_len (AccountDetails_Balances a))].

Definition Party_LogValue (p : Party) : slog := SlGroup [("name", SlString (maskName (Party_Name p)))].

Definition Creditor_LogValue (c : Creditor) : slog := SlGroup
  [("name", SlString (maskName (Creditor_Name c))); ("creditorId", SlString (redactID (Creditor_CreditorID c)));
   ("creditorIdType", SlString (Creditor_CreditorIDType c))].

Definition Transaction_LogValue (t : Transaction) : slog := SlGroup
  ([("transactionId", SlString (Transaction_TransactionID t));
    ("amount", SlString (Amount_Value (Transaction_TransactionAmount t)));
    ("currency", SlString (Amount_Currency (Transaction_TransactionAmount t)));
    ("remittanceInfoSet", SlBool (0 <? Z.of_nat (length (Transaction_RemittanceInformationUnstructured t))))] ++
   (if Date_IsZero (Transaction_BookingDate t) then []
    else [("bookingDate", SlString (Date_String (Transaction_BookingDate t)))]) ++
   (match Transaction_Creditor t with Some p => [("creditor", Party_LogValue p)] | None => [] end) ++
   (match Transaction_Debtor t with Some p => [("debtor", Party_LogValue p)] | None => [] end)).

Definition AccountList_LogValue (l : list AccountDetails) : slog := SlList (AccountDetails_LogValue <$> l).
Definition TransactionList_LogValue (l : list Transaction) : slog := SlList (Transaction_LogValue <$> l).

Definition Account_LogValue (a : Account) : slog := SlGroup
  [("iban", SlString (redactIBAN (Account_IBAN a))); ("currency", SlString (Account_Currency a))].

Definition AccountAccessRights_LogValue (a : AccountAccessRights) : slog := SlGroup
  [("account", Account_LogValue (AccountAccessRights_Account a)); ("rights", SlStrings (AccountAccessRights_Rights a))].

Definition AccountAccess_LogValue (a : AccountAccess) : slog := SlGroup
  [("cards", slog_len (AccountAccess_Cards a)); ("payments", slog_len (AccountAccess_Payments a));
   ("savings", slog_len (AccountAccess_Savings a)); ("loans", slog_len (AccountAccess_Loans a))].

Definition CreateConsentRequest_LogValue (r : CreateConsentRequest) : slog := SlGroup
  [("access", AccountAccess_LogValue (CreateConsentRequest_Access r));
   ("consentType", SlString (CreateConsentRequest_ConsentType r));
   ("recurringIndicator", SlBool (CreateConsentRequest_RecurringIndicator r));
   ("validTo", SlString (Date_String (CreateConsentRequest_ValidTo r)));
   ("frequencyPerDay", SlInt (CreateConsentRequest_FrequencyPerDay r))].

Definition Consent_LogValue (c : Consent) : slog := SlGroup
  [("access", AccountAccess_LogValue (Consent_Access c)); ("consentType", SlString (Consent_ConsentType c));
   ("consentStatus", SlString (Consent_ConsentStatus c)); ("recurringIndicator", SlBool (Consent_RecurringIndicator c));
   ("validTo", SlString (Date_String (Consent_ValidTo c)))].

Definition InitiationOptions_LogValue (o : InitiationOptions) : slog := SlGroup
  [("psu", PSU_LogValue (InitiationOptions_PSU o)); ("tppRedirectURI", SlString (InitiationOptions_TPPRedirectURI o))].

Definition AccountsResponse_LogValue (r : AccountsResponse) : slog := SlGroup
  [("accounts", slog_len (AccountsResponse_Accounts r))].

Definition BalancesResponse_LogValue (r : BalancesResponse) : slog := SlGroup
  [("account", AccountReference_LogValue (BalancesResponse_Account r)); ("balances", slog_len (BalancesResponse_Balances r))].

Definition TransactionsResponse_LogValue (r : TransactionsResponse) : slog := SlGroup
  [("account", AccountReference_LogValue (TransactionsResponse_Account r));
   ("booked", match TransactionsResponse_Transactions r with Some t => slog_len (AccountReport_Booked t) | None => SlInt 0 end)].

Definition AccountReport_LogValue (r : AccountReport) : slog := SlGroup [("booked", slog_len (AccountReport_Booked r))].

Definition CreatePaymentRequest_LogValue (r : CreatePaymentRequest) : slog := SlGroup
  [("creditor", Creditor_LogValue (CreatePaymentRequest_Creditor r));
   ("creditorAccount", PaymentAccountReference_LogValue (CreatePaymentRequest_CreditorAccount r));
   ("debtorAccount", PaymentAccountReference_LogValue (CreatePaymentRequest_DebtorAccount r));
   ("amount", SlString (Amount_Value (CreatePaymentRequest_InstructedAmount r)));
   ("currency", SlString (Amount_Currency (CreatePaymentRequest_InstructedAmount r)))].

Definition Payment_LogValue (p : Payment) : slog := SlGroup
  [("creditor", Creditor_LogValue (Payment_Creditor p));
   ("creditorAccount", PaymentAccountReference_LogValue (Payment_CreditorAccount p));
   ("debtorAccount", PaymentAccountReference_LogValue (Payment_DebtorAccount p));
   ("amount", SlString (Amount_Value (Payment_InstructedAmount p)));
   ("currency", SlString (Amount_Currency (Payment_InstructedAmount p)));
   ("transactionStatus", SlString (Payment_TransactionStatus p))].

Definition AccountOptions_LogValue (o : AccountOptions) : slog := SlGroup
  [("consentId", SlString (AccountOptions_ConsentID o)); ("psuIPAddressSet", SlBool (nonempty (AccountOptions_PSUIPAddress o)))].

Definition AccountsOptions_LogValue (o : AccountsOptions) : slog := SlGroup
  [("account", AccountOptions_LogValue (AccountsOptions_AccountOptions o)); ("withBalance", SlBool (AccountsOptions_WithBalance o))].

Definition TransactionsOptions_LogValue (o : TransactionsOptions) : slog := SlGroup
  [("account", AccountOptions_LogValue (TransactionsOptions_AccountOptions o));
   ("bookingStatus", SlString (TransactionsOptions_BookingStatus o));
   ("dateFrom", SlString (Date_String (TransactionsOptions_DateFrom o)));
   ("dateTo", SlString (Date_String (TransactionsOptions_DateTo o)));
   ("pageIDSet", SlBool (nonempty (TransactionsOptions_PageID o)))].

Definition CertificateRequest_LogValue (r : CertificateRequest) : slog := SlGroup
  [("organization", SlString (maskName (CertificateRequest_Organization r)));
   ("contactPerson", SlString (maskName (CertificateRequest_ContactPerson r)));
   ("phoneSet", SlBool (nonempty (CertificateRequest_Phone r))); ("emailSet", SlBool (nonempty (CertificateRequest_Email r)));
   ("edrpou", SlString (redactID (CertificateRequest_EDRPOU r)));
   ("csrPEMBytes", SlInt (slen (CertificateRequest_CSRPEM r)))].

Definition Href_LogValue (h : Href) : slog := SlGroup [("hrefSet", SlBool (nonempty (Href_Href h)))].

Definition StartAuthorisationResponse_LogValue (r : StartAuthorisationResponse) : slog := SlGroup
  [("authorisationId", SlString (StartAuthorisationResponse_AuthorisationID r));
   ("scaStatus", SlString (StartAuthorisationResponse_SCAStatus r));
   ("scaRedirectSet", SlBool (isSome (AuthorisationLinks_SCARedirect (StartAuthorisationResponse_Links r))));
   ("scaStatusLinkSet", SlBool (isSome (AuthorisationLinks_SCAStatus (StartAuthorisationResponse_Links r))))].
