(* ===== verification/Delivery.v ===== *)
(** * Concurrent deliveries

    [net/http] serves every request in a goroutine of its own, and the
    handlers take no lock across [Has], [OnEvent] and [Add]: the tail of
    [ServeHTTP] ([deliver]) as a step relation over requests that interleave on
    one deduper, each of its three calls being one atomic step. *)
From stdpp Require Import relations.
From S2P Require Import Prelude GoString Errors GoHttp Dedup.

(** Where a request stands: before [Has], before [OnEvent], before [Add], or
    answered with a status. *)
Inductive phase := AtHas | AtEvent | AtAdd | Answered (status : Z).

Record conf (D : Type) := mkConf {
  shared : D;
  requests : list (string * phase);   (* the event id and the phase of each request *)
  processed : list string             (* the ids whose callback succeeded *)
}.
Arguments mkConf {D} shared requests processed.
Arguments shared {D} c.
Arguments requests {D} c.
Arguments processed {D} c.

Section Delivery.
Context {D : Type} `{DeduperLaws D}.

Inductive step : conf D → conf D → Prop :=
| step_has i id d l p :
    l !! i = Some (id, AtHas) → id ≠ "" →
    step (mkConf d l p)
         (mkConf (Has id d).2 (<[i := (id, if (Has id d).1 then Answered 200 else AtEvent)]> l) p)
| step_no_id i d l p :
    l !! i = Some ("", AtHas) → step (mkConf d l p) (mkConf d (<[i := ("", AtEvent)]> l) p)
| step_event_ok i id d l p :
    l !! i = Some (id, AtEvent) → step (mkConf d l p) (mkConf d (<[i := (id, AtAdd)]> l) (p ++ [id]))
| step_event_fails i id d l p :
    l !! i = Some (id, AtEvent) → step (mkConf d l p) (mkConf d (<[i := (id, Answered 500)]> l) p)
| step_add i id d l p :
    l !! i = Some (id, AtAdd) →
    step (mkConf d l p) (mkConf (Add id d) (<[i := (id, Answered 200)]> l) p).

Definition start (d : D) (ids : list string) : conf D := mkConf d ((λ id, (id, AtHas)) <$> ids) [].

(** What holds between any two steps. *)
Record sound (d0 : D) (c : conf D) : Prop := {
  so_wf : dd_wf (shared c);
  so_known : known (shared c) ⊆ known d0 ∪ list_to_set (processed c);
  so_acked : ∀ id, (id, Answered 200) ∈ requests c → id ∈ known d0 ∪ list_to_set (processed c);
  so_adding : ∀ id, (id, AtAdd) ∈ requests c → id ∈ processed c;
  so_asked : ∀ id, id ∈ processed c → id ∈ (requests c).*1
}.

Lemma insert_elem (l : list (string * phase)) i x y z :
  l !! i = Some z → x ∈ <[i := y]> l → x = y ∨ x ∈ l.
Proof.
  intros Hz Hx. apply list_elem_of_lookup in Hx as [j Hj]. destruct (decide (i = j)) as [->|Hij].
  - rewrite list_lookup_insert_eq in Hj by (by eapply lookup_lt_Some). left. congruence.
  - rewrite list_lookup_insert_ne in Hj by done. right. by apply list_elem_of_lookup_2 with j.
Qed.

Lemma insert_ids (l : list (string * phase)) i id ph ph' :
  l !! i = Some (id, ph) → (<[i := (id, ph')]> l).*1 = l.*1.
Proof.
  intros Hl. apply list_eq. intros j. rewrite !list_lookup_fmap. destruct (decide (i = j)) as [->|].
  - rewrite list_lookup_insert_eq by (by eapply lookup_lt_Some). by rewrite Hl.
  - by rewrite list_lookup_insert_ne.
Qed.

Lemma step_sound d0 c c' : sound d0 c → step c c' → sound d0 c'.
Proof.
  intros [Hwf Hk Ha Had Has'] Hs.
  destruct Hs as [i id d l p Hi Hne|i d l p Hi|i id d l p Hi|i id d l p Hi|i id d l p Hi]; simpl in *.
  - destruct (has_frame id d Hwf) as [Hf Hwf']. pose proof (has_iff id d Hwf) as Hiff.
    split; simpl; [done|by rewrite Hf| | |by rewrite (insert_ids _ _ _ _ _ Hi)].
    + intros id' [Heq|?]%(insert_elem _ _ _ _ _ Hi); [|by apply Ha].
      destruct (Has id d).1; simplify_eq. apply Hk, Hiff. done.
    + intros id' [Heq|?]%(insert_elem _ _ _ _ _ Hi); [|by apply Had]. destruct (Has id d).1; simplify_eq.
  - split; simpl; [done|done| | |by rewrite (insert_ids _ _ _ _ _ Hi)];
      intros id' [Heq|?]%(insert_elem _ _ _ _ _ Hi); simplify_eq; by auto.
  - split; simpl; [done|rewrite list_to_set_app_L; set_solver| | |].
    + intros id' [Heq|Hin]%(insert_elem _ _ _ _ _ Hi); simplify_eq. specialize (Ha _ Hin).
      rewrite list_to_set_app_L. set_solver.
    + intros id' [Heq|Hin]%(insert_elem _ _ _ _ _ Hi); simplify_eq; [set_solver|].
      specialize (Had _ Hin). set_solver.
    + intros id' [Hin|Hin]%elem_of_app; rewrite (insert_ids _ _ _ _ _ Hi); [by apply Has'|].
      apply list_elem_of_singleton in Hin as ->. apply list_elem_of_fmap. exists (id, AtEvent).
      split; [done|]. by apply list_elem_of_lookup_2 with i.
  - split; simpl; [done|done| | |by rewrite (insert_ids _ _ _ _ _ Hi)];
      intros id' [Heq|?]%(insert_elem _ _ _ _ _ Hi); simplify_eq; by auto.
  - assert (id ∈ p) as Hp by (apply Had; by apply list_elem_of_lookup_2 with i).
    destruct (add_frame id d Hwf) as [Hf Hwf']. split; simpl; [done| | | |by rewrite (insert_ids _ _ _ _ _ Hi)].
    + intros x Hx. apply Hf in Hx. apply elem_of_union in Hx as [Hx|Hx]; [|by apply Hk].
      apply elem_of_singleton in Hx as ->. set_solver.
    + intros id' [Heq|?]%(insert_elem _ _ _ _ _ Hi); [|by apply Ha]. simplify_eq. set_solver.
    + intros id' [Heq|?]%(insert_elem _ _ _ _ _ Hi); simplify_eq; by auto.
Qed.

Lemma start_sound d ids : dd_wf d → sound d (start d ids).
Proof.
  intros Hwf. split; simpl; [done|set_solver| | |set_solver].
  - intros id (x & Heq & _)%list_elem_of_fmap. done.
  - intros id (x & Heq & _)%list_elem_of_fmap. done.
Qed.

End Delivery.

(** ** Properties *)

(** C18: however concurrent deliveries interleave on a deduper, an event is
    recorded or acknowledged only if the deduper knew it at the start or a
    callback has succeeded for it, and callbacks succeed only for events that
    were delivered: no event is acknowledged and lost. *)
Theorem concurrent_delivery_sound {D} `{DeduperLaws D} (d0 : D) ids c :
  dd_wf d0 → rtc step (start d0 ids) c →
  (∀ id, (id, Answered 200) ∈ requests c → id ∈ known d0 ∨ id ∈ processed c) ∧
  (∀ id, id ∈ known (shared c) → id ∈ known d0 ∨ id ∈ processed c) ∧
  (∀ id, id ∈ processed c → id ∈ ids).
Proof.
  intros Hwf Hr.
  assert (sound d0 c ∧ (requests c).*1 = ids) as [[_ Hk Ha _ Hp] Hids].
  { assert (sound d0 (start d0 ids) ∧ (requests (start d0 ids)).*1 = ids) as Hs.
    { split; [by apply start_sound|]. simpl. rewrite <- list_fmap_compose. apply list_fmap_id. }
    revert Hs. induction Hr as [c|c c' c'' Hs Hr IH]; [done|]. intros [H1' H2']. apply IH. split.
    - by eapply step_sound.
    - rewrite <- H2'. destruct Hs; simpl; by eapply insert_ids. }
  split; [|split].
  - intros id Hid. specialize (Ha id Hid). set_solver.
  - intros id Hid. specialize (Hk id Hid). set_solver.
  - intros id Hid. rewrite <- Hids. by apply Hp.
Qed.

Lemma concurrent_delivery_sound_witness :
  let c := mkConf (D := gset string) (Add "e" ∅) [("e", Answered 200)] ["e"] in
  rtc step (start ∅ ["e"]) c ∧ ∀ id, (id, Answered 200) ∈ requests c → id ∈ (∅ : gset string) ∨ id ∈ processed c.
Proof.
  intros c.
  assert (rtc step (start (∅ : gset string) ["e"]) c) as Hr.
  { unfold start. simpl.
    eapply rtc_l; [apply (step_has 0 "e" ∅ [("e", AtHas)] []); done|]. simpl.
    eapply rtc_l; [apply (step_event_ok 0 "e" ∅ [("e", AtEvent)] []); done|]. simpl.
    eapply rtc_l; [apply (step_add 0 "e" ∅ [("e", AtAdd)] ["e"]); done|].
    apply rtc_refl. }
  split; [exact Hr|]. assert ("" ∉ (∅ : gset string)) as Hwf by set_solver.
  exact (proj1 (concurrent_delivery_sound (D := gset string) ∅ ["e"] c Hwf Hr)).
Defined.

(** Deduplication is not mutual exclusion: two deliveries of one event that
    overlap both reach the callback, and both are acknowledged. *)
Theorem concurrent_delivery_twice :
  ∃ c, rtc step (start (∅ : gset string) ["e"; "e"]) c ∧ processed c = ["e"; "e"] ∧
       requests c = [("e", Answered 200); ("e", Answered 200)].
Proof.
  eexists (mkConf _ [("e", Answered 200); ("e", Answered 200)] ["e"; "e"]). split; [|done].
  unfold start. simpl.
  eapply rtc_l; [apply (step_has 0 "e" ∅ [("e", AtHas); ("e", AtHas)] []); done|]. simpl.
  eapply rtc_l; [apply (step_has 1 "e" ∅ [("e", AtEvent); ("e", AtHas)] []); done|]. simpl.
  eapply rtc_l; [apply (step_event_ok 0 "e" ∅ [("e", AtEvent); ("e", AtEvent)] []); done|]. simpl.
  eapply rtc_l; [apply (step_event_ok 1 "e" ∅ [("e", AtAdd); ("e", AtEvent)] ["e"]); done|]. simpl.
  eapply rtc_l; [apply (step_add 0 "e" ∅ [("e", AtAdd); ("e", AtAdd)] ["e"; "e"]); done|]. simpl.
  eapply rtc_l; [apply (step_add 1 "e" _ [("e", Answered 200); ("e", AtAdd)] ["e"; "e"]); done|]. simpl.
  apply rtc_refl.
Qed.
