(* ===== verification/Iter.v ===== *)
(** * Iterators (Go's range-over-func)

    An [iter.Seq2[A, error]] is run against a consumer [yield], a stateful
    function that answers whether the loop goes on.  This file holds what the
    paginating iterators share: handing a page over, the page-number loop of the
    acquiring API, and the consumer that records everything. *)
From S2P Require Import Prelude GoString Errors.

Section Yield.
Context {W : Type}.

(** [for _, contact := range page.Contacts { if !yield(contact, nil) { return } }]. *)
Fixpoint yield_all {A} (yield : A → W → bool * W) (l : list A) (w : W) : bool * W :=
  match l with
  | [] => (true, w)
  | x :: l => let '(more, w) := yield x w in if more then yield_all yield l w else (false, w)
  end.

(** The loop over numbered pages: [fetch p] answers the rows of page [p] and the
    number of pages. *)
Fixpoint numbered_loop {A} (fuel : nat) (ctx_Err : W → option error) (fetch : Z → W → result (list A * Z) * W)
    (yield : result A → W → bool * W) (page : Z) (w : W) : option W :=
  match fuel with
  | O => None
  | S fuel =>
      match ctx_Err w with
      | Some e => Some (yield (Err e) w).2
      | None =>
          let '(r, w) := fetch page w in
          match r with
          | Err e => Some (yield (Err e) w).2
          | Ok (rows, totalPages) =>
              let '(more, w) := yield_all (λ x, yield (Ok x)) rows w in
              if negb more then Some w
              else if bool_decide (rows = []) || (totalPages <=? page) then Some w
              else numbered_loop fuel ctx_Err fetch yield (page + 1) w
          end
      end
  end.

End Yield.

(** ** Lemmas *)

(** A consumer that records what it is given and never stops. *)
Record Collects {W A} (out : W → list A) (yield : result A → W → bool * W) : Prop := {
  co_more x w : (yield (Ok x) w).1 = true;
  co_out x w : out (yield (Ok x) w).2 = out w ++ [x]
}.

Lemma yield_all_spec {W A} (out : W → list A) yield l w :
  Collects out yield →
  (yield_all (λ x, yield (Ok x)) l w).1 = true ∧ out (yield_all (λ x, yield (Ok x)) l w).2 = out w ++ l.
Proof.
  intros Hc. revert w. induction l as [|x l IH]; intros w; simpl; [by rewrite app_nil_r|].
  pose proof (co_more _ _ Hc x w) as Hm. pose proof (co_out _ _ Hc x w) as Ho.
  destruct (yield (Ok x) w) as [more w1]. simpl in *. subst more.
  destruct (IH w1) as [-> ->]. by rewrite Ho, <- app_assoc.
Qed.

