(* ===== verification/BusinessIter.v ===== *)
(** * Paging through the business API (business/iter.go) and idempotency keys (business/idempotency.go)

    [ContactsAll] and [SearchContactsAll] page by offset, [StatementAll] by
    moving the upper bound of the interval down.  The loops are driven by fuel;
    the theorems say how much is enough. *)
From stdpp Require Import sorting.
From S2P Require Import Prelude GoString GoText Base64 GoFloat Errors Currency Money GoHttp Retry Client Endpoint.
From S2P Require Import BankData Business BusinessApi Statement Iter.
#[local] Open Scope Z_scope.

(** ** ContactsAll, SearchContactsAll *)

Section Pages.
Context {W : Type}.

Fixpoint pages_loop (fuel : nat) (ctx_Err : W → option error) (fetch : Z → W → result ContactsPage * W)
    (yield : result Contact → W → bool * W) (offset : Z) (w : W) : option W :=
  match fuel with
  | O => None
  | S fuel =>
      match ctx_Err w with
      | Some e => Some (yield (Err e) w).2
      | None =>
          let '(r, w) := fetch offset w in
          match r with
          | Err e => Some (yield (Err e) w).2
          | Ok page =>
              let '(more, w) := yield_all (λ x, yield (Ok x)) (ContactsPage_Contacts page) w in
              if negb more then Some w
              else if negb (ContactsPage_HasMore page) || bool_decide (ContactsPage_Contacts page = []) then Some w
              else pages_loop fuel ctx_Err fetch yield (offset + Z.of_nat (length (ContactsPage_Contacts page))) w
          end
      end
  end.

(** ** StatementAll *)

Fixpoint items_chunk (yield : StatementItem → W → bool * W) (seen : gset string)
    (page : list StatementItem) (newly : Z) (w : W) : option Z * W :=
  match page with
  | [] => (Some newly, w)
  | item :: page =>
      if bool_decide (StatementItem_ID item ∈ seen) then items_chunk yield seen page newly w
      else
        let '(more, w) := yield item w in
        if more then items_chunk yield seen page (newly + 1) w else (None, w)
  end.

Definition page_ids (page : list StatementItem) (seen : gset string) : gset string :=
  foldr (λ item s, {[StatementItem_ID item]} ∪ s) seen page.

Fixpoint statement_loop (fuel : nat) (ctx_Err : W → option error)
    (fetch : Z → Z → W → result (list StatementItem) * W) (yield : result StatementItem → W → bool * W)
    (from pageSize : Z) (seen : gset string) (cursorSecond cursorTo : Z) (w : W) : option W :=
  match fuel with
  | O => None
  | S fuel =>
      match ctx_Err w with
      | Some e => Some (yield (Err e) w).2
      | None =>
          if cursorTo <=? from then Some w
          else
            let '(r, w) := fetch from cursorTo w in
            match r with
            | Err e => Some (yield (Err e) w).2
            | Ok page =>
                match page, last page with
                | newest_item :: _, Some oldest_item =>
                    match items_chunk (λ x, yield (Ok x)) seen page 0 w with
                    | (None, w) => Some w
                    | (Some newly, w) =>
                        let oldest := StatementItem_Time oldest_item in
                        let newest := StatementItem_Time newest_item in
                        let sameSecond := oldest =? newest in
                        let fullPage := (pageSize <=? 0) || (pageSize <=? Z.of_nat (length page)) in
                        if sameSecond && fullPage then
                          if newly =? 0 then Some w
                          else
                            let seen := if oldest =? cursorSecond then seen else ∅ in
                            statement_loop fuel ctx_Err fetch yield from pageSize (page_ids page seen) oldest oldest w
                        else
                          let next := oldest - Second in
                          if cursorTo <=? next then Some w
                          else statement_loop fuel ctx_Err fetch yield from pageSize ∅ zero_time next w
                    end
                | _, _ => Some w
                end
            end
      end
  end.

Definition StatementAll `{World W} (fuel : nat) (fetch : Z → Z → W → result (list StatementItem) * W)
    (yield : result StatementItem → W → bool * W) (from to pageSize : Z) (w : W) : option W :=
  let '(cursorTo, w) := if IsZero to then now w else (to, w) in
  statement_loop fuel ctx_Err fetch yield from pageSize ∅ zero_time cursorTo w.

End Pages.

Definition ContactsAll {W} `{World W} `{NetLib} `{JSON ContactsPage} (c : Client W) (ua : string) (fuel : nat)
    (yield : result Contact → W → bool * W) (pageSize : Z) (w : W) : option W :=
  pages_loop fuel ctx_Err (Contacts c ua pageSize) yield 0 w.

Definition SearchContactsAll {W} `{World W} `{NetLib} `{JSON ContactsPage} (c : Client W) (ua : string) (fuel : nat)
    (yield : result Contact → W → bool * W) (query : string) (pageSize : Z) (w : W) : option W :=
  pages_loop fuel ctx_Err (SearchContacts c ua query pageSize) yield 0 w.

(** ** NewIdempotencyKey *)

(** The version and variant bits, then the 8-4-4-4-12 layout. *)
Definition uuid_bytes (b : list Z) : list Z :=
  alter (λ x, Z.lor (Z.land x 63) 128) 8%nat (alter (λ x, Z.lor (Z.land x 15) 64) 6%nat b).

Definition uuid_string (b : list Z) : string :=
  hex_Encode (take 4 b) +:+ "-" +:+ hex_Encode (take 2 (drop 4 b)) +:+ "-" +:+ hex_Encode (take 2 (drop 6 b)) +:+
  "-" +:+ hex_Encode (take 2 (drop 8 b)) +:+ "-" +:+ hex_Encode (take 6 (drop 10 b)).

(** [rand] is what [crypto/rand] answers for sixteen bytes. *)
Definition NewIdempotencyKey (rand : result (list Z)) : result string :=
  match rand with
  | Err e => Err (EWrap "business: crypto/rand failed: %w" e)
  | Ok b => Ok (uuid_string (uuid_bytes b))
  end.

(** ** The documented endpoints *)

(** A contact list served in pages: some non-empty prefix of what is left, and
    whether more is left. *)
Definition serves_contacts {W} (fetch : Z → W → result ContactsPage * W) (db : list Contact) : Prop :=
  ∀ offset w page, 0 <= offset → (fetch offset w).1 = Ok page →
    ∃ k, ContactsPage_Contacts page = take (S k) (drop (Z.to_nat offset) db) ∧
         ContactsPage_HasMore page = bool_decide (Z.to_nat offset + length (ContactsPage_Contacts page) < length db)%nat.

(** The statement rows in a window, newest first. *)
Definition item_sec (x : StatementItem) : Z := Unix (StatementItem_Time x).

Definition item_in (from to : Z) (x : StatementItem) : Prop := Unix from <= item_sec x <= Unix to.

#[global] Instance item_in_dec from to x : Decision (item_in from to x).
Proof. unfold item_in. apply _. Defined.

Definition items_between (db : list StatementItem) (from to : Z) : list StatementItem :=
  filter (item_in from to) db.

(** At most [n] rows per answer. *)
Definition serves_items {W} (fetch : Z → Z → W → result (list StatementItem) * W) (db : list StatementItem) (n : nat) : Prop :=
  ∀ from to w page, (fetch from to w).1 = Ok page → page = take n (items_between db from to).

(** One row per second, newest first, at whole seconds. *)
Record spread (db : list StatementItem) : Prop := {
  sp_sorted : StronglySorted (λ x y, item_sec y < item_sec x) db;
  sp_whole : Forall (λ x, StatementItem_Time x = item_sec x * Second) db
}.

(** ** Lemmas *)

Section PagesFacts.
Context {W : Type} (out : W → list Contact) (ctx_Err : W → option error)
  (fetch : Z → W → result ContactsPage * W) (yield : result Contact → W → bool * W) (db : list Contact).
Hypothesis Hserves : serves_contacts fetch db.
Hypothesis Hctx : ∀ w, ctx_Err w = None.
Hypothesis Hok : ∀ o w e, (fetch o w).1 ≠ Err e.
Hypothesis Hout : ∀ o w, out (fetch o w).2 = out w.
Hypothesis Hc : Collects out yield.

Lemma pages_loop_spec fuel o w :
  (o <= length db)%nat → (length db - o < fuel)%nat →
  ∃ w', pages_loop fuel ctx_Err fetch yield (Z.of_nat o) w = Some w' ∧ out w' = out w ++ drop o db.
Proof.
  revert o w. induction fuel as [|fuel IH]; intros o w Ho Hf; [lia|]. cbn [pages_loop]. rewrite Hctx.
  pose proof (Hserves (Z.of_nat o) w) as Hs. pose proof (Hok (Z.of_nat o) w) as He.
  pose proof (Hout (Z.of_nat o) w) as Hw. destruct (fetch (Z.of_nat o) w) as [[page|e] w1]; [|by destruct (He e)].
  destruct (Hs page ltac:(lia) eq_refl) as (k & Hpage & Hmore). simpl in Hw. rewrite Nat2Z.id in Hpage, Hmore.
  destruct (yield_all_spec out yield (ContactsPage_Contacts page) w1 Hc) as [Hy1 Hy2].
  destruct (yield_all _ (ContactsPage_Contacts page) w1) as [more w2]. simpl in Hy1, Hy2. subst more. simpl.
  rewrite Hmore. set (len := length (ContactsPage_Contacts page)) in *.
  assert (len = S k `min` (length db - o))%nat as Hlen by (unfold len; by rewrite Hpage, length_take, length_drop).
  case_bool_decide as Hlt; simpl.
  - rewrite bool_decide_false by (intros Hn; apply (f_equal length) in Hn; fold len in Hn; rewrite length_nil in Hn; lia).
    replace (Z.of_nat o + Z.of_nat len) with (Z.of_nat (o + len)) by lia.
    destruct (IH (o + len)%nat w2 ltac:(lia) ltac:(lia)) as (w' & -> & Hw'). exists w'. split; [done|].
    rewrite Hw', Hy2, Hw, <- app_assoc, Hpage. f_equal.
    rewrite <- (take_drop (S k) (drop o db)) at 2. rewrite drop_drop. do 2 f_equal. lia.
  - exists w2. split; [done|]. rewrite Hy2, Hw, Hpage. f_equal. apply take_ge. rewrite length_drop. lia.
Qed.

End PagesFacts.

Lemma sorted_drop l i x :
  StronglySorted (λ x y, item_sec y < item_sec x) l → l !! i = Some x →
  filter (λ y, item_sec y <= item_sec x - 1) l = drop (S i) l.
Proof.
  intros Hs. revert i. induction Hs as [|z l Hs IH Hz]; intros i Hi; [done|]. rewrite Forall_forall in Hz.
  destruct i as [|i]; simpl in Hi.
  - simplify_eq. rewrite filter_cons_False by lia. change (drop 1 (x :: l)) with l. apply filter_all.
    apply Forall_forall. intros y Hy. specialize (Hz y Hy). simpl in Hz. lia.
  - rewrite filter_cons_False.
    + simpl. by apply IH.
    + specialize (Hz x (list_elem_of_lookup_2 _ _ _ Hi)). simpl in Hz. lia.
Qed.

Lemma items_chunk_fresh {W} (out : W → list StatementItem) yield page k w :
  Collects out yield →
  ∃ w', items_chunk (λ x, yield (Ok x)) ∅ page k w = (Some (k + Z.of_nat (length page)), w') ∧
        out w' = out w ++ page.
Proof.
  intros Hc. revert k w. induction page as [|x page IH]; intros k w; simpl.
  { exists w. rewrite app_nil_r. split; [do 2 f_equal; lia|done]. }
  rewrite bool_decide_false by set_solver.
  pose proof (co_more _ _ Hc x w) as Hm. pose proof (co_out _ _ Hc x w) as Ho.
  destruct (yield (Ok x) w) as [more w1]. simpl in *. subst more.
  destruct (IH (k + 1) w1) as (w' & -> & Ho'). exists w'. split; [do 2 f_equal; lia|].
  by rewrite Ho', Ho, <- app_assoc.
Qed.

Section StatementFacts.
Context {W : Type} (out : W → list StatementItem) (ctx_Err : W → option error)
  (fetch : Z → Z → W → result (list StatementItem) * W) (yield : result StatementItem → W → bool * W)
  (db : list StatementItem) (n : nat) (from pageSize : Z).
Hypothesis Hserves : serves_items fetch db n.
Hypothesis Hctx : ∀ w, ctx_Err w = None.
Hypothesis Hok : ∀ f t w e, (fetch f t w).1 ≠ Err e.
Hypothesis Hout : ∀ f t w, out (fetch f t w).2 = out w.
Hypothesis Hc : Collects out yield.
Hypothesis Hspread : spread db.
Hypothesis Hn : (2 <= n)%nat.
Hypothesis Hsize : 0 < pageSize → pageSize = Z.of_nat n.
Hypothesis Hafter : Forall (λ x, Unix from < item_sec x) db.

Lemma items_sorted c : StronglySorted (λ x y, item_sec y < item_sec x) (items_between db from c).
Proof. by destruct Hspread as [Hs _]; apply sorted_filter. Qed.

Lemma items_between_next c i x :
  items_between db from c !! i = Some x →
  items_between db from (StatementItem_Time x - Second) = drop (S i) (items_between db from c) ∧
  from < StatementItem_Time x <= c.
Proof.
  intros Hi. pose proof (list_elem_of_lookup_2 _ _ _ Hi) as Hin.
  apply list_elem_of_filter in Hin as [Hx Hin]. unfold item_in in Hx.
  destruct Hspread as [_ Hw]. rewrite Forall_forall in Hw, Hafter. specialize (Hw x Hin). specialize (Hafter x Hin).
  simpl in Hafter.
  assert (Unix (StatementItem_Time x - Second) = item_sec x - 1) as Hu.
  { unfold item_sec, Unix. replace (StatementItem_Time x - Second) with (StatementItem_Time x + (-1) * Second) by lia.
    rewrite Z.div_add by done. lia. }
  split.
  - rewrite <- (sorted_drop _ _ _ (items_sorted c) Hi). unfold items_between. rewrite list_filter_filter.
    apply list_filter_iff. intros y. unfold item_in. rewrite Hu. lia.
  - unfold Unix in *. pose proof (Z.div_mod from Second ltac:(done)). pose proof (Z.mod_pos_bound from Second ltac:(done)).
    pose proof (Z.div_mod c Second ltac:(done)). pose proof (Z.mod_pos_bound c Second ltac:(done)).
    unfold Second in *. lia.
Qed.

Lemma Unix_le_of_le c d : c <= d → Unix c <= Unix d.
Proof. apply Unix_mono. Qed.

(** Nothing is left below the start of the interval. *)
Lemma items_between_nil c : c <= from → items_between db from c = [].
Proof.
  intros Hle. apply filter_none. eapply Forall_impl; [exact Hafter|]. intros x Hx. unfold item_in.
  apply Unix_mono in Hle. simpl in Hx. lia.
Qed.

Lemma statement_loop_spec fuel cs c w :
  (S (length (items_between db from c)) < fuel)%nat →
  ∃ w', statement_loop fuel ctx_Err fetch yield from pageSize ∅ cs c w = Some w' ∧
        out w' = out w ++ items_between db from c.
Proof.
  revert cs c w. induction fuel as [|fuel IH]; intros cs c w Hf; [lia|]. cbn [statement_loop]. rewrite Hctx.
  destruct (Z.leb_spec c from) as [Hle|Hgt].
  { exists w. rewrite items_between_nil by done. by rewrite app_nil_r. }
  pose proof (Hserves from c w) as Hs. pose proof (Hok from c w) as He. pose proof (Hout from c w) as Hw.
  destruct (fetch from c w) as [[page|e] w1]; [|by destruct (He e)]. simpl in Hw.
  specialize (Hs page eq_refl). set (rows := items_between db from c) in *.
  destruct page as [|nw page'] eqn:Hp.
  { exists w1. split; [done|]. destruct rows; [by rewrite app_nil_r|destruct n; [lia|done]]. }
  rewrite <- Hp in *. destruct (last page) as [old|] eqn:Hlast; [|by apply last_None in Hlast; rewrite Hlast in Hp].
  assert (length page = n `min` length rows)%nat as Hlen by (by rewrite Hs, length_take).
  assert (rows !! pred (length page) = Some old) as Hold.
  { assert (take n rows !! pred (length page) = Some old) as Hl by (by rewrite <- Hs, <- last_lookup).
    by apply lookup_take_Some in Hl as [? _]. }
  assert (rows !! 0%nat = Some nw) as Hnew.
  { assert (page !! 0%nat = Some nw) as Hl by (by rewrite Hp). rewrite Hs in Hl. by apply lookup_take_Some in Hl as [? _]. }
  assert (0 < length page)%nat by (rewrite Hp; simpl; lia).
  destruct (items_between_next c _ _ Hold) as [Hnext Hbounds]. fold rows in Hnext.
  replace (S (pred (length page))) with (length page) in Hnext by lia.
  destruct (items_chunk_fresh out yield page 0 w1 Hc) as (w2 & Hchunk & Hw2). rewrite Hchunk. cbv zeta.
  destruct (Z.eqb_spec (StatementItem_Time old) (StatementItem_Time nw)) as [Hsame|Hdiff].
  - (* one row *)
    assert (length page = 1%nat) as H1.
    { destruct (decide (length page = 1%nat)) as [|Hne]; [done|]. exfalso.
      pose proof (sorted_drop rows 0 nw (items_sorted c) Hnew) as Hd.
      assert (old ∈ drop 1 rows) as Hin.
      { apply list_elem_of_lookup_2 with (pred (pred (length page))). rewrite lookup_drop.
        by replace (1 + pred (pred (length page)))%nat with (pred (length page)) by lia. }
      rewrite <- Hd in Hin. apply list_elem_of_filter in Hin as [Hin _]. unfold item_sec in Hin. rewrite Hsame in Hin. lia. }
    assert (rows = [nw]) as Hrows.
    { destruct rows as [|r0 [|r1 rows']]; [done|simpl in Hnew; by simplify_eq|]. simpl in Hlen. lia. }
    assert (page = [nw]) as Hpage by (rewrite Hs, Hrows; destruct n as [|[|?]]; [lia|lia|done]).
    rewrite H1. destruct (Z.leb_spec pageSize 0) as [Hps|Hps].
    + (* the refetch sees only what was seen *)
      simpl.
      destruct fuel as [|fuel]; [lia|]. cbn [statement_loop]. rewrite Hctx.
      rewrite (proj2 (Z.leb_gt _ _)) by lia.
      pose proof (Hserves from (StatementItem_Time old) w2) as Hs'. pose proof (Hok from (StatementItem_Time old) w2) as He'.
      pose proof (Hout from (StatementItem_Time old) w2) as Hw'.
      destruct (fetch from (StatementItem_Time old) w2) as [[page2|e] w3]; [|by destruct (He' e)]. simpl in Hw'.
      specialize (Hs' page2 eq_refl). rewrite Hsame in Hs'.
      assert (items_between db from (StatementItem_Time nw) = [nw]) as Hr2.
      { transitivity (filter (λ y, item_sec y <= item_sec nw) rows).
        - unfold rows, items_between. rewrite list_filter_filter. apply list_filter_iff. intros y.
          unfold item_in. fold (item_sec nw).
          assert (nw ∈ items_between db from c) as Hin by (by apply list_elem_of_lookup_2 with 0%nat).
          apply list_elem_of_filter in Hin as [[Hi1 Hi2] _]. lia.
        - rewrite Hrows. by rewrite filter_cons_True by lia. }
      assert (page2 = [nw]) as -> by (rewrite Hs', Hr2; destruct n as [|[|?]]; [lia|lia|done]).
      rewrite Hpage. simpl. rewrite bool_decide_true by set_solver. rewrite Z.eqb_refl.
      rewrite (proj2 (Z.leb_le pageSize 0)) by lia. simpl. exists w3. split; [done|].
      by rewrite Hw', Hw2, Hw, Hpage, Hrows.
    + replace (pageSize <=? Z.of_nat 1) with false by (symmetry; apply Z.leb_gt; specialize (Hsize Hps); lia). simpl.
      rewrite (proj2 (Z.leb_gt c _)) by (unfold Second in *; lia).
      destruct (IH zero_time (StatementItem_Time old - Second) w2) as (w' & -> & Hw').
      { rewrite Hnext, H1, Hrows. simpl. rewrite Hrows in Hf. simpl in Hf. lia. }
      exists w'. split; [done|]. by rewrite Hw', Hnext, H1, Hw2, Hw, Hpage, Hrows, app_nil_r.
  - simpl. rewrite (proj2 (Z.leb_gt c _)) by (unfold Second in *; lia).
    destruct (IH zero_time (StatementItem_Time old - Second) w2) as (w' & -> & Hw').
    { rewrite Hnext, length_drop. lia. }
    exists w'. split; [done|]. rewrite Hw', Hnext, Hw2, Hw, <- app_assoc. f_equal.
    assert (take (length page) rows = page) as Ht.
    { rewrite Hs at 2. rewrite Hlen. destruct (Nat.min_spec n (length rows)) as [[? ->]|[? ->]]; [done|].
      by rewrite !take_ge by lia. }
    rewrite <- (take_drop (length page) rows) at 2. by rewrite Ht.
Qed.

End StatementFacts.

(** ** Examples *)

(** A consumer that keeps everything, an error included, in a list. *)
Definition collect {A} (r : result A) (w : list A) : bool * list A :=
  match r with Ok x => (true, w ++ [x]) | Err _ => (false, w) end.

Lemma collect_collects {A} : Collects (λ w : list A, w) collect.
Proof. by split. Qed.

Definition item (id : string) (t : Z) : StatementItem :=
  mkStatementItem id "" (t * Second) 0 "" (mkMoney 0 980) "UAH" "" "" "" "" false "DONE" None.

Definition item_server (db : list StatementItem) (n : nat) (from to : Z) (w : list StatementItem)
    : result (list StatementItem) * list StatementItem := (Ok (take n (items_between db from to)), w).

Definition run_statement (db : list StatementItem) (n : nat) (from to pageSize : Z) : option (list StatementItem) :=
  statement_loop 20 (λ _, None) (item_server db n) collect from pageSize ∅ zero_time to [].

(** ** Properties *)

(** Paging by offset yields the whole list of contacts, in order, each once,
    whatever page sizes the server chooses; as many calls as there are contacts,
    plus one, suffice.  [ContactsAll] and [SearchContactsAll] are this loop over
    their endpoint. *)
Theorem contacts_paging_complete {W} (out : W → list Contact) ctx_Err fetch yield db fuel w :
  serves_contacts fetch db → (∀ w, ctx_Err w = None) → (∀ o w e, (fetch o w).1 ≠ Err e) →
  (∀ o w, out (fetch o w).2 = out w) → Collects out yield → (length db < fuel)%nat →
  ∃ w', pages_loop fuel ctx_Err fetch yield 0 w = Some w' ∧ out w' = out w ++ db.
Proof.
  intros Hs Hctx Hok Hout Hc Hf.
  destruct (pages_loop_spec out ctx_Err fetch yield db Hs Hctx Hok Hout Hc fuel 0 w ltac:(lia) ltac:(lia))
    as (w' & Hr & Hw).
  exists w'. by rewrite drop_0 in Hw.
Qed.

Definition some_contact (id : string) : Contact := mkContact id 1 "" "" "" "" "" "" "".

(** Two contacts to a page. *)
Definition contact_server (db : list Contact) (offset : Z) (w : list Contact) : result ContactsPage * list Contact :=
  let p := take 2 (drop (Z.to_nat offset) db) in
  (Ok (mkContactsPage (bool_decide (Z.to_nat offset + length p < length db)%nat) p), w).

Lemma contacts_paging_complete_witness :
  let db := some_contact <$> ["a"; "b"; "c"; "d"; "e"] in
  ∃ w', pages_loop 6 (λ _, None) (contact_server db) collect 0 [] = Some w' ∧ w' = [] ++ db.
Proof.
  intros db. apply (contacts_paging_complete (λ w, w) (λ _, None) (contact_server db) collect db 6 []).
  - intros offset w page _ [= <-]. by exists 1%nat.
  - done.
  - done.
  - done.
  - apply collect_collects.
  - simpl. lia.
Defined.

(** C32: when every row has a second of its own, lies after the second of [from]
    and answers carry at least two rows, [StatementAll] yields exactly the rows
    of the interval, newest first, each once, and stops by itself, whether the
    page size is given or left to the API. *)
Theorem StatementAll_complete {W} `{World W} (out : W → list StatementItem) fetch yield db n fuel from to pageSize w :
  serves_items fetch db n → (∀ w : W, ctx_Err w = None) → (∀ f t w e, (fetch f t w).1 ≠ Err e) →
  (∀ f t w, out (fetch f t w).2 = out w) → Collects out yield → spread db →
  (2 <= n)%nat → (0 < pageSize → pageSize = Z.of_nat n) → Forall (λ x, Unix from < item_sec x) db →
  IsZero to = false → (S (length db) < fuel)%nat →
  ∃ w', StatementAll fuel fetch yield from to pageSize w = Some w' ∧ out w' = out w ++ items_between db from to.
Proof.
  intros Hs Hctx Hok Hout Hc Hsp Hn Hsize Hafter Hz Hf. unfold StatementAll. rewrite Hz.
  apply (statement_loop_spec out ctx_Err fetch yield db n from pageSize); try done.
  pose proof (length_filter (item_in from to) db). unfold items_between. lia.
Qed.

#[local] Instance items_world : World (list StatementItem) := {|
  now w := (0, w); rand_Int64N _ w := (0, w); ctx_Err _ := None; wait _ w := (None, w) |}.

Lemma StatementAll_complete_witness :
  let db := [item "c" 30; item "b" 20; item "a" 10] in
  ∃ w', StatementAll 5 (item_server db 2) collect 0 (100 * Second) 2 [] = Some w' ∧
        w' = [] ++ items_between db 0 (100 * Second).
Proof.
  intros db. apply (StatementAll_complete (λ w, w) (item_server db 2) collect db 2 5 0 (100 * Second) 2 []).
  - by intros f t w page [= <-].
  - done.
  - done.
  - done.
  - apply collect_collects.
  - split; [repeat constructor; by vm_compute|by repeat constructor].
  - lia.
  - done.
  - repeat constructor; by vm_compute.
  - by vm_compute.
  - simpl. lia.
Defined.

(** Outside these conditions rows are lost without an error: the rest of a
    second that an answer cuts in two (the bound moves past the whole second),
    a row in the very second of [from] when the bound reaches it, and everything
    after the first row when pages hold a single row. *)
Theorem StatementAll_gaps :
  (let db := [item "d" 30; item "c" 20; item "b" 20; item "a" 10] in
   run_statement db 2 0 (100 * Second) 2 = Some [item "d" 30; item "c" 20; item "a" 10]) ∧
  (let db := [item "c" 30; item "b" 11; item "a" 10] in
   run_statement db 2 (10 * Second) (100 * Second) 2 = Some [item "c" 30; item "b" 11] ∧
   item "a" 10 ∈ items_between db (10 * Second) (100 * Second)) ∧
  (let db := [item "c" 30; item "b" 20; item "a" 10] in
   run_statement db 1 0 (100 * Second) 1 = Some [item "c" 30]).
Proof.
  split; [by vm_compute|]. split; [|by vm_compute]. split; [by vm_compute|].
  apply list_elem_of_filter. split; [by vm_compute|]. right. right. by left.
Qed.

(** C39: A generated key is always a version 4, variant 1 UUID in the 8-4-4-4-12
    form: 36 characters, dashes at 8, 13, 18 and 23, the digit 4 at 14, one of
    8, 9, a, b at 19 and lower-case hexadecimal elsewhere; in particular it is
    never the empty string [PreparePayment] refuses. *)
Theorem NewIdempotencyKey_v4 rand b key :
  rand = Ok b → length b = 16%nat → Forall (λ x, 0 <= x < 256) b → NewIdempotencyKey rand = Ok key →
  String.length key = 36%nat ∧
  Forall (λ i, String.get i key = Some "-"%char) [8; 13; 18; 23]%nat ∧
  String.get 14 key = Some "4"%char ∧
  (∃ a, String.get 19 key = Some a ∧ a ∈ ["8"; "9"; "a"; "b"]%char) ∧
  Forall (λ a, a = "-"%char ∨ is_digit a = true ∨ 97 <= byte_of a <= 102) (chars key).
Proof.
  intros -> Hl Hb [= <-].
  do 16 (destruct b as [|? b]; [done|]). destruct b; [|done]. clear Hl.
  assert (∀ n, 0 <= n < 16 → is_digit (lower_hex n) = true ∨ 97 <= byte_of (lower_hex n) <= 102) as Hx.
  { intros n Hn. assert (n ∈ seqZ 0 16) as Hin by (apply elem_of_seqZ; lia). clear Hn.
    revert n Hin. apply Forall_forall. by apply (bool_decide_unpack _); vm_compute. }
  assert (∀ x, 0 <= x < 256 → 0 <= x / 16 < 16 ∧ 0 <= x mod 16 < 16) as Hd.
  { intros x Hx0. pose proof (Z.div_mod x 16 ltac:(lia)). pose proof (Z.mod_pos_bound x 16 ltac:(lia)). lia. }
  assert (∀ x, 0 <= x < 256 → 0 <= Z.lor (Z.land x 15) 64 < 256 ∧ lower_hex (Z.lor (Z.land x 15) 64 / 16) = "4"%char ∧
            0 <= Z.lor (Z.land x 63) 128 < 256 ∧
            lower_hex (Z.lor (Z.land x 63) 128 / 16) ∈ ["8"; "9"; "a"; "b"]%char) as Hm.
  { intros x Hx0. assert (x ∈ seqZ 0 256) as Hin by (apply elem_of_seqZ; lia). clear Hx0.
    revert x Hin. apply Forall_forall. by apply (bool_decide_unpack _); vm_compute. }
  rewrite !Forall_cons in Hb. destruct_and! Hb.
  destruct (Hm z5 ltac:(lia)) as (Hm1 & Hm2 & _). destruct (Hm z7 ltac:(lia)) as (_ & _ & Hm3 & Hm4).
  split; [done|]. split; [by repeat constructor|]. split; [simpl; by f_equal|].
  split; [eexists; split; [reflexivity|exact Hm4]|].
  unfold uuid_string, uuid_bytes, chars. simpl.
  repeat (apply Forall_cons; split; [first [by left|right; apply Hx, Hd; lia|right; apply Hx; lia]|]). constructor.
Qed.

Lemma NewIdempotencyKey_v4_witness :
  let key := uuid_string (uuid_bytes (seqZ 0 16)) in
  key = "00010203-0405-4607-8809-0a0b0c0d0e0f" ∧ String.length key = 36%nat ∧ String.get 14 key = Some "4"%char.
Proof.
  intros key. split; [by vm_compute|].
  destruct (NewIdempotencyKey_v4 (Ok (seqZ 0 16)) (seqZ 0 16) key eq_refl eq_refl
              ltac:(by apply (bool_decide_unpack _); vm_compute) eq_refl) as (H1 & _ & H2 & _).
  split; [exact H1|exact H2].
Defined.
