(* ===== verification/Basket.v ===== *)
(** * Basket orders (acquiring/basket.go)

    The lines of a fiscal basket: what a valid line is, how a missing total is
    filled in, and the accumulator that keeps the first failure and compares
    the sum of the lines with the amount of the invoice. *)
From S2P Require Import Prelude GoString GoFloat Errors Currency Money Acquiring.

Definition ErrBasketName : string := "acquiring.ErrBasketName".
Definition ErrBasketCode : string := "acquiring.ErrBasketCode".
Definition ErrBasketQty : string := "acquiring.ErrBasketQty".
Definition ErrBasketSum : string := "acquiring.ErrBasketSum".
Definition ErrBasketTotal : string := "acquiring.ErrBasketTotal".

(** [BasketOption]: a function that updates the item it is given. *)
Abbreviation BasketOption := (BasketItem → BasketItem).

Section Basket.
Context `{Hg : GoArch}.

Definition expectedTotal (qty : float64) (sum : Z) : Z :=
  let r := f_mul qty (float64_of_Z sum) in
  if f_ge r f_zero then int64_of_float (f_add r f_half) else int64_of_float (f_sub r f_half).

(** [Validate]: the error, if any. *)
Definition Validate (it : BasketItem) : option error :=
  if String.eqb (BasketItem_Name it) "" then Some (ENew ErrBasketName)
  else if String.eqb (BasketItem_Code it) "" then Some (EWrap "%w (item %q)" (ENew ErrBasketCode))
  else if f_le (BasketItem_Qty it) f_zero || IsNaN (BasketItem_Qty it) || IsInf (BasketItem_Qty it)
  then Some (EWrap "%w (item %q): %v" (ENew ErrBasketQty))
  else if BasketItem_Sum it <=? 0 then Some (EWrap "%w (item %q): %d" (ENew ErrBasketSum))
  else if negb (BasketItem_Total it =? 0) then
    if negb (BasketItem_Total it =? expectedTotal (BasketItem_Qty it) (BasketItem_Sum it))
    then Some (EWrap "%w (item %q): total=%d, qty*sum=%d" (ENew ErrBasketTotal)) else None
  else None.

Definition set_Total (t : Z) (it : BasketItem) : BasketItem :=
  mkBasketItem (BasketItem_Name it) (BasketItem_Qty it) (BasketItem_Sum it) t (BasketItem_Icon it) (BasketItem_Unit it)
    (BasketItem_Code it) (BasketItem_Barcode it) (BasketItem_Header it) (BasketItem_Footer it) (BasketItem_Tax it)
    (BasketItem_UKTZED it) (BasketItem_Discounts it) (BasketItem_SplitReceiverID it).

Definition Filled (it : BasketItem) : BasketItem :=
  if BasketItem_Total it =? 0 then set_Total (expectedTotal (BasketItem_Qty it) (BasketItem_Sum it)) it else it.

Definition NewBasketItem (name code : string) (qty : float64) (unitSum : Z) (opts : list BasketOption) : result BasketItem :=
  let it := mkBasketItem name qty unitSum 0 "" "" code "" "" "" [] "" [] "" in
  let it := foldl (λ it o, o it) it opts in
  let it := Filled it in
  match Validate it with Some e => Err e | None => Ok it end.

Record Basket := mkBasket { items : list BasketItem; err : option error }.

Definition NewBasket : Basket := mkBasket [] None.

Definition Add (b : Basket) (it : BasketItem) : Basket :=
  match err b with
  | Some _ => b
  | None =>
      let it := Filled it in
      match Validate it with
      | Some e => mkBasket (items b) (Some e)
      | None => mkBasket (items b ++ [it]) None
      end
  end.

Definition AddItem (b : Basket) (name code : string) (qty : float64) (unitSum : Z) (opts : list BasketOption) : Basket :=
  match err b with
  | Some _ => b
  | None =>
      match NewBasketItem name code qty unitSum opts with
      | Err e => mkBasket (items b) (Some e)
      | Ok it => mkBasket (items b ++ [it]) None
      end
  end.

(** The loop of [Total]: an [int64] accumulator. *)
Definition Total (b : Basket) : Z := foldl (λ s it, (s +! BasketItem_Total it)%go) 0 (items b).
Definition Basket_Len (b : Basket) : Z := Z.of_nat (length (items b)).
Definition Basket_Err (b : Basket) : option error := err b.

Definition Items (b : Basket) : result (list BasketItem) :=
  match err b with Some e => Err e | None => Ok (items b) end.

Definition Build (b : Basket) (wantTotal : Z) : result (list BasketItem) :=
  match err b with
  | Some e => Err e
  | None =>
      if negb (wantTotal =? 0) && negb (Total b =? wantTotal)
      then Err (EWrap "%w: basket total=%d, invoice amount=%d" (ENew ErrBasketTotal))
      else Items b
  end.

End Basket.

Definition WithIcon (url : string) : BasketOption := λ it,
  mkBasketItem (BasketItem_Name it) (BasketItem_Qty it) (BasketItem_Sum it) (BasketItem_Total it) url (BasketItem_Unit it)
    (BasketItem_Code it) (BasketItem_Barcode it) (BasketItem_Header it) (BasketItem_Footer it) (BasketItem_Tax it)
    (BasketItem_UKTZED it) (BasketItem_Discounts it) (BasketItem_SplitReceiverID it).
Definition WithBarcode (code : string) : BasketOption := λ it,
  mkBasketItem (BasketItem_Name it) (BasketItem_Qty it) (BasketItem_Sum it) (BasketItem_Total it) (BasketItem_Icon it) (BasketItem_Unit it)
    (BasketItem_Code it) code (BasketItem_Header it) (BasketItem_Footer it) (BasketItem_Tax it)
    (BasketItem_UKTZED it) (BasketItem_Discounts it) (BasketItem_SplitReceiverID it).
Definition WithUKTZED (code : string) : BasketOption := λ it,
  mkBasketItem (BasketItem_Name it) (BasketItem_Qty it) (BasketItem_Sum it) (BasketItem_Total it) (BasketItem_Icon it) (BasketItem_Unit it)
    (BasketItem_Code it) (BasketItem_Barcode it) (BasketItem_Header it) (BasketItem_Footer it) (BasketItem_Tax it)
    code (BasketItem_Discounts it) (BasketItem_SplitReceiverID it).
Definition WithBasketTax (tax : list Z) : BasketOption := λ it,
  mkBasketItem (BasketItem_Name it) (BasketItem_Qty it) (BasketItem_Sum it) (BasketItem_Total it) (BasketItem_Icon it) (BasketItem_Unit it)
    (BasketItem_Code it) (BasketItem_Barcode it) (BasketItem_Header it) (BasketItem_Footer it) tax
    (BasketItem_UKTZED it) (BasketItem_Discounts it) (BasketItem_SplitReceiverID it).
Definition WithBasketHeader (s : string) : BasketOption := λ it,
  mkBasketItem (BasketItem_Name it) (BasketItem_Qty it) (BasketItem_Sum it) (BasketItem_Total it) (BasketItem_Icon it) (BasketItem_Unit it)
    (BasketItem_Code it) (BasketItem_Barcode it) s (BasketItem_Footer it) (BasketItem_Tax it)
    (BasketItem_UKTZED it) (BasketItem_Discounts it) (BasketItem_SplitReceiverID it).
Definition WithBasketFooter (s : string) : BasketOption := λ it,
  mkBasketItem (BasketItem_Name it) (BasketItem_Qty it) (BasketItem_Sum it) (BasketItem_Total it) (BasketItem_Icon it) (BasketItem_Unit it)
    (BasketItem_Code it) (BasketItem_Barcode it) (BasketItem_Header it) s (BasketItem_Tax it)
    (BasketItem_UKTZED it) (BasketItem_Discounts it) (BasketItem_SplitReceiverID it).
Definition WithBasketDiscounts (d : list Adjustment) : BasketOption := λ it,
  mkBasketItem (BasketItem_Name it) (BasketItem_Qty it) (BasketItem_Sum it) (BasketItem_Total it) (BasketItem_Icon it) (BasketItem_Unit it)
    (BasketItem_Code it) (BasketItem_Barcode it) (BasketItem_Header it) (BasketItem_Footer it) (BasketItem_Tax it)
    (BasketItem_UKTZED it) d (BasketItem_SplitReceiverID it).

(** ** Chains of calls *)

Inductive basket_call :=
| CAdd (it : BasketItem)
| CAddItem (name code : string) (qty : float64) (unitSum : Z) (opts : list BasketOption).

Section Chains.
Context `{Hg : GoArch}.

Definition do_basket (b : Basket) (o : basket_call) : Basket :=
  match o with CAdd it => Add b it | CAddItem n c q s opts => AddItem b n c q s opts end.

Definition chain (os : list basket_call) : Basket := foldl do_basket NewBasket os.




(** The sum of the lines, in the integers. *)
Definition lines_sum (l : list BasketItem) : Z := foldr Z.add 0 (BasketItem_Total <$> l).

(** ** Lemmas *)














(** ** Properties *)



End Chains.






(** The totals are added in 64 bits, so a basket of five lines whose sum is
    [2^64 + 100] kopecks passes the check against an invoice of 100. *)
Theorem Build_wraps :
  let big := CAddItem "gold" "AU" f_one (2 ^ 62) [] in
  let os := [big; big; big; big; CAddItem "tea" "T" f_one 100 []] in
  match Build (chain (Hg := amd64) os) 100 with
  | Ok l => lines_sum l = 2 ^ 64 + 100
  | Err _ => False
  end.
Proof. by vm_compute. Qed.

(** Adding a half before truncating is not rounding half away from zero: a
    quantity just below one half of a kopeck is charged a whole one, and past
    [2^52] an odd total of a single unit comes out one kopeck too high, so the
    correct total is refused by [Validate]. *)
Theorem expectedTotal_misrounds :
  let below_half := S754_finite false 9007199254740991 (-54) in
  f_lt below_half f_half = true ∧ expectedTotal (Hg := amd64) below_half 1 = 1 ∧
  let item t := mkBasketItem "gold" f_one (2 ^ 52 + 1) t "" "" "AU" "" "" "" [] "" [] "" in
  expectedTotal (Hg := amd64) f_one (2 ^ 52 + 1) = 2 ^ 52 + 2 ∧
  Validate (Hg := amd64) (item (2 ^ 52 + 1)) ≠ None ∧ Validate (Hg := amd64) (item (2 ^ 52 + 2)) = None.
Proof. split_and!; by vm_compute. Qed.
