(* ===== verification/AcqErrors.v ===== *)
(** * Typed acquiring errors (acquiring/errors.go)

    [AsAPIError] takes the transport's error out of a chain and reads the
    acquiring code and text from its body; the predicates decide on the code
    when there is one, else on the HTTP status. *)
From S2P Require Import Prelude GoString Errors.

Abbreviation ErrCode := string (only parsing).
Definition CodeBadRequest : ErrCode := "BAD_REQUEST".
Definition CodeForbidden : ErrCode := "FORBIDDEN".
Definition CodeNotFound : ErrCode := "NOT_FOUND".
Definition CodeMethodNotAllowed : ErrCode := "METHOD_NOT_ALLOWED".
Definition CodeTooManyRequests : ErrCode := "TMR".
Definition CodeInternalError : ErrCode := "INTERNAL_ERROR".

(** [APIError] of this package, [base] being the transport's. *)
Record AcqAPIError := mkAcqAPIError { acqStatusCode : Z; acqCode : ErrCode; acqText : string; base : option APIError }.

Record errCodeBody := mkErrCodeBody { body_ErrCode : string; body_ErrText : string }.

(** The method [Error]. *)
Definition AcqAPIError_Error (e : AcqAPIError) : string :=
  if negb (String.eqb (acqCode e) "") && negb (String.eqb (acqText e) "")
  then "acquiring: HTTP " +:+ Itoa (acqStatusCode e) +:+ " " +:+ acqCode e +:+ ": " +:+ acqText e
  else if negb (String.eqb (acqCode e) "") then "acquiring: HTTP " +:+ Itoa (acqStatusCode e) +:+ " " +:+ acqCode e
  else match base e with
       | Some b => APIError_Error b
       | None => "acquiring: HTTP " +:+ Itoa (acqStatusCode e)
       end.

(** The method [Unwrap]. *)
Definition AcqAPIError_Unwrap (e : AcqAPIError) : option error := EAPI <$> base e.

Section Parse.
(** [json.Unmarshal] of a body into [errCodeBody]. *)
Context (json_errCode : string → option errCodeBody).

Definition AsAPIError (err : option error) : option AcqAPIError :=
  match err with
  | None => None
  | Some err =>
      match errors_As_APIError err with
      | None => None
      | Some b =>
          let '(code, text) := match json_errCode (Body b) with
                               | Some body => (body_ErrCode body, body_ErrText body)
                               | None => ("", "")
                               end in
          let text := if String.eqb text "" then ErrorDescription b else text in
          Some (mkAcqAPIError (StatusCode b) code text (Some b))
      end
  end.

Definition AcqErrors_Code (err : option error) : ErrCode :=
  match AsAPIError err with Some e => acqCode e | None => "" end.

Definition is_ (err : option error) (code : ErrCode) (status : Z) : bool :=
  match AsAPIError err with
  | None => false
  | Some e => if negb (String.eqb (acqCode e) "") then String.eqb (acqCode e) code else acqStatusCode e =? status
  end.

Definition IsBadRequest (err : option error) : bool := is_ err CodeBadRequest 400.
Definition IsForbidden (err : option error) : bool := is_ err CodeForbidden 403.
Definition IsNotFound (err : option error) : bool := is_ err CodeNotFound 404.
Definition IsTooManyRequests (err : option error) : bool := is_ err CodeTooManyRequests 429.
Definition IsInternalError (err : option error) : bool := is_ err CodeInternalError 500.

(** ** Lemmas *)

Definition predicates : list (option error → bool) :=
  [IsBadRequest; IsForbidden; IsNotFound; IsTooManyRequests; IsInternalError].

(** The sentinels of an [*APIError] found in a chain hold of the chain. *)
Lemma errors_Is_APIError e a target :
  errors_As_APIError e = Some a → APIError_Is a target = true → errors_Is e target = true.
Proof. intros He Ha. induction e; simpl in *; simplify_eq; auto. Qed.

Lemma predicates_disjoint err i j p q :
  predicates !! i = Some p → predicates !! j = Some q → p err = true → q err = true → i = j.
Proof.
  unfold predicates, IsBadRequest, IsForbidden, IsNotFound, IsTooManyRequests, IsInternalError, is_.
  intros Hi Hj Hp Hq.
  destruct i as [|[|[|[|[|i]]]]]; [..|done]; destruct j as [|[|[|[|[|j]]]]]; try done; simpl in *; simplify_eq;
  destruct (AsAPIError err) as [a|]; try done;
  destruct (negb (String.eqb (acqCode a) "")); rewrite ?String.eqb_eq, ?Z.eqb_eq in Hp, Hq; rewrite Hp in Hq; discriminate Hq.
Qed.

(** ** Properties *)

(** A typed error exists exactly for a chain with a transport error in it; it
    keeps its status, unwraps to it so that every sentinel of the transport
    still matches, its text falls back on the transport's description, and no
    two of the predicates hold of the same error. *)
Theorem AsAPIError_spec err :
  (AsAPIError err = None ↔ (err ≫= errors_As_APIError) = None) ∧
  (∀ a, AsAPIError err = Some a →
     ∃ e b, err = Some e ∧ errors_As_APIError e = Some b ∧ acqStatusCode a = StatusCode b ∧
       AcqAPIError_Unwrap a = Some (EAPI b) ∧
       (∀ target, (λ e, errors_Is e target) <$> AcqAPIError_Unwrap a = Some true → errors_Is e target = true) ∧
       (json_errCode (Body b) = None → acqCode a = "" ∧ acqText a = ErrorDescription b) ∧
       (∀ x, json_errCode (Body b) = Some x → acqCode a = body_ErrCode x ∧
          acqText a = if String.eqb (body_ErrText x) "" then ErrorDescription b else body_ErrText x)) ∧
  (∀ i j p q, predicates !! i = Some p → predicates !! j = Some q → p err = true → q err = true → i = j).
Proof.
  split_and!; [| |intros *; apply predicates_disjoint].
  - unfold AsAPIError. destruct err as [e|]; [|done]. simpl. destruct (errors_As_APIError e); [|done].
    split; [|done]. by destruct (json_errCode _).
  - unfold AsAPIError. intros a Ha. destruct err as [e|]; [|done]. destruct (errors_As_APIError e) as [b|] eqn:He; [|done].
    exists e, b. split; [done|]. split; [done|].
    destruct (json_errCode (Body b)) as [x|]; simplify_eq/=; split_and!; try done;
      intros; simplify_eq/=; try done; by eapply errors_Is_APIError.
Qed.

End Parse.

(** The predicates look at the HTTP status only when the body carries no
    code: a 404 with a code the SDK does not list is not [IsNotFound], although
    the transport's sentinel matches it. *)
Theorem predicates_ignore_status :
  let parse := λ s, if String.eqb s "x" then Some (mkErrCodeBody "INVOICE_NOT_FOUND" "no") else None in
  let err := Some (EAPI (mkAPIError "GET" "/" 404 [200] "" "" "x")) in
  IsNotFound parse err = false ∧ (λ e, errors_Is e ErrNotFound) <$> err = Some true ∧
  IsNotFound parse (Some (EAPI (mkAPIError "GET" "/" 404 [200] "" "" "<html>"))) = true.
Proof. split_and!; by vm_compute. Qed.

Definition no_code (_ : string) : option errCodeBody := None.
