(* ===== verification/AcqApi.v ===== *)
(** * The acquiring API (acquiring/client.go, invoice.go, merchant.go, wallet.go,
      qr.go, pos.go, monopay.go, split.go, terminal.go, subscription.go)

    Every endpoint method over the transport: the refusals before a request
    exists, the request that goes out, what is decoded. *)
From S2P Require Import Prelude GoString GoText GoFloat GoTime Errors Currency Money GoHttp Retry Client Options Endpoint.
From S2P Require Import BankData Acquiring.

Definition ErrEmptyID : string := "acquiring.ErrEmptyID".
Definition ErrNilRequest : string := "acquiring.ErrNilRequest".

Definition BaseURL : string := "https://api.monobank.ua".

Section Api.
Context {W : Type} `{World W} `{NetLib}.

(** ** client.go *)

Definition TokenAuth_SetAuth (token : string) (r : Request) (w : W) : option error * Request * W :=
  let r := set_Header "X-Token" token r in
  (None, if String.eqb (Header_Get (rHeader r) "Accept") "" then set_Header "Accept" "application/json" r else r, w).

Definition TokenAuth_LogValue (token : string) : slog := SlString "acquiring.TokenAuth{Token:***}".

Definition New (http : HTTPDoer W) (token : string) (opts : list (Client W → Client W)) : Client W :=
  Options.New http (WithBaseURL BaseURL :: WithAuth (Some (TokenAuth_SetAuth token)) :: opts).

(** ** Shapes *)

Context (c : Client W) (ua : string).

(** [url.Values{k: v}], encoded after the path. *)
Definition query1 (path k v : string) : string := path +:+ "?" +:+ Values_Encode (Values_Set k v []).

(** A POST of a request that may be nil. *)
Definition post_opt {A B} `{JSON A} `{JSON B} (uri : string) (in_ : option A) (w : W) : result B * W :=
  match in_ with
  | None => (Err (ENew ErrNilRequest), w)
  | Some x => send_json c ua "POST" uri x id w
  end.

Definition with_id {A} (ident : string) (k : W → result A * W) (w : W) : result A * W :=
  if String.eqb ident "" then (Err (ENew ErrEmptyID), w) else k w.

Definition with_id_ack (ident : string) (k : W → option error * W) (w : W) : option error * W :=
  if String.eqb ident "" then (Some (ENew ErrEmptyID), w) else k w.

(** The list inside an envelope. *)
Definition project {A B} (f : A → B) (r : result A * W) : result B * W :=
  match r with (Err e, w) => (Err e, w) | (Ok x, w) => (Ok (f x), w) end.

Context `{JSON CreateInvoiceRequest, JSON CreateInvoiceResponse, JSON InvoiceStatusResponse, JSON CancelRequest,
  JSON CancelResponse, JSON FinalizeRequest, JSON FinalizeResponse, JSON RemoveRequest, JSON FiscalChecksResponse,
  JSON ReceiptResponse, JSON PaymentDirectRequest, JSON PaymentDirectResponse, JSON SyncPaymentRequest,
  JSON MerchantDetails, JSON EmployeeList, JSON ServerKey, JSON SubmerchantList, JSON StatementResponse,
  JSON WalletResponse, JSON WalletPaymentRequest, JSON QRList, JSON QRDetails, JSON ResetAmountRequest,
  JSON POSTransactionCancelRequest, JSON MonoPayKeyImportRequest, JSON MonoPayKeyImportResponse,
  JSON MonoPayKeyDeleteRequest, JSON MonoPayKeyListResponse, JSON SplitReceiverListResponse,
  JSON TerminalListResponse, JSON T2PPaymentStatusResponse, JSON SubscriptionCreateRequest,
  JSON SubscriptionCreateResponse, JSON SubscriptionEditRequest, JSON SubscriptionRemoveRequest,
  JSON SubscriptionStatusResponse, JSON SubscriptionsListResponse, JSON SubscriptionPaymentsResponse}.

(** ** invoice.go *)
Definition CreateInvoice (in_ : option CreateInvoiceRequest) : W → result CreateInvoiceResponse * W :=
  post_opt "/api/merchant/invoice/create" in_.

Definition InvoiceStatus_uri (invoiceID : string) : string := query1 "/api/merchant/invoice/status" "invoiceId" invoiceID.
Definition InvoiceStatus (invoiceID : string) : W → result InvoiceStatusResponse * W :=
  with_id invoiceID (get_json c ua (InvoiceStatus_uri invoiceID)).

Definition CancelInvoice (in_ : option CancelRequest) : W → result CancelResponse * W :=
  post_opt "/api/merchant/invoice/cancel" in_.

Definition FinalizeInvoice (in_ : option FinalizeRequest) : W → result FinalizeResponse * W :=
  post_opt "/api/merchant/invoice/finalize" in_.

Definition RemoveInvoice (invoiceID : string) : W → option error * W :=
  with_id_ack invoiceID (send_ack c ua "POST" "/api/merchant/invoice/remove" (mkRemoveRequest invoiceID) [200]).

Definition FiscalChecks_uri (invoiceID : string) : string :=
  with_query "/api/merchant/invoice/fiscal-checks" (Values_Set "invoiceId" invoiceID []).
Definition FiscalChecks (invoiceID : string) : W → result (list FiscalCheck) * W :=
  with_id invoiceID (λ w, project FiscalChecksResponse_Checks (get_json c ua (FiscalChecks_uri invoiceID) w)).

Definition Receipt_uri (invoiceID email : string) : string :=
  let q := Values_Set "invoiceId" invoiceID [] in
  let q := if String.eqb email "" then q else Values_Set "email" email q in
  "/api/merchant/invoice/receipt?" +:+ Values_Encode q.
Definition Receipt (invoiceID email : string) : W → result ReceiptResponse * W :=
  with_id invoiceID (get_json c ua (Receipt_uri invoiceID email)).

Definition PaymentDirect (in_ : option PaymentDirectRequest) : W → result PaymentDirectResponse * W :=
  post_opt "/api/merchant/invoice/payment-direct" in_.

Definition SyncPayment (in_ : option SyncPaymentRequest) : W → result InvoiceStatusResponse * W :=
  post_opt "/api/merchant/invoice/sync-payment" in_.

(** ** merchant.go *)
Definition MerchantDetails_ : W → result MerchantDetails * W := get_json c ua "/api/merchant/details".
Definition Employees (w : W) : result (list Employee) * W :=
  project EmployeeList_List (get_json c ua "/api/merchant/employee/list" w).
Definition PubKey : W → result ServerKey * W := get_json c ua "/api/merchant/pubkey".
Definition Submerchants (w : W) : result (list Submerchant) * W :=
  project SubmerchantList_List (get_json c ua "/api/merchant/submerchant/list" w).

Definition Statement_uri (from to : Z) (code : string) : string :=
  let q := Values_Set "from" (Itoa (Unix from)) [] in
  let q := if IsZero to then q else Values_Set "to" (Itoa (Unix to)) q in
  let q := if String.eqb code "" then q else Values_Set "code" code q in
  "/api/merchant/statement?" +:+ Values_Encode q.
Definition Statement (from to : Z) (code : string) (w : W) : result (list StatementInvoice) * W :=
  project StatementResponse_List (get_json c ua (Statement_uri from to code) w).

(** ** wallet.go *)
Definition Wallet_uri (walletID : string) : string :=
  with_query "/api/merchant/wallet" (if String.eqb walletID "" then [] else Values_Set "walletId" walletID []).
Definition Wallet (walletID : string) (w : W) : result (list WalletCard) * W :=
  project WalletResponse_Wallet (get_json c ua (Wallet_uri walletID) w).

Definition DeleteCard_uri (cardToken : string) : string := query1 "/api/merchant/wallet/card" "cardToken" cardToken.
Definition DeleteCard (cardToken : string) : W → option error * W :=
  with_id_ack cardToken (get_ack c ua "DELETE" (DeleteCard_uri cardToken) [200]).

Definition WalletPayment (in_ : option WalletPaymentRequest) : W → result PaymentDirectResponse * W :=
  post_opt "/api/merchant/wallet/payment" in_.

(** ** qr.go *)
Definition QRList_ (w : W) : result (list QR) * W := project QRList_List (get_json c ua "/api/merchant/qr/list" w).
Definition QRDetails_uri (qrID : string) : string := query1 "/api/merchant/qr/details" "qrId" qrID.
Definition QRDetails_ (qrID : string) : W → result QRDetails * W := with_id qrID (get_json c ua (QRDetails_uri qrID)).
Definition QRResetAmount (qrID : string) : W → option error * W :=
  with_id_ack qrID (send_ack c ua "POST" "/api/merchant/qr/reset-amount" (mkResetAmountRequest qrID) [200]).

(** ** pos.go *)
Definition POSTransactionCancel (in_ : option POSTransactionCancelRequest) (w : W) : option error * W :=
  match in_ with
  | None => (Some (ENew ErrNilRequest), w)
  | Some x => with_id_ack (POSTransactionCancelRequest_RRN x)
                (send_ack c ua "POST" "/api/merchant/pos-transaction-cancel" x [200]) w
  end.

(** ** monopay.go *)
Definition MonoPayKeyImport (in_ : option MonoPayKeyImportRequest) (w : W) : result string * W :=
  project MonoPayKeyImportResponse_Result_KeyID (post_opt "/api/merchant/monopay/pubkey-import" in_ w).
Definition MonoPayKeyDelete (keyID : string) : W → option error * W :=
  with_id_ack keyID (send_ack c ua "POST" "/api/merchant/monopay/pubkey-delete" (mkMonoPayKeyDeleteRequest keyID) [200]).
Definition MonoPayKeyList (w : W) : result (list MonoPayKey) * W :=
  project MonoPayKeyListResponse_Result (get_json c ua "/api/merchant/monopay/pubkey-list" w).

(** ** split.go, terminal.go *)
Definition SplitReceivers (w : W) : result (list SplitReceiver) * W :=
  project SplitReceiverListResponse_List (get_json c ua "/api/merchant/split-receiver/list" w).
Definition Terminals (w : W) : result (list Terminal) * W :=
  project TerminalListResponse_List (get_json c ua "/api/merchant/t2p/terminal/list" w).
Definition T2PPaymentStatus_uri (id_ : string) : string :=
  query1 "/api/merchant/t2p/terminal/payment/external/status" "externalPaymentId" id_.
Definition T2PPaymentStatus (id_ : string) : W → result T2PPaymentStatusResponse * W :=
  with_id id_ (get_json c ua (T2PPaymentStatus_uri id_)).

(** ** subscription.go *)
Definition SubscriptionCreate (in_ : option SubscriptionCreateRequest) : W → result SubscriptionCreateResponse * W :=
  post_opt "/api/merchant/subscription/create" in_.

Definition SubscriptionEdit (in_ : option SubscriptionEditRequest) (w : W) : option error * W :=
  match in_ with
  | None => (Some (ENew ErrNilRequest), w)
  | Some x => send_ack c ua "POST" "/api/merchant/subscription/edit" x [200] w
  end.

Definition SubscriptionRemove (id_ : string) : W → option error * W :=
  with_id_ack id_ (send_ack c ua "POST" "/api/merchant/subscription/remove" (mkSubscriptionRemoveRequest id_) [200]).

Definition SubscriptionStatus_uri (id_ : string) : string :=
  query1 "/api/merchant/subscription/status" "subscriptionId" id_.
Definition SubscriptionStatus (id_ : string) : W → result SubscriptionStatusResponse * W :=
  with_id id_ (get_json c ua (SubscriptionStatus_uri id_)).

(** The filters common to the two listings. *)
Definition set_dates (from to : Z) (q : Values) : Values :=
  let q := Values_Set "dateFrom" (format_RFC3339 from) q in
  if IsZero to then q else Values_Set "dateTo" (format_RFC3339 to) q.
Definition set_page (limit page : Z) (q : Values) : Values :=
  let q := if 0 <? limit then Values_Set "limit" (Itoa limit) q else q in
  if 0 <? page then Values_Set "page" (Itoa page) q else q.

Definition SubscriptionList_uri (opts : SubscriptionListOptions) : string :=
  let q := set_dates (SubscriptionListOptions_DateFrom opts) (SubscriptionListOptions_DateTo opts) [] in
  let q := if String.eqb (SubscriptionListOptions_Status opts) "" then q
           else Values_Set "status" (SubscriptionListOptions_Status opts) q in
  let q := set_page (SubscriptionListOptions_Limit opts) (SubscriptionListOptions_Page opts) q in
  "/api/merchant/subscription/list?" +:+ Values_Encode q.
Definition SubscriptionList (opts : SubscriptionListOptions) (w : W) : result SubscriptionsListResponse * W :=
  if IsZero (SubscriptionListOptions_DateFrom opts)
  then (Err (EText "SubscriptionList: DateFrom is required"), w)
  else get_json c ua (SubscriptionList_uri opts) w.

Definition SubscriptionPayments_uri (opts : SubscriptionPaymentsOptions) : string :=
  let q := Values_Set "subscriptionId" (SubscriptionPaymentsOptions_SubscriptionID opts) [] in
  let q := set_dates (SubscriptionPaymentsOptions_DateFrom opts) (SubscriptionPaymentsOptions_DateTo opts) q in
  let q := set_page (SubscriptionPaymentsOptions_Limit opts) (SubscriptionPaymentsOptions_Page opts) q in
  "/api/merchant/subscription/payments?" +:+ Values_Encode q.
Definition SubscriptionPayments (opts : SubscriptionPaymentsOptions) (w : W) : result SubscriptionPaymentsResponse * W :=
  if String.eqb (SubscriptionPaymentsOptions_SubscriptionID opts) ""
  then (Err (EText "SubscriptionPayments: SubscriptionID is required"), w)
  else if IsZero (SubscriptionPaymentsOptions_DateFrom opts)
  then (Err (EText "SubscriptionPayments: DateFrom is required"), w)
  else get_json c ua (SubscriptionPayments_uri opts) w.

End Api.
