(* ===== verification/Uri.v ===== *)
(** * What a server reads from the URIs of the endpoints

    [read_uri] splits a URI the way a server does: the path at its slashes,
    each segment unescaped, then the query at its ampersands, each key and value
    unescaped.  Every endpoint method that puts an identifier of the caller in
    its URI is read back as the fixed path with that identifier in its place,
    whatever bytes it holds. *)
From S2P Require Import Prelude GoString GoText GoTime Errors Currency Money GoHttp Retry Client Endpoint.
From S2P Require Import BankData Business BusinessApi Acquiring.
From S2P Require AcqApi.

(** ** Reading *)

(** Before and after the first [c]. *)
Fixpoint cut (c : Ascii.ascii) (s : string) : string * option string :=
  match s with
  | "" => ("", None)
  | String a s => if bool_decide (a = c) then ("", Some s)
                  else let '(l, r) := cut c s in (String a l, r)
  end.

Fixpoint split_all (c : Ascii.ascii) (s : string) : list string :=
  match s with
  | "" => [""]
  | String a s =>
      if bool_decide (a = c) then "" :: split_all c s
      else match split_all c s with [] => [String a ""] | x :: l => String a x :: l end
  end.

(** [url.QueryUnescape]. *)
Fixpoint QueryUnescape (s : string) : option string :=
  match s with
  | "" => Some ""
  | String "%" (String h (String l s)) =>
      match unhex h, unhex l, QueryUnescape s with
      | Some h, Some l, Some r => Some (String (ascii_of_Z (h * 16 + l)) r)
      | _, _, _ => None
      end
  | String "%" _ => None
  | String "+" s => String " " <$> QueryUnescape s
  | String a s => String a <$> QueryUnescape s
  end.

Definition read_pair (s : string) : option (string * string) :=
  let '(k, v) := cut "=" s in
  k ← QueryUnescape k; v ← QueryUnescape (default "" v); Some (k, v).

Definition read_query (s : string) : option Values :=
  if String.eqb s "" then Some [] else mapM read_pair (split_all "&" s).

Definition read_uri (uri : string) : option (list string * Values) :=
  let '(p, q) := cut "?" uri in
  segs ← mapM PathUnescape (split_all "/" p); q ← read_query (default "" q); Some (segs, q).

(** A path of the given segments, each escaped. *)
Definition path_of (segs : list string) : string := String.concat "/" (PathEscape <$> segs).

(** ** Lemmas *)

Definition free (c : Ascii.ascii) (s : string) : Prop := Forall (λ a, a ≠ c) (chars s).

Lemma free_cons c a s : free c (String a s) ↔ a ≠ c ∧ free c s.
Proof. unfold free. cbn. by rewrite Forall_cons. Qed.

Lemma free_app c s t : free c (s +:+ t) ↔ free c s ∧ free c t.
Proof. unfold free. by rewrite chars_app, Forall_app. Qed.

Lemma cut_free c s t : free c s → cut c (s +:+ String c t) = (s, Some t).
Proof.
  induction s as [|a s IH]; simpl; intros Hf.
  - by rewrite bool_decide_true by done.
  - apply free_cons in Hf as [Ha Hf]. rewrite bool_decide_false by done. by rewrite (IH Hf).
Qed.

Lemma cut_none c s : free c s → cut c s = (s, None).
Proof.
  induction s as [|a s IH]; simpl; intros Hf; [done|].
  apply free_cons in Hf as [Ha Hf]. rewrite bool_decide_false by done. by rewrite (IH Hf).
Qed.

Lemma split_all_last c s : free c s → split_all c s = [s].
Proof.
  induction s as [|a s IH]; simpl; intros Hf; [done|].
  apply free_cons in Hf as [Ha Hf]. rewrite bool_decide_false by done. by rewrite (IH Hf).
Qed.

Lemma split_all_app c s t : free c s → split_all c (s +:+ String c t) = s :: split_all c t.
Proof.
  induction s as [|a s IH]; simpl; intros Hf; [by rewrite bool_decide_true by done|].
  apply free_cons in Hf as [Ha Hf]. rewrite bool_decide_false by done. by rewrite (IH Hf).
Qed.

Lemma concat_cons2 sep x y l : String.concat sep (x :: y :: l) = x +:+ sep +:+ String.concat sep (y :: l).
Proof. done. Qed.

Lemma split_all_concat c l : l ≠ [] → Forall (free c) l → split_all c (String.concat (String c "") l) = l.
Proof.
  induction l as [|x [|y l] IH]; intros Hn Hf; [done| |].
  - apply split_all_last. by inversion Hf.
  - inversion Hf; subst. rewrite concat_cons2. change (String c "" +:+ ?u) with (String c u).
    rewrite split_all_app by done. by rewrite IH.
Qed.

Lemma free_concat c sep l : c ≠ sep → Forall (free c) l → free c (String.concat (String sep "") l).
Proof.
  intros Hc. induction 1 as [|x l Hx Hl IH]; [by constructor|]. destruct l as [|y l]; [done|].
  rewrite concat_cons2. rewrite !free_app. split_and!; [done| |done]. by repeat constructor.
Qed.

Lemma QueryUnescape_QueryEscape s : QueryUnescape (QueryEscape s) = Some s.
Proof.
  induction s as [|a s IH]; [done|]. cbn [QueryEscape]. destruct (query_safe a) eqn:Ha.
  - assert (QueryUnescape (String a (QueryEscape s)) = String a <$> QueryUnescape (QueryEscape s)) as ->.
    { destruct a as [[] [] [] [] [] [] [] []]; first [reflexivity|done]. }
    by rewrite IH.
  - destruct (Z.eqb_spec (byte_of a) 32) as [Hs|Hs].
    { cbn [QueryUnescape]. rewrite IH. cbn. do 2 f_equal. rewrite <- (ascii_of_byte a), Hs. done. }
    cbn [QueryUnescape]. pose proof (byte_of_bound a).
    pose proof (Z.div_mod (byte_of a) 16 ltac:(lia)). pose proof (Z.mod_pos_bound (byte_of a) 16 ltac:(lia)).
    rewrite !unhex_upper, IH by lia. f_equal. f_equal.
    replace (byte_of a / 16 * 16 + byte_of a mod 16) with (byte_of a) by lia. apply ascii_of_byte.
Qed.

Lemma QueryEscape_free c s : separator c ∨ c = "&"%char ∨ c = "="%char → free c (QueryEscape s).
Proof.
  intros Hc. eapply Forall_impl; [apply QueryEscape_no_separator|]. intros a (Hs & H1 & H2) ->. naive_solver.
Qed.

Lemma PathEscape_free c s : separator c → free c (PathEscape s).
Proof. intros Hc. eapply Forall_impl; [apply PathEscape_no_separator|]. by intros a Hs ->. Qed.

Definition pair_text (kv : string * string) : string := let '(k, v) := kv in QueryEscape k +:+ "=" +:+ QueryEscape v.

Lemma read_pair_text kv : read_pair (pair_text kv) = Some kv.
Proof.
  destruct kv as [k v]. unfold read_pair, pair_text. change ("=" +:+ QueryEscape v) with (String "=" (QueryEscape v)).
  rewrite cut_free by (apply QueryEscape_free; naive_solver). cbn. by rewrite !QueryUnescape_QueryEscape.
Qed.

Lemma pair_text_free c kv : separator c ∨ c = "&"%char → free c (pair_text kv).
Proof.
  intros Hc. destruct kv as [k v]. unfold pair_text. rewrite !free_app. split_and!.
  - apply QueryEscape_free. naive_solver.
  - repeat constructor. intros <-. destruct Hc as [[?|[?|?]]|?]; done.
  - apply QueryEscape_free. naive_solver.
Qed.

Lemma Values_Encode_text q : Values_Encode q = String.concat "&" (pair_text <$> q).
Proof. done. Qed.

Lemma pair_text_nonempty kv : pair_text kv ≠ "".
Proof. destruct kv as [k v]. unfold pair_text. by destruct (QueryEscape k). Qed.

Lemma Values_Encode_empty q : Values_Encode q = "" ↔ q = [].
Proof.
  split; [|by intros ->]. rewrite Values_Encode_text. destruct q as [|kv [|kv' q]]; [done| |]; intros He; exfalso.
  - by apply (pair_text_nonempty kv).
  - rewrite !fmap_cons, concat_cons2 in He. pose proof (pair_text_nonempty kv). by destruct (pair_text kv).
Qed.

(** A query is read back as it was set. *)
Lemma read_query_Encode q : read_query (Values_Encode q) = Some q.
Proof.
  unfold read_query. destruct (String.eqb_spec (Values_Encode q) "") as [He|He].
  { by rewrite (proj1 (Values_Encode_empty q) He). }
  rewrite Values_Encode_text, split_all_concat.
  - clear He. induction q as [|kv q IH]; [done|]. cbn. rewrite read_pair_text. cbn. by rewrite IH.
  - intros Hq. destruct q; done.
  - apply Forall_fmap, Forall_true. intros kv. apply pair_text_free. by right.
Qed.

Lemma read_path segs : segs ≠ [] → mapM PathUnescape (split_all "/" (path_of segs)) = Some segs.
Proof.
  intros Hn. unfold path_of. rewrite split_all_concat.
  - clear Hn. induction segs as [|x segs IH]; [done|]. cbn. rewrite PathUnescape_PathEscape. cbn. by rewrite IH.
  - by destruct segs.
  - apply Forall_fmap, Forall_true. intros x. apply PathEscape_free. by left.
Qed.

Lemma path_free segs : free "?" (path_of segs).
Proof.
  apply free_concat; [done|]. apply Forall_fmap, Forall_true. intros x. apply PathEscape_free. by right; left.
Qed.

Lemma read_uri_path segs : segs ≠ [] → read_uri (path_of segs) = Some (segs, []).
Proof. intros Hn. unfold read_uri. rewrite cut_none by apply path_free. by rewrite read_path. Qed.

Lemma read_uri_query segs q : segs ≠ [] → read_uri (path_of segs +:+ "?" +:+ Values_Encode q) = Some (segs, q).
Proof.
  intros Hn. unfold read_uri. change ("?" +:+ Values_Encode q) with (String "?" (Values_Encode q)).
  rewrite cut_free by apply path_free. rewrite read_path by done. cbn. by rewrite read_query_Encode.
Qed.

Lemma read_uri_with_query segs q : segs ≠ [] → read_uri (with_query (path_of segs) q) = Some (segs, q).
Proof.
  intros Hn. unfold with_query. destruct (String.eqb_spec (Values_Encode q) "") as [He|He].
  - rewrite read_uri_path by done. by rewrite (proj1 (Values_Encode_empty q) He).
  - by apply read_uri_query.
Qed.

Lemma PathEscape_digits s : all_digits s = true → PathEscape s = s.
Proof.
  induction s as [|a s IH]; [done|]. cbn [all_digits PathEscape]. rewrite andb_true_iff. intros [Ha Hs].
  assert (segment_safe a = true) as ->; [|by rewrite IH].
  destruct a as [[] [] [] [] [] [] [] []]; first [reflexivity|done].
Qed.

Lemma PathEscape_Itoa z : PathEscape (Itoa z) = Itoa z.
Proof.
  destruct (decide (0 <= z)) as [Hz|Hz]; [by apply PathEscape_digits, all_digits_Itoa|].
  rewrite Itoa_neg by lia. cbn [PathEscape]. change (segment_safe "-") with true. cbn match. f_equal.
  apply PathEscape_digits. pose proof (all_digits_Itoa (- z)) as Hd. rewrite Itoa_nonneg in Hd by lia. apply Hd. lia.
Qed.

(** The URIs as paths and queries. *)

Lemma Account_uri_eq iban : Account_uri iban =
  path_of ["";"ext";"v1";"accounts"; iban].
Proof. reflexivity. Qed.

Lemma AccountBalances_uri_eq iban f t : AccountBalances_uri iban f t =
  path_of ["";"ext";"v1";"accounts"; iban; "balances"] +:+ "?" +:+ Values_Encode [("dateFrom", f); ("dateTo", t)].
Proof. 
  unfold AccountBalances_uri. change "/balances?" with ("/balances" +:+ "?").
  change (path_of _) with ("/ext/v1/accounts/" +:+ (PathEscape iban +:+ "/balances")).
  change (Values_Set "dateTo" t _) with [("dateFrom", f); ("dateTo", t)].
  rewrite !str_app_assoc. reflexivity.
Qed.

Lemma Contact_uri_eq id : Contact_uri id =
  path_of ["";"ext";"v1";"salary-contacts"; id].
Proof. reflexivity. Qed.

Lemma PaymentState_uri_eq id : PaymentState_uri id =
  path_of ["";"ext";"v1";"payment"; id; "state"].
Proof. reflexivity. Qed.

Lemma PaymentStateByReference_uri_eq ref : PaymentStateByReference_uri ref =
  path_of ["";"ext";"v1";"payment";"state"] +:+ "?" +:+ Values_Encode [("externalReference", ref)].
Proof.
  unfold PaymentStateByReference_uri. change "/ext/v1/payment/state?" with ("/ext/v1/payment/state" +:+ "?"). rewrite str_app_assoc.
  change (Values_Set "externalReference" ref []) with [("externalReference", ref)]. reflexivity.
Qed.

Lemma SalaryRegistryStatus_uri_eq id : SalaryRegistryStatus_uri id =
  path_of ["";"ext";"v1";"payments";"salary";"registries"; id; "status"].
Proof. reflexivity. Qed.

Lemma PayslipPDF_uri_eq id period : PayslipPDF_uri id period =
  path_of ["";"ext";"v1";"payslips";"pdf"] +:+ "?" +:+ Values_Encode [("identification", id); ("period", period)].
Proof.
  unfold PayslipPDF_uri. change "/ext/v1/payslips/pdf?" with ("/ext/v1/payslips/pdf" +:+ "?"). rewrite str_app_assoc.
  change (Values_Set "period" period _) with [("identification", id); ("period", period)]. reflexivity.
Qed.

Lemma Operation_uri_eq id ref : Operation_uri id ref =
  path_of ["";"ext";"v1";"statement"] +:+ "?" +:+ Values_Encode (set_nonempty "externalReference" ref (set_nonempty "id" id [])).
Proof.
  unfold Operation_uri. change "/ext/v1/statement?" with ("/ext/v1/statement" +:+ "?"). rewrite str_app_assoc. reflexivity.
Qed.

Definition Statement_segments (account : string) (from to : Z) : list string :=
  ["";"ext";"v1";"statement"; account; Itoa (Unix from)] ++ (if IsZero to then [] else [Itoa (Unix to)]).

Lemma Statement_uri_eq account from to direction limit :
  Statement_uri account from to direction limit =
  with_query (path_of (Statement_segments account from to)) (set_positive "limit" limit (set_nonempty "direction" direction [])).
Proof.
  unfold Statement_uri, Statement_segments. cbv zeta. f_equal. destruct (IsZero to).
  - change (path_of _) with ("/ext/v1/statement/" +:+ (PathEscape account +:+ ("/" +:+ PathEscape (Itoa (Unix from))))).
    by rewrite PathEscape_Itoa.
  - change (path_of _) with ("/ext/v1/statement/" +:+ (PathEscape account +:+ ("/" +:+ (PathEscape (Itoa (Unix from)) +:+
      ("/" +:+ PathEscape (Itoa (Unix to))))))).
    by rewrite !PathEscape_Itoa, !str_app_assoc.
Qed.

Lemma read_lit lit segs q :
  lit = path_of segs +:+ "?" → segs ≠ [] → read_uri (lit +:+ Values_Encode q) = Some (segs, q).
Proof. intros -> Hn. rewrite str_app_assoc. by apply read_uri_query. Qed.

Lemma query1_read path segs k v :
  path = path_of segs → segs ≠ [] → read_uri (AcqApi.query1 path k v) = Some (segs, [(k, v)]).
Proof. intros -> Hn. unfold AcqApi.query1. by apply read_uri_query. Qed.

(** ** Properties *)

(** Whatever bytes an identifier holds, each business endpoint that puts it
    in its path or query writes a URI that reads as the fixed path with the
    identifier as exactly one segment or one value: no identifier adds a
    segment or a parameter or is taken for another identifier. What the dot
    segments among them become when the path is resolved is another matter
    ([Resolve], [Paths]). *)
Theorem business_uris_read_back (iban dateFrom dateTo id ref period query : string) (limit offset from to : Z) :
  read_uri (Account_uri iban) = Some (["";"ext";"v1";"accounts"; iban], []) ∧
  read_uri (AccountBalances_uri iban dateFrom dateTo) =
    Some (["";"ext";"v1";"accounts"; iban; "balances"], [("dateFrom", dateFrom); ("dateTo", dateTo)]) ∧
  read_uri (Contact_uri id) = Some (["";"ext";"v1";"salary-contacts"; id], []) ∧
  read_uri (PaymentState_uri id) = Some (["";"ext";"v1";"payment"; id; "state"], []) ∧
  read_uri (PaymentStateByReference_uri ref) = Some (["";"ext";"v1";"payment";"state"], [("externalReference", ref)]) ∧
  read_uri (SalaryRegistryStatus_uri id) = Some (["";"ext";"v1";"payments";"salary";"registries"; id; "status"], []) ∧
  read_uri (PayslipPDF_uri id period) =
    Some (["";"ext";"v1";"payslips";"pdf"], [("identification", id); ("period", period)]) ∧
  read_uri (SearchContacts_uri query limit offset) =
    Some (["";"ext";"v1";"salary-contacts";"search"],
      set_positive "offset" offset (set_positive "limit" limit (set_nonempty "query" query []))) ∧
  read_uri (Operation_uri id ref) =
    Some (["";"ext";"v1";"statement"], set_nonempty "externalReference" ref (set_nonempty "id" id [])) ∧
  read_uri (Statement_uri iban from to query limit) =
    Some (["";"ext";"v1";"statement"; iban; Itoa (Unix from)] ++ (if IsZero to then [] else [Itoa (Unix to)]),
      set_positive "limit" limit (set_nonempty "direction" query [])).
Proof.
  split_and!.
  - rewrite Account_uri_eq. by apply read_uri_path.
  - rewrite AccountBalances_uri_eq. by apply read_uri_query.
  - rewrite Contact_uri_eq. by apply read_uri_path.
  - rewrite PaymentState_uri_eq. by apply read_uri_path.
  - rewrite PaymentStateByReference_uri_eq. by apply read_uri_query.
  - rewrite SalaryRegistryStatus_uri_eq. by apply read_uri_path.
  - rewrite PayslipPDF_uri_eq. by apply read_uri_query.
  - by apply (read_uri_with_query ["";"ext";"v1";"salary-contacts";"search"]).
  - rewrite Operation_uri_eq. by apply read_uri_query.
  - rewrite Statement_uri_eq. by apply read_uri_with_query.
Qed.

(** The same for the acquiring endpoints: an invoice, subscription, card, QR
    or payment identifier, an e-mail or a terminal code arrives as the value of
    its own parameter, and the optional parameters are there exactly when set. *)
Theorem acquiring_uris_read_back (id email code : string) (from to : Z) opts popts :
  read_uri (AcqApi.InvoiceStatus_uri id) = Some (["";"api";"merchant";"invoice";"status"], [("invoiceId", id)]) ∧
  read_uri (AcqApi.FiscalChecks_uri id) = Some (["";"api";"merchant";"invoice";"fiscal-checks"], [("invoiceId", id)]) ∧
  read_uri (AcqApi.Receipt_uri id email) =
    Some (["";"api";"merchant";"invoice";"receipt"],
      (if String.eqb email "" then [] else [("email", email)]) ++ [("invoiceId", id)]) ∧
  read_uri (AcqApi.Statement_uri from to code) =
    Some (["";"api";"merchant";"statement"],
      (if String.eqb code "" then [] else [("code", code)]) ++ [("from", Itoa (Unix from))] ++
      (if IsZero to then [] else [("to", Itoa (Unix to))])) ∧
  read_uri (AcqApi.Wallet_uri id) =
    Some (["";"api";"merchant";"wallet"], if String.eqb id "" then [] else [("walletId", id)]) ∧
  read_uri (AcqApi.DeleteCard_uri id) = Some (["";"api";"merchant";"wallet";"card"], [("cardToken", id)]) ∧
  read_uri (AcqApi.QRDetails_uri id) = Some (["";"api";"merchant";"qr";"details"], [("qrId", id)]) ∧
  read_uri (AcqApi.T2PPaymentStatus_uri id) =
    Some (["";"api";"merchant";"t2p";"terminal";"payment";"external";"status"], [("externalPaymentId", id)]) ∧
  read_uri (AcqApi.SubscriptionStatus_uri id) =
    Some (["";"api";"merchant";"subscription";"status"], [("subscriptionId", id)]) ∧
  (∃ q, read_uri (AcqApi.SubscriptionList_uri opts) = Some (["";"api";"merchant";"subscription";"list"], q) ∧
     ("dateFrom", format_RFC3339 (SubscriptionListOptions_DateFrom opts)) ∈ q) ∧
  (∃ q, read_uri (AcqApi.SubscriptionPayments_uri popts) = Some (["";"api";"merchant";"subscription";"payments"], q) ∧
     ("subscriptionId", SubscriptionPaymentsOptions_SubscriptionID popts) ∈ q).
Proof.
  split_and!; try by apply query1_read.
  - unfold AcqApi.Receipt_uri. rewrite (read_lit _ ["";"api";"merchant";"invoice";"receipt"]) by done. by case_match.
  - unfold AcqApi.Statement_uri. rewrite (read_lit _ ["";"api";"merchant";"statement"]) by done. by repeat case_match.
  - unfold AcqApi.Wallet_uri. rewrite (read_uri_with_query ["";"api";"merchant";"wallet"]) by done. by case_match.
  - unfold AcqApi.SubscriptionList_uri. rewrite (read_lit _ ["";"api";"merchant";"subscription";"list"]) by done.
    eexists. split; [reflexivity|]. unfold AcqApi.set_dates, AcqApi.set_page.
    repeat case_match; simpl; set_solver.
  - unfold AcqApi.SubscriptionPayments_uri. rewrite (read_lit _ ["";"api";"merchant";"subscription";"payments"]) by done.
    eexists. split; [reflexivity|]. unfold AcqApi.set_dates, AcqApi.set_page.
    repeat case_match; simpl; set_solver.
Qed.
