(* ===== verification/AcqDedup.v ===== *)
(** * Deduplication of acquiring webhooks (acquiring/dedup.go)

    The package carries its own copy of the LRU set of webhook/dedup.go; the
    operations are those of [Dedup] under the names of this package, and so are
    its laws.  What is its own is the key: [DedupKey] joins the invoice and the
    date of its state, and the set treats two deliveries as one exactly when
    their keys agree.  Below, when the keys of two states agree. *)
From S2P Require Import Prelude GoString GoText Money Acquiring Dedup Uri Webhook.

(** ** The set *)

Definition AcqMemoryDeduper : Type := MemoryDeduper.
Definition AcqNewMemoryDeduper (cap : Z) : AcqMemoryDeduper := NewMemoryDeduper cap.
Definition AcqMemoryDeduper_Has (key : string) (d : AcqMemoryDeduper) : bool * AcqMemoryDeduper := MemoryDeduper_Has key d.
Definition AcqMemoryDeduper_Add (key : string) (d : AcqMemoryDeduper) : AcqMemoryDeduper := MemoryDeduper_Add key d.
Definition AcqMemoryDeduper_Len (d : AcqMemoryDeduper) : Z := MemoryDeduper_Len d.

(** ** The key *)

(** The state of an invoice that a webhook announces. *)
Definition announced (inv : Invoice) : string * string :=
  (InvoiceStatusResponse_InvoiceID inv, InvoiceStatusResponse_ModifiedDate inv).

Lemma DedupKey_cut (inv : Invoice) :
  free "|" (announced inv).1 →
  cut "|" (DedupKey (Some inv)) =
    ((announced inv).1, if String.eqb (announced inv).2 "" then None else Some (announced inv).2).
Proof.
  intros Hf. unfold DedupKey. cbn [announced fst snd] in *.
  case_match; [by apply cut_none|by apply (cut_free "|")].
Qed.

(** No two states share a key when the identifiers hold no separator. *)
Theorem DedupKey_inj (a b : Invoice) :
  free "|" (announced a).1 → free "|" (announced b).1 →
  DedupKey (Some a) = DedupKey (Some b) → announced a = announced b.
Proof.
  intros Ha Hb E. pose proof (DedupKey_cut a Ha) as Ca. rewrite E, (DedupKey_cut b Hb) in Ca.
  destruct (announced a) as [ia da], (announced b) as [ib db]. cbn in Ca.
  revert Ca. case_eq (String.eqb da ""); case_eq (String.eqb db ""); rewrite ?String.eqb_eq; naive_solver.
Qed.

(** The condition is needed: an identifier with the separator takes the key of another state. *)
Theorem DedupKey_collides :
  ∃ a b : Invoice, announced a ≠ announced b ∧ DedupKey (Some a) = DedupKey (Some b).
Proof.
  exists (mkInvoiceStatusResponse "i|j" InvoiceSuccess "" "" (mkMoney 0 0) 980 (mkMoney 0 0) "" "k" "" "" [] None None None),
         (mkInvoiceStatusResponse "i" InvoiceSuccess "" "" (mkMoney 0 0) 980 (mkMoney 0 0) "" "j|k" "" "" [] None None None).
  by vm_compute.
Qed.
