(* ===== verification/Resolve.v ===== *)
(** * Where a request path ends up

    [Do] resolves the URL of a request against the base URL, and
    [URL.ResolveReference] removes the dot segments of the path on the way.
    [resolvePath] is that step; the lemmas compute it on a path that holds one
    identifier of the caller, escaped, among segments the SDK chose. *)
From S2P Require Import Prelude GoString GoText GoTime Errors GoHttp Endpoint Uri.

(** ** net/url *)

(** [s[:strings.LastIndexByte(s, c)]]. *)
Fixpoint before_last (c : Ascii.ascii) (s : string) : option string :=
  match s with
  | "" => None
  | String a s => match before_last c s with
                  | Some t => Some (String a t)
                  | None => if bool_decide (a = c) then Some "" else None
                  end
  end.

Definition is_dots (e : string) : bool := String.eqb e "." || String.eqb e "..".

(** The loop of [resolvePath] over the elements between slashes. *)
Fixpoint resolve_loop (l : list string) (dst : string) (first : bool) : string :=
  match l with
  | [] => dst
  | e :: l =>
      if String.eqb e "." then resolve_loop l dst false
      else if String.eqb e ".." then
        match before_last "/" (str_drop 1 dst) with
        | None => resolve_loop l "/" true
        | Some t => resolve_loop l (String "/" t) first
        end
      else resolve_loop l ((if first then dst else dst +:+ "/") +:+ e) false
  end.

Definition resolvePath (base ref : string) : string :=
  let full :=
    match ref with
    | "" => base
    | String "/" _ => ref
    | _ => match before_last "/" base with Some t => t +:+ "/" | None => "" end +:+ ref
    end in
  if String.eqb full "" then ""
  else
    let elems := split_all "/" full in
    let dst := resolve_loop elems "/" true in
    let dst := if is_dots (List.last elems "") then dst +:+ "/" else dst in
    match dst with
    | String _ (String "/" _) => str_drop 1 dst
    | _ => dst
    end.

(** The path of a URI. *)
Definition uri_path (uri : string) : string := (cut "?" uri).1.

(** ** Lemmas *)

Definition finish (elems : list string) : string :=
  let dst := resolve_loop elems "/" true in
  let dst := if is_dots (List.last elems "") then dst +:+ "/" else dst in
  match dst with
  | String _ (String "/" _) => str_drop 1 dst
  | _ => dst
  end.

Lemma resolvePath_rooted base t : resolvePath base (String "/" t) = finish (split_all "/" (String "/" t)).
Proof. reflexivity. Qed.

Lemma last_app_cons (l k : list string) e : List.last ("" :: l ++ e :: k) "" = List.last (e :: k) "".
Proof. induction l as [|x [|y l] IH]; [done|done|]. exact IH. Qed.

(** Each element after a slash. *)
Definition slashed (l : list string) : string := String.concat "" (String "/" <$> l).

Lemma concat_empty_cons x l : String.concat "" (x :: l) = x +:+ String.concat "" l.
Proof. destruct l as [|y l]; [symmetry; apply str_app_nil_r|done]. Qed.

Lemma slashed_cons x l : slashed (x :: l) = String "/" x +:+ slashed l.
Proof. unfold slashed. by rewrite fmap_cons, concat_empty_cons. Qed.

Lemma slashed_app l k : slashed (l ++ k) = slashed l +:+ slashed k.
Proof. induction l as [|x l IH]; [done|]. cbn [app]. by rewrite !slashed_cons, IH, str_app_assoc. Qed.

Lemma path_slashed segs : segs ≠ [] → path_of ("" :: segs) = slashed (PathEscape <$> segs).
Proof.
  intros Hn. unfold path_of. rewrite fmap_cons. change (PathEscape "") with "". destruct segs as [|x segs]; [done|]. clear Hn.
  rewrite fmap_cons, concat_cons2, str_app_nil. revert x. induction segs as [|y segs IH]; intros x.
  - rewrite slashed_cons. change (slashed (PathEscape <$> [])) with "". by rewrite str_app_nil_r.
  - rewrite fmap_cons, concat_cons2, slashed_cons. rewrite <-IH.
    change (String "/" (PathEscape x)) with ("/" +:+ PathEscape x). by rewrite str_app_assoc.
Qed.

Definition plain_segment (e : string) : Prop := free "/" e ∧ is_dots e = false.

Lemma resolve_loop_plain l k dst : Forall plain_segment l →
  resolve_loop (l ++ k) dst false = resolve_loop k (dst +:+ slashed l) false.
Proof.
  intros Hl. revert dst. induction Hl as [|e l [_ He] Hl IH]; intros dst; [by rewrite str_app_nil_r|].
  cbn [app resolve_loop]. unfold is_dots in He. apply orb_false_iff in He as [-> ->].
  rewrite IH, slashed_cons. f_equal. by rewrite !str_app_assoc.
Qed.

Lemma before_last_free c s : free c s → before_last c s = None.
Proof.
  induction s as [|a s IH]; [done|]. intros [Ha Hs]%free_cons. cbn. rewrite IH by done. by rewrite bool_decide_false.
Qed.

Lemma before_last_app c s t : free c t → before_last c (s +:+ String c t) = Some s.
Proof.
  intros Ht. induction s as [|a s IH].
  - rewrite str_app_nil. cbn. rewrite before_last_free by done. by rewrite bool_decide_true.
  - rewrite str_app_cons. cbn. by rewrite IH.
Qed.

Lemma PathEscape_dots id : is_dots (PathEscape id) = is_dots id.
Proof.
  apply eq_true_iff_eq. unfold is_dots. rewrite !orb_true_iff, !String.eqb_eq.
  assert (∀ d, PathEscape d = d → PathEscape id = d ↔ id = d) as Hd; [|by rewrite !Hd].
  intros d Hd. split; [|by intros ->]. intros He.
  pose proof (PathUnescape_PathEscape id) as H1. pose proof (PathUnescape_PathEscape d) as H2. congruence.
Qed.

Lemma escaped_plain segs : Forall (λ s, is_dots s = false) segs → Forall plain_segment (PathEscape <$> segs).
Proof.
  intros Hs. apply Forall_fmap. eapply Forall_impl; [exact Hs|]. intros s Hd. split; [apply PathEscape_free; by left|].
  cbn. by rewrite PathEscape_dots.
Qed.

Lemma resolve_loop_end l dst : Forall plain_segment l → resolve_loop l dst false = dst +:+ slashed l.
Proof. intros Hl. pose proof (resolve_loop_plain l [] dst Hl) as He. by rewrite app_nil_r in He. Qed.

Lemma last_plain e l : Forall plain_segment l → l ≠ [] → is_dots (List.last (e :: l) "") = false.
Proof.
  revert e. induction l as [|x l IH]; [done|]. intros e [[_ Hx] Hl]%Forall_cons _.
  destruct l as [|y l]; [exact Hx|]. change (List.last (e :: x :: y :: l) "") with (List.last (x :: y :: l) ""). by apply IH.
Qed.

(** The leading slash written first is dropped again. *)
Definition strip (dst : string) : string :=
  match dst with String _ (String "/" _) => str_drop 1 dst | _ => dst end.

Lemma strip_slashed l s : l ≠ [] → strip ("/" +:+ slashed l +:+ s) = slashed l +:+ s.
Proof. destruct l as [|x l]; [done|]. intros _. rewrite slashed_cons, !str_app_cons. reflexivity. Qed.

Lemma finish_rooted l e k : Forall plain_segment l →
  finish ("" :: l ++ e :: k) =
  strip (let dst := resolve_loop (e :: k) ("/" +:+ slashed l) false in
         if is_dots (List.last (e :: k) "") then dst +:+ "/" else dst).
Proof. intros Hl. rewrite <-(last_app_cons l k e), <-resolve_loop_plain by done. reflexivity. Qed.

(** What is left of a path when a segment vanishes: a trailing slash if it was the last. *)
Definition without (pre post : list string) : string :=
  slashed (PathEscape <$> (pre ++ post)) +:+ match post with [] => "/" | _ => "" end.

Lemma resolve_identifier base pre x id post :
  Forall (λ s, is_dots s = false) (pre ++ x :: post) →
  resolvePath base (path_of ("" :: pre ++ [x; id] ++ post)) =
    if String.eqb id "." then without (pre ++ [x]) post
    else if String.eqb id ".." then without pre post
    else path_of ("" :: pre ++ [x; id] ++ post).
Proof.
  intros Hall. apply Forall_app in Hall as [Hpre [Hx Hpost]%Forall_cons].
  assert (Forall plain_segment (PathEscape <$> (pre ++ [x]))) as Hp1.
  { apply escaped_plain, Forall_app. split; [done|]. by repeat constructor. }
  pose proof (escaped_plain _ Hpost) as Hp2.
  set (full := path_of ("" :: pre ++ [x; id] ++ post)).
  assert (full = slashed (PathEscape <$> (pre ++ [x; id] ++ post))) as Hfull by (apply path_slashed; by destruct pre).
  assert (split_all "/" full = "" :: (PathEscape <$> (pre ++ [x])) ++ PathEscape id :: (PathEscape <$> post)) as Hsplit.
  { unfold full, path_of. rewrite split_all_concat.
    - rewrite fmap_cons. change (PathEscape "") with "". f_equal. by rewrite !fmap_app, <-!app_assoc.
    - by destruct pre.
    - apply Forall_fmap, Forall_true. intros s. apply PathEscape_free. by left. }
  assert (∃ t, full = String "/" t) as [t Ht].
  { rewrite Hfull. destruct pre as [|p pre]; cbn [app]; rewrite fmap_cons, slashed_cons, str_app_cons; by eexists. }
  assert (resolvePath base full = finish ("" :: (PathEscape <$> (pre ++ [x])) ++ PathEscape id :: (PathEscape <$> post))) as ->.
  { rewrite <-Hsplit, Ht. apply resolvePath_rooted. }
  rewrite finish_rooted by done. cbn [resolve_loop].
  destruct (String.eqb_spec id ".") as [->|H1]; [|destruct (String.eqb_spec id "..") as [->|H2]].
  - change (PathEscape ".") with ".". cbn [String.eqb Ascii.eqb Bool.eqb]. unfold without. rewrite resolve_loop_end by done.
    rewrite (fmap_app PathEscape (pre ++ [x]) post), slashed_app. destruct post as [|y post].
    + change (slashed (PathEscape <$> [])) with "". rewrite !str_app_nil_r. change (is_dots _) with true. cbn match.
      rewrite !str_app_assoc. apply strip_slashed. by destruct pre.
    + rewrite last_plain by done. rewrite !str_app_nil_r, !str_app_assoc. apply strip_slashed. by destruct pre.
  - change (PathEscape "..") with "..". cbn [String.eqb Ascii.eqb Bool.eqb]. change (str_drop 1 ("/" +:+ ?u)) with u.
    rewrite fmap_app, slashed_app. change (slashed (PathEscape <$> [x])) with (String "/" (PathEscape x)).
    rewrite before_last_app by (apply PathEscape_free; by left).
    change (String "/" (slashed ?l)) with ("/" +:+ slashed l). rewrite resolve_loop_end by done.
    unfold without. rewrite (fmap_app PathEscape pre post), slashed_app. destruct post as [|y post].
    + change (slashed (PathEscape <$> [])) with "". rewrite !str_app_nil_r. change (is_dots _) with true. cbn match.
      destruct pre as [|p pre]; [reflexivity|]. rewrite !str_app_assoc. by apply strip_slashed.
    + rewrite last_plain by done. rewrite !str_app_nil_r, !str_app_assoc, <-slashed_app, <-fmap_app.
      pose proof (strip_slashed (PathEscape <$> pre ++ y :: post) "" ltac:(by destruct pre)) as Hs. by rewrite str_app_nil_r in Hs.
  - assert (is_dots id = false) as Hd by (unfold is_dots; destruct (String.eqb_spec id "."), (String.eqb_spec id ".."); done).
    pose proof (PathEscape_dots id) as He. rewrite Hd in He. pose proof He as He'. unfold is_dots in He'.
    apply orb_false_iff in He' as [-> ->]. rewrite resolve_loop_end by done.
    assert (is_dots (List.last (PathEscape id :: (PathEscape <$> post)) "") = false) as ->.
    { destruct post as [|y post]; [exact He|]. by apply last_plain. }
    rewrite !str_app_assoc.
    change ("/" +:+ PathEscape id +:+ ?u) with (String "/" (PathEscape id) +:+ u). rewrite <-slashed_cons.
    rewrite strip_slashed by (by destruct pre). rewrite <-slashed_app, Hfull. f_equal. rewrite !fmap_app, <-app_assoc. done.
Qed.
