(* ===== verification/OpenBanking.v ===== *)
(** * The Open Banking client (openbanking/client.go, consents.go, accounts.go,
      payments.go, testintegration.go)

    The mutual-TLS transport, the authorizer that gives every call its
    X-Request-ID, and every endpoint over the base client. *)
From S2P Require Import Prelude GoString GoText GoTime Errors Currency GoHttp Retry Client Options Endpoint Uri Resolve.
From S2P Require BankData BusinessIter.
From S2P Require Import ObTypes.

Definition BaseURLProduction : string := "https://openbanking.mono.bank".
Definition BaseURLStage : string := "https://openbanking-ext.mono.st4g3.com".
Definition BaseURLSandbox : string := "https://ob-ext.mono.st4g3.com".
Definition pathPrefix : string := "/ext".
Definition consentsPath : string := pathPrefix +:+ "/v2/consents/account-access".
Definition accountsPath : string := pathPrefix +:+ "/v2/accounts".
Definition paymentsPath : string := pathPrefix +:+ "/v2/payments".
Definition certRequestPath : string := pathPrefix +:+ "/test-integration/cert-request".

Definition ErrEmptyID : string := "openbanking.ErrEmptyID".
Definition ErrNilRequest : string := "openbanking.ErrNilRequest".
Definition ErrMissingConsentID : string := "openbanking.ErrMissingConsentID".
Definition ErrMissingPSUIPAddress : string := "openbanking.ErrMissingPSUIPAddress".
Definition ErrMissingBookingStatus : string := "openbanking.ErrMissingBookingStatus".
Definition ErrNoClientCert : string := "openbanking.ErrNoClientCert".
Definition ErrInvalidCA : string := "openbanking.ErrInvalidCA".

Definition badPathSegment (s : string) : bool := String.eqb s "" || String.eqb s "." || String.eqb s "..".

(** ** Mutual TLS *)

Record MTLSConfig := mkMTLSConfig { CertPEM : string; KeyPEM : string; RootCAsPEM : string; Timeout : Z }.

Definition MTLSConfig_LogValue (c : MTLSConfig) : BankData.slog := BankData.SlGroup
  [("certPEMBytes", BankData.SlInt (slen (CertPEM c)));
   ("keyPEM", BankData.SlString (if 0 <? slen (KeyPEM c) then "***" else "not set"));
   ("customRootCAs", BankData.SlBool (0 <? slen (RootCAsPEM c))); ("timeout", BankData.SlInt (Timeout c))].

Definition DefaultTimeout : Z := 30 * Second.
Definition VersionTLS12 : Z := 771.

(** crypto/tls and crypto/x509 at the two places the SDK meets them. *)
Class TLSLib := {
  Certificate : Type;
  CertPool : Type;
  tls_X509KeyPair : string → string → result Certificate;
  AppendCertsFromPEM : string → option CertPool
}.

(** The [http.Client] it builds, as far as the SDK sets it. *)
Record MTLSClient `{TLSLib} := mkMTLSClient {
  mc_Certificates : list Certificate; mc_MinVersion : Z; mc_RootCAs : option CertPool; mc_Timeout : Z
}.

(** [plain] tells that [http.DefaultTransport] is an [*http.Transport]. *)
Definition NewMTLSHTTPClient `{TLSLib} (plain : bool) (cfg : MTLSConfig) : result MTLSClient :=
  if (slen (CertPEM cfg) =? 0) || (slen (KeyPEM cfg) =? 0) then Err (ENew ErrNoClientCert)
  else match tls_X509KeyPair (CertPEM cfg) (KeyPEM cfg) with
       | Err e => Err (EWrap "openbanking: load client certificate: %w" e)
       | Ok cert =>
           pool ← (if 0 <? slen (RootCAsPEM cfg) then
                     match AppendCertsFromPEM (RootCAsPEM cfg) with
                     | None => Err (ENew ErrInvalidCA)
                     | Some p => Ok (Some p)
                     end
                   else Ok None);
           if negb plain then Err (ENew "openbanking: http.DefaultTransport is not *http.Transport")
           else Ok (mkMTLSClient _ [cert] VersionTLS12 pool (if Timeout cfg =? 0 then DefaultTimeout else Timeout cfg))
       end.

Definition NewMTLSHTTPClientFromFiles `{TLSLib} (plain : bool) (ReadFile : string → result string)
    (certFile keyFile caFile : string) : result MTLSClient :=
  match ReadFile certFile with
  | Err e => Err (EWrap "openbanking: read certificate: %w" e)
  | Ok certPEM =>
      match ReadFile keyFile with
      | Err e => Err (EWrap "openbanking: read key: %w" e)
      | Ok keyPEM =>
          if negb (String.eqb caFile "") then
            match ReadFile caFile with
            | Err e => Err (EWrap "openbanking: read CA bundle: %w" e)
            | Ok caPEM => NewMTLSHTTPClient plain (mkMTLSConfig certPEM keyPEM caPEM 0)
            end
          else NewMTLSHTTPClient plain (mkMTLSConfig certPEM keyPEM "" 0)
      end
  end.

(** ** The authorizer

    What the context of the call under way pins, and the sixteen bytes of
    crypto/rand. *)
Class ObWorld (W : Type) := {
  ctx_RequestID : W → string;
  rand_Read16 : W → list Z * W
}.

Record RequestIDAuth (W : Type) := mkRequestIDAuth { NewRequestID : option (W → string * W) }.
Arguments mkRequestIDAuth {W}.
Arguments NewRequestID {W}.

Section Client.
Context {W : Type} `{World W} `{NetLib} `{ObWorld W}.

Definition newUUIDv4 (w : W) : string * W :=
  let '(b, w) := rand_Read16 w in (BusinessIter.uuid_string (BusinessIter.uuid_bytes b), w).

Definition newID (a : RequestIDAuth W) (w : W) : string * W :=
  match NewRequestID a with Some f => f w | None => newUUIDv4 w end.

Definition RequestIDAuth_SetAuth (a : RequestIDAuth W) (r : Request) (w : W) : option error * Request * W :=
  let '(r, w) :=
    if String.eqb (Header_Get (rHeader r) HeaderRequestID) "" then
      let id := ctx_RequestID w in
      let '(id, w) := if String.eqb id "" then newID a w else (id, w) in
      (set_Header HeaderRequestID id r, w)
    else (r, w) in
  (None, if String.eqb (Header_Get (rHeader r) "Accept") "" then set_Header "Accept" "application/json" r else r, w).

Definition RequestIDAuth_LogValue (a : RequestIDAuth W) : BankData.slog := BankData.SlString "openbanking.RequestIDAuth{}".

Definition New (http : HTTPDoer W) (opts : list (Client W → Client W)) : Client W :=
  Options.New http (WithBaseURL BaseURLProduction :: WithAuth (Some (RequestIDAuth_SetAuth (mkRequestIDAuth None))) :: opts).

(** ** Endpoints *)

Context (c : Client W) (ua : string).
Context `{JSON CreateConsentRequest, JSON CreateConsentResponse, JSON StartAuthorisationResponse, JSON Consent,
  JSON ConsentStatusResponse, JSON AccountsResponse, JSON BalancesResponse, JSON TransactionsResponse,
  JSON CreatePaymentRequest, JSON CreatePaymentResponse, JSON Payment, JSON PaymentStatusResponse,
  JSON PaymentAuthorisationsResponse, JSON AuthorisationStatusResponse, JSON CertificateRequest,
  JSON CertificateRequestResponse, JSON CertificateStatusResponse}.

Definition with_header (f : Header → Header) (r : Request) : Request :=
  mkRequest (rMethod r) (rURL r) (f (rHeader r)) (rBody r) (rGetBody r) (rContentLength r).

(** A request through [Do], its answer decoded. *)
Definition ask (B : Type) `{JSON B} (req : result Request) (status : Z) (w : W) : result B * W :=
  decoded json_zero (call c ua req (TJSON json_Decode) [status] w).

(** The headers of the two requests that start a flow. *)
Definition initiate (o : InitiationOptions) (h : Header) : Header :=
  setIfNotEmpty HeaderTPPRedirectURI (InitiationOptions_TPPRedirectURI o) (PSU_apply (InitiationOptions_PSU o) h).

(** consents.go *)
Definition consent_uri (consentID : string) : string := consentsPath +:+ "/" +:+ PathEscape consentID.

Definition CreateConsent (in_ : option CreateConsentRequest) (opts : InitiationOptions) (w : W)
    : result CreateConsentResponse * W :=
  match in_ with
  | None => (Err (ENew ErrNilRequest), w)
  | Some x =>
      if String.eqb (PSU_IPAddress (InitiationOptions_PSU opts)) "" then (Err (ENew ErrMissingPSUIPAddress), w)
      else ask _ (with_header (initiate opts) <$> NewJSONRequest "POST" consentsPath (json_Marshal x)) 201 w
  end.

Definition StartConsentAuthorisation (consentID : string) (w : W) : result StartAuthorisationResponse * W :=
  if badPathSegment consentID then (Err (ENew ErrEmptyID), w)
  else ask _ (NewRequest "POST" (consent_uri consentID +:+ "/authorisations") None) 201 w.

Definition GetConsent (consentID : string) (w : W) : result Consent * W :=
  if badPathSegment consentID then (Err (ENew ErrEmptyID), w)
  else ask _ (NewRequest "GET" (consent_uri consentID) None) 200 w.

Definition GetConsentStatus (consentID : string) (w : W) : result ConsentStatusResponse * W :=
  if badPathSegment consentID then (Err (ENew ErrEmptyID), w)
  else ask _ (NewRequest "GET" (consent_uri consentID +:+ "/status") None) 200 w.

Definition RevokeConsent (consentID : string) (w : W) : option error * W :=
  if badPathSegment consentID then (Some (ENew ErrEmptyID), w)
  else get_ack c ua "DELETE" (consent_uri consentID) [204] w.

(** accounts.go *)
Definition Accounts_uri (withBalance : bool) : string := accountsPath +:+ (if withBalance then "?withBalance=true" else "").

Definition Accounts (opts : AccountsOptions) (w : W) : result (list AccountDetails) * W :=
  let o := AccountsOptions_AccountOptions opts in
  if String.eqb (AccountOptions_ConsentID o) "" then (Err (ENew ErrMissingConsentID), w)
  else match ask AccountsResponse (with_header (AccountOptions_apply o) <$>
               NewRequest "GET" (Accounts_uri (AccountsOptions_WithBalance opts)) None) 200 w with
       | (Err e, w) => (Err e, w)
       | (Ok out, w) => (Ok (AccountsResponse_Accounts out), w)
       end.

Definition Balances_uri (accountID : string) : string := accountsPath +:+ "/" +:+ PathEscape accountID +:+ "/balances".

Definition Balances (accountID : string) (o : AccountOptions) (w : W) : result BalancesResponse * W :=
  if badPathSegment accountID then (Err (ENew ErrEmptyID), w)
  else if String.eqb (AccountOptions_ConsentID o) "" then (Err (ENew ErrMissingConsentID), w)
  else ask _ (with_header (AccountOptions_apply o) <$> NewRequest "GET" (Balances_uri accountID) None) 200 w.

Definition transactions_query (o : TransactionsOptions) : Values :=
  let set_date k d q := if Date_IsZero d then q else Values_Set k (Date_String d) q in
  let q := Values_Set "bookingStatus" (TransactionsOptions_BookingStatus o) [] in
  let q := set_date "dateFrom" (TransactionsOptions_DateFrom o) q in
  let q := set_date "dateTo" (TransactionsOptions_DateTo o) q in
  if String.eqb (TransactionsOptions_PageID o) "" then q else Values_Set "pageId" (TransactionsOptions_PageID o) q.

Definition Transactions_uri (accountID : string) (o : TransactionsOptions) : string :=
  accountsPath +:+ "/" +:+ PathEscape accountID +:+ "/transactions?" +:+ Values_Encode (transactions_query o).

Definition Transactions (accountID : string) (opts : TransactionsOptions) (w : W) : result TransactionsResponse * W :=
  let o := TransactionsOptions_AccountOptions opts in
  if badPathSegment accountID then (Err (ENew ErrEmptyID), w)
  else if String.eqb (AccountOptions_ConsentID o) "" then (Err (ENew ErrMissingConsentID), w)
  else if String.eqb (TransactionsOptions_BookingStatus opts) "" then (Err (ENew ErrMissingBookingStatus), w)
  else ask _ (with_header (AccountOptions_apply o) <$> NewRequest "GET" (Transactions_uri accountID opts) None) 200 w.

(** [u.Query().Get(k)]: pairs that do not parse and empty ones are skipped. *)
Definition Query_Get (raw k : string) : string :=
  match filter (λ kv : string * string, kv.1 = k)
          (omap (λ s, if String.eqb s "" || isSome (cut ";" s).2 then None else read_pair s) (split_all "&" raw)) with
  | (_, v) :: _ => v
  | [] => ""
  end.

Definition NextPageID (page : option TransactionsResponse) : string * bool :=
  match page with
  | Some p =>
      match TransactionsResponse_Transactions p with
      | Some t =>
          match AccountReportLinks_Next (AccountReport_Links t) with
          | Some next =>
              match url_Parse (Href_Href next) with
              | None => ("", false)
              | Some u => let id := Query_Get (RawQuery u) "pageId" in (id, negb (String.eqb id ""))
              end
          | None => ("", false)
          end
      | None => ("", false)
      end
  | None => ("", false)
  end.

(** payments.go *)
Definition paymentPath (product paymentID suffix : string) : result string :=
  if badPathSegment product || badPathSegment paymentID then Err (ENew ErrEmptyID)
  else Ok (paymentsPath +:+ "/" +:+ PathEscape product +:+ "/" +:+ PathEscape paymentID +:+ suffix).

Definition CreatePayment_uri (product : string) : string := paymentsPath +:+ "/" +:+ PathEscape product.

Definition CreatePayment (product : string) (in_ : option CreatePaymentRequest) (opts : InitiationOptions) (w : W)
    : result CreatePaymentResponse * W :=
  if badPathSegment product then (Err (ENew ErrEmptyID), w)
  else match in_ with
       | None => (Err (ENew ErrNilRequest), w)
       | Some x =>
           if String.eqb (PSU_IPAddress (InitiationOptions_PSU opts)) "" then (Err (ENew ErrMissingPSUIPAddress), w)
           else ask _ (with_header (initiate opts) <$> NewJSONRequest "POST" (CreatePayment_uri product) (json_Marshal x)) 201 w
       end.

Definition GetPayment (product paymentID : string) (w : W) : result Payment * W :=
  match paymentPath product paymentID "" with
  | Err e => (Err e, w)
  | Ok uri => ask _ (NewRequest "GET" uri None) 200 w
  end.

Definition PaymentStatus (product paymentID : string) (w : W) : result PaymentStatusResponse * W :=
  match paymentPath product paymentID "/status" with
  | Err e => (Err e, w)
  | Ok uri => ask _ (NewRequest "GET" uri None) 200 w
  end.

Definition CancelPayment (product paymentID : string) (w : W) : option error * W :=
  match paymentPath product paymentID "" with
  | Err e => (Some e, w)
  | Ok uri => get_ack c ua "DELETE" uri [204] w
  end.

Definition StartPaymentAuthorisation (product paymentID : string) (opts : AuthorisationOptions) (w : W)
    : result StartAuthorisationResponse * W :=
  match paymentPath product paymentID "/authorisations" with
  | Err e => (Err e, w)
  | Ok uri =>
      ask _ (with_header (setIfNotEmpty HeaderTPPSCAApproachPreference (AuthorisationOptions_SCAApproachPreference opts)) <$>
             NewRequest "POST" uri None) 201 w
  end.

Definition PaymentAuthorisations (product paymentID : string) (w : W) : result (list string) * W :=
  match paymentPath product paymentID "/authorisations" with
  | Err e => (Err e, w)
  | Ok uri =>
      match ask PaymentAuthorisationsResponse (NewRequest "GET" uri None) 200 w with
      | (Err e, w) => (Err e, w)
      | (Ok out, w) => (Ok (PaymentAuthorisationsResponse_AuthorisationIDs out), w)
      end
  end.

Definition PaymentAuthorisationStatus (product paymentID authorisationID : string) (w : W)
    : result AuthorisationStatusResponse * W :=
  if badPathSegment authorisationID then (Err (ENew ErrEmptyID), w)
  else match paymentPath product paymentID ("/authorisations/" +:+ PathEscape authorisationID) with
       | Err e => (Err e, w)
       | Ok uri => ask _ (NewRequest "GET" uri None) 200 w
       end.

(** testintegration.go *)
Definition RequestTestCertificate (in_ : option CertificateRequest) (w : W) : result CertificateRequestResponse * W :=
  match in_ with
  | None => (Err (ENew ErrNilRequest), w)
  | Some x => ask _ (NewJSONRequest "POST" certRequestPath (json_Marshal x)) 201 w
  end.

(** The anonymous body [{csrPem}]. *)
Record csrLookup := mkCsrLookup { csrLookup_CSRPEM : string }.

Definition TestCertificateStatus `{JSON csrLookup} (csrPEM : string) (w : W) : result CertificateStatusResponse * W :=
  if String.eqb csrPEM "" then (Err (ENew ErrEmptyID), w)
  else ask _ (NewJSONRequest "POST" (certRequestPath +:+ "/status") (json_Marshal (mkCsrLookup csrPEM))) 200 w.

End Client.

(** [Messages]; [json_errorBody] is [json.Unmarshal] into the envelope. *)
Definition Messages (json_errorBody : string → option (list ClientMessage)) (e : error) : list ClientMessage :=
  match errors_As_APIError e with
  | None => []
  | Some a => if slen (Body a) =? 0 then [] else default [] (json_errorBody (Body a))
  end.

(** ** Lemmas *)

(** The values of some headers of a request. *)
Definition carries (l : list (string * string)) (q : Request) : Prop :=
  Forall (λ kv : string * string, Header_Get (rHeader q) kv.1 = kv.2) l.

(** The id a call goes out under. *)
Definition request_id {W} `{ObWorld W} (a : RequestIDAuth W) (w : W) : string :=
  if String.eqb (ctx_RequestID w) "" then (newID a w).1 else ctx_RequestID w.

Lemma RequestIDAuth_frame {W} `{ObWorld W} (a : RequestIDAuth W) r w :
  Header_Get (rHeader r) HeaderRequestID = "" →
  (RequestIDAuth_SetAuth a r w).1.1 = None ∧
  Header_Get (rHeader (RequestIDAuth_SetAuth a r w).1.2) HeaderRequestID = request_id a w ∧
  ∀ k, k ≠ HeaderRequestID → k ≠ "Accept" →
    Header_Get (rHeader (RequestIDAuth_SetAuth a r w).1.2) k = Header_Get (rHeader r) k.
Proof.
  intros Hr. unfold RequestIDAuth_SetAuth. rewrite Hr. cbn [String.eqb].
  assert (∃ w', (if String.eqb (ctx_RequestID w) "" then newID a w else (ctx_RequestID w, w)) = (request_id a w, w')) as [w' ->].
  { unfold request_id. case_match; [|by eexists]. destruct (newID a w). by eexists. }
  split; [done|]. cbn [fst snd].
  assert (HeaderRequestID ≠ "Accept") by done.
  split; [|intros k Hk Ha]; case_match; rewrite !set_Header_at; repeat (case_decide; try congruence).
Qed.

Definition carries_map (l : list (string * string)) (h : Header) : Prop :=
  Forall (λ kv : string * string, Header_Get h kv.1 = kv.2) l.

Section Headers.
Context {W : Type} `{World W} `{NetLib} `{ObWorld W}.
Context (P : W → Prop) (a : RequestIDAuth W) (c : Client W) (ua : string).
Hypothesis Hc : c_auth c = Some (RequestIDAuth_SetAuth a).
Hypothesis Ha : ∀ q w, P w → P (RequestIDAuth_SetAuth a q w).2.

Definition own_headers : list string := ["Content-Type"; "User-Agent"; "Accept"; HeaderRequestID].

Lemma Do_carries {A} l r (v : target W A) exp w :
  Guarded P (carries ((HeaderRequestID, request_id a w) :: l)) c v → P w →
  Header_Get (rHeader r) HeaderRequestID = "" → carries l r → Forall (λ kv : string * string, kv.1 ∉ own_headers) l →
  P (Do c ua (Some r) v exp w).2.
Proof.
  intros Hg Hw Hr Hl Hk. apply (Do_guarded P (carries ((HeaderRequestID, request_id a w) :: l)) c ua r v exp w Hg Hw).
  { intros f q w' Hf. rewrite Hc in Hf. injection Hf as <-. apply Ha. }
  intros u q. rewrite Hc. intros Hb. apply buffer_body_frame in Hb as [_ Hq].
  set (r' := default_headers c ua (set_URL u r)) in *.
  assert (∀ k, k ≠ "Content-Type" → k ≠ "User-Agent" → Header_Get (rHeader r') k = Header_Get (rHeader r) k) as Hd.
  { intros k H3 H4. apply (default_headers_get c ua (set_URL u r) k); congruence. }
  destruct (RequestIDAuth_frame a r' w) as (_ & Hid & Hother); [by rewrite Hd|].
  constructor; cbn [fst snd]; [by rewrite Hq|].
  unfold carries in Hl. rewrite Forall_forall in Hl, Hk. apply Forall_forall. intros [k v'] Hin. cbn [fst snd].
  specialize (Hk _ Hin). specialize (Hl _ Hin). cbn [fst snd] in Hk, Hl. unfold own_headers in Hk.
  do 4 (apply not_elem_of_cons in Hk as [? Hk]). by rewrite Hq, Hother, Hd.
Qed.

Lemma ask_carries l {B} `{JSON B} (f : Header → Header) req status w :
  (∀ A (v : target W A), (∀ f, v ≠ TWriter f) → Guarded P (carries ((HeaderRequestID, request_id a w) :: l)) c v) → P w →
  (∀ r, req = Ok r → rHeader r = ∅) → (Header_Get (f ∅) HeaderRequestID = "") →
  Forall (λ kv : string * string, Header_Get (f ∅) kv.1 = kv.2) l → Forall (λ kv : string * string, kv.1 ∉ own_headers) l →
  P (ask c ua B (with_header f <$> req) status w).2.
Proof.
  intros Hg Hw Hreq Hf Hl Hk. unfold ask, call, decoded. destruct req as [r|e]; cbn; [|done].
  pose proof (Do_carries l (with_header f r) (TJSON json_Decode) [status] w (Hg B (TJSON json_Decode) ltac:(done)) Hw) as Hd.
  unfold with_header in *. cbn in Hd. rewrite (Hreq r eq_refl) in Hd. specialize (Hd Hf Hl Hk).
  rewrite (Hreq r eq_refl). destruct (Do _ _ _ _ _ _) as [[[| |]|] w']; exact Hd.
Qed.

Lemma NewRequest_header method uri b r : NewRequest method uri b = Ok r → rHeader r = ∅.
Proof. unfold NewRequest. repeat case_match; intros; simplify_eq; done. Qed.

Lemma NewJSONRequest_header method uri b r : NewJSONRequest method uri b = Ok r → rHeader r = ∅.
Proof. unfold NewJSONRequest. case_match; [apply NewRequest_header|done]. Qed.

Lemma with_no_header (req : result Request) : with_header (λ h, h) <$> req = req.
Proof. by destruct req as [[]|]. Qed.

Lemma ask_bare {B} `{JSON B} req status w :
  (∀ A (v : target W A), (∀ f, v ≠ TWriter f) → Guarded P (carries [(HeaderRequestID, request_id a w)]) c v) → P w →
  (∀ r, req = Ok r → rHeader r = ∅) → P (ask c ua B req status w).2.
Proof.
  intros Hg Hw Hr. rewrite <-(with_no_header req). apply (ask_carries [] (λ h, h)); try done; by constructor.
Qed.

Lemma ask_map {B C} `{JSON B} (f : B → C) req status w :
  P (ask c ua B req status w).2 →
  P (match ask c ua B req status w with (Err e, w) => (Err e, w) | (Ok out, w) => (Ok (f out), w) end).2.
Proof. by destruct (ask _ _ _ _ _ _) as [[|] ?]. Qed.

Lemma ack_bare method uri status w :
  (∀ A (v : target W A), (∀ f, v ≠ TWriter f) → Guarded P (carries [(HeaderRequestID, request_id a w)]) c v) → P w →
  P (get_ack c ua method uri [status] w).2.
Proof.
  intros Hg Hw. unfold get_ack, call, ack. destruct (NewRequest method uri None) as [r|e] eqn:Hr; [|done].
  apply NewRequest_header in Hr.
  pose proof (Do_carries [] r (TNil (A := unit)) [status] w (Hg unit TNil ltac:(done)) Hw) as Hd.
  rewrite Hr in Hd. specialize (Hd eq_refl (Forall_nil_2 _) (Forall_nil_2 _)).
  destruct (Do _ _ _ _ _ _) as [[|] w']; exact Hd.
Qed.

Lemma setIfNotEmpty_get k v h k' :
  Header_Get (setIfNotEmpty k v h) k' = if decide (k = k' ∧ v ≠ "") then v else Header_Get h k'.
Proof.
  unfold setIfNotEmpty, Header_Set, Header_Get. destruct (String.eqb_spec v "") as [->|Hv].
  - by rewrite decide_False by (by intros []).
  - case_decide as Hd; [destruct Hd as [-> _]; by rewrite lookup_insert_eq|].
    rewrite lookup_insert_ne; [done|]. intros ->. by destruct Hd.
Qed.

Lemma apply_consent o : carries_map [(HeaderConsentID, AccountOptions_ConsentID o)] (AccountOptions_apply o ∅) ∧
  Header_Get (AccountOptions_apply o ∅) HeaderRequestID = "".
Proof.
  unfold AccountOptions_apply, carries_map. rewrite Forall_singleton. cbn [fst snd]. rewrite !setIfNotEmpty_get.
  rewrite !decide_False by (by intros []). by unfold Header_Set, Header_Get; rewrite lookup_insert_eq, lookup_insert_ne.
Qed.

Lemma initiate_ip o : PSU_IPAddress (InitiationOptions_PSU o) ≠ "" →
  carries_map [(HeaderPSUIPAddress, PSU_IPAddress (InitiationOptions_PSU o))] (initiate o ∅) ∧
  Header_Get (initiate o ∅) HeaderRequestID = "".
Proof.
  intros Hip. unfold initiate, PSU_apply, carries_map. rewrite Forall_singleton. cbn [fst snd]. rewrite !setIfNotEmpty_get.
  split.
  - rewrite decide_False by (by intros []). by rewrite decide_True.
  - by rewrite !decide_False by (by intros []).
Qed.

Lemma extra_headers v : Forall (λ kv : string * string, kv.1 ∉ own_headers) [(HeaderConsentID, v)] ∧
  Forall (λ kv : string * string, kv.1 ∉ own_headers) [(HeaderPSUIPAddress, v)].
Proof. split; apply Forall_singleton; cbn [fst]; by apply (bool_decide_unpack _); vm_compute. Qed.

End Headers.


(** ** Properties *)

(** C13: every call of the Open Banking API that reaches the transport carries one
    X-Request-ID, the pinned id of its context or else a new one, the same on
    every attempt of the call; with it the consent id on each call of the
    account group and the address of the customer on the two calls that start
    a flow. A call whose consent id or address is missing is refused with
    nothing sent: on each of these five calls. ([P] is whatever the environment
    keeps as long as it is handed only such requests; the authorizer is the
    client's own and the request hook leaves the headers alone.) *)
Theorem openbanking_headers {W} `{World W} `{NetLib} `{ObWorld W}
  `{JSON CreateConsentRequest, JSON CreateConsentResponse, JSON StartAuthorisationResponse, JSON Consent,
    JSON ConsentStatusResponse, JSON AccountsResponse, JSON BalancesResponse, JSON TransactionsResponse,
    JSON CreatePaymentRequest, JSON CreatePaymentResponse, JSON Payment, JSON PaymentStatusResponse,
    JSON PaymentAuthorisationsResponse, JSON AuthorisationStatusResponse, JSON CertificateRequest,
    JSON CertificateRequestResponse, JSON CertificateStatusResponse, JSON csrLookup}
  (P : W → Prop) (a : RequestIDAuth W) (c : Client W) ua (w : W) :
  let kept l := ∀ A (v : target W A), (∀ f, v ≠ TWriter f) →
    Guarded P (carries ((HeaderRequestID, request_id a w) :: l)) c v in
  c_auth c = Some (RequestIDAuth_SetAuth a) → (∀ q w, P w → P (RequestIDAuth_SetAuth a q w).2) → P w →
  (kept [] →
    (∀ id, P (StartConsentAuthorisation c ua id w).2) ∧ (∀ id, P (GetConsent c ua id w).2) ∧
    (∀ id, P (GetConsentStatus c ua id w).2) ∧ (∀ id, P (RevokeConsent c ua id w).2) ∧
    (∀ p id, P (GetPayment c ua p id w).2) ∧ (∀ p id, P (PaymentStatus c ua p id w).2) ∧
    (∀ p id, P (CancelPayment c ua p id w).2) ∧ (∀ p id o, P (StartPaymentAuthorisation c ua p id o w).2) ∧
    (∀ p id, P (PaymentAuthorisations c ua p id w).2) ∧ (∀ p id aid, P (PaymentAuthorisationStatus c ua p id aid w).2) ∧
    (∀ x, P (RequestTestCertificate c ua x w).2) ∧ (∀ csr, P (TestCertificateStatus c ua csr w).2)) ∧
  (∀ o, kept [(HeaderConsentID, AccountOptions_ConsentID o)] →
    (∀ b, P (Accounts c ua (mkAccountsOptions o b) w).2) ∧ (∀ id, P (Balances c ua id o w).2) ∧
    (∀ id b f t p, P (Transactions c ua id (mkTransactionsOptions o b f t p) w).2)) ∧
  (∀ o, kept [(HeaderPSUIPAddress, PSU_IPAddress (InitiationOptions_PSU o))] →
    (∀ x, P (CreateConsent c ua x o w).2) ∧ (∀ p x, P (CreatePayment c ua p x o w).2)) ∧
  (∀ o, AccountOptions_ConsentID o = "" →
    let refusal id := ENew (if badPathSegment id then ErrEmptyID else ErrMissingConsentID) in
    (∀ b, Accounts c ua (mkAccountsOptions o b) w = (Err (ENew ErrMissingConsentID), w)) ∧
    (∀ id, Balances c ua id o w = (Err (refusal id), w)) ∧
    (∀ id b f t p, Transactions c ua id (mkTransactionsOptions o b f t p) w = (Err (refusal id), w))) ∧
  (∀ o, PSU_IPAddress (InitiationOptions_PSU o) = "" →
    (∀ x, CreateConsent c ua (Some x) o w = (Err (ENew ErrMissingPSUIPAddress), w)) ∧
    (∀ p x, CreatePayment c ua p (Some x) o w =
       (Err (ENew (if badPathSegment p then ErrEmptyID else ErrMissingPSUIPAddress)), w))).
Proof.
  intros kept Hc Ha Hw. split.
  { intros Hk. pose proof (fun B (HB : JSON B) => ask_bare P a c ua Hc Ha (B := B)) as Hb. pose proof (ack_bare P a c ua Hc Ha) as Hack.
    unfold StartConsentAuthorisation, GetConsent, GetConsentStatus, RevokeConsent, GetPayment, PaymentStatus, CancelPayment,
      PaymentAuthorisations, PaymentAuthorisationStatus, RequestTestCertificate, TestCertificateStatus.
    split_and!; intros; try solve [repeat case_match; try done; first [by apply Hack|apply Hb; try done; by intros ? ?%NewRequest_header]].
    - unfold StartPaymentAuthorisation. case_match; [|done]. apply (ask_carries P a c ua Hc Ha []); try done; try (by constructor).
      + by intros ? ?%NewRequest_header.
      + rewrite setIfNotEmpty_get. by rewrite decide_False by (by intros []).
    - case_match; [|done]. apply ask_map, Hb; try done. by intros ? ?%NewRequest_header.
    - case_match; [|done]. apply Hb; try done. by intros ? ?%NewJSONRequest_header.
    - case_match; [done|]. apply Hb; try done. by intros ? ?%NewJSONRequest_header. }
  split.
  { intros o Hk. destruct (apply_consent o) as [Ho Hid]. destruct (extra_headers (AccountOptions_ConsentID o)) as [Hx _].
    assert (∀ B (HB : JSON B) uri, P (ask c ua B (with_header (AccountOptions_apply o) <$> NewRequest "GET" uri None) 200 w).2) as Hb.
    { intros B HB uri. apply (ask_carries P a c ua Hc Ha [(HeaderConsentID, AccountOptions_ConsentID o)]); try done.
      by intros ? ?%NewRequest_header. }
    unfold Accounts, Balances, Transactions. split_and!; intros; cbn [AccountsOptions_AccountOptions TransactionsOptions_AccountOptions].
    - case_match; [done|]. apply ask_map, Hb.
    - repeat case_match; try done; apply Hb.
    - repeat case_match; try done; apply Hb. }
  split.
  { intros o Hk. destruct (String.eqb_spec (PSU_IPAddress (InitiationOptions_PSU o)) "") as [He|He].
    { unfold CreateConsent, CreatePayment. rewrite He. cbn [String.eqb]. by split; intros; repeat case_match. }
    destruct (initiate_ip o He) as [Ho Hid]. destruct (extra_headers (PSU_IPAddress (InitiationOptions_PSU o))) as [_ Hx].
    assert (∀ A B (HA : JSON A) (HB : JSON B) uri (x : A),
      P (ask c ua B (with_header (initiate o) <$> NewJSONRequest "POST" uri (json_Marshal x)) 201 w).2) as Hb.
    { intros A B HA HB uri x. apply (ask_carries P a c ua Hc Ha [(HeaderPSUIPAddress, PSU_IPAddress (InitiationOptions_PSU o))]); try done.
      by intros ? ?%NewJSONRequest_header. }
    unfold CreateConsent, CreatePayment. split; intros; repeat case_match; try done; apply Hb. }
  split.
  - intros o Ho refusal. unfold Accounts, Balances, Transactions, refusal.
    cbn [AccountsOptions_AccountOptions TransactionsOptions_AccountOptions]. rewrite Ho. cbn [String.eqb].
    split_and!; [done|..]; intros; by case_match.
  - intros o Ho. unfold CreateConsent, CreatePayment. rewrite Ho. split; [done|]. intros; by case_match.
Qed.

#[local] Instance no_json A (z : A) : JSON A := {| json_Marshal _ := Ok "{}"; json_Decode _ _ := Ok z; json_zero := z |}.
#[local] Instance net_ob : ObWorld Net := {| ctx_RequestID _ := ""; rand_Read16 w := (seqZ 0 16, w) |}.

Definition ob_client : Client Net := WithAuth (Some (RequestIDAuth_SetAuth (mkRequestIDAuth None))) (net_client true None).
Definition example_id : string := "00010203-0405-4607-8809-0a0b0c0d0e0f".

(** A gateway that fails once: both attempts go out under the same id. *)
Lemma openbanking_headers_witness :
  let w' := (GetConsentStatus (H0 := net_netlib) (H6 := no_json _ (mkConsentStatusResponse "valid")) ob_client "sdk" "c-1"
               (mkNet [bad_gateway; ok_200 ""] [] 0)).2 in
  length (n_seen w') = 2%nat ∧ Forall (carries [(HeaderRequestID, example_id)]) (n_seen w').
Proof.
  intros w'. split; [by vm_compute|].
  assert (request_id (mkRequestIDAuth None) (mkNet [bad_gateway; ok_200 ""] [] 0) = example_id) as Hid by (by vm_compute).
  rewrite <-Hid.
  set (acc := mkAccountReference "" "" ""). set (pacc := mkPaymentAccountReference "" ""). set (amount := mkAmount "" "").
  set (cred := mkCreditor "" "" "").
  refine (proj1 (proj2 (proj2 (proj1 (openbanking_headers (H0 := net_netlib)
    (H2 := no_json _ (mkCreateConsentRequest (mkAccountAccess [] [] [] []) "" false zero_date 0))
    (H3 := no_json _ (mkCreateConsentResponse "" "" (mkConsentLinks None)))
    (H4 := no_json _ (mkStartAuthorisationResponse "" "" (mkAuthorisationLinks None None)))
    (H5 := no_json _ (mkConsent (mkAccountAccess [] [] [] []) "" false zero_date 0 ""))
    (H6 := no_json _ (mkConsentStatusResponse "valid")) (H7 := no_json _ (mkAccountsResponse []))
    (H8 := no_json _ (mkBalancesResponse acc [])) (H9 := no_json _ (mkTransactionsResponse acc None))
    (H10 := no_json _ (mkCreatePaymentRequest amount pacc cred pacc []))
    (H11 := no_json _ (mkCreatePaymentResponse "" "" (mkPaymentLinks None))) (H12 := no_json _ (mkPayment "" "" amount pacc cred pacc))
    (H13 := no_json _ (mkPaymentStatusResponse "")) (H14 := no_json _ (mkPaymentAuthorisationsResponse []))
    (H15 := no_json _ (mkAuthorisationStatusResponse "")) (H16 := no_json _ (mkCertificateRequest "" "" "" "" "" "" ""))
    (H17 := no_json _ (mkCertificateRequestResponse "")) (H18 := no_json _ (mkCertificateStatusResponse "" "" ""))
    (H19 := no_json _ (mkCsrLookup ""))
    (λ w, Forall (carries [(HeaderRequestID, request_id (mkRequestIDAuth None) (mkNet [bad_gateway; ok_200 ""] [] 0))]) (n_seen w))
    (mkRequestIDAuth None) ob_client "sdk" (mkNet [bad_gateway; ok_200 ""] [] 0) _ _ _) _))) "c-1").
  - done.
  - intros q w Hw. assert ((RequestIDAuth_SetAuth (mkRequestIDAuth None) q w).2 = w) as ->; [|exact Hw].
    unfold RequestIDAuth_SetAuth. by destruct (String.eqb (Header_Get (rHeader q) HeaderRequestID) "").
  - by apply Forall_nil.
  - intros A v Hv. split; simpl; try done; intros; simplify_eq; try done; [|by destruct (Hv f)].
    unfold net_send. case_match; simpl; apply Forall_app_2; try done; by apply Forall_singleton.
Defined.

(** *** Identifiers *)

Lemma badPathSegment_dots s : badPathSegment s = false ↔ s ≠ "" ∧ is_dots s = false.
Proof.
  unfold badPathSegment, is_dots. rewrite <-orb_assoc, orb_false_iff.
  by destruct (String.eqb_spec s ""); split; intros [].
Qed.

Lemma consent_path id : consent_uri id = path_of ("" :: ["ext";"v2";"consents"] ++ ["account-access"; id] ++ []).
Proof. reflexivity. Qed.

Lemma consent_path1 id s : PathEscape s = s →
  consent_uri id +:+ "/" +:+ s = path_of ("" :: ["ext";"v2";"consents"] ++ ["account-access"; id] ++ [s]).
Proof.
  intros Hs. change (path_of _) with ("/ext/v2/consents/account-access/" +:+ (PathEscape id +:+ ("/" +:+ PathEscape s))).
  rewrite Hs. unfold consent_uri. change (consentsPath +:+ "/" +:+ PathEscape id) with ("/ext/v2/consents/account-access/" +:+ PathEscape id).
  by rewrite str_app_assoc.
Qed.

Lemma account_path id s : PathEscape s = s →
  accountsPath +:+ "/" +:+ PathEscape id +:+ "/" +:+ s = path_of ("" :: ["ext";"v2"] ++ ["accounts"; id] ++ [s]).
Proof.
  intros Hs. change (path_of _) with ("/ext/v2/accounts/" +:+ (PathEscape id +:+ ("/" +:+ PathEscape s))). by rewrite Hs.
Qed.

Lemma paymentPath_eq p id rest suffix :
  suffix = slashed (PathEscape <$> rest) → badPathSegment p = false → badPathSegment id = false →
  paymentPath p id suffix = Ok (path_of ("" :: ["ext";"v2";"payments"] ++ [p; id] ++ rest)).
Proof.
  intros -> Hp Hid. unfold paymentPath. rewrite Hp, Hid. cbn [orb]. f_equal. rewrite path_slashed by done.
  rewrite !fmap_app, !slashed_app. change (slashed (PathEscape <$> ["ext";"v2";"payments"])) with paymentsPath.
  change (PathEscape <$> [p; id]) with [PathEscape p; PathEscape id]. rewrite !slashed_cons.
  change (slashed []) with "". rewrite str_app_nil_r, !str_app_assoc. reflexivity.
Qed.

Lemma escaped_stays base pre x id post :
  Forall (λ s, is_dots s = false) (pre ++ x :: post) → is_dots id = false →
  resolvePath base (path_of ("" :: pre ++ [x; id] ++ post)) = path_of ("" :: pre ++ [x; id] ++ post).
Proof.
  intros Hall Hid. rewrite resolve_identifier by done. unfold is_dots in Hid. by apply orb_false_iff in Hid as [-> ->].
Qed.

(** Where the paths of accepted identifiers end up. *)
Lemma accepted_stay base id p aid :
  badPathSegment id = false → badPathSegment p = false → badPathSegment aid = false →
  let stays uri segs := resolvePath base uri = uri ∧ read_uri uri = Some (segs, []) in
  stays (consent_uri id) ["";"ext";"v2";"consents";"account-access"; id] ∧
  stays (consent_uri id +:+ "/authorisations") ["";"ext";"v2";"consents";"account-access"; id; "authorisations"] ∧
  stays (consent_uri id +:+ "/status") ["";"ext";"v2";"consents";"account-access"; id; "status"] ∧
  stays (Balances_uri id) ["";"ext";"v2";"accounts"; id; "balances"] ∧
  (∀ o, resolvePath base (uri_path (Transactions_uri id o)) = uri_path (Transactions_uri id o) ∧
        read_uri (Transactions_uri id o) = Some (["";"ext";"v2";"accounts"; id; "transactions"], transactions_query o)) ∧
  stays (CreatePayment_uri p) ["";"ext";"v2";"payments"; p] ∧
  (∃ uri, paymentPath p id "" = Ok uri ∧ stays uri ["";"ext";"v2";"payments"; p; id]) ∧
  (∃ uri, paymentPath p id "/status" = Ok uri ∧ stays uri ["";"ext";"v2";"payments"; p; id; "status"]) ∧
  (∃ uri, paymentPath p id "/authorisations" = Ok uri ∧ stays uri ["";"ext";"v2";"payments"; p; id; "authorisations"]) ∧
  (∃ uri, paymentPath p id ("/authorisations/" +:+ PathEscape aid) = Ok uri ∧
     stays uri ["";"ext";"v2";"payments"; p; id; "authorisations"; aid]).
Proof.
  intros Hid Hp Haid stays. pose proof Hid as Hid'. pose proof Hp as Hp'.
  apply badPathSegment_dots in Hid' as [_ Hd]. apply badPathSegment_dots in Hp' as [_ Hdp].
  apply badPathSegment_dots in Haid as [_ Hda].
  assert (∀ pre x post, Forall (λ s, is_dots s = false) (pre ++ x :: post) →
    stays (path_of ("" :: pre ++ [x; id] ++ post)) ("" :: pre ++ [x; id] ++ post)) as Hs.
  { intros pre x post Hall. split; [by apply escaped_stays|by apply read_uri_path]. }
  split_and!.
  - rewrite consent_path. apply Hs. by repeat constructor.
  - change "/authorisations" with ("/" +:+ "authorisations"). rewrite consent_path1 by done. apply Hs. by repeat constructor.
  - change "/status" with ("/" +:+ "status"). rewrite consent_path1 by done. apply Hs. by repeat constructor.
  - unfold Balances_uri. change "/balances" with ("/" +:+ "balances"). rewrite account_path by done. apply Hs. by repeat constructor.
  - intros o. assert (Transactions_uri id o = path_of ("" :: ["ext";"v2"] ++ ["accounts"; id] ++ ["transactions"]) +:+
      "?" +:+ Values_Encode (transactions_query o)) as ->.
    { rewrite <-account_path by done. unfold Transactions_uri. rewrite !str_app_assoc. reflexivity. }
    split; [|by apply read_uri_query]. unfold uri_path. change ("?" +:+ ?u) with (String "?" u).
    rewrite cut_free by apply path_free. apply Hs. by repeat constructor.
  - change (CreatePayment_uri p) with (path_of ("" :: ["ext";"v2"] ++ ["payments"; p] ++ [])).
    split; [|by apply read_uri_path]. apply escaped_stays; [by repeat constructor|done].
  - eexists. split; [by apply (paymentPath_eq p id [])|]. apply Hs. by repeat constructor.
  - eexists. split; [by apply (paymentPath_eq p id ["status"])|]. apply Hs. by repeat constructor.
  - eexists. split; [by apply (paymentPath_eq p id ["authorisations"])|]. apply Hs. by repeat constructor.
  - eexists. split; [by apply (paymentPath_eq p id ["authorisations"; aid])|]. split; [|by apply read_uri_path].
    apply (escaped_stays base ["ext";"v2";"payments"; p; id] "authorisations" aid []); [by repeat constructor|done].
Qed.

(** The identifiers that would move a path, and the empty one. *)
Definition moving : list string := [""; "."; ".."].

Lemma badPathSegment_moving s : badPathSegment s = bool_decide (s ∈ moving).
Proof.
  apply eq_bool_prop_intro. unfold badPathSegment, moving. rewrite bool_decide_spec, !elem_of_cons, !elem_of_nil.
  destruct (String.eqb_spec s ""), (String.eqb_spec s "."), (String.eqb_spec s ".."); cbn; tauto.
Qed.

(** C14: an identifier the Open Banking client accepts stays where it was put:
    after the base URL has resolved the path, the request still names that one
    consent, account, payment or authorisation as a single segment of the
    collection the method works on, whatever bytes the identifier holds; the
    identifiers that would move it, the two dot segments, and the empty one
    are refused by every method that takes an identifier, in each of its
    places, with ErrEmptyID and nothing sent. *)
Theorem openbanking_paths_stay {W} `{World W} `{NetLib}
  `{JSON StartAuthorisationResponse, JSON Consent, JSON ConsentStatusResponse, JSON BalancesResponse,
    JSON TransactionsResponse, JSON CreatePaymentRequest, JSON CreatePaymentResponse, JSON Payment,
    JSON PaymentStatusResponse, JSON PaymentAuthorisationsResponse, JSON AuthorisationStatusResponse}
  (c : Client W) ua (w : W) :
  (∀ base id p aid, id ∉ moving → p ∉ moving → aid ∉ moving →
    let stays uri segs := resolvePath base uri = uri ∧ read_uri uri = Some (segs, []) in
    stays (consent_uri id) ["";"ext";"v2";"consents";"account-access"; id] ∧
    stays (consent_uri id +:+ "/authorisations") ["";"ext";"v2";"consents";"account-access"; id; "authorisations"] ∧
    stays (consent_uri id +:+ "/status") ["";"ext";"v2";"consents";"account-access"; id; "status"] ∧
    stays (Balances_uri id) ["";"ext";"v2";"accounts"; id; "balances"] ∧
    (∀ o, resolvePath base (uri_path (Transactions_uri id o)) = uri_path (Transactions_uri id o) ∧
          read_uri (Transactions_uri id o) = Some (["";"ext";"v2";"accounts"; id; "transactions"], transactions_query o)) ∧
    stays (CreatePayment_uri p) ["";"ext";"v2";"payments"; p] ∧
    (∃ uri, paymentPath p id "" = Ok uri ∧ stays uri ["";"ext";"v2";"payments"; p; id]) ∧
    (∃ uri, paymentPath p id "/status" = Ok uri ∧ stays uri ["";"ext";"v2";"payments"; p; id; "status"]) ∧
    (∃ uri, paymentPath p id "/authorisations" = Ok uri ∧ stays uri ["";"ext";"v2";"payments"; p; id; "authorisations"]) ∧
    (∃ uri, paymentPath p id ("/authorisations/" +:+ PathEscape aid) = Ok uri ∧
       stays uri ["";"ext";"v2";"payments"; p; id; "authorisations"; aid])) ∧
  (∀ id, id ∈ moving →
    let refused {A} (r : result A * W) := r = (Err (ENew ErrEmptyID), w) in
    refused (StartConsentAuthorisation c ua id w) ∧ refused (GetConsent c ua id w) ∧
    refused (GetConsentStatus c ua id w) ∧ RevokeConsent c ua id w = (Some (ENew ErrEmptyID), w) ∧
    (∀ o, refused (Balances c ua id o w)) ∧ (∀ o, refused (Transactions c ua id o w)) ∧
    (∀ x o, refused (CreatePayment c ua id x o w)) ∧
    ∀ p pid, (p = id ∨ pid = id →
      refused (GetPayment c ua p pid w) ∧ refused (PaymentStatus c ua p pid w) ∧
      CancelPayment c ua p pid w = (Some (ENew ErrEmptyID), w) ∧
      (∀ o, refused (StartPaymentAuthorisation c ua p pid o w)) ∧ refused (PaymentAuthorisations c ua p pid w)) ∧
      ∀ aid, p = id ∨ pid = id ∨ aid = id → refused (PaymentAuthorisationStatus c ua p pid aid w)).
Proof.
  assert (∀ s, s ∉ moving → badPathSegment s = false) as Hgood by (intros s ?; rewrite badPathSegment_moving; by apply bool_decide_false).
  split.
  { intros base id p aid Hid%Hgood Hp%Hgood Haid%Hgood. by apply accepted_stay. }
  intros id Hid refused. assert (badPathSegment id = true) as Hbad by (rewrite badPathSegment_moving; by apply bool_decide_true).
  assert (∀ p pid suffix, p = id ∨ pid = id → paymentPath p pid suffix = Err (ENew ErrEmptyID)) as Hpath.
  { intros p pid suffix Hor. unfold paymentPath. destruct Hor as [-> | ->]; by rewrite Hbad, ?orb_true_r. }
  unfold refused, StartConsentAuthorisation, GetConsent, GetConsentStatus, RevokeConsent, Balances, Transactions, CreatePayment,
    GetPayment, PaymentStatus, CancelPayment, StartPaymentAuthorisation, PaymentAuthorisations, PaymentAuthorisationStatus.
  rewrite Hbad. do 7 (split; [done|]). intros p pid. split; [intros Hor; rewrite !Hpath by done; done|].
  intros aid [?|[?| ->]]; [| |by rewrite Hbad]; case_match; try done; rewrite Hpath by tauto; done.
Qed.

Ltac zero := repeat first [exact 0 | exact "" | exact false | exact (@nil _) | exact None | exact zero_date | constructor].

Lemma openbanking_paths_stay_witness :
  let w := mkNet [ok_200 ""] [] 0 in
  resolvePath "" (consent_uri "../x?y") = "/ext/v2/consents/account-access/..%2Fx%3Fy" ∧
  RevokeConsent (H0 := net_netlib) ob_client "sdk" ".." w = (Some (ENew ErrEmptyID), w).
Proof.
  intros w. unshelve epose proof (openbanking_paths_stay (H0 := net_netlib) ob_client "sdk" w) as [Hs Hr];
    try match goal with |- JSON _ => refine (no_json _ _); zero end.
  assert (∀ s, bool_decide (s ∉ moving) = true → s ∉ moving) as Hm by (intros s; apply bool_decide_eq_true).
  split.
  - exact (proj1 (proj1 (Hs "" "../x?y" "credit-transfers" "a" (Hm "../x?y" eq_refl) (Hm "credit-transfers" eq_refl)
      (Hm "a" eq_refl)))).
  - assert (".." ∈ moving) as Hin by (by right; right; left).
    exact (proj1 (proj2 (proj2 (proj2 (Hr ".." Hin))))).
Defined.

(** *** The statement cursor *)

Lemma QueryEscape_free_semicolon s : free ";" (QueryEscape s).
Proof.
  unfold free. induction s as [|a s IH]; [constructor|]. cbn [QueryEscape]. destruct (query_safe a) eqn:Ha.
  - cbn. constructor; [by intros ->|done].
  - destruct (Z.eqb_spec (byte_of a) 32); [cbn; by constructor|]. cbn.
    assert (∀ n, 0 <= n < 16 → upper_hex n ≠ ";"%char) as Hu.
    { intros n0 Hn. assert (n0 ∈ seqZ 0 16) as Hin by (apply elem_of_seqZ; lia). clear Hn.
      revert n0 Hin. apply Forall_forall. by apply (bool_decide_unpack _); vm_compute. }
    pose proof (byte_of_bound a). pose proof (Z.div_mod (byte_of a) 16 ltac:(lia)). pose proof (Z.mod_pos_bound (byte_of a) 16 ltac:(lia)).
    constructor; [done|]. constructor; [apply Hu; lia|]. constructor; [apply Hu; lia|done].
Qed.

Lemma pair_text_free_semicolon kv : free ";" (pair_text kv).
Proof.
  destruct kv as [k v]. unfold pair_text. rewrite !free_app. split_and!; [apply QueryEscape_free_semicolon| |apply QueryEscape_free_semicolon].
  by repeat constructor.
Qed.

Lemma Query_Get_Encode q k : Query_Get (Values_Encode q) k =
  match filter (λ kv : string * string, kv.1 = k) q with (_, v) :: _ => v | [] => "" end.
Proof.
  unfold Query_Get. destruct q as [|kv0 q0] eqn:Hq; [done|]. rewrite <-Hq.
  assert (omap (λ s, if String.eqb s "" || isSome (cut ";" s).2 then None else read_pair s) (split_all "&" (Values_Encode q)) = q) as ->; [|done].
  rewrite Values_Encode_text, split_all_concat.
  - clear Hq. induction q as [|kv q IH]; [done|]. rewrite fmap_cons. cbn [omap list_omap].
    destruct (String.eqb_spec (pair_text kv) "") as [He|He]; [by destruct (pair_text_nonempty kv)|].
    rewrite (cut_none ";") by apply pair_text_free_semicolon. cbn [orb isSome snd]. rewrite read_pair_text. cbn. f_equal. exact IH.
  - by rewrite Hq.
  - apply Forall_fmap, Forall_true. intros kv. apply pair_text_free. by right.
Qed.

(** C38: the cursor of a statement survives its round trip. When the next-page
    link is a URL whose query was encoded from some parameters with the cursor
    among them, [NextPageID] returns the cursor whatever bytes it holds, and the
    call it is fed back to puts those same bytes in its own pageId parameter,
    next to the mandatory booking status. *)
Theorem page_cursor_roundtrip `{NetLib} (page : TransactionsResponse) report next u q cursor id (o : TransactionsOptions) :
  TransactionsResponse_Transactions page = Some report → AccountReportLinks_Next (AccountReport_Links report) = Some next →
  url_Parse (Href_Href next) = Some u → RawQuery u = Values_Encode q →
  filter (λ kv : string * string, kv.1 = "pageId") q = [("pageId", cursor)] → cursor ≠ "" →
  NextPageID (Some page) = (cursor, true) ∧
  let o' := mkTransactionsOptions (TransactionsOptions_AccountOptions o) (TransactionsOptions_BookingStatus o)
              (TransactionsOptions_DateFrom o) (TransactionsOptions_DateTo o) (NextPageID (Some page)).1 in
  ∃ q', read_uri (Transactions_uri id o') = Some (["";"ext";"v2";"accounts"; id; "transactions"], q') ∧
    filter (λ kv : string * string, kv.1 = "pageId") q' = [("pageId", cursor)] ∧
    filter (λ kv : string * string, kv.1 = "bookingStatus") q' = [("bookingStatus", TransactionsOptions_BookingStatus o)].
Proof.
  intros Ht Hn Hu Hq Hf Hc.
  assert (NextPageID (Some page) = (cursor, true)) as Hnext.
  { unfold NextPageID. rewrite Ht, Hn, Hu, Hq, Query_Get_Encode, Hf. by destruct (String.eqb_spec cursor ""). }
  split; [done|]. rewrite Hnext. cbv zeta. cbn [fst]. set (o' := mkTransactionsOptions _ _ _ _ _).
  exists (transactions_query o'). split_and!.
  - assert (Transactions_uri id o' = path_of ["";"ext";"v2";"accounts"; id; "transactions"] +:+ "?" +:+ Values_Encode (transactions_query o')) as ->;
      [|by apply read_uri_query].
    change (path_of _) with (path_of ("" :: ["ext";"v2"] ++ ["accounts"; id] ++ ["transactions"])).
    rewrite <-account_path by done. unfold Transactions_uri. rewrite !str_app_assoc. reflexivity.
  - unfold transactions_query, o'. cbn. destruct (String.eqb_spec cursor ""); [done|]. by repeat case_match.
  - unfold transactions_query, o'. cbn. by repeat case_match.
Qed.

Lemma page_cursor_roundtrip_witness :
  let net : NetLib := {| http_ParseTime _ := None; url_Parse s := Some (mkURL "https" "" "" "bookingStatus=both&pageId=a%26b");
     url_String := Path; url_ResolveReference _ r := r; url_Hostname := Host; ip_IsLoopback _ := false; json_errorBody _ := None |} in
  let page := mkTransactionsResponse (mkAccountReference "" "" "")
    (Some (mkAccountReport [] (mkAccountReportLinks None (Some (mkHref "/next"))))) in
  NextPageID (H0 := net) (Some page) = ("a&b", true).
Proof.
  intros net page.
  exact (proj1 (page_cursor_roundtrip (H := net) page (mkAccountReport [] (mkAccountReportLinks None (Some (mkHref "/next"))))
    (mkHref "/next") _ [("bookingStatus", "both"); ("pageId", "a&b")] "a&b" "acc"
    (mkTransactionsOptions (mkAccountOptions "c" "") "both" zero_date zero_date "") eq_refl eq_refl eq_refl
    ltac:(by vm_compute) ltac:(by vm_compute) ltac:(done))).
Defined.

(** *** Dates *)

(** A date is written as its calendar day and read back as that day: for
    every instant and offset whose local year has at most four digits, what
    [MarshalJSON] writes is read by [UnmarshalJSON] as the midnight of the same
    local day in UTC, and the unset date as the unset date. *)
Theorem Date_json_roundtrip `{JSON string} d data :
  (∀ s t, json_Marshal s = Ok t → json_Decode t None = Ok s) →
  let day := Unix (d_time d + d_offset d * Second) / 86400 in
  0 <= (civil_from_days day).1.1 <= 9999 → Date_MarshalJSON d = Ok data →
  Date_UnmarshalJSON data = Ok (if Date_IsZero d then zero_date else mkDate (day * 86400 * Second) 0).
Proof.
  intros Hj day Hy Hm. unfold Date_MarshalJSON in Hm. apply Hj in Hm. unfold Date_UnmarshalJSON. rewrite Hm.
  unfold Date_String. destruct (Date_IsZero d); [done|]. cbn [mbind result_bind].
  pose proof (parse_format_date (d_time d + d_offset d * Second)) as Hp. fold day in Hp.
  destruct (civil_from_days day) as [[y m] dd]. cbn in Hy. specialize (Hp Hy).
  destruct (String.eqb_spec (format_date (d_time d + d_offset d * Second)) "") as [He|_]; [by rewrite He in Hp|]. by rewrite Hp.
Qed.

#[local] Instance string_json : JSON string := {| json_Marshal s := Ok s; json_Decode s _ := Ok s; json_zero := "" |}.

(** 00:30 on 1 March 2024 in Kyiv is still February in UTC. *)
Lemma Date_json_roundtrip_witness :
  let d := mkDate (1709245800 * Second) 7200 in
  Date_MarshalJSON d = Ok "2024-03-01" ∧ Date_UnmarshalJSON "2024-03-01" = Ok (mkDate (1709251200 * Second) 0).
Proof.
  intros d. split; [by vm_compute|].
  refine (Date_json_roundtrip d "2024-03-01" _ _ _).
  - by intros s t [= ->].
  - vm_compute. split; discriminate.
  - by vm_compute.
Defined.

(** *** The transport *)

(** The mutual-TLS client is never built without both halves of the client
    certificate; the one built presents exactly that certificate, accepts
    nothing below TLS 1.2, trusts another root pool exactly when one was given,
    and never waits forever unless the caller set a negative timeout. *)
Theorem NewMTLSHTTPClient_spec `{TLSLib} plain cfg :
  (CertPEM cfg = "" ∨ KeyPEM cfg = "" → NewMTLSHTTPClient plain cfg = Err (ENew ErrNoClientCert)) ∧
  match NewMTLSHTTPClient plain cfg with
  | Ok h => CertPEM cfg ≠ "" ∧ KeyPEM cfg ≠ "" ∧ mc_MinVersion h = VersionTLS12 ∧
            (∃ cert, tls_X509KeyPair (CertPEM cfg) (KeyPEM cfg) = Ok cert ∧ mc_Certificates h = [cert]) ∧
            mc_RootCAs h = (if String.eqb (RootCAsPEM cfg) "" then None else AppendCertsFromPEM (RootCAsPEM cfg)) ∧
            (mc_RootCAs h = None ↔ RootCAsPEM cfg = "") ∧
            mc_Timeout h ≠ 0 ∧ (Timeout cfg ≠ 0 → mc_Timeout h = Timeout cfg)
  | Err e => True
  end.
Proof.
  assert (∀ s, slen s = 0 ↔ s = "") as Hl by (intros [|a s]; split; unfold slen; cbn; try done; lia).
  split.
  { intros Hn. unfold NewMTLSHTTPClient. assert ((slen (CertPEM cfg) =? 0) || (slen (KeyPEM cfg) =? 0) = true) as ->; [|done].
    destruct Hn as [-> | ->]; [done|]. by rewrite orb_true_r. }
  unfold NewMTLSHTTPClient. destruct (Z.eqb_spec (slen (CertPEM cfg)) 0) as [|Hc]; [done|].
  destruct (Z.eqb_spec (slen (KeyPEM cfg)) 0) as [|Hk]; [done|]. cbn [orb]. rewrite Hl in Hc, Hk.
  destruct (tls_X509KeyPair _ _) as [cert|]; [|done].
  assert (∀ p, let h := mkMTLSClient _ [cert] VersionTLS12 p (if Timeout cfg =? 0 then DefaultTimeout else Timeout cfg) in
    mc_Timeout h ≠ 0 ∧ (Timeout cfg ≠ 0 → mc_Timeout h = Timeout cfg)) as Ht.
  { intros p h. cbn. destruct (Z.eqb_spec (Timeout cfg) 0); split; done. }
  pose proof (slen_nonneg (RootCAsPEM cfg)). destruct (Z.ltb_spec 0 (slen (RootCAsPEM cfg))) as [Hr|Hr].
  - assert (RootCAsPEM cfg ≠ "") as Hr' by (intros E; by rewrite E in Hr).
    destruct (AppendCertsFromPEM _) as [pool|] eqn:Hp; [|done]. cbn [mbind result_bind]. destruct plain; [|done]. cbn [negb].
    split_and!; try done; [by eexists|cbn|by apply Ht|by apply Ht].
    + by destruct (String.eqb_spec (RootCAsPEM cfg) "").
  - assert (RootCAsPEM cfg = "") as Hr' by (apply Hl; lia). cbn [mbind result_bind]. destruct plain; [|done]. cbn [negb].
    rewrite Hr'. split_and!; try done; [by eexists|by apply Ht|by apply Ht].
Qed.
