(* ===== verification/Jar.v ===== *)
(** * Public jars (jar/jar.go)

    A client of its own, without authorization: two base URLs under one guard,
    a lookup by long identifier and one by the short identifier of a share
    link, which reports its failures with status 200. *)
From S2P Require Import Prelude GoString GoText Errors Currency Money GoHttp Endpoint.
From S2P Require Options.

Definition defaultAPIBaseURL : string := "https://api.monobank.ua".
Definition defaultSendBaseURL : string := "https://send.monobank.ua".
Definition ErrNotFound : string := "jar.ErrNotFound".
Definition ErrEmptyJarID : string := "jar.ErrEmptyJarID".
Definition ErrEmptyClientID : string := "jar.ErrEmptyClientID".
Definition ErrInsecureBaseURL : string := "jar.ErrInsecureBaseURL".
Definition MaxResponseBytes : Z := 1048576.

(** [APIError] of this package; a failure is one, or a plain error. *)
Record JarAPIError := mkJarAPIError { Jar_StatusCode : Z; Jar_ErrCode : string; Jar_ErrText : string }.

Inductive jar_failure := JFailed (e : error) | JRefused (e : JarAPIError).
Abbreviation jar_outcome A := (A + jar_failure)%type.

Definition JarAPIError_Error (e : JarAPIError) : string :=
  "jar: " +:+ Itoa (Jar_StatusCode e) +:+ " " +:+ Jar_ErrCode e +:+ ": " +:+ Jar_ErrText e.

Record Info := mkInfo {
  Info_JarID : string; Info_Title : string; Info_OwnerName : string; Info_OwnerIcon : string;
  Info_Amount : Z; Info_Goal : Z; Info_Currency : Z
}.

Definition Info_Money (i : Info) : Money := New (Info_Amount i) (Info_Currency i).
Definition Info_GoalMoney (i : Info) : Money := New (Info_Goal i) (Info_Currency i).

Record SendInfo := mkSendInfo {
  SendInfo_Name : string; SendInfo_Description : string; SendInfo_Avatar : string; SendInfo_JarAmount : Z;
  SendInfo_JarGoal : Z; SendInfo_JarStatus : string; SendInfo_IsTrusted : bool; SendInfo_LongJarID : string
}.

(** [json_aux] is [json.Unmarshal] into the fields of [SendInfo] that have a
    name, together with longJarId and extJarId. *)
Definition SendInfo_UnmarshalJSON (json_aux : string → result (SendInfo * string * string)) (data : string) : result SendInfo :=
  match json_aux data with
  | Err e => Err e
  | Ok (raw, long, ext) =>
      Ok (mkSendInfo (SendInfo_Name raw) (SendInfo_Description raw) (SendInfo_Avatar raw) (SendInfo_JarAmount raw)
            (SendInfo_JarGoal raw) (SendInfo_JarStatus raw) (SendInfo_IsTrusted raw)
            (if negb (String.eqb long "") then long
             else if negb (String.eqb ext "") then ext
             else SendInfo_LongJarID raw))
  end.

Section Client.
Context {W : Type} `{NetLib}.

Abbreviation HTTPClient := (Request → W → result Response * W) (only parsing).

Record JarClient := mkJarClient { jc_h : HTTPClient; jc_apiBase : string; jc_sendBase : string; jc_allow : bool }.

Abbreviation JarOption := (JarClient → JarClient) (only parsing).

Definition Jar_WithHTTPClient (h : HTTPClient) : JarOption := λ c, mkJarClient h (jc_apiBase c) (jc_sendBase c) (jc_allow c).
Definition Jar_WithAPIBaseURL (u : string) : JarOption := λ c, mkJarClient (jc_h c) u (jc_sendBase c) (jc_allow c).
Definition Jar_WithSendBaseURL (u : string) : JarOption := λ c, mkJarClient (jc_h c) (jc_apiBase c) u (jc_allow c).
Definition Jar_WithInsecureBaseURL (allow : bool) : JarOption := λ c, mkJarClient (jc_h c) (jc_apiBase c) (jc_sendBase c) allow.

Definition Jar_isInsecureBaseURL (u : string) : bool :=
  match url_Parse u with
  | None => false
  | Some parsed =>
      if String.eqb (Scheme parsed) "https" || String.eqb (Scheme parsed) "" then false
      else
        let host := url_Hostname parsed in
        if String.eqb host "localhost" then false
        else if ip_IsLoopback host then false
        else true
  end.

(** [std] is the [http.Client] with a timeout it starts from. *)
Definition Jar_New (std : HTTPClient) (opts : list JarOption) : result JarClient :=
  let c := fold_left (λ c o, o c) opts (mkJarClient std defaultAPIBaseURL defaultSendBaseURL false) in
  if negb (jc_allow c) && Jar_isInsecureBaseURL (jc_apiBase c) then Err (EWrap "%w: apiBase=%q" (ENew ErrInsecureBaseURL))
  else if negb (jc_allow c) && Jar_isInsecureBaseURL (jc_sendBase c) then Err (EWrap "%w: sendBase=%q" (ENew ErrInsecureBaseURL))
  else Ok c.

(** [json_error] is [json.Unmarshal] into errCode and errText. *)
Context (json_error : string → option (string * string)).

Definition decodeAPIError (status : Z) (body : string) : jar_failure :=
  match json_error body with
  | None => JFailed (EText "jar: http %d: %s")
  | Some (code, text) => JRefused (mkJarAPIError status code text)
  end.

(** The exchange both lookups make: the body of an answer 200. *)
Definition exchange (c : JarClient) (req : Request) (w : W) : jar_outcome string * W :=
  match jc_h c req w with
  | (Err e, w) => (inr (JFailed (EWrap "jar: do request: %w" e)), w)
  | (Ok resp, w) =>
      match read_capped MaxResponseBytes resp with
      | Err e => (inr (JFailed (EWrap "jar: read response body: %w" e)), w)
      | Ok body =>
          if sStatusCode resp =? 404 then (inr (JFailed (ENew ErrNotFound)), w)
          else if negb (sStatusCode resp =? 200) then (inr (decodeAPIError (sStatusCode resp) body), w)
          else (inl body, w)
      end
  end.

Definition ByLongID `{JSON Info} (c : JarClient) (longJarID : string) (w : W) : jar_outcome Info * W :=
  if String.eqb longJarID "" then (inr (JFailed (ENew ErrEmptyJarID)), w)
  else match NewRequest "GET" (jc_apiBase c +:+ "/bank/jar/" +:+ PathEscape longJarID) None with
       | Err e => (inr (JFailed (EWrap "jar: build request: %w" e)), w)
       | Ok req =>
           match exchange c (set_Header "Accept" "application/json" req) w with
           | (inr e, w) => (inr e, w)
           | (inl body, w) =>
               match json_Decode body None with
               | Err e => (inr (JFailed (EWrap "jar: decode response: %w" e)), w)
               | Ok out => (inl out, w)
               end
           end
       end.

Definition jarShortIDMode : string := "random".
Record shortIDRequest := mkShortIDRequest { shortID_C : string; shortID_ClientID : string; shortID_Pc : string }.

Definition ByShortID `{JSON shortIDRequest} (json_aux : string → result (SendInfo * string * string)) (c : JarClient)
    (clientID : string) (w : W) : jar_outcome SendInfo * W :=
  if String.eqb clientID "" then (inr (JFailed (ENew ErrEmptyClientID)), w)
  else match json_Marshal (mkShortIDRequest "hello" clientID jarShortIDMode) with
       | Err e => (inr (JFailed (EWrap "jar: marshal: %w" e)), w)
       | Ok body =>
           match NewRequest "POST" (jc_sendBase c +:+ "/api/handler") (Some body) with
           | Err e => (inr (JFailed (EWrap "jar: build request: %w" e)), w)
           | Ok req =>
               match exchange c (set_Header "Content-Type" "application/json" (set_Header "Accept" "application/json" req)) w with
               | (inr e, w) => (inr e, w)
               | (inl respBody, w) =>
                   let failed := match json_error respBody with
                                 | Some (code, text) => if negb (String.eqb code "") && negb (String.eqb text "")
                                                        then Some (mkJarAPIError 200 code text) else None
                                 | None => None
                                 end in
                   match failed with
                   | Some e => (inr (JRefused e), w)
                   | None =>
                       match SendInfo_UnmarshalJSON json_aux respBody with
                       | Err e => (inr (JFailed (EWrap "jar: decode response: %w" e)), w)
                       | Ok out => (inl out, w)
                       end
                   end
               end
           end
       end.

End Client.
Arguments JarClient W : clear implicits.

(** ** Properties *)

(** A jar client exists exactly when both base URLs left by the options pass
    the guard of the whole SDK, or the guard was switched off. *)
Theorem Jar_New_guard {W} `{NetLib} (std : Request → W → result Response * W) opts :
  let c := fold_left (λ c o, o c) opts (mkJarClient std defaultAPIBaseURL defaultSendBaseURL false) in
  (Jar_New std opts = Ok c ↔
     jc_allow c = true ∨ (Options.isInsecureBaseURL (jc_apiBase c) = false ∧ Options.isInsecureBaseURL (jc_sendBase c) = false)) ∧
  (∀ e, Jar_New std opts = Err e → errors_Is e ErrInsecureBaseURL = true ∧ jc_allow c = false).
Proof.
  intros c. unfold Jar_New. fold c.
  change (Options.isInsecureBaseURL (jc_apiBase c)) with (Jar_isInsecureBaseURL (jc_apiBase c)).
  change (Options.isInsecureBaseURL (jc_sendBase c)) with (Jar_isInsecureBaseURL (jc_sendBase c)).
  destruct (jc_allow c), (Jar_isInsecureBaseURL (jc_apiBase c)), (Jar_isInsecureBaseURL (jc_sendBase c)); cbn [negb andb];
    (split; [split; try done; try (by left); try (by right); intros [|[]]; done|intros e; try done; by intros [= <-]]).
Qed.

(** What a lookup makes of the answer of the server. *)
Definition answered {W A} `{NetLib} (json_error : string → option (string * string)) (resp : Response)
    (r : jar_outcome A * W) : Prop :=
  match read_capped MaxResponseBytes resp with
  | Err _ => ∃ e, r.1 = inr (JFailed e)
  | Ok body =>
      (sStatusCode resp = 404 → r.1 = inr (JFailed (ENew ErrNotFound))) ∧
      (sStatusCode resp ≠ 404 → sStatusCode resp ≠ 200 →
         r.1 = inr (match json_error body with
                    | Some (code, text) => JRefused (mkJarAPIError (sStatusCode resp) code text)
                    | None => JFailed (EText "jar: http %d: %s")
                    end)) ∧
      (∀ a, r.1 = inl a → sStatusCode resp = 200)
  end.

(** An exchange followed by the decoding [k]. *)
Definition through {W A} `{NetLib} json_error (c : JarClient W) req (w : W) (k : string → jar_outcome A) : jar_outcome A * W :=
  match exchange json_error c req w with (inr e, w) => (inr e, w) | (inl body, w) => (k body, w) end.

Lemma exchange_k {W A} `{NetLib} json_error (c : JarClient W) req (w : W) (k : string → jar_outcome A) (f : string → W → jar_outcome A * W) :
  (∀ b w, f b w = (k b, w)) →
  match exchange json_error c req w with (inr e, w) => (inr e, w) | (inl body, w) => f body w end = through json_error c req w k.
Proof. intros Hf. unfold through. by destruct (exchange _ _ _ _) as [[] ?]. Qed.

Lemma exchange_answered {W A} `{NetLib} json_error (c : JarClient W) req (w : W) (k : string → jar_outcome A) :
  (through json_error c req w k).2 = (jc_h c req w).2 ∧
  ∀ resp, (jc_h c req w).1 = Ok resp → answered json_error resp (through json_error c req w k).
Proof.
  unfold through, exchange, answered. destruct (jc_h c req w) as [[resp|e] w']; [|done].
  split; [by repeat case_match; simplify_eq|]. intros r [= <-]. destruct (read_capped _ resp) as [body|e]; [|by eexists].
  destruct (Z.eqb_spec (sStatusCode resp) 404) as [H4|H4]; [by split|].
  destruct (Z.eqb_spec (sStatusCode resp) 200) as [H2|H2]; cbn [negb]; [by split|].
  split; [done|]. split; [intros _ _|done]. unfold decodeAPIError. by destruct (json_error body) as [[]|].
Qed.

(** A jar lookup sends one request, under its base URL, and none for an empty
    identifier; a value is returned only for status 200, 404 is [ErrNotFound],
    any other status is the bank's code and text under that status. The lookup
    by short identifier also turns a 200 that carries both an error code and an
    error text into that error, and never into a jar. *)
Theorem jar_lookup_answers {W} `{NetLib} json_error json_aux `{JSON Info, JSON shortIDRequest} (c : JarClient W) id (w : W) :
  (id = "" → ByLongID json_error c id w = (inr (JFailed (ENew ErrEmptyJarID)), w) ∧
             ByShortID json_error json_aux c id w = (inr (JFailed (ENew ErrEmptyClientID)), w)) ∧
  ((ByLongID json_error c id w).2 = w ∨
   ∃ req, rMethod req = "GET" ∧ url_Parse (jc_apiBase c +:+ "/bank/jar/" +:+ PathEscape id) = Some (rURL req) ∧
     (ByLongID json_error c id w).2 = (jc_h c req w).2 ∧
     ∀ resp, (jc_h c req w).1 = Ok resp → answered json_error resp (ByLongID json_error c id w)) ∧
  ((ByShortID json_error json_aux c id w).2 = w ∨
   ∃ req, rMethod req = "POST" ∧ url_Parse (jc_sendBase c +:+ "/api/handler") = Some (rURL req) ∧
     (ByShortID json_error json_aux c id w).2 = (jc_h c req w).2 ∧
     ∀ resp, (jc_h c req w).1 = Ok resp → answered json_error resp (ByShortID json_error json_aux c id w) ∧
       ∀ body code text, read_capped MaxResponseBytes resp = Ok body → sStatusCode resp = 200 →
         json_error body = Some (code, text) → code ≠ "" → text ≠ "" →
         (ByShortID json_error json_aux c id w).1 = inr (JRefused (mkJarAPIError 200 code text))).
Proof.
  split; [by intros ->|]. split.
  - unfold ByLongID. case_match; [by left|]. unfold NewRequest. destruct (url_Parse _) as [u|] eqn:Hu; [|by left]. right.
    set (req := set_Header _ _ _). exists req. split; [done|]. split; [done|].
    rewrite (exchange_k json_error c req w (λ body, match json_Decode body None with
      | Err e => inr (JFailed (EWrap "jar: decode response: %w" e)) | Ok out => inl out end)) by (intros b w'; by case_match).
    apply exchange_answered.
  - unfold ByShortID. case_match; [by left|]. destruct (json_Marshal _) as [d|]; [|by left].
    destruct (NewRequest "POST" _ _) as [r0|] eqn:Hr; [|by left]. right.
    set (req := set_Header _ _ _). exists req.
    assert (rMethod r0 = "POST" ∧ url_Parse (jc_sendBase c +:+ "/api/handler") = Some (rURL r0)) as [Hm Hu].
    { unfold NewRequest in Hr. destruct (url_Parse _) as [u|]; [|done]. destruct d; injection Hr as <-; done. }
    split; [done|]. split; [done|].
    set (k := λ body, let failed := match json_error body with
        | Some (code, text) => if negb (String.eqb code "") && negb (String.eqb text "") then Some (mkJarAPIError 200 code text) else None
        | None => None end in
      match failed with Some e => inr (JRefused e) | None =>
        match SendInfo_UnmarshalJSON json_aux body with Err e => inr (JFailed (EWrap "jar: decode response: %w" e)) | Ok out => inl out end end).
    rewrite (exchange_k json_error c req w k) by (intros b w'; unfold k; cbv zeta; by repeat case_match).
    destruct (exchange_answered json_error c req w k) as [Hw Hans]. split; [exact Hw|]. intros resp Hresp. split; [by apply Hans|].
    intros body code text Hb Hs He Hc Ht. unfold through, exchange. destruct (jc_h c req w) as [x w'] eqn:Hx. cbn in Hresp. subst x.
    rewrite Hb, Hs. cbn [Z.eqb Pos.eqb negb]. unfold k. rewrite He.
    by destruct (String.eqb_spec code ""), (String.eqb_spec text "").
Qed.
