(* ===== verification/Paths.v ===== *)
(** * The dot segments of the older clients

    The business, personal and corporate clients escape an identifier and do
    not look at it. The theorem computes, for every identifier, the path a
    request of theirs ends up with once the base URL has resolved it. *)
From S2P Require Import Prelude GoString GoText GoTime Errors GoHttp Endpoint Uri Resolve.
From S2P Require BusinessApi OpenApi Corporate.

(** ** Lemmas *)

Lemma is_dots_Itoa z : is_dots (Itoa z) = false.
Proof.
  destruct (decide (0 <= z)) as [Hz|Hz]; [|by rewrite Itoa_neg by lia]. pose proof (all_digits_Itoa z Hz) as Hd.
  unfold is_dots. destruct (String.eqb_spec (Itoa z) ".") as [E|_]; [by rewrite E in Hd|].
  destruct (String.eqb_spec (Itoa z) "..") as [E|_]; [by rewrite E in Hd|done].
Qed.

Lemma without_path pre x post y : without (pre ++ [x]) (y :: post) = path_of ("" :: pre ++ x :: y :: post).
Proof.
  unfold without. rewrite str_app_nil_r, <-app_assoc. cbn [app]. symmetry. apply path_slashed. by destruct pre.
Qed.

(** C37: exactly two identifiers move a request, and where to: a single dot drops
    out of the path and two dots take the segment before them along, so that
    deleting the contact named by two dots deletes at the root of the API and
    the state of the payment named by one dot is the state by reference. Every
    other identifier, whatever its bytes, leaves the request on the resource
    the method names. *)
Theorem dot_identifiers_move base id from to :
  let at_ uri dot dotdot := resolvePath base uri = if String.eqb id "." then dot else if String.eqb id ".." then dotdot else uri in
  at_ (BusinessApi.Contact_uri id) "/ext/v1/salary-contacts/" "/ext/v1/" ∧
  at_ (BusinessApi.Account_uri id) "/ext/v1/accounts/" "/ext/v1/" ∧
  at_ (BusinessApi.PaymentState_uri id) "/ext/v1/payment/state" "/ext/v1/state" ∧
  at_ (BusinessApi.SalaryRegistryStatus_uri id) "/ext/v1/payments/salary/registries/status" "/ext/v1/payments/salary/status" ∧
  at_ (OpenApi.Transactions_uri id from to)
    ("/personal/statement/" +:+ Itoa (Unix from) +:+ "/" +:+ Itoa (Unix to))
    ("/personal/" +:+ Itoa (Unix from) +:+ "/" +:+ Itoa (Unix to)).
Proof.
  intros at_. assert (∀ pre x post, Forall (λ s, is_dots s = false) (pre ++ x :: post) →
    at_ (path_of ("" :: pre ++ [x; id] ++ post)) (without (pre ++ [x]) post) (without pre post)) as Hs.
  { intros pre x post Hall. by apply resolve_identifier. }
  split_and!.
  - apply (Hs ["ext";"v1"] "salary-contacts" []). by repeat constructor.
  - apply (Hs ["ext";"v1"] "accounts" []). by repeat constructor.
  - apply (Hs ["ext";"v1"] "payment" ["state"]). by repeat constructor.
  - apply (Hs ["ext";"v1";"payments";"salary"] "registries" ["status"]). by repeat constructor.
  - assert (OpenApi.Transactions_uri id from to =
      path_of ("" :: ["personal"] ++ ["statement"; id] ++ [Itoa (Unix from); Itoa (Unix to)])) as Hu.
    { change (path_of _) with ("/personal/statement/" +:+ (PathEscape id +:+ ("/" +:+ (PathEscape (Itoa (Unix from)) +:+
        ("/" +:+ PathEscape (Itoa (Unix to))))))). by rewrite !PathEscape_Itoa. }
    rewrite Hu. unfold at_. rewrite (Hs ["personal"] "statement" [Itoa (Unix from); Itoa (Unix to)])
      by (repeat constructor; apply is_dots_Itoa).
    rewrite without_path, (without_path [] "personal"). cbn [app].
    change (path_of ["";"personal";"statement"; Itoa (Unix from); Itoa (Unix to)]) with
      ("/personal/statement/" +:+ (PathEscape (Itoa (Unix from)) +:+ ("/" +:+ PathEscape (Itoa (Unix to))))).
    change (path_of ["";"personal"; Itoa (Unix from); Itoa (Unix to)]) with
      ("/personal/" +:+ (PathEscape (Itoa (Unix from)) +:+ ("/" +:+ PathEscape (Itoa (Unix to))))).
    by rewrite !PathEscape_Itoa.
Qed.
