(* ===== verification/Tracing.v ===== *)
(** * Tracing (otelmonobank/otel.go)

    The two hooks [WithTracer] chains onto a client, over the side table of the
    spans in flight. A request is its pointer, a span the number of its start,
    and what the hooks do to spans is kept as a log of calls of the tracing
    library. [None] is a panic. *)
From S2P Require Import Prelude GoString Errors GoHttp.

(** ** The tracing library, as it is called *)

Inductive attr := AStr (s : string) | AInt (z : Z).
Inductive code := codes_Error | codes_Ok.

Inductive op :=
| Start (id : Z) (name : string) (attrs : list (string * attr))
| RecordError (id : Z) (e : error)
| SetAttributes (id : Z) (attrs : list (string * attr))
| SetStatus (id : Z) (c : code) (desc : string)
| End_ (id : Z).

Definition op_span (o : op) : Z :=
  match o with Start i _ _ | RecordError i _ | SetAttributes i _ | SetStatus i _ _ | End_ i => i end.

(** ** spanStore *)

Record spanStore := mkStore { sm : gmap Z Z; recent : list Z }.
Definition newSpanStore : spanStore := mkStore ∅ [].

Definition set (s : spanStore) (r span : Z) : spanStore :=
  mkStore (<[r := span]> (sm s)) (if decide (is_Some (sm s !! r)) then recent s else recent s ++ [r]).

Fixpoint remove_first (r : Z) (l : list Z) : list Z :=
  match l with
  | [] => []
  | p :: l => if p =? r then l else p :: remove_first r l
  end.

Definition pop (s : spanStore) (r : Z) : option Z * spanStore :=
  match sm s !! r with
  | Some span => (Some span, mkStore (delete r (sm s)) (remove_first r (recent s)))
  | None => (None, s)
  end.

(** [Some None]: found, but the span is nil. *)
Definition popAny (s : spanStore) : option (option Z) * spanStore :=
  match last (recent s) with
  | None => (None, s)
  | Some r => (Some (sm s !! r), mkStore (delete r (sm s)) (removelast (recent s)))
  end.

(** ** The hooks *)

Record tracing := mkTracing { t_store : spanStore; t_next : Z; t_log : list op }.
Definition no_tracing : tracing := mkTracing newSpanStore 0 [].

Section Hooks.
Context `{NetLib} (StatusText : Z → string) (err_Error : error → string).

Definition redactURL (u : option URL) : string :=
  match u with None => "" | Some u => url_String (mkURL (Scheme u) (Host u) (Path u) "") end.

Definition requestHook (r : Z) (method : string) (u : URL) (t : tracing) : tracing :=
  let '(prev, store) := pop (t_store t) r in
  let log := t_log t ++ match prev with Some p => [End_ p] | None => [] end in
  let span := t_next t in
  mkTracing (set store r span) (span + 1)
    (log ++ [Start span ("monobank HTTP " +:+ method)
               [("http.method", AStr method); ("http.url", AStr (redactURL (Some u))); ("http.target", AStr (Path u))]]).

(** What the response hook records before the deferred [End]. *)
Definition record (span : Z) (status : option Z) (err : option error) : list op :=
  match err with
  | Some e => [RecordError span e; SetStatus span codes_Error (err_Error e)]
  | None =>
      match status with
      | Some st => [SetAttributes span [("http.status_code", AInt st)];
                    if 400 <=? st then SetStatus span codes_Error (StatusText st) else SetStatus span codes_Ok ""]
      | None => []
      end
  end.

(** A response is the pointer of its request, when it has one, and its status. *)
Definition responseHook (resp : option (option Z * Z)) (err : option error) (t : tracing) : option tracing :=
  let '(found, store) :=
    match resp with
    | Some (Some r, _) => let '(span, store) := pop (t_store t) r in (Some <$> span, store)
    | _ => popAny (t_store t)
    end in
  match found with
  | None => Some (mkTracing store (t_next t) (t_log t))
  | Some None => None
  | Some (Some span) => Some (mkTracing store (t_next t) (t_log t ++ record span (snd <$> resp) err ++ [End_ span]))
  end.

(** The hooks as they fire: those of several calls in flight interleave. *)
Inductive event :=
| EReq (r : Z) (method : string) (u : URL)
| EResp (resp : option (option Z * Z)) (err : option error).

Definition fire (e : event) (t : tracing) : option tracing :=
  match e with
  | EReq r m u => Some (requestHook r m u t)
  | EResp resp err => responseHook resp err t
  end.

Fixpoint fire_all (es : list event) (t : tracing) : option tracing :=
  match es with
  | [] => Some t
  | e :: es => t ← fire e t; fire_all es t
  end.

(** ** Lemmas *)

Definition ops_of (id : Z) (l : list op) : list op := filter (λ o, op_span o = id) l.

(** The calls made for a span that has ended. *)
Definition closed (l : list op) (id : Z) : Prop :=
  ∃ name attrs status err, ops_of id l = Start id name attrs :: record id status err ++ [End_ id].
Definition open (l : list op) (id : Z) : Prop := ∃ name attrs, ops_of id l = [Start id name attrs].

Record tracing_ok (t : tracing) : Prop := {
  ok_next : 0 <= t_next t;
  ok_recent : NoDup (recent (t_store t));
  ok_keys r : r ∈ recent (t_store t) ↔ is_Some (sm (t_store t) !! r);
  ok_inj r r' id : sm (t_store t) !! r = Some id → sm (t_store t) !! r' = Some id → r = r';
  ok_open r id : sm (t_store t) !! r = Some id → 0 <= id < t_next t ∧ open (t_log t) id;
  ok_done id : 0 <= id < t_next t → (∃ r, sm (t_store t) !! r = Some id) ∨ closed (t_log t) id;
  ok_fresh id : ¬ (0 <= id < t_next t) → ops_of id (t_log t) = []
}.

Lemma ops_of_app id l k : ops_of id (l ++ k) = ops_of id l ++ ops_of id k.
Proof. apply filter_app. Qed.

Lemma ops_of_own id l : Forall (λ o, op_span o = id) l → ops_of id l = l.
Proof. apply filter_all. Qed.

Lemma ops_of_other id l : Forall (λ o, op_span o ≠ id) l → ops_of id l = [].
Proof. apply filter_none. Qed.

Lemma record_span span st err : Forall (λ o, op_span o = span) (record span st err ++ [End_ span]).
Proof. unfold record. apply Forall_app. split; [|by repeat constructor]. repeat case_match; by repeat constructor. Qed.

Lemma remove_first_elem r x l : NoDup l → x ∈ remove_first r l ↔ x ∈ l ∧ x ≠ r.
Proof.
  induction 1 as [|p l Hp Hl IH]; cbn; [set_solver|].
  destruct (Z.eqb_spec p r) as [->|Hn]; rewrite !elem_of_cons; [|rewrite IH]; set_solver.
Qed.

Lemma remove_first_NoDup r l : NoDup l → NoDup (remove_first r l).
Proof.
  induction 1 as [|p l Hp Hl IH]; cbn; [constructor|]. destruct (Z.eqb_spec p r); [done|].
  constructor; [|done]. rewrite remove_first_elem by done. by intros [].
Qed.

Lemma removelast_remove_first l r : NoDup l → last l = Some r → removelast l = remove_first r l.
Proof.
  induction 1 as [|p l Hp Hl IH]; [done|]. destruct l as [|q l].
  - intros [= <-]. cbn. by rewrite Z.eqb_refl.
  - intros Hlast. rewrite last_cons_cons in Hlast. change (removelast (p :: q :: l)) with (p :: removelast (q :: l)).
    rewrite (IH Hlast). cbn [remove_first]. destruct (Z.eqb_spec p r) as [->|]; [|done].
    exfalso. apply Hp. by apply last_Some_elem_of.
Qed.

(** [popAny] is [pop] of the last request stored, and never finds a nil span. *)
Lemma popAny_pop t : tracing_ok t →
  popAny (t_store t) = match last (recent (t_store t)) with
                       | None => (None, t_store t)
                       | Some r => let '(span, store) := pop (t_store t) r in (Some <$> span, store)
                       end.
Proof.
  intros Hok. unfold popAny. destruct (last (recent (t_store t))) as [r|] eqn:Hl; [|done].
  pose proof (proj1 (ok_keys _ Hok r) (last_Some_elem_of _ _ Hl)) as [span Hs]. unfold pop. rewrite Hs. cbn.
  by rewrite (removelast_remove_first _ r (ok_recent _ Hok) Hl).
Qed.

(** The response hook works on one request: the one it names, or the last one stored. *)
Definition target (t : tracing) (resp : option (option Z * Z)) : option Z :=
  match resp with Some (Some r, _) => Some r | _ => last (recent (t_store t)) end.

Lemma responseHook_eq t resp err : tracing_ok t →
  responseHook resp err t =
    Some match target t resp with
         | None => t
         | Some r =>
             match sm (t_store t) !! r with
             | None => t
             | Some span => mkTracing (snd (pop (t_store t) r)) (t_next t) (t_log t ++ record span (snd <$> resp) err ++ [End_ span])
             end
         end.
Proof.
  intros Hok. unfold responseHook, target. rewrite (popAny_pop _ Hok). destruct t as [store next log]; cbn [t_store t_next t_log].
  assert (Hp : ∀ r, sm store !! r = None → pop store r = (None, store)) by (intros r Hr; unfold pop; by rewrite Hr).
  assert (Hq : ∀ r span, sm store !! r = Some span → pop store r = (Some span, snd (pop store r)))
    by (intros r span Hr; unfold pop; by rewrite Hr).
  destruct resp as [[[r|] st]|]; [|destruct (last (recent store)) as [r|]; [|done]..];
    (destruct (sm store !! r) as [span|] eqn:Hr; [rewrite (Hq _ _ Hr)|rewrite (Hp _ Hr)]); done.
Qed.

(** Closing the span of a stored request. *)
Lemma close_ok t r span st err : tracing_ok t → sm (t_store t) !! r = Some span →
  tracing_ok (mkTracing (snd (pop (t_store t) r)) (t_next t) (t_log t ++ record span st err ++ [End_ span])).
Proof.
  destruct t as [store next log]. intros [Hn Hnd Hk Hi Ho Hd Hf] Hr. cbn [t_store t_next t_log] in *.
  unfold pop. rewrite Hr. cbn [snd].
  assert (Hother : ∀ id, id ≠ span → ops_of id (log ++ record span st err ++ [End_ span]) = ops_of id log).
  { intros id Hid. rewrite ops_of_app, (ops_of_other id (_ ++ _)); [by rewrite app_nil_r|].
    eapply Forall_impl; [apply record_span|]. cbn. by intros o ->. }
  split; cbn [t_store t_next t_log sm recent].
  - done.
  - by apply remove_first_NoDup.
  - intros r'. rewrite remove_first_elem, Hk, lookup_delete_is_Some by done. naive_solver.
  - intros r1 r2 id [_ H1]%lookup_delete_Some [_ H2]%lookup_delete_Some. by eapply Hi.
  - intros r' id [Hne H1]%lookup_delete_Some. destruct (Ho _ _ H1) as [Hb (name & attrs & He)]. split; [done|].
    exists name, attrs. rewrite Hother; [done|]. intros ->. apply Hne. by eapply Hi.
  - intros id Hb. destruct (decide (id = span)) as [->|Hne].
    + right. destruct (Ho _ _ Hr) as [_ (name & attrs & He)]. exists name, attrs, st, err.
      by rewrite ops_of_app, He, ops_of_own by apply record_span.
    + destruct (Hd id Hb) as [[r' H1]|(name & attrs & st' & err' & He)].
      * left. exists r'. apply lookup_delete_Some. split; [|done]. intros ->. by simplify_eq.
      * right. exists name, attrs, st', err'. by rewrite Hother.
  - intros id Hb. rewrite Hother; [by apply Hf|]. intros ->. destruct (Ho _ _ Hr) as [? _]. lia.
Qed.

(** Starting a span for a request that has none. *)
Lemma start_ok t r name attrs : tracing_ok t → sm (t_store t) !! r = None →
  tracing_ok (mkTracing (set (t_store t) r (t_next t)) (t_next t + 1) (t_log t ++ [Start (t_next t) name attrs])).
Proof.
  destruct t as [store next log]. intros [Hn Hnd Hk Hi Ho Hd Hf] Hr. cbn [t_store t_next t_log] in *.
  assert (Hother : ∀ id, id ≠ next → ops_of id (log ++ [Start next name attrs]) = ops_of id log).
  { intros id Hid. rewrite ops_of_app, (ops_of_other id [_]); [by rewrite app_nil_r|]. by repeat constructor. }
  assert (Hnew : ops_of next (log ++ [Start next name attrs]) = [Start next name attrs]).
  { rewrite ops_of_app, Hf, ops_of_own by (done || lia || by repeat constructor). done. }
  unfold set. rewrite decide_False by (intros [? ?]; congruence).
  split; cbn [t_store t_next t_log sm recent].
  - lia.
  - apply NoDup_app. split_and!; [done| |apply NoDup_singleton].
    intros x Hx ->%list_elem_of_singleton. apply Hk in Hx as [? ?]. congruence.
  - intros r'. rewrite elem_of_app, list_elem_of_singleton, Hk, lookup_insert_is_Some. 
    destruct (decide (r = r')) as [->|]; naive_solver.
  - intros r1 r2 id [[<- <-]|[? H1]]%lookup_insert_Some [[<- E]|[? H2]]%lookup_insert_Some; [done| | |by eapply Hi];
      subst; [apply Ho in H2|apply Ho in H1]; lia.
  - intros r' id [[<- <-]|[? H1]]%lookup_insert_Some; [split; [lia|by exists name, attrs]|].
    destruct (Ho _ _ H1) as [Hb (nm & at_ & He)]. split; [lia|]. exists nm, at_. rewrite Hother; [done|lia].
  - intros id Hb. destruct (decide (id = next)) as [->|Hne]; [left; exists r; apply lookup_insert_eq|].
    destruct (Hd id ltac:(lia)) as [[r' H1]|(nm & at_ & st & err & He)].
    + left. exists r'. rewrite lookup_insert_ne; [done|]. congruence.
    + right. exists nm, at_, st, err. by rewrite Hother.
  - intros id Hb. rewrite Hother by lia. apply Hf. lia.
Qed.
Lemma pop_gone store r : sm (snd (pop store r)) !! r = None.
Proof. unfold pop. destruct (sm store !! r) eqn:Hr; [apply lookup_delete_eq|done]. Qed.

(** A request hook closes the span of the attempt before, and starts the next. *)
Lemma requestHook_eq r m u t :
  requestHook r m u t =
    (let t' := match sm (t_store t) !! r with
               | Some p => mkTracing (snd (pop (t_store t) r)) (t_next t) (t_log t ++ record p None None ++ [End_ p])
               | None => t
               end in
     mkTracing (set (t_store t') r (t_next t')) (t_next t' + 1)
       (t_log t' ++ [Start (t_next t') ("monobank HTTP " +:+ m)
          [("http.method", AStr m); ("http.url", AStr (redactURL (Some u))); ("http.target", AStr (Path u))]])).
Proof.
  destruct t as [store next log]. unfold requestHook, pop. cbn [t_store t_next t_log].
  destruct (sm store !! r); cbn; [done|]. by rewrite app_nil_r.
Qed.

Lemma requestHook_ok r m u t : tracing_ok t → tracing_ok (requestHook r m u t).
Proof.
  intros Hok. rewrite requestHook_eq. destruct (sm (t_store t) !! r) as [p|] eqn:Hr; cbn zeta; [|by apply start_ok].
  pose proof (close_ok t r p None None Hok Hr) as Hc. apply (start_ok _ r _ _ Hc). apply pop_gone.
Qed.

Lemma fire_ok e t : tracing_ok t → ∃ t', fire e t = Some t' ∧ tracing_ok t'.
Proof.
  intros Hok. destruct e as [r m u|resp err]; cbn [fire].
  - eexists. split; [done|]. by apply requestHook_ok.
  - rewrite responseHook_eq by done. eexists. split; [done|]. destruct (target t resp) as [r|]; [|done].
    destruct (sm (t_store t) !! r) as [span|] eqn:Hr; [|done]. by apply close_ok.
Qed.

Lemma no_tracing_ok : tracing_ok no_tracing.
Proof.
  split; cbn; try done; [constructor|by intros r; rewrite lookup_empty; split; [intros ?%not_elem_of_nil|intros []]|lia].
Qed.

Lemma fire_all_app es fs t : fire_all (es ++ fs) t = t' ← fire_all es t; fire_all fs t'.
Proof. revert t. induction es as [|e es IH]; intros t; cbn; [done|]. destruct (fire e t); cbn; [apply IH|done]. Qed.

Lemma fire_all_ok es t : tracing_ok t → ∃ t', fire_all es t = Some t' ∧ tracing_ok t'.
Proof.
  revert t. induction es as [|e es IH]; intros t Hok; cbn; [by exists t|].
  destruct (fire_ok e t Hok) as (t' & -> & Hok'). by apply IH.
Qed.

(** An event that leaves the request [r] alone. *)
Definition elsewhere (r : Z) (e : event) : Prop :=
  match e with
  | EReq r' _ _ => r' ≠ r
  | EResp (Some (Some r', _)) _ => r' ≠ r
  | EResp _ _ => False
  end.

Lemma pop_other store r r' : r ≠ r' → sm (snd (pop store r)) !! r' = sm store !! r'.
Proof. intros Hne. unfold pop. destruct (sm store !! r); cbn; [by rewrite lookup_delete_ne|done]. Qed.

Lemma close_other t r r' span id st err : tracing_ok t → r ≠ r' → sm (t_store t) !! r = Some span →
  sm (t_store t) !! r' = Some id → ops_of id (t_log t ++ record span st err ++ [End_ span]) = ops_of id (t_log t).
Proof.
  intros Hok Hne H1 H2. rewrite ops_of_app, (ops_of_other id (_ ++ _)); [by rewrite app_nil_r|].
  eapply Forall_impl; [apply record_span|]. intros o -> <-. apply Hne. by eapply ok_inj.
Qed.

Lemma elsewhere_keeps r e t t' id : tracing_ok t → elsewhere r e → fire e t = Some t' →
  sm (t_store t) !! r = Some id →
  sm (t_store t') !! r = Some id ∧ ops_of id (t_log t') = ops_of id (t_log t).
Proof.
  intros Hok Hel Hf Hr. destruct e as [q m u|resp err]; cbn [fire] in Hf.
  - injection Hf as <-. cbn in Hel. rewrite requestHook_eq. pose proof (ok_open _ Hok _ _ Hr) as [Hb _].
    assert (Hst : ∀ l name attrs, ops_of id (l ++ [Start (t_next t) name attrs]) = ops_of id l).
    { intros l name attrs. rewrite ops_of_app, (ops_of_other id [_]); [by rewrite app_nil_r|].
      repeat constructor. cbn. lia. }
    destruct (sm (t_store t) !! q) as [p|] eqn:Hq; cbn [t_store t_next t_log]; rewrite Hst; cbn [set sm];
      rewrite lookup_insert_ne by done; [rewrite pop_other by done|done].
    split; [done|]. by eapply close_other.
  - rewrite responseHook_eq in Hf by done. injection Hf as <-. destruct resp as [[[q|] st]|]; [|done..]. cbn in Hel. cbn [target].
    destruct (sm (t_store t) !! q) as [p|] eqn:Hq; [|done]. cbn [t_store t_log]. rewrite pop_other by done.
    split; [done|]. by eapply close_other.
Qed.

Lemma elsewhere_all_keeps r es t t' id : tracing_ok t → Forall (elsewhere r) es → fire_all es t = Some t' →
  sm (t_store t) !! r = Some id →
  tracing_ok t' ∧ sm (t_store t') !! r = Some id ∧ ops_of id (t_log t') = ops_of id (t_log t).
Proof.
  intros Hok Hel. revert t Hok. induction Hel as [|e es He Hel IH]; intros t Hok; cbn; [by intros [= <-]|].
  destruct (fire e t) as [t1|] eqn:Hf; [|done]. cbn. intros H1 Hr.
  destruct (elsewhere_keeps _ _ _ _ _ Hok He Hf Hr) as [Hr1 Ho1].
  destruct (fire_ok e t Hok) as (? & ? & Hok1). simplify_eq. destruct (IH _ Hok1 H1 Hr1) as (? & ? & ->). done.
Qed.

(** ** What the integration promises *)

(** C16: The hooks never panic, and after any sequence of them every span started is
    accounted for: it is open, stored under exactly one request, or it was ended
    exactly once, after at most one outcome. *)
Theorem tracing_invariant (es : list event) :
  ∃ t, fire_all es no_tracing = Some t ∧
    (∀ o, o ∈ t_log t → 0 <= op_span o < t_next t) ∧
    ∀ id, 0 <= id < t_next t →
      (open (t_log t) id ∧ ∃ r, sm (t_store t) !! r = Some id ∧ ∀ r', sm (t_store t) !! r' = Some id → r' = r) ∨
      (closed (t_log t) id ∧ ∀ r, sm (t_store t) !! r ≠ Some id).
Proof.
  destruct (fire_all_ok es no_tracing no_tracing_ok) as (t & Ht & Hok). exists t. split_and!; [done| |].
  - intros o Ho. apply dec_stable. intros Hn%(ok_fresh _ Hok).
    apply (not_elem_of_nil o). rewrite <- Hn. unfold ops_of. by apply list_elem_of_filter.
  - intros id Hb. destruct (ok_done _ Hok id Hb) as [[r Hr]|Hc].
    + left. split; [by apply (ok_open _ Hok r)|]. exists r. split; [done|]. intros r' Hr'. by eapply ok_inj.
    + right. split; [done|]. intros r Hr. destruct (ok_open _ Hok _ _ Hr) as [_ (n1 & a1 & H1)].
      destruct Hc as (n2 & a2 & st & err & H2). rewrite H1 in H2. injection H2 as _ _ H2. by destruct (record id st err).
Qed.

(** A response that names its request is attributed to it, whatever other requests
    do in between: the span started for the request carries the status code and the
    outcome of that response, is ended, and leaves the table. *)
Theorem tracing_attribution (before between : list event) (r st : Z) (method : string) (u : URL) (err : option error)
    (Hbetween : Forall (elsewhere r) between) :
  ∃ t t',
    fire_all before no_tracing = Some t ∧
    fire_all (before ++ EReq r method u :: between ++ [EResp (Some (Some r, st)) err]) no_tracing = Some t' ∧
    ops_of (t_next t) (t_log t') =
      Start (t_next t) ("monobank HTTP " +:+ method)
        [("http.method", AStr method); ("http.url", AStr (redactURL (Some u))); ("http.target", AStr (Path u))] ::
      record (t_next t) (Some st) err ++ [End_ (t_next t)] ∧
    sm (t_store t') !! r = None.
Proof.
  destruct (fire_all_ok before no_tracing no_tracing_ok) as (t & Ht & Hok).
  pose proof (requestHook_ok r method u t Hok) as Hok1.
  assert (Hr1 : sm (t_store (requestHook r method u t)) !! r = Some (t_next t)).
  { rewrite requestHook_eq. destruct (sm (t_store t) !! r); cbn; apply lookup_insert_eq. }
  destruct (fire_all_ok between _ Hok1) as (t2 & Ht2 & _).
  destruct (elsewhere_all_keeps r between _ _ _ Hok1 Hbetween Ht2 Hr1) as (Hok2 & Hr2 & Ho2).
  exists t. eexists. split; [done|]. split; [|split].
  - rewrite fire_all_app, Ht. cbn. rewrite fire_all_app, Ht2. cbn. rewrite responseHook_eq by done. cbn. by rewrite Hr2.
  - cbn [t_log snd fmap option_fmap option_map]. rewrite ops_of_app, Ho2, (ops_of_own _ (record _ _ _ ++ _)) by apply record_span.
    rewrite requestHook_eq. set (l := match sm (t_store t) !! r with Some _ => _ | None => _ end).
    assert (Hl : t_next l = t_next t) by (unfold l; by destruct (sm (t_store t) !! r)).
    cbn [t_log]. rewrite ops_of_app, !Hl, (ops_of_own _ [_]) by by apply Forall_singleton.
    replace (ops_of (t_next t) (t_log l)) with (@nil op); [done|].
    unfold l. destruct (sm (t_store t) !! r) as [p|] eqn:Hp; cbn [t_log]; [|rewrite (ok_fresh _ Hok); [done|lia]].
    pose proof (ok_fresh _ (close_ok t r p None None Hok Hp) (t_next t)) as Hf. cbn [t_next t_log] in Hf. rewrite Hf; [done|lia].
  - apply pop_gone.
Qed.

(** What the table holds after a request hook. *)
Lemma requestHook_store r m u t :
  t_next (requestHook r m u t) = t_next t + 1 ∧
  sm (t_store (requestHook r m u t)) !! r = Some (t_next t) ∧
  last (recent (t_store (requestHook r m u t))) = Some r ∧
  ∀ r', r ≠ r' → sm (t_store (requestHook r m u t)) !! r' = sm (t_store t) !! r'.
Proof.
  rewrite requestHook_eq. set (l := match sm (t_store t) !! r with Some _ => _ | None => _ end).
  assert (Hl : t_next l = t_next t ∧ sm (t_store l) !! r = None ∧ ∀ r', r ≠ r' → sm (t_store l) !! r' = sm (t_store t) !! r').
  { unfold l. destruct (sm (t_store t) !! r) as [p|] eqn:Hp; cbn; [|done].
    split_and!; [done|apply pop_gone|]. intros r' Hne. by apply pop_other. }
  destruct Hl as (Hn & Hnone & Hoth). cbn [t_next t_store set sm recent]. rewrite Hn.
  split_and!; [done|apply lookup_insert_eq| |].
  - rewrite decide_False by (rewrite Hnone; by intros []). apply last_snoc.
  - intros r' Hne. rewrite lookup_insert_ne by done. by apply Hoth.
Qed.

(** A transport failure names no request: its error lands on the span of the
    request stored last, whichever failed. With two in flight the wrong span is
    marked as failed, and the failed one stays open. *)
Theorem tracing_blames_last (t : tracing) (r r' : Z) (m m' : string) (u u' : URL) (e : error)
    (Hok : tracing_ok t) (Hdistinct : r ≠ r') (Hnew : sm (t_store t) !! r' = None) :
  let start := requestHook r' m' u' (requestHook r m u t) in
  ∃ t', responseHook None (Some e) start = Some t' ∧
    ops_of (t_next t + 1) (t_log t') =
      ops_of (t_next t + 1) (t_log start) ++ record (t_next t + 1) None (Some e) ++ [End_ (t_next t + 1)] ∧
    sm (t_store t') !! r = Some (t_next t).
Proof.
  intros start. pose proof (requestHook_ok r m u t Hok) as Hok1.
  destruct (requestHook_store r m u t) as (Hn1 & H1 & _ & Ho1).
  set (t1 := requestHook r m u t) in *.
  pose proof (requestHook_ok r' m' u' t1 Hok1) as Hok2. destruct (requestHook_store r' m' u' t1) as (_ & H2 & Hl & Ho2).
  fold start in Hok2, H2, Hl, Ho2. eexists. rewrite responseHook_eq by done. unfold target. rewrite Hl, H2, Hn1.
  split; [done|]. cbn [t_log t_store snd fmap option_fmap option_map]. split.
  - by rewrite ops_of_app, (ops_of_own _ (record _ _ _ ++ _)) by apply record_span.
  - rewrite pop_other, Ho2 by congruence. done.
Qed.

(** A response whose request was never stored, as after a redirect that [http.Client]
    followed, closes nothing: the span of the first request stays open. *)
Theorem tracing_redirect_leaks (t : tracing) (r r' st id : Z) (err : option error)
    (Hok : tracing_ok t) (Hr : sm (t_store t) !! r = Some id) (Hnew : sm (t_store t) !! r' = None) :
  responseHook (Some (Some r', st)) err t = Some t.
Proof. rewrite responseHook_eq by done. cbn. by rewrite Hnew. Qed.

End Hooks.
