(* ===== verification/TracedClient.v ===== *)
(** * A client under tracing (client.go with otelmonobank/otel.go)

    [WithTracer] on a client, and a whole [Client.Do] under it. The world of the
    client gets the tracing state beside it; everything of the client but the two
    hooks leaves that part alone. A hook receives the request's pointer, which is
    the same for every attempt of one call: the hooks here are those of the call
    whose request is [p]. *)
From S2P Require Import Prelude GoString Errors GoHttp Retry Tracing Client.

(** ** Two clients that behave alike

    A projection of worlds that every effect commutes with. *)

Definition same {W1 W2 B} (π : W1 → W2) (x : B * W1) (y : B * W2) : Prop := x.1 = y.1 ∧ π x.2 = y.2.

Class WorldMorphism {W1 W2} `{World W1} `{World W2} (π : W1 → W2) : Prop := {
  wm_now w : same π (now w) (now (π w));
  wm_rand n w : same π (rand_Int64N n w) (rand_Int64N n (π w));
  wm_wait d w : same π (wait d w) (wait d (π w))
}.

(** Run both sides of a [same] and identify what they give. *)
Ltac sync H :=
  let E := fresh in
  pose proof H as E; unfold same in E;
  match type of E with
  | (fst ?x = fst ?y) ∧ _ => destruct x as [? ?], y as [? ?]; cbn [fst snd] in E; destruct E; subst
  end.

Section Retrying.
Context {W1 W2 : Type} `{WorldMorphism W1 W2 π}.

Lemma parseRetryAfter_same `{NetLib} h w : same π (parseRetryAfter h w) (parseRetryAfter h (π w)).
Proof.
  unfold parseRetryAfter. cbv zeta. sync (wm_now (π := π) w). repeat case_match; simplify_eq/=; done.
Qed.

Lemma retry_delay_same rp ra i w : same π (retry_delay rp ra i w) (retry_delay rp ra i (π w)).
Proof.
  assert (∀ b c a, same π (backoff b c a w) (backoff b c a (π w))) as Hb.
  { intros b c a. unfold backoff. case_match; [done|]. cbv zeta. case_match; [done|].
    match goal with |- context [rand_Int64N ?n w] => sync (wm_rand (π := π) n w) end. done. }
  unfold retry_delay. destruct (0 <? ra); [done|]. destruct (ra =? 0); [done|].
  sync (Hb (baseDelay rp) (maxDelay rp) i). done.
Qed.

Lemma run_loop_same (f1 : W1 → option error * W1) (f2 : W2 → option error * W2) rp attempts n i e w :
  (∀ w, same π (f1 w) (f2 (π w))) → same π (run_loop rp attempts f1 n i e w) (run_loop rp attempts f2 n i e (π w)).
Proof.
  intros Hf. revert i e w. induction n as [|n IH]; intros i e w; [done|]. cbn [run_loop].
  sync (Hf w). case_match; [|done]. case_match; [done|]. case_match; [|done].
  match goal with |- context [retry_delay rp ?ra i ?x] => sync (retry_delay_same rp ra i x) end.
  match goal with |- context [wait ?d ?x] => sync (wm_wait (π := π) d x) end.
  case_match; [done|]. apply IH.
Qed.

Lemma run_same f1 f2 rp w : (∀ w, same π (f1 w) (f2 (π w))) → same π (run rp f1 w) (run rp f2 (π w)).
Proof. apply run_loop_same. Qed.
End Retrying.

Section Simulation.
Context {W1 W2 : Type} `{WorldMorphism W1 W2 π} `{NetLib} {A : Type}.

(** What a client does where it may have nothing to do. *)
Definition do_onReq {W} (c : Client W) r w := match c_onReq c with Some f => f r w | None => (r, w) end.
Definition do_onResp {W} (c : Client W) r w := match c_onResp c with Some h => on_response h r w | None => (r, w) end.
Definition do_onErr {W} (c : Client W) e (w : W) : W := match c_onResp c with Some h => on_error h e w | None => w end.
Definition do_auth {W} (c : Client W) r (w : W) := match c_auth c with Some a => a r w | None => (None, r, w) end.
Definition do_limit {W} (c : Client W) (w : W) := match c_limiter c with Some l => lim_Wait l w | None => (None, w) end.

Record ClientSim (c1 : Client W1) (c2 : Client W2) : Prop := {
  cs_conf : c_retry c1 = c_retry c2 ∧ c_userAgent c1 = c_userAgent c2 ∧ c_unsafeRetries c1 = c_unsafeRetries c2 ∧
            c_optErr c1 = c_optErr c2 ∧ c_baseURL c1 = c_baseURL c2;
  cs_http r w : same π (http_Do (c_http c1) r w) (http_Do (c_http c2) r (π w));
  cs_auth r w : same π (do_auth c1 r w) (do_auth c2 r (π w));
  cs_limit w : same π (do_limit c1 w) (do_limit c2 (π w));
  cs_log ev w : π (log c1 ev w) = log c2 ev (π w);
  cs_onReq r w : same π (do_onReq c1 r w) (do_onReq c2 r (π w));
  cs_onResp r w : same π (do_onResp c1 r w) (do_onResp c2 r (π w));
  cs_onErr e w : π (do_onErr c1 e w) = do_onErr c2 e (π w)
}.

Inductive TargetSim : target W1 A → target W2 A → Prop :=
| ts_nil : TargetSim TNil TNil
| ts_bytes : TargetSim TBytes TBytes
| ts_writer f g : (∀ b w, same π (f b w) (g b (π w))) → TargetSim (TWriter f) (TWriter g)
| ts_json d : TargetSim (TJSON d) (TJSON d).

Context (c1 : Client W1) (c2 : Client W2) (v1 : target W1 A) (v2 : target W2 A).
Hypotheses (Hc : ClientSim c1 c2) (Hv : TargetSim v1 v2).

Lemma status_error_same req resp exp w : same π (status_error req resp exp w) (status_error req resp exp (π w)).
Proof.
  unfold status_error. cbv zeta. destruct (parseErrorBody _). case_match; [|done].
  sync (parseRetryAfter_same (π := π) (sHeader resp) w). done.
Qed.

Lemma decode_response_same resp w : same π (decode_response v1 resp w) (decode_response v2 resp (π w)).
Proof.
  unfold decode_response. case_match; [done|]. destruct Hv as [| |f g Hf|d]; [done|by case_match| |by case_match].
  sync (Hf (sBody resp) w). by repeat case_match.
Qed.

Lemma attempt_send_same exp req w : same π (attempt_send c1 v1 exp req w) (attempt_send c2 v2 exp req (π w)).
Proof.
  unfold attempt_send. fold (do_onReq c1 req w) (do_onReq c2 req (π w)). sync (cs_onReq _ _ Hc req w).
  rewrite <- (cs_log _ _ Hc). match goal with |- context [http_Do (c_http c1) ?r ?x] => sync (cs_http _ _ Hc r x) end.
  case_match.
  - match goal with |- context [c_onResp c1] => idtac end.
    match goal with |- context [on_response _ ?r ?x] => fold (do_onResp c1 r x) end.
    match goal with |- context [on_response _ ?r ?x] => fold (do_onResp c2 r x) end.
    match goal with |- context [do_onResp c1 ?r ?x] => sync (cs_onResp _ _ Hc r x) end.
    rewrite <- (cs_log _ _ Hc). case_match.
    + match goal with |- context [status_error ?r ?p ?e (log c1 ?ev ?x)] => sync (status_error_same r p e (log c1 ev x)) end. done.
    + match goal with |- context [decode_response v1 ?p ?x] => sync (decode_response_same p x) end. done.
  - match goal with |- context [on_error _ ?e ?x] => fold (do_onErr c1 e x) end.
    match goal with |- context [on_error _ ?e ?x] => fold (do_onErr c2 e x) end.
    split; [done|]. cbn [snd]. by rewrite (cs_log _ _ Hc), (cs_onErr _ _ Hc).
Qed.

Lemma attempt_same exp req w : same π (attempt c1 v1 exp req w) (attempt c2 v2 exp req (π w)).
Proof. unfold attempt. repeat case_match; [apply attempt_send_same|done|apply attempt_send_same]. Qed.

(** The state of the retry loop, projected. *)
Definition proj_do (s : DoState (W := W1) A) : DoState (W := W2) A := mkDo (d_req s) (d_out s) (π (d_world s)).

#[local] Instance proj_do_morphism : WorldMorphism proj_do.
Proof.
  split; intros; cbn.
  - sync (wm_now (π := π) (d_world w)). done.
  - sync (wm_rand (π := π) n (d_world w)). done.
  - sync (wm_wait (π := π) d (d_world w)). done.
Qed.

Lemma attemptFn_same exp s : same proj_do (attemptFn c1 v1 exp s) (attemptFn c2 v2 exp (proj_do s)).
Proof.
  unfold attemptFn. cbn [d_world d_req d_out proj_do].
  fold (do_limit c1 (d_world s)) (do_limit c2 (π (d_world s))). sync (cs_limit _ _ Hc (d_world s)). case_match; [done|].
  match goal with |- context [attempt c1 v1 exp ?r ?x] => sync (attempt_same exp r x) end.
  match goal with x : result _ * Request |- _ => destruct x as [[] ?] end; done.
Qed.

(** The simulation: what a call returns and leaves is the same. *)
Lemma Do_same ua req exp w : same π (Do c1 ua req v1 exp w) (Do c2 ua req v2 exp (π w)).
Proof.
  destruct (cs_conf _ _ Hc) as (Hr & Hu & Hs & He & Hb). unfold Do.
  assert (resolve c1 req = resolve c2 req) as -> by (unfold resolve; by rewrite He, Hb).
  destruct (resolve c2 req) as [[r u]|e]; [|done]. cbv zeta.
  assert (default_headers c1 ua (set_URL u r) = default_headers c2 ua (set_URL u r)) as ->
    by (unfold default_headers; by rewrite Hu).
  fold (do_auth c1 (default_headers c2 ua (set_URL u r)) w) (do_auth c2 (default_headers c2 ua (set_URL u r)) (π w)).
  sync (cs_auth _ _ Hc (default_headers c2 ua (set_URL u r)) w).
  match goal with x : option error * Request |- _ => destruct x as [[] q] end; [done|].
  destruct (buffer_body q) as [q1|]; [|done].
  assert (shouldRetry c1 q1 = shouldRetry c2 q1) as -> by (unfold shouldRetry; by rewrite Hs).
  match goal with |- context [mkDo q1 ONothing ?x] => set (s := mkDo (W := W1) (A := A) q1 ONothing x) end.
  change (mkDo q1 ONothing (π _)) with (proj_do s).
  set (exps := match exp with [] => [200] | l => l end).
  assert (same proj_do (if shouldRetry c2 q1 then run (c_retry c1) (attemptFn c1 v1 exps) s else attemptFn c1 v1 exps s)
            (if shouldRetry c2 q1 then run (c_retry c2) (attemptFn c2 v2 exps) (proj_do s) else attemptFn c2 v2 exps (proj_do s))) as Hrun.
  { case_match; [|apply attemptFn_same]. rewrite Hr. apply run_same. intros s'. apply attemptFn_same. }
  sync Hrun. case_match; done.
Qed.

End Simulation.

(** ** The traced client *)

Section Traced.
Context {W : Type} `{World W} `{NetLib} (StatusText : Z → string) (err_Error : error → string).

(** The world beside the tracing state; [None] once a hook has panicked. *)
Abbreviation TW := (W * option tracing)%type.

Definition beside {B} (f : W → B * W) (w : TW) : B * TW := let '(b, w1) := f w.1 in (b, (w1, w.2)).

#[export] Instance traced_world : World TW := {|
  now := beside now;
  rand_Int64N n := beside (rand_Int64N n);
  ctx_Err w := ctx_Err w.1;
  wait d := beside (wait d)
|}.

(** A client whose parts know nothing of the tracing state. *)
Definition lift_client (c : Client W) : Client TW :=
  mkClient (OtherDoer (λ r, beside (http_Do (c_http c) r)))
    (match c_auth c with Some a => Some (λ r, beside (a r)) | None => None end)
    (c_baseURL c) (c_retry c)
    (match c_limiter c with
     | Some l => Some (mkLimiter (beside (lim_Wait l)) (match lim_Stop l with Some f => Some (λ w, (f w.1, w.2)) | None => None end))
     | None => None
     end)
    (c_userAgent c) (c_unsafeRetries c) (c_allowInsecureBaseURL c) (c_optErr c)
    (match c_logger c with Some l => Some (λ ev w, (l ev w.1, w.2)) | None => None end)
    (match c_onReq c with Some f => Some (λ r, beside (f r)) | None => None end)
    (match c_onResp c with
     | Some h => Some (mkHook (λ r, beside (on_response h r)) (λ e w, (on_error h e w.1, w.2)))
     | None => None
     end).

Definition lift_target {A} (v : target W A) : target TW A :=
  match v with
  | TNil => TNil
  | TBytes => TBytes
  | TWriter f => TWriter (λ b, beside (f b))
  | TJSON d => TJSON d
  end.

Definition emit (e : event) (w : TW) : TW := (w.1, t ← w.2; fire StatusText err_Error e t).

(** [WithTracer] for the call whose request is [p]; [who] is what [resp.Request]
    points to. A nil tracer changes nothing. *)
Definition WithTracer (tracer : bool) (p : Z) (who : Response → option Z) (c : Client TW) : Client TW :=
  if tracer then
    ChainResponseHook (Some (mkHook (λ r w, (r, emit (EResp (Some (who r, sStatusCode r)) None) w))
                                    (λ e w, emit (EResp None (Some e)) w)))
      (ChainRequestHook (Some (λ r w, (r, emit (EReq p (rMethod r) (rURL r)) w))) c)
  else c.

#[export] Instance fst_morphism : WorldMorphism (fst : TW → W).
Proof.
  split; intros; cbn; unfold beside, same.
  - by destruct (now w.1).
  - by destruct (rand_Int64N n w.1).
  - by destruct (wait d w.1).
Qed.

Lemma beside_same {B} (f : W → B * W) w : same fst (beside f w) (f w.1).
Proof. unfold beside, same. by destruct (f w.1). Qed.

Lemma WithTracer_onReq p who c :
  c_onReq (WithTracer true p who c) = Some (λ r w, let '(r, w) := do_onReq c r w in (r, emit (EReq p (rMethod r) (rURL r)) w)).
Proof. unfold WithTracer, do_onReq. cbn. destruct (c_onReq c); cbn; by destruct (c_onResp c). Qed.

Lemma WithTracer_onResp p who c : ∃ h, c_onResp (WithTracer true p who c) = Some h ∧
  (∀ r w, on_response h r w = let '(r, w) := do_onResp c r w in (r, emit (EResp (Some (who r, sStatusCode r)) None) w)) ∧
  (∀ e w, on_error h e w = emit (EResp None (Some e)) (do_onErr c e w)).
Proof. unfold WithTracer, do_onResp, do_onErr. cbn.
  destruct (c_onReq c); cbn; destruct (c_onResp c); eexists; (split; [done|]); done.
Qed.

Lemma WithTracer_keeps p who (c : Client TW) :
  let c' := WithTracer true p who c in
  c_http c' = c_http c ∧ c_auth c' = c_auth c ∧ c_limiter c' = c_limiter c ∧ c_logger c' = c_logger c ∧
  c_retry c' = c_retry c ∧ c_userAgent c' = c_userAgent c ∧ c_unsafeRetries c' = c_unsafeRetries c ∧
  c_optErr c' = c_optErr c ∧ c_baseURL c' = c_baseURL c.
Proof. unfold WithTracer. cbn. destruct (c_onReq c); cbn; by destruct (c_onResp c). Qed.

(** Tracing does not disturb a client. *)
Lemma traced_sim tracer p who c : ClientSim (π := fst) (WithTracer tracer p who (lift_client c)) c.
Proof.
  assert (Hl : ClientSim (π := fst) (lift_client c) c).
  { split; unfold do_onReq, do_onResp, do_onErr, do_auth, do_limit, log; cbn; intros; [done|apply beside_same|..].
    - destruct (c_auth c); [apply beside_same|done].
    - destruct (c_limiter c); [apply beside_same|done].
    - by destruct (c_logger c).
    - destruct (c_onReq c); [apply beside_same|done].
    - destruct (c_onResp c); [apply beside_same|done].
    - by destruct (c_onResp c). }
  destruct tracer; [|done]. destruct Hl as [Hc Hh Ha Hli Hlo Hrq Hrs He].
  pose proof (WithTracer_onReq p who (lift_client c)) as E1. destruct (WithTracer_onResp p who (lift_client c)) as (h & E2 & E3 & E4).
  destruct (WithTracer_keeps p who (lift_client c)) as (K1 & K2 & K3 & K4 & K5).
  split.
  - destruct K5 as (B1 & B2 & B3 & B4 & B5), Hc as (A1 & A2 & A3 & A4 & A5). split_and!; etrans; eassumption.
  - intros r w. rewrite K1. apply Hh.
  - intros r w. unfold do_auth. rewrite K2. apply Ha.
  - intros w. unfold do_limit. rewrite K3. apply Hli.
  - intros ev w. unfold log. rewrite K4. apply Hlo.
  - intros r w. unfold do_onReq at 1. rewrite E1. sync (Hrq r w). done.
  - intros r w. unfold do_onResp at 1. rewrite E2, E3. sync (Hrs r w). done.
  - intros e w. unfold do_onErr at 1. rewrite E2, E4. cbn. apply He.
Qed.

Lemma lift_target_sim {A} (v : target W A) : TargetSim (π := fst) (lift_target v) v.
Proof. destruct v; constructor. intros. apply beside_same. Qed.

(** ** What one call leaves in the tracing state *)

Abbreviation traced_ok := (tracing_ok StatusText err_Error).

(** From [t] to [t'], [n] spans were opened and closed, and nothing is left open. *)
Record spans_closed (t t' : tracing) (n : Z) : Prop := {
  sc_ok : traced_ok t';
  sc_map : sm (t_store t') = sm (t_store t);
  sc_recent : recent (t_store t') = recent (t_store t);
  sc_next : t_next t' = t_next t + n;
  sc_new id : t_next t <= id < t_next t' → closed StatusText err_Error (t_log t') id;
  sc_old id : id < t_next t → ops_of id (t_log t') = ops_of id (t_log t)
}.

Lemma spans_closed_refl t : traced_ok t → spans_closed t t 0.
Proof. intros Hok. split; done || (intros; lia). Qed.

Lemma spans_closed_trans t1 t2 t3 n m : 0 <= n → 0 <= m → spans_closed t1 t2 n → spans_closed t2 t3 m → spans_closed t1 t3 (n + m).
Proof.
  intros Hn Hm [] []. split; [done|congruence|congruence|lia| |].
  - intros id Hid. destruct (decide (id < t_next t2)) as [Hlt|]; [|apply sc_new1; lia].
    destruct (sc_new0 id ltac:(lia)) as (nm & at_ & st & er & Hc). exists nm, at_, st, er. rewrite sc_old1 by lia. done.
  - intros id Hid. rewrite sc_old1 by lia. by apply sc_old0.
Qed.

Lemma remove_first_snoc r l : r ∉ l → remove_first r (l ++ [r]) = l.
Proof.
  induction l as [|p l IH]; cbn; [by rewrite Z.eqb_refl|]. rewrite not_elem_of_cons. intros [Hp Hl].
  destruct (Z.eqb_spec p r); [congruence|]. by rewrite IH.
Qed.

(** The two hooks of one attempt: the span starts and ends between them. *)
Lemma two_hooks t p m u resp err : traced_ok t → sm (t_store t) !! p = None →
  match resp with Some (Some r, _) => r = p | _ => True end →
  ∃ t', fire_all StatusText err_Error [EReq p m u; EResp resp err] t = Some t' ∧ spans_closed t t' 1.
Proof.
  intros Hok Hp Hresp. set (t1 := requestHook p m u t). pose proof (requestHook_ok StatusText err_Error p m u t Hok) as Hok1. fold t1 in Hok1.
  destruct (requestHook_store StatusText err_Error p m u t) as (Hn1 & H1 & Hl1 & Ho1). fold t1 in Hn1, H1, Hl1, Ho1.
  assert (Htar : Tracing.target t1 resp = Some p).
  { unfold Tracing.target. destruct resp as [[[r|] st]|]; [by subst|done..]. }
  assert (Hpr : p ∉ recent (t_store t)) by (rewrite (ok_keys _ _ _ Hok); by rewrite Hp; intros []).
  pose proof (close_ok StatusText err_Error t1 p (t_next t) (snd <$> resp) err Hok1 H1) as Hok2.
  eexists. cbn [fire_all fire mbind option_bind]. fold t1. rewrite (responseHook_eq StatusText err_Error t1 resp err Hok1), Htar, H1.
  split; [done|]. unfold t1 in *. rewrite (requestHook_eq StatusText err_Error), Hp in *. cbn zeta in *. cbn [t_store t_next t_log] in *.
  split; cbn [t_store t_next t_log].
  - apply Hok2.
  - unfold pop, set. cbn [sm]. rewrite lookup_insert_eq. cbn. by rewrite delete_insert_id.
  - unfold pop, set. cbn [sm recent]. rewrite lookup_insert_eq. cbn. rewrite decide_False by (rewrite Hp; by intros []).
    by apply remove_first_snoc.
  - done.
  - intros id Hid. assert (id = t_next t) as -> by lia. destruct (ok_done _ _ _ Hok2 (t_next t)) as [[r Hr]|Hc]; [pose proof (ok_next _ _ _ Hok); cbn; lia| |done].
    cbn [t_store] in Hr. unfold pop in Hr. cbn [set sm] in Hr. rewrite lookup_insert_eq in Hr. cbn in Hr.
    apply lookup_delete_Some in Hr as [Hne Hr]. rewrite lookup_insert_ne in Hr by done.
    destruct (ok_open _ _ _ Hok _ _ Hr) as [? _]. lia.
  - intros id Hid. rewrite (ops_of_app id (_ ++ _)), (ops_of_other id (_ ++ [End_ _])), ops_of_app, (ops_of_other id [_]).
    + by rewrite !app_nil_r.
    + apply Forall_singleton. cbn. lia.
    + eapply Forall_impl; [apply record_span|]. cbn. intros o ->. lia.
Qed.

(** ** A whole call *)

Section Call.
Context {A : Type} (p : Z) (who : Response → option Z) (c : Client W) (v : target W A) (count : W → Z).
Context (Hwho : ∀ r, who r = Some p) (Hobs : Observed count 1 0 c v).

Abbreviation tc := (WithTracer true p who (lift_client c)).

Lemma beside_snd {B} (f : W → B * W) w : (beside f w).2.2 = w.2.
Proof. unfold beside. by destruct (f w.1). Qed.

Lemma beside_fst {B} (f : W → B * W) w : (beside f w).2.1 = (f w.1).2.
Proof. unfold beside. by destruct (f w.1). Qed.

Lemma log_snd ev (w : TW) : (log tc ev w).2 = w.2.
Proof.
  unfold log. destruct (WithTracer_keeps p who (lift_client c)) as (_ & _ & _ & -> & _). cbn. by destruct (c_logger c).
Qed.

Lemma http_snd r (w : TW) : (http_Do (c_http tc) r w).2.2 = w.2.
Proof. destruct (WithTracer_keeps p who (lift_client c)) as (-> & _). apply beside_snd. Qed.

Lemma limit_snd (w : TW) : (do_limit tc w).2.2 = w.2.
Proof.
  unfold do_limit. destruct (WithTracer_keeps p who (lift_client c)) as (_ & _ & -> & _). cbn.
  destruct (c_limiter c); [apply beside_snd|done].
Qed.

Lemma status_error_snd req resp exp (w : TW) : (status_error req resp exp w).2.2 = w.2.
Proof.
  assert ((parseRetryAfter (sHeader resp) w).2.2 = w.2) as Hp.
  { pose proof (beside_snd now w) as Hn. unfold parseRetryAfter. cbv zeta. cbn [now traced_world] in *.
    repeat case_match; simplify_eq/=; done. }
  unfold status_error. cbv zeta. destruct (parseErrorBody _). case_match; [|done]. by destruct (parseRetryAfter _ w).
Qed.

Lemma decode_response_snd resp (w : TW) : (decode_response (lift_target v) resp w).2.2 = w.2.
Proof.
  unfold decode_response. case_match; [done|]. destruct v as [| |f|f]; cbn; [done|by case_match| |by case_match].
  pose proof (beside_snd (f (sBody resp)) w) as Hs. destruct (beside (f (sBody resp)) w) as [e w1]. by repeat case_match.
Qed.

(** The state after the request hook, and after the response hook. *)
Lemma onReq_snd r (w : TW) : ∃ m u, (do_onReq tc r w).2.2 = (t ← w.2; fire StatusText err_Error (EReq p m u) t).
Proof.
  unfold do_onReq at 1. rewrite WithTracer_onReq.
  assert ((do_onReq (lift_client c) r w).2.2 = w.2) as Hs by (unfold do_onReq; cbn; destruct (c_onReq c); [apply beside_snd|done]).
  destruct (do_onReq (lift_client c) r w) as [r1 w1]. cbn [snd] in Hs. cbn. rewrite Hs. by eexists _, _.
Qed.

Lemma onResp_snd r (w : TW) : ∃ st, (do_onResp tc r w).2.2 = (t ← w.2; fire StatusText err_Error (EResp (Some (Some p, st)) None) t).
Proof.
  unfold do_onResp at 1. destruct (WithTracer_onResp p who (lift_client c)) as (h & -> & -> & _).
  assert ((do_onResp (lift_client c) r w).2.2 = w.2) as Hs by (unfold do_onResp; cbn; destruct (c_onResp c); [apply beside_snd|done]).
  destruct (do_onResp (lift_client c) r w) as [r1 w1]. cbn [snd] in Hs. cbn. rewrite Hs, Hwho. by eexists.
Qed.

Lemma onErr_snd e (w : TW) : (do_onErr tc e w).2 = (t ← w.2; fire StatusText err_Error (EResp None (Some e)) t).
Proof.
  unfold do_onErr at 1. destruct (WithTracer_onResp p who (lift_client c)) as (h & -> & _ & ->).
  assert ((do_onErr (lift_client c) e w).2 = w.2) as Hs by (unfold do_onErr; cbn; by destruct (c_onResp c)).
  unfold emit. cbn [snd]. by rewrite Hs.
Qed.

(** One attempt: both hooks fire, around the transport. *)
Lemma attempt_send_hooks exp req (w : TW) : ∃ m u resp err,
  (attempt_send tc (lift_target v) exp req w).2.2 = (t ← w.2; fire_all StatusText err_Error [EReq p m u; EResp resp err] t) ∧
  match resp with Some (Some r, _) => r = p | _ => True end.
Proof.
  unfold attempt_send. fold (do_onReq tc req w). destruct (onReq_snd req w) as (m & u & H1). exists m, u.
  destruct (do_onReq tc req w) as [r1 w1]. cbn [snd] in H1.
  pose proof (log_snd (LogSending (rMethod r1) (rURL r1)) w1) as H2. set (w2 := log tc _ w1) in *.
  pose proof (http_snd r1 w2) as H3. destruct (http_Do (c_http tc) r1 w2) as [[resp|e] w3]; cbn [snd] in H3.
  - fold (do_onResp tc resp w3). destruct (onResp_snd resp w3) as (st & H4). exists (Some (Some p, st)), None.
    destruct (do_onResp tc resp w3) as [resp1 w4]. cbn [snd] in H4. split; [|done].
    assert (w4.2 = (t ← w.2; fire_all StatusText err_Error [EReq p m u; EResp (Some (Some p, st)) None] t)) as H5.
    { rewrite H4, H3, H2, H1. destruct w.2 as [t|]; cbn; [|done]. by destruct (responseHook _ _ _ _ _). }
    pose proof (log_snd (LogResponse (rMethod r1) (rURL r1) (sStatusCode resp1)) w4) as H6. set (w5 := log tc _ w4) in *. case_match.
    + pose proof (status_error_snd r1 resp1 exp w5) as Hlast. destruct (status_error _ _ _ _). cbn in *. congruence.
    + pose proof (decode_response_snd resp1 w5) as Hlast. destruct (decode_response _ _ _). cbn in *. congruence.
  - fold (do_onErr tc e w3). exists None, (Some e). split; [|done]. cbn [snd]. rewrite log_snd, onErr_snd, H3, H2, H1.
    destruct w.2 as [t|]; cbn; [|done]. by destruct (responseHook _ _ _ _ _).
Qed.

(** Nothing of this call is open, and every send since [w0] has its span. *)
Definition accounted (t0 : tracing) (w0 : W) (w : TW) : Prop :=
  count w0 <= count w.1 ∧ ∃ t, w.2 = Some t ∧ spans_closed t0 t (count w.1 - count w0).

Lemma accounted_frame t0 w0 w w1 : w1.2 = w.2 → count w1.1 = count w.1 → accounted t0 w0 w → accounted t0 w0 w1.
Proof. unfold accounted. intros -> ->. done. Qed.

Lemma attempt_accounted t0 w0 exp req w : sm (t_store t0) !! p = None → accounted t0 w0 w →
  accounted t0 w0 (attempt tc (lift_target v) exp req w).2.
Proof.
  intros Hp (Hle & t & Ht & Hsc).
  assert (Hsend : ∀ q, accounted t0 w0 (attempt_send tc (lift_target v) exp q w).2).
  { intros q. destruct (attempt_send_hooks exp q w) as (m & u & resp & err & Hh & Hresp).
    destruct (attempt_send_same tc c (lift_target v) v (traced_sim true p who c) (lift_target_sim v) exp q w) as [_ Hfst].
    pose proof (attempt_send_count count 1 0 c v Hobs exp q w.1) as Hcnt. rewrite <- Hfst in Hcnt.
    destruct (two_hooks t p m u resp err) as (t' & Hf & Hsc'); [apply Hsc|by rewrite (sc_map _ _ _ Hsc)|done|].
    split; [lia|]. exists t'. rewrite Hh, Ht. split; [done|]. rewrite Hcnt.
    replace (count w.1 + 1 - count w0) with (count w.1 - count w0 + 1) by lia. eapply spans_closed_trans; [lia|lia|done|done]. }
  unfold attempt. destruct (rGetBody req) as [[d|e]|]; [apply Hsend| |apply Hsend]. split; [done|]. by exists t.
Qed.

Lemma attemptFn_accounted t0 w0 exp s : sm (t_store t0) !! p = None → accounted t0 w0 (d_world s) →
  accounted t0 w0 (d_world (attemptFn tc (lift_target v) exp s).2).
Proof.
  intros Hp Hacc. unfold attemptFn. fold (do_limit tc (d_world s)).
  assert (accounted t0 w0 (do_limit tc (d_world s)).2) as Hl.
  { eapply accounted_frame; [apply limit_snd| |done]. destruct (cs_limit _ _ (traced_sim true p who c) (d_world s)) as [_ ->].
    unfold do_limit. destruct (c_limiter c) eqn:Hc; [|done]. rewrite (obs_limiter _ _ _ _ _ Hobs) by done. case_match; lia. }
  destruct (do_limit tc (d_world s)) as [[e|] w1]; [done|]. cbn [snd] in Hl.
  pose proof (attempt_accounted t0 w0 exp (d_req s) w1 Hp Hl) as Ha.
  destruct (attempt tc (lift_target v) exp (d_req s) w1) as [[[o|e] q] w2]; done.
Qed.

Lemma loop_accounted t0 w0 exp (retry : bool) s : sm (t_store t0) !! p = None → accounted t0 w0 (d_world s) →
  accounted t0 w0 (d_world (if retry then run (c_retry tc) (attemptFn tc (lift_target v) exp) s else attemptFn tc (lift_target v) exp s).2).
Proof.
  intros Hp Hacc. destruct retry; [|by apply attemptFn_accounted].
  apply (run_preserves (λ s, accounted t0 w0 (d_world s))); [|..|done].
  - intros s'. by apply attemptFn_accounted.
  - intros d s' Hs'. cbn -[accounted]. pose proof (beside_snd (wait d) (d_world s')) as H1. pose proof (beside_fst (wait d) (d_world s')) as H2.
    destruct (beside (wait d) (d_world s')) as [e w1]. cbn [snd d_world] in *.
    eapply accounted_frame; [done| |done]. rewrite H2. apply (obs_wait _ _ _ _ _ Hobs).
  - intros n s' Hs'. cbn -[accounted]. pose proof (beside_snd (rand_Int64N n) (d_world s')) as H1. pose proof (beside_fst (rand_Int64N n) (d_world s')) as H2.
    destruct (beside (rand_Int64N n) (d_world s')) as [e w1]. cbn [snd d_world] in *.
    eapply accounted_frame; [done| |done]. rewrite H2. apply (obs_rand _ _ _ _ _ Hobs).
Qed.

(** C10: tracing watches a call without touching it. Under [WithTracer] a call returns
    what it returns without, and leaves the same world, whatever the client's own
    hooks, retries and errors; and when no redirect intervened and the call is the
    only one in flight, each request it sent has a span of its own that was started
    and ended, nothing stays open, and no earlier span is touched. *)
Theorem traced_call (ua : string) (req : option Request) (exp : list Z) (w : W) (t : tracing)
    (Hok : traced_ok t) (Hnew : sm (t_store t) !! p = None) :
  let plain := Do c ua req v exp w in
  let traced := Do tc ua req (lift_target v) exp (w, Some t) in
  traced.1 = plain.1 ∧ traced.2.1 = plain.2 ∧
  ∃ t', traced.2.2 = Some t' ∧ spans_closed t t' (count plain.2 - count w).
Proof.
  intros plain traced.
  destruct (Do_same tc c (lift_target v) v (traced_sim true p who c) (lift_target_sim v) ua req exp (w, Some t)) as [H1 H2].
  cbn [fst] in H1, H2. fold plain traced in H1, H2. split; [done|]. split; [done|]. rewrite <- H2.
  assert (accounted t w traced.2) as (_ & t' & Ht' & Hsc); [|by exists t'].
  apply Do_inv.
  - split; [done|]. exists t. split; [done|]. cbn. rewrite Z.sub_diag. by apply spans_closed_refl.
  - intros a r w' Ha. destruct (WithTracer_keeps p who (lift_client c)) as (_ & Hauth & _). rewrite Hauth in Ha. cbn in Ha.
    destruct (c_auth c) as [a0|] eqn:Hc; [|done]. injection Ha as <-.
    apply accounted_frame; [apply beside_snd|]. rewrite beside_fst. by apply (obs_auth _ _ _ _ _ Hobs).
  - intros r u r1 w1 req1 e _ Hr1 Hw1 Hb Hacc. by apply loop_accounted.
Qed.
End Call.
End Traced.

(** A GET that is answered 502 and then 200: two requests, two spans, both closed. *)
Lemma traced_call_witness :
  let w := mkNet [bad_gateway; ok_200 "{}"] [] 0 in
  let r := mkRequest "GET" (mkURL "" "" "/personal/client-info" "") ∅ BNil None 0 in
  ∃ t', (Do (H0 := net_netlib) (WithTracer (H0 := net_netlib) (λ _, "") (λ _, "") true 7 (λ _, Some 7) (lift_client (net_client false None)))
           "sdk" (Some r) (lift_target (@TBytes Net string)) [] (w, Some no_tracing)).2.2 = Some t' ∧
    t_next t' = 2 ∧ recent (t_store t') = [] ∧
    closed (λ _, "") (λ _, "") (t_log t') 0 ∧ closed (λ _, "") (λ _, "") (t_log t') 1.
Proof.
  intros w r.
  destruct (traced_call (H0 := net_netlib) (λ _, "") (λ _, "") 7 (λ _, Some 7) (net_client false None) (@TBytes Net string)
              (λ w, Z.of_nat (length (n_seen w))) (λ _, eq_refl)
              (net_observed_sends false None string TBytes ltac:(done) (or_introl eq_refl))
              "sdk" (Some r) [] w no_tracing (no_tracing_ok _ _) eq_refl) as (_ & _ & t' & Ht & Hsc).
  exists t'. split; [exact Ht|].
  assert (Z.of_nat (length (n_seen (Do (H0 := net_netlib) (net_client false None) "sdk" (Some r) (@TBytes Net string) [] w).2))
            - Z.of_nat (length (n_seen w)) = 2) as Hn by (vm_compute; reflexivity).
  rewrite Hn in Hsc. destruct Hsc as [_ _ Hr Hnx Hcl _]. cbn in Hnx.
  split; [exact Hnx|]. split; [exact Hr|]. split; apply Hcl; rewrite Hnx; cbn; lia.
Defined.
