(* ===== verification/FakeServer.v ===== *)
(** * The fake bank (monobanktest/)

    The server that tests of client code talk to: its routing table, the
    responders, the ready scenarios, and the signer of acquiring webhooks. A test
    that fails through [t.Errorf] is kept as the list of its messages, a panic is
    [None], and the counter of a [Sequence] is a cell of a store, since the closure
    carries it from call to call. *)
From stdpp Require Import sorting.
From S2P Require Import Prelude GoString GoText Errors GoHttp Base64 Signature.
#[local] Open Scope Z_scope.

(** ** Responders (monobanktest/responder.go) *)

(** What a handler hands to the [ResponseWriter]; the status codes it refuses by a
    panic (below 100, above 999) are left aside. *)
Record answer := mkAnswer { a_status : Z; a_header : list (string * string); a_body : string }.

(** [JSON] takes any value: nil, bytes or a string, or a value of which only what
    [json.NewEncoder] writes matters (nothing when it fails). *)
Inductive payload := PNil | PText (s : string) | PValue (encoded : option string).

Inductive Responder :=
| ResponderFunc (f : Request → answer)
| SequenceFunc (cell : Z) (responders : list Responder).

Definition int32 (z : Z) : Z := (z + 2147483648) mod 4294967296 - 2147483648.

Abbreviation counters := (gmap Z Z).

Fixpoint RespondHTTP (f : Responder) (r : Request) (i : counters) : option (answer * counters) :=
  match f with
  | ResponderFunc f => Some (f r, i)
  | SequenceFunc cell responders =>
      let added := int32 (default 0 (i !! cell) + 1) in
      let idx := int32 (added - 1) in
      let len := Z.of_nat (length responders) in
      let idx := if len <=? idx then len - 1 else idx in
      if idx <? 0 then None
      else g ← map RespondHTTP responders !! Z.to_nat idx; g r (<[cell := added]> i)
  end.

Definition writeBody (b : payload) : string :=
  match b with PNil => "" | PText s => s | PValue e => default "" e end.

Definition json_header : list (string * string) := [("Content-Type", "application/json")].

Definition JSON (b : payload) : Responder := ResponderFunc (λ _, mkAnswer 200 json_header (writeBody b)).
Definition Status (status : Z) : Responder := ResponderFunc (λ _, mkAnswer status [] "").

Section Encoder.
(** What [json.NewEncoder] writes for a map of strings. *)
Context (Encode : list (string * string) → string).

Definition Error (status : Z) (msg : string) : Responder :=
  ResponderFunc (λ _, mkAnswer status json_header (Encode [("errorDescription", msg)])).

Definition ErrorWithCode (status : Z) (code msg : string) : Responder :=
  if String.eqb code "" then Error status msg
  else ResponderFunc (λ _, mkAnswer status json_header (Encode [("errorDescription", msg); ("errCode", code)])).
End Encoder.

(** The cell is the counter the call allocates. *)
Definition Sequence (cell : Z) (responders : list Responder) : Responder :=
  match responders with [] => Status 500 | _ => SequenceFunc cell responders end.

(** ** Server (monobanktest/server.go) *)

Record prefixRoute := mkPrefixRoute { pr_method : string; pr_prefix : string; pr_resp : Responder }.

Record Server := mkServer {
  routes : gmap (string * string) Responder;
  prefixRoutes : list prefixRoute;
  closed : bool;
  errorf : list (string * string)     (* method and path of each call of t.Errorf *)
}.

Definition NewServer : Server := mkServer ∅ [] false [].
Definition Close (s : Server) : Server := mkServer (routes s) (prefixRoutes s) true (errorf s).

Definition Handle (method path : string) (r : Responder) (s : Server) : Server :=
  mkServer (<[(method, path) := r]> (routes s)) (prefixRoutes s) (closed s) (errorf s).

(** [sort.SliceStable] of the standard library, by insertion. *)
Section SliceStable.
Context {A : Type} (less : A → A → bool).
Fixpoint insert_stable (x : A) (l : list A) : list A :=
  match l with
  | [] => [x]
  | y :: k => if less y x then y :: insert_stable x k else x :: l
  end.
Definition SliceStable (l : list A) : list A := foldr insert_stable [] l.
End SliceStable.

Definition longer (x y : prefixRoute) : bool := slen (pr_prefix y) <? slen (pr_prefix x).

Definition HandlePrefix (method prefix : string) (r : Responder) (s : Server) : Server :=
  mkServer (routes s) (SliceStable longer (prefixRoutes s ++ [mkPrefixRoute method prefix r])) (closed s) (errorf s).

Definition HasPrefix (s prefix : string) : bool := String.prefix prefix s.

Definition serves (method path : string) (pr : prefixRoute) : bool :=
  String.eqb (pr_method pr) method && HasPrefix path (pr_prefix pr).

(** The loop over [prefixRoutes], up to its [break]. *)
Fixpoint first_prefix (method path : string) (l : list prefixRoute) : option Responder :=
  match l with
  | [] => None
  | pr :: l => if serves method path pr then Some (pr_resp pr) else first_prefix method path l
  end.

Definition lookup_route (s : Server) (method path : string) : option Responder :=
  match routes s !! (method, path) with
  | Some r => Some r
  | None => first_prefix method path (prefixRoutes s)
  end.

(** [http.Error] of the standard library. *)
Definition http_Error (msg : string) (status : Z) : answer :=
  mkAnswer status [("Content-Type", "text/plain; charset=utf-8"); ("X-Content-Type-Options", "nosniff")] (msg +:+ String "010" "").

Definition handle (r : Request) (si : Server * counters) : option (answer * (Server * counters)) :=
  let '(s, i) := si in
  if closed s then Some (http_Error "server closed" 503, (s, i))
  else match lookup_route s (rMethod r) (Path (rURL r)) with
       | None =>
           Some (http_Error "no handler registered" 501,
                 (mkServer (routes s) (prefixRoutes s) (closed s) (errorf s ++ [(rMethod r, Path (rURL r))]), i))
       | Some f => '(a, i) ← RespondHTTP f r i; Some (a, (s, i))
       end.

(** ** Scenarios (monobanktest/builders.go) *)

Definition WithClientInfo (info : payload) : Server → Server := Handle "GET" "/personal/client-info" (JSON info).
Definition WithRates (rates : payload) : Server → Server := Handle "GET" "/bank/currency" (JSON rates).
Definition WithServerKey (b : payload) : Server → Server := Handle "GET" "/bank/sync" (JSON b).
Definition WithStatement (account : string) (txs : payload) : Server → Server :=
  HandlePrefix "GET" ("/personal/statement/" +:+ account +:+ "/") (JSON txs).
Definition WithWebHookSubscription : Server → Server := Handle "POST" "/personal/webhook" (Status 200).

(** ** The webhook signer (monobanktest/webhook.go) *)

(** What the signer uses of crypto/ecdsa and crypto/x509, and of the randomness
    around it; [None] is an error. *)
Class TestCrypto (W : Type) `{Crypto} := {
  TestKey : Type;
  test_PublicKey : TestKey → PublicKey;
  GenerateKey_P256 : W → option TestKey * W;
  MarshalPKIXPublicKey : PublicKey → option string;
  test_SignASN1 : TestKey → string → W → option string * W
}.

(** What their documentation says: signing and verifying, marshalling and parsing,
    and writing and reading a PEM block are inverse, and the key generated is on
    the curve asked for. *)
Class TestCryptoLaws (W : Type) `{TestCrypto W} : Prop := {
  test_sign_verifies k digest w sig :
    (test_SignASN1 k digest w).1 = Some sig → VerifyASN1 (test_PublicKey k) digest sig = true;
  test_pkix k der : MarshalPKIXPublicKey k = Some der → ParsePKIXPublicKey der = Some (Some k);
  test_pem k der : MarshalPKIXPublicKey k = Some der → pem_Decode (pem_EncodeToMemory "PUBLIC KEY" der) = Some der;
  test_curve w k : (GenerateKey_P256 w).1 = Some k → key_Curve (test_PublicKey k) = P256
}.

Section Signer.
Context {W : Type} `{TestCrypto W}.

Record AcquiringWebhookSigner := mkSigner { priv : TestKey; keyField : string }.

(** [None] where the source ends the test with [t.Fatalf]. *)
Definition NewAcquiringWebhookSigner (w : W) : option AcquiringWebhookSigner * W :=
  let '(k, w) := GenerateKey_P256 w in
  match k with
  | None => (None, w)
  | Some priv =>
      match MarshalPKIXPublicKey (test_PublicKey priv) with
      | None => (None, w)
      | Some der =>
          let pemBytes := pem_EncodeToMemory "PUBLIC KEY" der in
          (Some (mkSigner priv (b64_EncodeToString pemBytes)), w)
      end
  end.

Definition PubKeyField (s : AcquiringWebhookSigner) : string := keyField s.

Definition Signer_Sign (s : AcquiringWebhookSigner) (body : string) (w : W) : option string * W :=
  let '(sig, w) := test_SignASN1 (priv s) (sha256 body) w in (b64_EncodeToString <$> sig, w).

Definition WithAcquiringPubKey (Encode : list (string * string) → string) (signer : AcquiringWebhookSigner) : Server → Server :=
  Handle "GET" "/api/merchant/pubkey" (JSON (PValue (Some (Encode [("key", PubKeyField signer)])))).

End Signer.

(** ** Lemmas *)

Lemma insert_stable_Permutation {A} (less : A → A → bool) x l : insert_stable less x l ≡ₚ x :: l.
Proof.
  induction l as [|y l IH]; cbn; [done|]. destruct (less y x); [|done]. rewrite IH. constructor.
Qed.

Lemma SliceStable_Permutation {A} (less : A → A → bool) l : SliceStable less l ≡ₚ l.
Proof. induction l as [|x l IH]; cbn; [done|]. by rewrite insert_stable_Permutation, IH. Qed.

Section Stable.
Context {A : Type} (key : A → Z).
Let less (x y : A) : bool := key y <? key x.
Definition descending : list A → Prop := StronglySorted (λ x y, key y <= key x).

Lemma insert_stable_sorted x l : descending l → descending (insert_stable less x l).
Proof.
  induction 1 as [|y l Hl IH Hy]; cbn; [by repeat constructor|]. unfold less. destruct (Z.ltb_spec (key x) (key y)).
  - constructor; [done|]. fold less. rewrite insert_stable_Permutation. constructor; [lia|done].
  - constructor; [by constructor|]. constructor; [done|]. eapply Forall_impl; [exact Hy|]. cbn. lia.
Qed.

Lemma SliceStable_sorted l : descending (SliceStable less l).
Proof. induction l; cbn; [constructor|by apply insert_stable_sorted]. Qed.

(** Stability: the elements of one key keep their order. *)
Lemma insert_stable_filter n x l :
  filter (λ y, key y = n) (insert_stable less x l) = filter (λ y, key y = n) (x :: l).
Proof.
  induction l as [|y l IH]; cbn [insert_stable]; [done|]. unfold less at 1. destruct (Z.ltb_spec (key x) (key y)); [|done].
  rewrite !filter_cons, IH, filter_cons. repeat case_decide; done || lia.
Qed.

Lemma SliceStable_filter n l : filter (λ y, key y = n) (SliceStable less l) = filter (λ y, key y = n) l.
Proof.
  induction l as [|x l IH]; [done|]. change (SliceStable less (x :: l)) with (insert_stable less x (SliceStable less l)).
  by rewrite insert_stable_filter, !filter_cons, IH.
Qed.

Lemma descending_after l1 x l2 y : descending (l1 ++ x :: l2) → y ∈ l2 → key y <= key x.
Proof.
  induction l1 as [|z l1 IH]; cbn; intros Hs Hy; apply StronglySorted_inv in Hs as [Hs Hx]; [|by apply IH].
  rewrite Forall_forall in Hx. by apply Hx.
Qed.
End Stable.

Lemma filter_split {A} (P : A → Prop) `{∀ x, Decision (P x)} l k1 x k2 :
  filter P l = k1 ++ x :: k2 → ∃ l1 l2, l = l1 ++ x :: l2 ∧ filter P l1 = k1.
Proof.
  revert k1. induction l as [|y l IH]; intros k1; [by destruct k1|]. rewrite filter_cons. case_decide as Hy.
  - destruct k1 as [|z k1]; cbn; intros [= -> Hf]; [by exists [], l|].
    destruct (IH _ Hf) as (l1 & l2 & -> & <-). exists (z :: l1), l2. by rewrite filter_cons_True.
  - intros (l1 & l2 & -> & <-)%IH. exists (y :: l1), l2. by rewrite filter_cons_False.
Qed.

(** ** The routing table *)

(** The calls that set a server up. *)
Inductive setup := SHandle (method path : string) (r : Responder) | SHandlePrefix (method prefix : string) (r : Responder).

Definition do_setup (c : setup) : Server → Server :=
  match c with SHandle m p r => Handle m p r | SHandlePrefix m p r => HandlePrefix m p r end.

Definition set_up (cs : list setup) : Server := foldl (λ s c, do_setup c s) NewServer cs.

Definition exact (method path : string) (cs : list setup) : option Responder :=
  last (omap (λ c, match c with SHandle m p r => if decide ((m, p) = (method, path)) then Some r else None | _ => None end) cs).

Definition prefixes (cs : list setup) : list prefixRoute :=
  omap (λ c, match c with SHandlePrefix m p r => Some (mkPrefixRoute m p r) | _ => None end) cs.

Definition plen (pr : prefixRoute) : Z := slen (pr_prefix pr).

Lemma set_up_snoc cs c : set_up (cs ++ [c]) = do_setup c (set_up cs).
Proof. unfold set_up. by rewrite foldl_app. Qed.

Lemma set_up_exact cs m p : routes (set_up cs) !! (m, p) = exact m p cs.
Proof.
  induction cs as [|c cs IH] using rev_ind; [apply lookup_empty|]. rewrite set_up_snoc. unfold exact. rewrite omap_app.
  destruct c as [m' p' r|m' p' r]; cbn [do_setup Handle HandlePrefix routes omap list_omap]; [|by rewrite app_nil_r].
  case_decide as Hc; [by rewrite Hc, lookup_insert_eq, last_snoc|]. by rewrite lookup_insert_ne, app_nil_r.
Qed.

(** The list kept is sorted by length, and within a length in the order of
    registration. *)
Lemma set_up_prefixes cs :
  descending plen (prefixRoutes (set_up cs)) ∧
  ∀ n, filter (λ pr, plen pr = n) (prefixRoutes (set_up cs)) = filter (λ pr, plen pr = n) (prefixes cs).
Proof.
  induction cs as [|c cs [IHs IHf]] using rev_ind; [split; [constructor|done]|]. rewrite set_up_snoc.
  destruct c as [m p r|m p r]; cbn [do_setup Handle HandlePrefix prefixRoutes].
  - split; [done|]. intros n. unfold prefixes. rewrite omap_app. cbn. by rewrite app_nil_r.
  - split; [apply (SliceStable_sorted plen)|]. intros n. unfold prefixes. rewrite omap_app. cbn [omap list_omap].
    pose proof (SliceStable_filter plen n (prefixRoutes (set_up cs) ++ [mkPrefixRoute m p r])) as Hf.
    etrans; [exact Hf|]. by rewrite !filter_app, IHf.
Qed.

Lemma prefixes_elem cs pr : pr ∈ prefixRoutes (set_up cs) ↔ pr ∈ prefixes cs.
Proof.
  destruct (set_up_prefixes cs) as [_ Hf]. specialize (Hf (plen pr)).
  assert (∀ l, pr ∈ l ↔ pr ∈ filter (λ x, plen x = plen pr) l) as Hm by (intros l; rewrite list_elem_of_filter; naive_solver).
  by rewrite Hm, Hf, <- Hm.
Qed.

Lemma first_prefix_Some m p l r : first_prefix m p l = Some r →
  ∃ l1 pr l2, l = l1 ++ pr :: l2 ∧ serves m p pr = true ∧ r = pr_resp pr ∧ Forall (λ x, serves m p x = false) l1.
Proof.
  induction l as [|pr l IH]; cbn; [done|]. destruct (serves m p pr) eqn:Hs; [intros [= <-]; by exists [], pr, l|].
  intros (l1 & pr' & l2 & -> & ? & ? & ?)%IH. exists (pr :: l1), pr', l2. split_and!; [done..|by constructor].
Qed.

Lemma first_prefix_None m p l : first_prefix m p l = None ↔ Forall (λ x, serves m p x = false) l.
Proof.
  induction l as [|pr l IH]; cbn; [split; [by constructor|done]|]. rewrite Forall_cons.
  destruct (serves m p pr); [naive_solver|]. rewrite IH. naive_solver.
Qed.

(** ** Properties *)

(** The fake server routes as documented. A request goes to the responder last
    registered for its method and exact path; with none there, to a registered
    prefix of its method such that no other registered prefix of the path is
    longer, and of two registrations of that prefix to the first; and to none
    exactly when neither exists. *)
Theorem routing_longest_prefix (cs : list setup) (method path : string) :
  let s := set_up cs in
  (∀ r, exact method path cs = Some r → lookup_route s method path = Some r) ∧
  (∀ r, exact method path cs = None → lookup_route s method path = Some r →
     ∃ before pr after, prefixes cs = before ++ pr :: after ∧ serves method path pr = true ∧ r = pr_resp pr ∧
       (∀ pr', pr' ∈ prefixes cs → serves method path pr' = true → plen pr' <= plen pr) ∧
       (∀ pr', pr' ∈ before → serves method path pr' = true → plen pr' < plen pr)) ∧
  (lookup_route s method path = None ↔
     exact method path cs = None ∧ ∀ pr, pr ∈ prefixes cs → serves method path pr = false).
Proof.
  intros s. unfold lookup_route, s. rewrite set_up_exact. split_and!.
  - by intros r ->.
  - intros r -> (l1 & pr & l2 & Hl & Hpr & -> & Hl1)%first_prefix_Some. destruct (set_up_prefixes cs) as [Hs Hf].
    specialize (Hf (plen pr)). rewrite Hl, filter_app, filter_cons_True in Hf by done.
    destruct (filter_split _ _ _ _ _ (eq_sym Hf)) as (h1 & h2 & Hh & Hh1). exists h1, pr, h2.
    rewrite Forall_forall in Hl1.
    assert (Hmax : ∀ pr', pr' ∈ prefixes cs → serves method path pr' = true → plen pr' <= plen pr).
    { intros pr' Hin Hsv. rewrite <- prefixes_elem, Hl in Hin. rewrite Hl in Hs.
      apply elem_of_app in Hin as [Hin|[->|Hin]%elem_of_cons]; [by rewrite Hl1 in Hsv|lia|].
      by eapply (descending_after plen). }
    split_and!; [done..|]. intros pr' Hin Hsv.
    assert (plen pr' ≠ plen pr) as Hne.
    { intros He. assert (pr' ∈ l1) as Hin1; [|by rewrite Hl1 in Hsv].
      apply (list_elem_of_filter (λ x, plen x = plen pr) l1). rewrite <- Hh1. by apply list_elem_of_filter. }
    pose proof (Hmax pr' ltac:(rewrite Hh; apply elem_of_app; by left) Hsv). lia.
  - destruct (exact method path cs) eqn:He; [naive_solver|]. rewrite first_prefix_None, Forall_forall.
    setoid_rewrite prefixes_elem. naive_solver.
Qed.

(** A closed server answers late requests 503 without failing the test; an open
    one fails the test exactly for a request no route serves, answered 501. *)
Theorem handle_answers (r : Request) (s : Server) (i : counters) :
  (closed s = true → handle r (s, i) = Some (http_Error "server closed" 503, (s, i))) ∧
  (closed s = false →
     (lookup_route s (rMethod r) (Path (rURL r)) = None →
        ∃ s', handle r (s, i) = Some (http_Error "no handler registered" 501, (s', i)) ∧
          errorf s' = errorf s ++ [(rMethod r, Path (rURL r))]) ∧
     (∀ f a s' i', lookup_route s (rMethod r) (Path (rURL r)) = Some f → handle r (s, i) = Some (a, (s', i')) →
        RespondHTTP f r i = Some (a, i') ∧ s' = s)).
Proof.
  unfold handle. split; intros Hc; rewrite Hc; [done|]. split.
  - intros ->. by eexists.
  - intros f a s' i' ->. destruct (RespondHTTP f r i) as [[a' j]|]; cbn; [|done]. intros [= -> -> ->]. done.
Qed.

(** The statement scenario of one account leaves the others without a route: they
    are answered 501 and fail the test, not 404. *)
Theorem WithStatement_others (account path : string) (txs : payload) (r : Request)
    (Hget : rMethod r = "GET") (Hother : HasPrefix (Path (rURL r)) ("/personal/statement/" +:+ account +:+ "/") = false) :
  ∃ s', handle r (WithStatement account txs NewServer, ∅) = Some (http_Error "no handler registered" 501, (s', ∅)) ∧
    errorf s' = [("GET", Path (rURL r))].
Proof.
  assert (Hl : lookup_route (WithStatement account txs NewServer) (rMethod r) (Path (rURL r)) = None).
  { unfold lookup_route. cbn [WithStatement HandlePrefix NewServer routes prefixRoutes]. rewrite lookup_empty.
    cbn. unfold serves. cbn [pr_prefix pr_method]. by rewrite Hother, andb_false_r. }
  unfold handle. cbn [WithStatement HandlePrefix NewServer closed] in *. rewrite Hl. eexists. split; [done|]. by rewrite Hget.
Qed.

(** Asking a responder over and over. *)
Fixpoint ask (n : nat) (f : Responder) (r : Request) (i : counters) : option (list answer * counters) :=
  match n with
  | O => Some ([], i)
  | S n => '(a, i) ← RespondHTTP f r i; '(l, i) ← ask n f r i; Some (a :: l, i)
  end.

Lemma int32_id z : -2147483648 <= z < 2147483648 → int32 z = z.
Proof. intros. unfold int32. rewrite Z.mod_small by lia. lia. Qed.

Lemma Sequence_step cell fs r i c f :
  default 0 (i !! cell) = c → 0 <= c < 2147483647 → fs !! Nat.min (Z.to_nat c) (length fs - 1) = Some f →
  RespondHTTP (SequenceFunc cell (ResponderFunc <$> fs)) r i = Some (f r, <[cell := c + 1]> i).
Proof.
  intros Hd Hc Hf. pose proof (lookup_lt_Some _ _ _ Hf). cbn [RespondHTTP].
  rewrite Hd, (int32_id (c + 1)), (int32_id (c + 1 - 1)), length_fmap by lia.
  set (idx := if Z.of_nat (length fs) <=? c + 1 - 1 then Z.of_nat (length fs) - 1 else c + 1 - 1).
  assert (Hi : 0 <= idx ∧ Z.to_nat idx = Nat.min (Z.to_nat c) (length fs - 1))
    by (unfold idx; destruct (Z.leb_spec (Z.of_nat (length fs)) (c + 1 - 1)); lia).
  clearbody idx. destruct Hi as [Hi0 ->]. rewrite (proj2 (Z.ltb_ge idx 0)) by lia.
  change (map RespondHTTP) with (fmap (M := list) RespondHTTP). by rewrite !list_lookup_fmap, Hf.
Qed.

(** A sequence plays its responders in order, each once, and then the last one for
    good, up to the range of its 32-bit counter. *)
Theorem Sequence_plays (fs : list (Request → answer)) (r : Request) (cell : Z) (n : nat)
    (Hfs : fs ≠ []) (Hn : Z.of_nat n < 2147483647) :
  ∃ l i, ask n (Sequence cell (ResponderFunc <$> fs)) r ∅ = Some (l, i) ∧ length l = n ∧
    ∀ k, (k < n)%nat → ∃ f, fs !! Nat.min k (length fs - 1) = Some f ∧ l !! k = Some (f r).
Proof.
  replace (Sequence cell (ResponderFunc <$> fs)) with (SequenceFunc cell (ResponderFunc <$> fs)) by (by destruct fs).
  assert (Hpos : (0 < length fs)%nat) by (destruct fs; [done|cbn; lia]).
  assert (∀ m (i : counters) c, default 0 (i !! cell) = Z.of_nat c → Z.of_nat (c + m) < 2147483647 →
    ∃ l i', ask m (SequenceFunc cell (ResponderFunc <$> fs)) r i = Some (l, i') ∧ length l = m ∧
      ∀ k, (k < m)%nat → ∃ f, fs !! Nat.min (c + k) (length fs - 1) = Some f ∧ l !! k = Some (f r)) as Hgen.
  { induction m as [|m IH]; intros i c Hc Hb; [exists [], i; split_and!; [done..|lia]|].
    destruct (lookup_lt_is_Some_2 fs (Nat.min c (length fs - 1)) ltac:(lia)) as [f Hf].
    destruct (IH (<[cell := Z.of_nat c + 1]> i) (S c)) as (l & i' & Ha & Hl & Hk); [rewrite lookup_insert_eq; cbn; lia|lia|].
    exists (f r :: l), i'. cbn [ask]. rewrite (Sequence_step cell fs r i (Z.of_nat c) f) by (done || lia || by rewrite Nat2Z.id).
    cbn. rewrite Ha. cbn. split_and!; [done|lia|]. intros [|k] Hlt; [exists f; by rewrite Nat.add_0_r|].
    destruct (Hk k ltac:(lia)) as (g & Hg & Hlk). exists g. by replace (c + S k)%nat with (S c + k)%nat by lia. }
  apply (Hgen n ∅ 0%nat); [by rewrite lookup_empty|lia].
Qed.

(** The signer stands for the bank: the key it serves is read by [ParsePubKey], and
    what it signs, whenever, is accepted by [VerifyWebhook] under that key. *)
Lemma signer_verifies `{TestCryptoLaws W} (w : W) (s : AcquiringWebhookSigner)
    (Hnew : (NewAcquiringWebhookSigner w).1 = Some s) :
  ∃ k, ParsePubKey (PubKeyField s) = Ok k ∧
    ∀ body sig w', (Signer_Sign s body w').1 = Some sig → VerifyWebhook (Some k) body sig = None.
Proof.
  unfold NewAcquiringWebhookSigner in Hnew. destruct (GenerateKey_P256 w) as [[k|] w1] eqn:Hg; [|done].
  destruct (MarshalPKIXPublicKey (test_PublicKey k)) as [der|] eqn:Hm; [|done]. injection Hnew as <-.
  exists (test_PublicKey k). split.
  - unfold ParsePubKey, PubKeyField. cbn [keyField]. rewrite (proj2 (Z.eqb_neq _ _)).
    + rewrite b64_Decode_Encode, (test_pem _ _ Hm), (test_pkix _ _ Hm).
      by rewrite (test_curve w k) by by rewrite Hg.
    + rewrite slen_b64. unfold pem_EncodeToMemory. rewrite slen_app. change (slen "-----BEGIN ") with 11.
      match goal with |- context [11 + slen ?t] => pose proof (slen_nonneg t); set (n := slen t) in *; clearbody n end.
      pose proof (Z.div_le_lower_bound (11 + n + 2) 3 1 ltac:(lia) ltac:(lia)). lia.
  - intros body sig w' Hsign. unfold Signer_Sign in Hsign. cbn [priv] in Hsign.
    destruct (test_SignASN1 k (sha256 body) w') as [[sg|] w2] eqn:Hs; [|done].
    injection Hsign as <-. unfold VerifyWebhook. rewrite b64_Decode_Encode.
    by rewrite (test_sign_verifies k (sha256 body) w' sg) by by rewrite Hs.
Qed.

(** A key pair for examples: one key, whose signature of a digest is the digest. *)
#[local] Instance toy_crypto : Crypto := {|
  PublicKey := unit; sha256 b := b; VerifyASN1 _ d s := String.eqb s d;
  pem_Decode _ := Some "K"; ParsePKIXPublicKey _ := Some (Some tt); key_Curve _ := P256 |}.
#[local] Instance toy_signing : TestCrypto unit := {|
  TestKey := unit; test_PublicKey := id; GenerateKey_P256 w := (Some tt, w);
  MarshalPKIXPublicKey _ := Some "K"; test_SignASN1 _ d w := (Some d, w) |}.

Lemma toy_signing_laws : TestCryptoLaws unit.
Proof.
  split; cbn; try done; try by intros ? ? [= <-].
  - intros _ d _ sig [= <-]. apply String.eqb_refl.
  - by intros [] ?.
Qed.

(** The order of registration does not matter between prefixes of different length,
    and does between registrations of one prefix. *)
Example routing_example :
  let s := set_up [SHandlePrefix "GET" "/personal/" (Status 1); SHandlePrefix "GET" "/personal/statement/" (Status 2);
                   SHandlePrefix "GET" "/personal/statement/" (Status 3); SHandle "GET" "/personal/x" (Status 4);
                   SHandle "GET" "/personal/x" (Status 5)] in
  (λ p, (λ x, a_status x.1) <$> (f ← lookup_route s "GET" p; RespondHTTP f (mkRequest "GET" (mkURL "" "" p "") ∅ BNil None 0) ∅))
    <$> ["/personal/statement/0"; "/personal/y"; "/personal/x"; "/bank"] = [Some 2; Some 1; Some 5; None].
Proof. by vm_compute. Qed.
