(* ===== verification/Interfaces.v ===== *)
(** * The interfaces of the clients (bank/api.go, personal/api.go, corporate/api.go, business/api.go, acquiring/api.go, openbanking/api.go, installment/api.go)

    Every package states the methods of its client as an interface, so that a
    program can be run against something else.  An interface is a record of
    operations over a world; [Client] of a package is an instance of it, which
    is what the compile-time assertion of each file says.  An iterator
    ([iter.Seq2]) is a computation that is given its consumer; the instances
    fix the fuel of their loops.

    An invariant of the world that every call of [Do] keeps is kept by every
    operation of an interface: that is how a fact about [Do] becomes one about
    whatever a program does with a client. *)
From S2P Require Import Prelude GoString Errors GoHttp Money Retry Client Options Endpoint Iter BankData Statement.
From S2P Require Import Business BusinessApi BusinessIter Keys CorpAuth Acquiring AcqApi OpenApi Corporate.
From S2P Require Import InstTypes Installment ObTypes OpenBanking.

(** [iter.Seq2[A, error]], given its [yield]. *)
Definition Seq2 (W A : Type) : Type := (result A → W → bool * W) → W → option W.

(** ** The interfaces *)

Record BankAPI (W : Type) := mkBankAPI {
  bk_Rates : W → result (list Rate) * W;
  bk_ServerKey : W → result SyncedKey * W
}.

Record PersonalAPI (W : Type) := mkPersonalAPI {
  ps_ClientInfo : W → result BankData.ClientInfo * W;
  ps_Transactions : string → Z → Z → W → result (list BankData.Transaction) * W;
  ps_TransactionsRange : string → Z → Z → W → option (result (list BankData.Transaction) * W);
  ps_TransactionsRangeIter : string → Z → Z → Seq2 W BankData.Transaction;
  ps_SetWebHook : string → W → option error * W
}.

Record CorporateAPI (W : Type) := mkCorporateAPI {
  cp_Auth : string → list string → W → result TokenRequest * W;
  cp_CheckAuth : string → W → option error * W;
  cp_Register : option RegistrationRequest → W → result RegistrationResponse * W;
  cp_RegistrationStatus : string → W → result RegistrationStatusResponse * W;
  cp_GetSettings : W → result Settings * W;
  cp_SetWebHook : string → W → option error * W;
  cp_ClientInfo : string → W → result BankData.ClientInfo * W;
  cp_Transactions : string → string → Z → Z → W → result (list BankData.Transaction) * W;
  cp_TransactionsRange : string → string → Z → Z → W → option (result (list BankData.Transaction) * W);
  cp_TransactionsRangeIter : string → string → Z → Z → Seq2 W BankData.Transaction;
  cp_SignatureCreate : option SignatureCreateRequest → W → result SignatureCreateResponse * W;
  cp_SignatureStatus : string → W → result SignatureStatusResponse * W;
  cp_SignatureCancel : string → W → option error * W
}.

Record BusinessAPI (W : Type) := mkBusinessAPI {
  bs_Accounts : W → result (list Business.Account) * W;
  bs_Account : string → W → result Business.Account * W;
  bs_AccountBalances : string → string → string → W → result (list BalancePoint) * W;
  bs_Contacts : Z → Z → W → result ContactsPage * W;
  bs_ContactsAll : Z → Seq2 W Contact;
  bs_SearchContacts : string → Z → Z → W → result ContactsPage * W;
  bs_SearchContactsAll : string → Z → Seq2 W Contact;
  bs_ContactByID : string → W → result Contact * W;
  bs_CreateContact : option CreateContactRequest → W → option error * W;
  bs_DeleteContact : string → W → option error * W;
  bs_DeleteContactsBatch : list string → W → option error * W;
  bs_Statement : string → Z → Z → string → Z → W → result (list StatementItem) * W;
  bs_Operation : string → string → W → result StatementItem * W;
  bs_PreparePayment : string → option PaymentRequest → W → result PaymentPrepared * W;
  bs_PaymentState : string → W → result PaymentState * W;
  bs_PaymentStateByReference : string → W → result PaymentState * W;
  bs_CreateSalaryRegistry : string → option CreateSalaryRegistryRequest → W → result SalaryRegistryCreated * W;
  bs_SalaryRegistryTypes : W → result (list SalaryRegistryType) * W;
  bs_SalaryRegistryStatus : string → W → result Business.SalaryRegistryStatus * W;
  bs_SubmitSalaryRegistryBatch :
    string → option SubmitSalaryRegistryBatchRequest → W → result SalaryRegistryBatchAccepted * W;
  bs_FinalizeSalaryRegistry : string → W → option error * W;
  bs_UploadPayslips : option BatchPayslipRequest → W → result BatchPayslipResponse * W;
  bs_DeletePayslips : option DeletePayslipsRequest → W → option error * W;
  bs_ImportStatus : string → W → result ImportStatusResponse * W;
  bs_DeleteImport : string → W → option error * W;
  bs_SendPayslipsToMobile : string → W → result SendResult * W;
  bs_PayslipPDF : string → string → W → result string * W
}.

Record AcquiringAPI (W : Type) := mkAcquiringAPI {
  aq_MerchantDetails : W → result MerchantDetails * W;
  aq_Employees : W → result (list Employee) * W;
  aq_PubKey : W → result Acquiring.ServerKey * W;
  aq_Submerchants : W → result (list Submerchant) * W;
  aq_Statement : Z → Z → string → W → result (list StatementInvoice) * W;
  aq_CreateInvoice : option CreateInvoiceRequest → W → result CreateInvoiceResponse * W;
  aq_InvoiceStatus : string → W → result InvoiceStatusResponse * W;
  aq_CancelInvoice : option CancelRequest → W → result CancelResponse * W;
  aq_FinalizeInvoice : option FinalizeRequest → W → result FinalizeResponse * W;
  aq_RemoveInvoice : string → W → option error * W;
  aq_FiscalChecks : string → W → result (list FiscalCheck) * W;
  aq_Receipt : string → string → W → result ReceiptResponse * W;
  aq_PaymentDirect : option PaymentDirectRequest → W → result PaymentDirectResponse * W;
  aq_SyncPayment : option SyncPaymentRequest → W → result InvoiceStatusResponse * W;
  aq_QRList : W → result (list QR) * W;
  aq_QRDetails : string → W → result QRDetails * W;
  aq_QRResetAmount : string → W → option error * W;
  aq_Wallet : string → W → result (list WalletCard) * W;
  aq_DeleteCard : string → W → option error * W;
  aq_WalletPayment : option WalletPaymentRequest → W → result PaymentDirectResponse * W;
  aq_SubscriptionCreate : option SubscriptionCreateRequest → W → result SubscriptionCreateResponse * W;
  aq_SubscriptionEdit : option SubscriptionEditRequest → W → option error * W;
  aq_SubscriptionRemove : string → W → option error * W;
  aq_SubscriptionStatus : string → W → result SubscriptionStatusResponse * W;
  aq_SubscriptionList : SubscriptionListOptions → W → result SubscriptionsListResponse * W;
  aq_SubscriptionPayments : SubscriptionPaymentsOptions → W → result SubscriptionPaymentsResponse * W;
  aq_MonoPayKeyImport : option MonoPayKeyImportRequest → W → result string * W;
  aq_MonoPayKeyDelete : string → W → option error * W;
  aq_MonoPayKeyList : W → result (list MonoPayKey) * W;
  aq_SplitReceivers : W → result (list SplitReceiver) * W;
  aq_Terminals : W → result (list Terminal) * W;
  aq_T2PPaymentStatus : string → W → result T2PPaymentStatusResponse * W;
  aq_POSTransactionCancel : option POSTransactionCancelRequest → W → option error * W
}.

Record OpenBankingAPI (W : Type) := mkOpenBankingAPI {
  ob_CreateConsent : option CreateConsentRequest → InitiationOptions → W → result CreateConsentResponse * W;
  ob_StartConsentAuthorisation : string → W → result StartAuthorisationResponse * W;
  ob_Consent : string → W → result Consent * W;
  ob_ConsentStatus : string → W → result ConsentStatusResponse * W;
  ob_RevokeConsent : string → W → option error * W;
  ob_Accounts : AccountsOptions → W → result (list AccountDetails) * W;
  ob_Balances : string → AccountOptions → W → result BalancesResponse * W;
  ob_Transactions : string → TransactionsOptions → W → result TransactionsResponse * W;
  ob_CreatePayment : string → option CreatePaymentRequest → InitiationOptions → W → result CreatePaymentResponse * W;
  ob_Payment : string → string → W → result Payment * W;
  ob_PaymentStatus : string → string → W → result PaymentStatusResponse * W;
  ob_CancelPayment : string → string → W → option error * W;
  ob_StartPaymentAuthorisation : string → string → AuthorisationOptions → W → result StartAuthorisationResponse * W;
  ob_PaymentAuthorisations : string → string → W → result (list string) * W;
  ob_PaymentAuthorisationStatus : string → string → string → W → result AuthorisationStatusResponse * W;
  ob_RequestTestCertificate : option CertificateRequest → W → result CertificateRequestResponse * W;
  ob_TestCertificateStatus : string → W → result CertificateStatusResponse * W
}.

Record InstallmentAPI (W : Type) := mkInstallmentAPI {
  in_CreateOrder : option CreateOrderRequest → W → outcome CreateOrderResponse * W;
  in_OrderState : string → W → outcome OrderStateInfo * W;
  in_ConfirmOrder : string → W → outcome OrderStateInfo * W;
  in_RejectOrder : string → W → outcome OrderStateInfo * W;
  in_ReturnOrder : option ReturnRequest → W → outcome ReturnResponse * W;
  in_OrderInfo : string → W → outcome OrderShortInfo * W;
  in_OrderData : string → W → outcome OrderShortInfo * W;
  in_CheckPaid : string → W → outcome CheckInstallmentsResponse * W;
  in_GuaranteeLetterPDF : option OrderDataRequest → W → outcome string * W;
  in_GuaranteeLetterData : option OrderDataRequest → W → outcome OrderData * W;
  in_GuaranteeLetterDataV2 : option OrderDataRequest → W → outcome OrderData * W;
  in_CreateQRCart : option CreateQRCartRequest → W → option failure * W;
  in_CancelQRCart : string → W → option failure * W;
  in_ValidateClient : string → W → outcome bool * W;
  in_ValidateClientLegacy : string → W → outcome ValidateClientResponse * W;
  in_DailyReport : string → W → outcome (list ReportOrder) * W
}.

(** ** The clients implement them *)

Section BankClient.
Context {W : Type} `{World W} `{NetLib} (c : Client W) (ua : string).
Context `{JSON (list Rate), JSON bankSyncResponse, KeyLib}.

Definition Client_BankAPI : BankAPI W := mkBankAPI W (OpenApi.Rates ua c) (OpenApi.ServerKey ua c).
End BankClient.

Section PersonalClient.
Context {W : Type} `{World W} `{NetLib} (c : Client W) (ua : string) (fuel drain_fuel : nat).
Context `{JSON BankData.ClientInfo, JSON (list BankData.Transaction), JSON webhookRequest}.

Definition Client_PersonalAPI : PersonalAPI W := mkPersonalAPI W
  (Personal_ClientInfo ua c) (Personal_Transactions ua c) (Personal_TransactionsRange ua c fuel drain_fuel)
  (λ account from to yield, Personal_TransactionsRangeIter ua c fuel drain_fuel account yield from to)
  (Personal_SetWebHook ua c).
End PersonalClient.

Section CorporateClient.
Context {W : Type} `{World W} `{Signing W} `{NetLib} (c : CorpClient W) (ua : string) (fuel drain_fuel : nat).
Context `{JSON TokenRequest, JSON RegistrationRequest, JSON RegistrationResponse, JSON RegistrationStatusRequest,
  JSON RegistrationStatusResponse, JSON Settings, JSON webhookRequest, JSON SignatureCreateRequest,
  JSON SignatureCreateResponse, JSON SignatureStatusResponse, JSON BankData.ClientInfo, JSON (list BankData.Transaction)}.

Definition Client_CorporateAPI : CorporateAPI W := mkCorporateAPI W
  (Auth c ua) (CheckAuth c ua) (Register c ua) (RegistrationStatus c ua) (GetSettings c ua) (Corporate_SetWebHook c ua)
  (Corporate_ClientInfo c ua) (Corporate_Transactions c ua) (Corporate_TransactionsRange c ua fuel drain_fuel)
  (λ id account from to yield, Corporate_TransactionsRangeIter c ua fuel drain_fuel id account yield from to)
  (SignatureCreate c ua) (SignatureStatus c ua) (SignatureCancel c ua).
End CorporateClient.

Section BusinessClient.
Context {W : Type} `{World W} `{NetLib} (c : Client W) (ua : string) (fuel : nat).
Context `{JSON (list Business.Account), JSON Business.Account, JSON (list BalancePoint), JSON ContactsPage, JSON Contact,
  JSON CreateContactRequest, JSON IDs, JSON PaymentRequest, JSON PaymentPrepared, JSON PaymentState,
  JSON CreateSalaryRegistryRequest, JSON SalaryRegistryCreated, JSON (list SalaryRegistryType),
  JSON Business.SalaryRegistryStatus, JSON SubmitSalaryRegistryBatchRequest, JSON SalaryRegistryBatchAccepted,
  JSON RegistryRef, JSON BatchPayslipRequest, JSON (resultWrapper BatchPayslipResponse), JSON DeletePayslipsRequest,
  JSON (resultWrapper ImportStatusResponse), JSON (resultWrapper SendResult), JSON (list StatementItem),
  JSON StatementItem}.

Definition Client_BusinessAPI : BusinessAPI W := mkBusinessAPI W
  (BusinessApi.Accounts c ua) (Account_ c ua) (AccountBalances c ua)
  (Contacts c ua) (λ pageSize yield, ContactsAll c ua fuel yield pageSize) (SearchContacts c ua)
  (λ query pageSize yield, SearchContactsAll c ua fuel yield query pageSize) (ContactByID c ua) (CreateContact c ua)
  (DeleteContact c ua) (DeleteContactsBatch c ua)
  (BusinessApi.Statement c ua) (Operation c ua)
  (PreparePayment c ua) (PaymentState_ c ua) (PaymentStateByReference c ua)
  (CreateSalaryRegistry c ua) (SalaryRegistryTypes c ua) (SalaryRegistryStatus_ c ua) (SubmitSalaryRegistryBatch c ua)
  (FinalizeSalaryRegistry c ua)
  (UploadPayslips c ua) (DeletePayslips c ua) (ImportStatus c ua) (DeleteImport c ua) (SendPayslipsToMobile c ua)
  (PayslipPDF c ua).
End BusinessClient.

Section AcquiringClient.
Context {W : Type} `{World W} `{NetLib} (c : Client W) (ua : string).
Context `{JSON CreateInvoiceRequest, JSON CreateInvoiceResponse, JSON InvoiceStatusResponse, JSON CancelRequest,
  JSON CancelResponse, JSON FinalizeRequest, JSON FinalizeResponse, JSON RemoveRequest, JSON FiscalChecksResponse,
  JSON ReceiptResponse, JSON PaymentDirectRequest, JSON PaymentDirectResponse, JSON SyncPaymentRequest,
  JSON MerchantDetails, JSON EmployeeList, JSON Acquiring.ServerKey, JSON SubmerchantList, JSON StatementResponse,
  JSON WalletResponse, JSON WalletPaymentRequest, JSON QRList, JSON QRDetails, JSON ResetAmountRequest,
  JSON POSTransactionCancelRequest, JSON MonoPayKeyImportRequest, JSON MonoPayKeyImportResponse,
  JSON MonoPayKeyDeleteRequest, JSON MonoPayKeyListResponse, JSON SplitReceiverListResponse,
  JSON TerminalListResponse, JSON T2PPaymentStatusResponse, JSON SubscriptionCreateRequest,
  JSON SubscriptionCreateResponse, JSON SubscriptionEditRequest, JSON SubscriptionRemoveRequest,
  JSON SubscriptionStatusResponse, JSON SubscriptionsListResponse, JSON SubscriptionPaymentsResponse}.

Definition Client_AcquiringAPI : AcquiringAPI W := mkAcquiringAPI W
  (MerchantDetails_ c ua) (Employees c ua) (PubKey c ua) (Submerchants c ua) (AcqApi.Statement c ua)
  (CreateInvoice c ua) (InvoiceStatus c ua) (CancelInvoice c ua) (FinalizeInvoice c ua) (RemoveInvoice c ua)
  (FiscalChecks c ua) (Receipt c ua) (PaymentDirect c ua) (SyncPayment c ua)
  (QRList_ c ua) (QRDetails_ c ua) (QRResetAmount c ua)
  (Wallet c ua) (DeleteCard c ua) (WalletPayment c ua)
  (SubscriptionCreate c ua) (SubscriptionEdit c ua) (SubscriptionRemove c ua) (SubscriptionStatus c ua)
  (SubscriptionList c ua) (SubscriptionPayments c ua)
  (MonoPayKeyImport c ua) (MonoPayKeyDelete c ua) (MonoPayKeyList c ua)
  (SplitReceivers c ua) (Terminals c ua) (T2PPaymentStatus c ua)
  (POSTransactionCancel c ua).
End AcquiringClient.

Section OpenBankingClient.
Context {W : Type} `{World W} `{NetLib} (c : Client W) (ua : string).
Context `{JSON CreateConsentRequest, JSON CreateConsentResponse, JSON StartAuthorisationResponse, JSON Consent,
  JSON ConsentStatusResponse, JSON AccountsResponse, JSON BalancesResponse, JSON TransactionsResponse,
  JSON CreatePaymentRequest, JSON CreatePaymentResponse, JSON Payment, JSON PaymentStatusResponse,
  JSON PaymentAuthorisationsResponse, JSON AuthorisationStatusResponse, JSON CertificateRequest,
  JSON CertificateRequestResponse, JSON CertificateStatusResponse, JSON csrLookup}.

Definition Client_OpenBankingAPI : OpenBankingAPI W := mkOpenBankingAPI W
  (CreateConsent c ua) (StartConsentAuthorisation c ua) (GetConsent c ua) (GetConsentStatus c ua) (RevokeConsent c ua)
  (OpenBanking.Accounts c ua) (Balances c ua) (OpenBanking.Transactions c ua)
  (CreatePayment c ua) (GetPayment c ua) (OpenBanking.PaymentStatus c ua) (CancelPayment c ua) (StartPaymentAuthorisation c ua)
  (PaymentAuthorisations c ua) (PaymentAuthorisationStatus c ua)
  (RequestTestCertificate c ua) (TestCertificateStatus c ua).
End OpenBankingClient.

Section InstallmentClient.
Context {W : Type} `{NetLib} `{InstCrypto} (json_APIError : string → InstAPIError → InstAPIError) (c : InstClient W).
Context `{JSON CreateOrderRequest, JSON CreateOrderResponse, JSON RequestWithOrderIdentifier, JSON OrderStateInfo,
  JSON ReturnRequest, JSON ReturnResponse, JSON OrderShortInfo, JSON CheckInstallmentsResponse, JSON OrderDataRequest,
  JSON OrderData, JSON CreateQRCartRequest, JSON CancelQRCartRequest, JSON DailyReportRequest,
  JSON DailyReportResponse, JSON ValidateClientRequest, JSON ValidateClientResponse, JSON ValidateClientSimpleResponse}.

Definition Client_InstallmentAPI : InstallmentAPI W := mkInstallmentAPI W
  (CreateOrder json_APIError c) (Inst_OrderState json_APIError c) (ConfirmOrder json_APIError c) (RejectOrder json_APIError c)
  (ReturnOrder json_APIError c) (OrderInfo json_APIError c) (Inst_OrderData json_APIError c) (CheckPaid json_APIError c)
  (GuaranteeLetterPDF json_APIError c) (GuaranteeLetterData json_APIError c) (GuaranteeLetterDataV2 json_APIError c)
  (CreateQRCart json_APIError c) (CancelQRCart json_APIError c)
  (ValidateClient json_APIError c) (ValidateClientLegacy json_APIError c)
  (DailyReport json_APIError c).
End InstallmentClient.

(** ** Invariants of an interface

    What holds of the world before an operation holds after it, for an operation
    that returns, for one whose loop may want more fuel, and for an iterator
    whose consumer keeps it; the consumer may call the interface again. *)

Section Kept.
Context {W : Type} (P : W → Prop).

Definition kept {A} (op : W → A * W) : Prop := ∀ w, P w → P (op w).2.
Definition kept_loop {A} (op : W → option (A * W)) : Prop := ∀ w r, P w → op w = Some r → P r.2.
Definition kept_iter {A} (it : Seq2 W A) : Prop :=
  ∀ yield, (∀ r, kept (yield r)) → ∀ w w', P w → it yield w = Some w' → P w'.

Record BankAPI_kept (a : BankAPI W) : Prop := {
  kept_bk_Rates : kept (bk_Rates W a);
  kept_bk_ServerKey : kept (bk_ServerKey W a)
}.

Record PersonalAPI_kept (a : PersonalAPI W) : Prop := {
  kept_ps_ClientInfo : kept (ps_ClientInfo W a);
  kept_ps_Transactions account from to : kept (ps_Transactions W a account from to);
  kept_ps_TransactionsRange account from to : kept_loop (ps_TransactionsRange W a account from to);
  kept_ps_TransactionsRangeIter account from to : kept_iter (ps_TransactionsRangeIter W a account from to);
  kept_ps_SetWebHook uri : kept (ps_SetWebHook W a uri)
}.

Record BusinessAPI_kept (a : BusinessAPI W) : Prop := {
  kept_bs_Accounts : kept (bs_Accounts W a);
  kept_bs_Account iban : kept (bs_Account W a iban);
  kept_bs_AccountBalances iban from to : kept (bs_AccountBalances W a iban from to);
  kept_bs_Contacts limit offset : kept (bs_Contacts W a limit offset);
  kept_bs_ContactsAll size : kept_iter (bs_ContactsAll W a size);
  kept_bs_SearchContacts query limit offset : kept (bs_SearchContacts W a query limit offset);
  kept_bs_SearchContactsAll query size : kept_iter (bs_SearchContactsAll W a query size);
  kept_bs_ContactByID id : kept (bs_ContactByID W a id);
  kept_bs_CreateContact x : kept (bs_CreateContact W a x);
  kept_bs_DeleteContact id : kept (bs_DeleteContact W a id);
  kept_bs_DeleteContactsBatch ids : kept (bs_DeleteContactsBatch W a ids);
  kept_bs_Statement account from to direction limit : kept (bs_Statement W a account from to direction limit);
  kept_bs_Operation id ref : kept (bs_Operation W a id ref);
  kept_bs_PreparePayment key x : kept (bs_PreparePayment W a key x);
  kept_bs_PaymentState id : kept (bs_PaymentState W a id);
  kept_bs_PaymentStateByReference ref : kept (bs_PaymentStateByReference W a ref);
  kept_bs_CreateSalaryRegistry key x : kept (bs_CreateSalaryRegistry W a key x);
  kept_bs_SalaryRegistryTypes : kept (bs_SalaryRegistryTypes W a);
  kept_bs_SalaryRegistryStatus id : kept (bs_SalaryRegistryStatus W a id);
  kept_bs_SubmitSalaryRegistryBatch key x : kept (bs_SubmitSalaryRegistryBatch W a key x);
  kept_bs_FinalizeSalaryRegistry ref : kept (bs_FinalizeSalaryRegistry W a ref);
  kept_bs_UploadPayslips x : kept (bs_UploadPayslips W a x);
  kept_bs_DeletePayslips x : kept (bs_DeletePayslips W a x);
  kept_bs_ImportStatus period : kept (bs_ImportStatus W a period);
  kept_bs_DeleteImport period : kept (bs_DeleteImport W a period);
  kept_bs_SendPayslipsToMobile period : kept (bs_SendPayslipsToMobile W a period);
  kept_bs_PayslipPDF ident period : kept (bs_PayslipPDF W a ident period)
}.

Record AcquiringAPI_kept (a : AcquiringAPI W) : Prop := {
  kept_aq_MerchantDetails : kept (aq_MerchantDetails W a);
  kept_aq_Employees : kept (aq_Employees W a);
  kept_aq_PubKey : kept (aq_PubKey W a);
  kept_aq_Submerchants : kept (aq_Submerchants W a);
  kept_aq_Statement from to code : kept (aq_Statement W a from to code);
  kept_aq_CreateInvoice x : kept (aq_CreateInvoice W a x);
  kept_aq_InvoiceStatus id : kept (aq_InvoiceStatus W a id);
  kept_aq_CancelInvoice x : kept (aq_CancelInvoice W a x);
  kept_aq_FinalizeInvoice x : kept (aq_FinalizeInvoice W a x);
  kept_aq_RemoveInvoice id : kept (aq_RemoveInvoice W a id);
  kept_aq_FiscalChecks id : kept (aq_FiscalChecks W a id);
  kept_aq_Receipt id email : kept (aq_Receipt W a id email);
  kept_aq_PaymentDirect x : kept (aq_PaymentDirect W a x);
  kept_aq_SyncPayment x : kept (aq_SyncPayment W a x);
  kept_aq_QRList : kept (aq_QRList W a);
  kept_aq_QRDetails id : kept (aq_QRDetails W a id);
  kept_aq_QRResetAmount id : kept (aq_QRResetAmount W a id);
  kept_aq_Wallet id : kept (aq_Wallet W a id);
  kept_aq_DeleteCard token : kept (aq_DeleteCard W a token);
  kept_aq_WalletPayment x : kept (aq_WalletPayment W a x);
  kept_aq_SubscriptionCreate x : kept (aq_SubscriptionCreate W a x);
  kept_aq_SubscriptionEdit x : kept (aq_SubscriptionEdit W a x);
  kept_aq_SubscriptionRemove id : kept (aq_SubscriptionRemove W a id);
  kept_aq_SubscriptionStatus id : kept (aq_SubscriptionStatus W a id);
  kept_aq_SubscriptionList opts : kept (aq_SubscriptionList W a opts);
  kept_aq_SubscriptionPayments opts : kept (aq_SubscriptionPayments W a opts);
  kept_aq_MonoPayKeyImport x : kept (aq_MonoPayKeyImport W a x);
  kept_aq_MonoPayKeyDelete id : kept (aq_MonoPayKeyDelete W a id);
  kept_aq_MonoPayKeyList : kept (aq_MonoPayKeyList W a);
  kept_aq_SplitReceivers : kept (aq_SplitReceivers W a);
  kept_aq_Terminals : kept (aq_Terminals W a);
  kept_aq_T2PPaymentStatus id : kept (aq_T2PPaymentStatus W a id);
  kept_aq_POSTransactionCancel x : kept (aq_POSTransactionCancel W a x)
}.
End Kept.

(** ** Lemmas *)

Lemma project_world {W A B} (f : A → B) (r : result A * W) : (project f r).2 = r.2.
Proof. by destruct r as [[] w]. Qed.

Lemma unwrap_world {W A} (r : result (resultWrapper A) * W) : (unwrap r).2 = r.2.
Proof. by destruct r as [[] w]. Qed.

(** *** Loops keep what their fetch and their consumer keep *)
Section Loops.
Context {W : Type} (P : W → Prop).

Lemma drain_chunk_kept yield seen chunk k w :
  (∀ tx, kept P (yield tx)) → P w → P (drain_chunk yield seen chunk k w).2.
Proof.
  intros Hy. revert k w. induction chunk as [|tx chunk IH]; intros k w Hw; [done|]. cbn [drain_chunk].
  case_bool_decide; [by apply IH|]. pose proof (Hy tx w Hw) as Hw1. destruct (yield tx w) as [[] w1]; [by apply IH|done].
Qed.

Lemma drain_loop_kept fuel (fetch : StatementFetcher W) yield from seen b to w s :
  (∀ f t, kept P (fetch f t)) → (∀ tx, kept P (yield tx)) → P w →
  drain_loop fuel fetch yield from seen b to w = Some s → P s.2.
Proof.
  intros Hf Hy. revert seen b to w. induction fuel as [|fuel IH]; intros seen b to w Hw; [done|]. cbn [drain_loop].
  pose proof (Hf from to w Hw) as Hw1. destruct (fetch from to w) as [[chunk|e] w1]; [|by intros [= <-]].
  destruct (last chunk) as [x|]; [|by intros [= <-]].
  pose proof (drain_chunk_kept yield seen chunk 0 w1 Hy Hw1) as Hw2.
  destruct (drain_chunk yield seen chunk 0 w1) as [[n|] w2]; [|by intros [= <-]].
  case_match; [by intros [= <-]|]. case_match; [by intros [= <-]|]. by apply IH.
Qed.

End Loops.

Lemma drain_loop_kept_pair {W B} (P : W → Prop) fuel (fetch : StatementFetcher (W * B)) yield from seen b to w s :
  (∀ f t, kept (λ x, P x.1) (fetch f t)) → (∀ tx, kept (λ x, P x.1) (yield tx)) → P w.1 →
  drain_loop fuel fetch yield from seen b to w = Some s → P s.2.1.
Proof. apply (drain_loop_kept (λ x : W * B, P x.1)). Qed.

Section Readers.
Context {W : Type} (P : W → Prop).

Lemma iter_loop_kept fuel drain_fuel ctx (fetch : StatementFetcher W) yield to cursor w w' :
  (∀ f t, kept P (fetch f t)) → (∀ r, kept P (yield r)) → P w →
  iter_loop fuel drain_fuel ctx fetch yield to cursor w = Some w' → P w'.
Proof.
  intros Hf Hy. revert cursor w. induction fuel as [|fuel IH]; intros cursor w Hw; [done|]. cbn [iter_loop].
  case_match; [by intros [= <-]|]. destruct (ctx w) as [e|]; [intros [= <-]; by apply Hy|]. cbv zeta.
  match goal with |- context [drain_loop drain_fuel fetch ?y cursor ∅ zero_time ?t w] => set (yl := y); set (e := t) end.
  destruct (drain_loop drain_fuel fetch yl cursor ∅ zero_time e w) as [[[more er] w1]|] eqn:Hd; [|done].
  pose proof (drain_loop_kept P drain_fuel fetch yl cursor ∅ zero_time e w _ Hf (λ tx, Hy (Ok tx)) Hw Hd) as Hw1. cbn in Hw1.
  destruct er as [er|]; [destruct more; intros [= <-]; by apply Hy|]. destruct more; [|by intros [= <-]].
  case_match; [by intros [= <-]|]. by apply IH.
Qed.

Lemma range_loop_kept fuel drain_fuel (fetch : StatementFetcher W) to cursor all w r :
  (∀ f t, kept P (fetch f t)) → P w → range_loop fuel drain_fuel fetch to cursor all w = Some r → P r.2.
Proof.
  intros Hf. revert cursor all w. induction fuel as [|fuel IH]; intros cursor all w Hw; [done|]. cbn [range_loop].
  case_match; [by intros [= <-]|]. cbv zeta.
  match goal with |- context [drain_loop drain_fuel ?f ?y cursor ∅ zero_time ?t _] => set (fetch' := f); set (yl := y); set (e := t) end.
  destruct (drain_loop drain_fuel fetch' yl cursor ∅ zero_time e (w, all)) as [[[more er] [w1 all1]]|] eqn:Hd; [|done].
  unshelve epose proof (drain_loop_kept_pair P drain_fuel fetch' yl cursor ∅ zero_time e (w, all) _ _ _ Hw Hd) as Hw1.
  { intros f t s0 Hs. unfold fetch'. specialize (Hf f t s0.1 Hs). by destruct (fetch f t s0.1). }
  { by intros tx s0 Hs. }
  cbn in Hw1. destruct er; [by intros [= <-]|]. case_match; [by intros [= <-]|]. by apply IH.
Qed.

Lemma yield_all_kept {A} (yield : A → W → bool * W) l : (∀ x, kept P (yield x)) → kept P (yield_all yield l).
Proof.
  intros Hy. induction l as [|x l IH]; intros w Hw; [done|]. cbn [yield_all].
  pose proof (Hy x w Hw) as Hw1. destruct (yield x w) as [[] w1]; [by apply IH|done].
Qed.

Lemma pages_loop_kept fuel ctx fetch yield offset w w' :
  (∀ o, kept P (fetch o)) → (∀ r, kept P (yield r)) → P w →
  pages_loop fuel ctx fetch yield offset w = Some w' → P w'.
Proof.
  intros Hf Hy. revert offset w. induction fuel as [|fuel IH]; intros offset w Hw; [done|]. cbn [pages_loop].
  destruct (ctx w) as [e|]; [intros [= <-]; by apply Hy|].
  pose proof (Hf offset w Hw) as Hw1. destruct (fetch offset w) as [[page|e] w1]; [|intros [= <-]; by apply Hy].
  pose proof (yield_all_kept (λ x, yield (Ok x)) (ContactsPage_Contacts page) (λ x, Hy (Ok x)) w1 Hw1) as Hw2.
  destruct (yield_all _ (ContactsPage_Contacts page) w1) as [more w2].
  case_match; [by intros [= <-]|]. case_match; [by intros [= <-]|]. by apply IH.
Qed.
End Readers.

(** *** Operations keep what [Do] keeps *)
Section Lift.
Context {W : Type} `{World W} `{NetLib} (P : W → Prop) (c : Client W) (ua : string).
Hypothesis Hdo : ∀ A r (v : target W A) exp, (∀ f, v ≠ TWriter f) → kept P (Do c ua (Some r) v exp).

Lemma call_kept {A} req (v : target W A) exp : (∀ f, v ≠ TWriter f) → kept P (Endpoint.call c ua req v exp).
Proof. intros Hv w Hw. destruct req; [by apply Hdo|done]. Qed.

Lemma get_json_kept `{JSON A} uri : kept P (get_json (A := A) c ua uri).
Proof. intros w Hw. unfold get_json. rewrite decoded_world. by apply call_kept. Qed.

Lemma send_json_kept `{JSON A, JSON B} m uri (x : A) hs : kept P (send_json (B := B) c ua m uri x hs).
Proof. intros w Hw. unfold send_json. rewrite decoded_world. by apply call_kept. Qed.

Lemma send_ack_kept `{JSON A} m uri (x : A) exp : kept P (send_ack c ua m uri x exp).
Proof. intros w Hw. unfold send_ack. rewrite ack_world. by apply call_kept. Qed.

Lemma get_ack_kept m uri exp : kept P (get_ack c ua m uri exp).
Proof. intros w Hw. unfold get_ack. rewrite ack_world. by apply call_kept. Qed.

(** An operation is refused, or one of the above behind what the package does with its answer. *)
Ltac keep_op :=
  intros w Hw; repeat case_match; simplify_eq; rewrite ?project_world, ?unwrap_world, ?decoded_world, ?ack_world; try done;
  first [by apply get_json_kept | by apply send_json_kept | by apply send_ack_kept | by apply get_ack_kept | by apply call_kept].

Lemma BankAPI_lift `{JSON (list Rate), JSON bankSyncResponse, KeyLib} : BankAPI_kept P (Client_BankAPI c ua).
Proof.
  split; cbn; [intros w Hw; by apply get_json_kept|]. intros w Hw. unfold OpenApi.ServerKey.
  pose proof (get_json_kept (A := bankSyncResponse) "/bank/sync" w Hw) as Hk. by destruct (get_json c ua "/bank/sync" w) as [[] ?].
Qed.

Lemma PersonalAPI_lift fuel drain_fuel `{JSON BankData.ClientInfo, JSON (list BankData.Transaction), JSON webhookRequest} :
  PersonalAPI_kept P (Client_PersonalAPI c ua fuel drain_fuel).
Proof.
  assert (∀ a f t, kept P (Personal_Transactions ua c a f t)) as Htx by (intros a f t; apply get_json_kept).
  split; cbn; unfold Personal_ClientInfo, Personal_SetWebHook; [by keep_op|done| | |intros uri; by keep_op].
  - intros a f t w r Hw. unfold Personal_TransactionsRange, TransactionsRange. case_match; [by intros [= <-]|].
    apply range_loop_kept; [apply Htx|done].
  - intros a f t yield Hy w w' Hw. unfold Personal_TransactionsRangeIter, TransactionsRangeIter. case_match; [by intros [= <-]|].
    apply iter_loop_kept; [apply Htx|done|done].
Qed.

Lemma BusinessAPI_lift fuel
  `{JSON (list Business.Account), JSON Business.Account, JSON (list BalancePoint), JSON ContactsPage, JSON Contact,
  JSON CreateContactRequest, JSON IDs, JSON PaymentRequest, JSON PaymentPrepared, JSON PaymentState,
  JSON CreateSalaryRegistryRequest, JSON SalaryRegistryCreated, JSON (list SalaryRegistryType),
  JSON Business.SalaryRegistryStatus, JSON SubmitSalaryRegistryBatchRequest, JSON SalaryRegistryBatchAccepted,
  JSON RegistryRef, JSON BatchPayslipRequest, JSON (resultWrapper BatchPayslipResponse), JSON DeletePayslipsRequest,
  JSON (resultWrapper ImportStatusResponse), JSON (resultWrapper SendResult), JSON (list StatementItem),
  JSON StatementItem} :
  BusinessAPI_kept P (Client_BusinessAPI c ua fuel).
Proof.
  split; cbn; intros; unfold BusinessApi.Accounts, Account_, AccountBalances, Contacts, SearchContacts, ContactByID, CreateContact,
    DeleteContact, DeleteContactsBatch, BusinessApi.Statement, Operation, PreparePayment, PaymentState_, PaymentStateByReference,
    CreateSalaryRegistry, SalaryRegistryTypes, SalaryRegistryStatus_, SubmitSalaryRegistryBatch, FinalizeSalaryRegistry,
    UploadPayslips, DeletePayslips, ImportStatus, DeleteImport, SendPayslipsToMobile, ContactsAll, SearchContactsAll;
    try by keep_op.
  - intros yield Hy w w' Hw. apply pages_loop_kept; [intros o; apply get_json_kept|done|done].
  - intros yield Hy w w' Hw. apply pages_loop_kept; [intros o; apply get_json_kept|done|done].
  - intros w Hw. unfold PayslipPDF.
    match goal with |- context [Endpoint.call c ua ?r ?v ?e w] =>
      pose proof (call_kept r v e ltac:(done) w Hw) as Hk; destruct (Endpoint.call c ua r v e w) as [[[]|] ?] end; done.
Qed.

Lemma AcquiringAPI_lift
  `{JSON CreateInvoiceRequest, JSON CreateInvoiceResponse, JSON InvoiceStatusResponse, JSON CancelRequest,
  JSON CancelResponse, JSON FinalizeRequest, JSON FinalizeResponse, JSON RemoveRequest, JSON FiscalChecksResponse,
  JSON ReceiptResponse, JSON PaymentDirectRequest, JSON PaymentDirectResponse, JSON SyncPaymentRequest,
  JSON MerchantDetails, JSON EmployeeList, JSON Acquiring.ServerKey, JSON SubmerchantList, JSON StatementResponse,
  JSON WalletResponse, JSON WalletPaymentRequest, JSON QRList, JSON QRDetails, JSON ResetAmountRequest,
  JSON POSTransactionCancelRequest, JSON MonoPayKeyImportRequest, JSON MonoPayKeyImportResponse,
  JSON MonoPayKeyDeleteRequest, JSON MonoPayKeyListResponse, JSON SplitReceiverListResponse,
  JSON TerminalListResponse, JSON T2PPaymentStatusResponse, JSON SubscriptionCreateRequest,
  JSON SubscriptionCreateResponse, JSON SubscriptionEditRequest, JSON SubscriptionRemoveRequest,
  JSON SubscriptionStatusResponse, JSON SubscriptionsListResponse, JSON SubscriptionPaymentsResponse} :
  AcquiringAPI_kept P (Client_AcquiringAPI c ua).
Proof.
  split; cbn; intros; unfold MerchantDetails_, Employees, PubKey, Submerchants, AcqApi.Statement, CreateInvoice, InvoiceStatus,
    CancelInvoice, FinalizeInvoice, RemoveInvoice, FiscalChecks, Receipt, PaymentDirect, SyncPayment, QRList_, QRDetails_,
    QRResetAmount, Wallet, DeleteCard, WalletPayment, SubscriptionCreate, SubscriptionEdit, SubscriptionRemove,
    SubscriptionStatus, SubscriptionList, SubscriptionPayments, MonoPayKeyImport, MonoPayKeyDelete, MonoPayKeyList,
    SplitReceivers, Terminals, T2PPaymentStatus, POSTransactionCancel, post_opt, with_id, with_id_ack; by keep_op.
Qed.

End Lift.

Section CorporateLift.
Context {W : Type} `{World W} `{SigningLaws W} `{NetLib} (c : CorpClient W) (ua : string).

(** An environment that keeps [P] while what it is handed satisfies [Q]. *)
Definition corp_env (P : W → Prop) (Q : Request → Prop) : Prop :=
  (∀ A (v : target W A), (∀ f, v ≠ TWriter f) → Guarded P Q (cc_c c) v) ∧
  (∀ k d w, P w → P (SignASN1 k d w).2) ∧
  (∀ f q w, c_auth (cc_c c) = Some f → P w → P (f q w).2).

(** Every request of an operation is signed by [a] for one of [uris]: what an
    environment keeps as long as it sees only such requests, the operation
    keeps. *)
Definition signs {A} (a : Corp) (uris : string → Prop) (op : W → A * W) : Prop :=
  ∀ P, corp_env P (signed_at a uris) → kept P op.
Definition signs_loop {A} (a : Corp) (uris : string → Prop) (op : W → option (A * W)) : Prop :=
  ∀ P, corp_env P (signed_at a uris) → kept_loop P op.
Definition signs_iter {A} (a : Corp) (uris : string → Prop) (it : Seq2 W A) : Prop :=
  ∀ P, corp_env P (signed_at a uris) → kept_iter P it.

(** The actor and the endpoint of every operation. *)
Record CorporateAPI_signs (m : CorpAuthMaker) (a : CorporateAPI W) : Prop := {
  signs_Auth callback perms :
    signs (mkCorp m "" (String.concat "" perms)) (eq "/personal/auth/request") (cp_Auth W a callback perms);
  signs_CheckAuth id : signs (mkCorp m id "") (eq "/personal/auth/request") (cp_CheckAuth W a id);
  signs_Register x : signs (mkCorp m "" "") (eq "/personal/auth/registration") (cp_Register W a x);
  signs_RegistrationStatus pem :
    signs (mkCorp m "" "") (eq "/personal/auth/registration/status") (cp_RegistrationStatus W a pem);
  signs_GetSettings : signs (mkCorp m "" "") (eq "/personal/corp/settings") (cp_GetSettings W a);
  signs_SetWebHook uri : signs (mkCorp m "" "") (eq "/personal/corp/webhook") (cp_SetWebHook W a uri);
  signs_ClientInfo id : signs (mkCorp m id "") (eq "/personal/client-info") (cp_ClientInfo W a id);
  signs_Transactions id account from to :
    signs (mkCorp m id "") (eq (OpenApi.Transactions_uri account from to)) (cp_Transactions W a id account from to);
  signs_TransactionsRange id account from to :
    signs_loop (mkCorp m id "") (λ uri, ∃ f t, uri = OpenApi.Transactions_uri account f t)
      (cp_TransactionsRange W a id account from to);
  signs_TransactionsRangeIter id account from to :
    signs_iter (mkCorp m id "") (λ uri, ∃ f t, uri = OpenApi.Transactions_uri account f t)
      (cp_TransactionsRangeIter W a id account from to);
  signs_SignatureCreate x : signs (mkCorp m "" "") (eq "/personal/signature/create") (cp_SignatureCreate W a x);
  signs_SignatureStatus id :
    signs (mkCorp m "" "") (eq (Signature_uri "/personal/signature/status" id)) (cp_SignatureStatus W a id);
  signs_SignatureCancel id :
    signs (mkCorp m "" "") (eq (Signature_uri "/personal/signature/cancel" id)) (cp_SignatureCancel W a id)
}.

Hypothesis Hkeep : keeps_signature (cc_c c).

Lemma via_kept {A} (P : W → Prop) a (uris : string → Prop) uri req (v : target W A) :
  corp_env P (signed_at a uris) → (∀ f, v ≠ TWriter f) → uris uri →
  (∀ r, req = Ok r → url_Parse uri = Some (rURL r)) → kept P (via c ua req a v).
Proof. intros (Hg & Hs & Ha) Hv Hu Hr w Hw. by eapply via_signed. Qed.

Lemma set_Header_url k v (req : result Request) uri :
  (∀ r, req = Ok r → url_Parse uri = Some (rURL r)) → ∀ r, set_Header k v <$> req = Ok r → url_Parse uri = Some (rURL r).
Proof. intros Hr r. destruct req as [r0|]; [|done]. intros [= <-]. exact (Hr r0 eq_refl). Qed.

Context `{JSON TokenRequest, JSON RegistrationRequest, JSON RegistrationResponse, JSON RegistrationStatusRequest,
  JSON RegistrationStatusResponse, JSON Settings, JSON webhookRequest, JSON SignatureCreateRequest,
  JSON SignatureCreateResponse, JSON SignatureStatusResponse, JSON BankData.ClientInfo, JSON (list BankData.Transaction)}.

Lemma Transactions_kept P id account f t (uris : string → Prop) :
  corp_env P (signed_at (mkCorp (cc_authMaker c) id "") uris) → uris (OpenApi.Transactions_uri account f t) →
  kept P (Corporate_Transactions c ua id account f t).
Proof.
  intros He Hu w Hw. unfold Corporate_Transactions. rewrite decoded_world.
  eapply (via_kept P _ _ _ _ _ He); [done|exact Hu|apply NewRequest_url|done].
Qed.

Lemma CorporateAPI_lift fuel drain_fuel :
  CorporateAPI_signs (cc_authMaker c) (Client_CorporateAPI c ua fuel drain_fuel).
Proof.
  split; cbn; intros; intros P He; unfold Auth, CheckAuth, Register, RegistrationStatus, GetSettings,
    Corporate_SetWebHook, SignatureCreate, SignatureStatus, SignatureCancel, Corporate_ClientInfo;
    try by (intros w Hw; repeat case_match; try done; rewrite ?decoded_world, ?ack_world;
            eapply (via_kept P _ _ _ _ _ He); [done|reflexivity| |done]; try apply set_Header_url;
            first [apply NewRequest_url | apply NewJSONRequest_url]).
  - by apply (Transactions_kept P _ _ _ _ _ He).
  - intros w r Hw. unfold Corporate_TransactionsRange, TransactionsRange. case_match; [by intros [= <-]|].
    apply range_loop_kept; [|done]. intros f t. apply (Transactions_kept P id account f t _ He). by exists f, t.
  - intros yield Hy w w' Hw. unfold Corporate_TransactionsRangeIter, TransactionsRangeIter. case_match; [by intros [= <-]|].
    apply iter_loop_kept; [|done|done]. intros f t. apply (Transactions_kept P id account f t _ He). by exists f, t.
Qed.
End CorporateLift.

(** *** The token of a client *)
Section Token.
Context {W : Type} `{World W} `{NetLib}.

Definition carries_token (token : string) (q : Request) : Prop := Header_Get (rHeader q) "X-Token" = token.

Lemma Do_token {A} (P : W → Prop) (c : Client W) ua token a r (v : target W A) exp :
  c_auth c = Some a → (∀ q w, (a q w).2 = w ∧ carries_token token (a q w).1.2) → Guarded P (carries_token token) c v →
  kept P (Do c ua (Some r) v exp).
Proof.
  intros Ha Htok Hg w Hw. apply (Do_guarded P (carries_token token) c ua r v exp w Hg Hw).
  - intros a' q w1. rewrite Ha. intros [= <-] Hw1. by rewrite (proj1 (Htok q w1)).
  - intros u q. rewrite Ha. intros Hb. unfold carries_token. destruct (buffer_body_frame _ _ Hb) as [_ ->]. apply Htok.
Qed.

Lemma business_token token q (w : W) :
  (BusinessApi.TokenAuth_SetAuth token q w).2 = w ∧ carries_token token (BusinessApi.TokenAuth_SetAuth token q w).1.2.
Proof.
  split; [done|]. unfold BusinessApi.TokenAuth_SetAuth, carries_token. cbv zeta. cbn [fst snd].
  case_match; [rewrite set_Header_other by done|]; apply set_Header_same.
Qed.

Lemma acquiring_token token q (w : W) :
  (AcqApi.TokenAuth_SetAuth token q w).2 = w ∧ carries_token token (AcqApi.TokenAuth_SetAuth token q w).1.2.
Proof.
  split; [done|]. unfold AcqApi.TokenAuth_SetAuth, carries_token. cbv zeta. cbn [fst snd].
  repeat case_match; rewrite ?set_Header_other by done; apply set_Header_same.
Qed.
End Token.

(** ** Properties *)

Section Operations.
Context {W : Type} `{World W} `{NetLib} (P : W → Prop) (http : HTTPDoer W) (token ua : string)
  (opts : list (Client W → Client W)) (fuel drain_fuel : nat).
Context `{JSON BankData.ClientInfo, JSON (list BankData.Transaction), JSON webhookRequest}.
Context `{JSON (list Business.Account), JSON Business.Account, JSON (list BalancePoint), JSON ContactsPage, JSON Contact,
  JSON CreateContactRequest, JSON IDs, JSON PaymentRequest, JSON PaymentPrepared, JSON PaymentState,
  JSON CreateSalaryRegistryRequest, JSON SalaryRegistryCreated, JSON (list SalaryRegistryType),
  JSON Business.SalaryRegistryStatus, JSON SubmitSalaryRegistryBatchRequest, JSON SalaryRegistryBatchAccepted,
  JSON RegistryRef, JSON BatchPayslipRequest, JSON (resultWrapper BatchPayslipResponse), JSON DeletePayslipsRequest,
  JSON (resultWrapper ImportStatusResponse), JSON (resultWrapper SendResult), JSON (list StatementItem),
  JSON StatementItem}.
Context `{JSON CreateInvoiceRequest, JSON CreateInvoiceResponse, JSON InvoiceStatusResponse, JSON CancelRequest,
  JSON CancelResponse, JSON FinalizeRequest, JSON FinalizeResponse, JSON RemoveRequest, JSON FiscalChecksResponse,
  JSON ReceiptResponse, JSON PaymentDirectRequest, JSON PaymentDirectResponse, JSON SyncPaymentRequest,
  JSON MerchantDetails, JSON EmployeeList, JSON Acquiring.ServerKey, JSON SubmerchantList, JSON StatementResponse,
  JSON WalletResponse, JSON WalletPaymentRequest, JSON QRList, JSON QRDetails, JSON ResetAmountRequest,
  JSON POSTransactionCancelRequest, JSON MonoPayKeyImportRequest, JSON MonoPayKeyImportResponse,
  JSON MonoPayKeyDeleteRequest, JSON MonoPayKeyListResponse, JSON SplitReceiverListResponse,
  JSON TerminalListResponse, JSON T2PPaymentStatusResponse, JSON SubscriptionCreateRequest,
  JSON SubscriptionCreateResponse, JSON SubscriptionEditRequest, JSON SubscriptionRemoveRequest,
  JSON SubscriptionStatusResponse, JSON SubscriptionsListResponse, JSON SubscriptionPaymentsResponse}.

(** What the environment of a client keeps of [P] when the requests handed to the
    transport satisfy [Q]. *)
Definition safe (Q : Request → Prop) (c : Client W) : Prop :=
  ∀ A (v : target W A), (∀ f, v ≠ TWriter f) → Guarded P Q c v.

(** C6: nothing a program does with an interface leaves without the token. Whatever
    operations of a personal, business or acquiring client are called, in whatever
    order, iterators and their re-entrant consumers included, every request handed
    to the transport, on every attempt, carries the token the client was made with,
    when no option replaces the authorizer and the request hook leaves X-Token
    alone; and an empty token of a personal client means that nothing is sent. *)
Theorem operations_carry_token (Hopts : Forall keeps_auth opts) :
  (safe (λ q, token ≠ "" ∧ carries_token token q) (Personal_New http token opts) →
   PersonalAPI_kept P (Client_PersonalAPI (Personal_New http token opts) ua fuel drain_fuel)) ∧
  (safe (carries_token token) (BusinessApi.New http token opts) →
   BusinessAPI_kept P (Client_BusinessAPI (BusinessApi.New http token opts) ua fuel)) ∧
  (safe (carries_token token) (AcqApi.New http token opts) →
   AcquiringAPI_kept P (Client_AcquiringAPI (AcqApi.New http token opts) ua)).
Proof.
  split_and!; intros Hs; [apply PersonalAPI_lift|apply BusinessAPI_lift|apply AcquiringAPI_lift]; intros A r v exp Hv.
  - intros w. by apply (proj1 (personal_authenticated P http token opts ua r v exp w Hopts)), Hs.
  - apply (Do_token P _ ua token (BusinessApi.TokenAuth_SetAuth token)); [|apply business_token|by apply Hs].
    exact (apply_keeps_auth opts (WithAuth (Some (BusinessApi.TokenAuth_SetAuth token)) _) Hopts).
  - apply (Do_token P _ ua token (AcqApi.TokenAuth_SetAuth token)); [|apply acquiring_token|by apply Hs].
    exact (apply_keeps_auth opts (WithAuth (Some (AcqApi.TokenAuth_SetAuth token)) _) Hopts).
Qed.
End Operations.

(** The recording network keeps a property of requests that a replayed body keeps. *)
Lemma net_safe (Q : Request → Prop) (c : Client Net) :
  c_http c = OtherDoer net_send → c_limiter c = None → c_onReq c = None → c_onResp c = None → c_logger c = None →
  (∀ req d, Q req → Q (set_Body (BReader d None) req)) → safe (λ w, Forall Q (n_seen w)) Q c.
Proof.
  intros Hh Hl Hq Hr Hg Hb A v Hv. split; intros; simplify_eq/=; try done; try congruence; [|by apply Hb|by destruct (Hv f)].
  rewrite Hh. cbn. unfold net_send. case_match; cbn; apply Forall_app_2; try done; by apply Forall_singleton.
Qed.

(** A business client whose first two answers are a bad gateway and a list of
    accounts: both requests of [Accounts] carry the token. *)
Ltac toy :=
  match goal with
  | |- JSON _ => refine {| json_Marshal _ := Ok "{}"; json_Decode _ _ := Ok _; json_zero := _ |}
  end.
Ltac value := repeat first [exact 0 | exact "" | exact false | exact (@nil _) | exact None | exact ∅ | exact GoFloat.f_zero | constructor].

Lemma operations_carry_token_witness :
  let c := BusinessApi.New (H0 := net_netlib) (OtherDoer net_send) "t0" [WithRetry 2 1 1] in
  ∃ a : BusinessAPI Net, BusinessAPI_kept (λ w, Forall (carries_token "t0") (n_seen w)) a ∧
    let w' := (bs_Accounts Net a (mkNet [bad_gateway; ok_200 "[]"] [] 0)).2 in
    length (n_seen w') = 2%nat ∧ Forall (carries_token "t0") (n_seen w').
Proof.
  intros c. unshelve (epose proof (operations_carry_token (H0 := net_netlib) (λ w, Forall (carries_token "t0") (n_seen w))
    (OtherDoer net_send) "t0" "sdk" [WithRetry 2 1 1] 5 5 _) as (_ & Hb & _)); try (toy; value).
  - constructor; [|constructor]. intros c0. unfold WithRetry. by case_match.
  - specialize (Hb ltac:(by apply net_safe)).
    eexists. split; [exact Hb|]. cbv zeta. split; [by vm_compute|].
    apply (kept_bs_Accounts _ _ Hb). by apply Forall_nil.
Defined.

(** C5: no corporate request leaves unsigned. Every request an operation of the
    corporate client hands to the transport, on every attempt, ranges and iterators
    included, is signed by the client's key for that operation's own actor (the
    request id it was given, the permissions asked for, or nobody) and for the path
    of that operation's own endpoint: it names the key, names the actor in its
    header, and its X-Sign is one the bank's check accepts for X-Time, that actor and
    that path. So whatever the environment keeps as long as it is handed only such
    requests, the operation keeps; a request that cannot be signed is not sent. The
    base client's authorizer and the request hook leave the five headers alone. *)
Theorem corporate_operations_signed {W} `{World W} `{SigningLaws W} `{NetLib}
  `{JSON TokenRequest, JSON RegistrationRequest, JSON RegistrationResponse, JSON RegistrationStatusRequest,
  JSON RegistrationStatusResponse, JSON Settings, JSON webhookRequest, JSON SignatureCreateRequest,
  JSON SignatureCreateResponse, JSON SignatureStatusResponse, JSON BankData.ClientInfo, JSON (list BankData.Transaction)}
  (c : CorpClient W) (ua : string) (fuel drain_fuel : nat) (Hkeeps : keeps_signature (cc_c c)) :
  CorporateAPI_signs c (cc_authMaker c) (Client_CorporateAPI c ua fuel drain_fuel).
Proof. by apply CorporateAPI_lift. Qed.

#[local] Existing Instances Corporate.corp_crypto Corporate.corp_signing Corporate.corp_signing_laws.

(** A consent that is asked for twice because of a bad gateway. *)
Lemma corporate_operations_signed_witness :
  let Q := signed_at (H0 := corp_signing) (H1 := net_netlib) (mkCorp corp_maker "req-1" "") (eq "/personal/auth/request") in
  ∃ a : CorporateAPI Net,
    let w' := (cp_CheckAuth Net a "req-1" (mkNet [bad_gateway; ok_200 ""] [] 0)).2 in
    length (n_seen w') = 2%nat ∧ Forall Q (n_seen w').
Proof.
  intros Q. unshelve (epose proof (corporate_operations_signed (H3 := net_netlib) corp_example "sdk" 5 5 _) as Hc); try (toy; value).
  - by intros a q w0 k [= <-].
  - eexists. cbv zeta. split; [shelve|].
    apply (signs_CheckAuth _ _ _ Hc "req-1" (λ w, Forall Q (n_seen w))); [|by apply Forall_nil].
    split; [|split; [done|by intros a q w0 [= <-]]]. by apply net_safe.
    Unshelve. by vm_compute.
Defined.
