(* ===== verification/EndToEnd.v ===== *)
(** * From the signer to the callback

    The acquiring client, its options, the transport, the fake bank, the key
    parser, the signer and the webhook handler put together: a handler that fetches
    its key over a client of the fake bank delivers what the signer signs. And the
    handler on its own: an authentic new webhook is delivered, also when the cached
    key is stale. *)
From S2P Require Import Prelude GoString GoText Errors GoHttp Base64 FakeServer Dedup Signature KeyCache Acquiring.
From S2P Require Import Webhook Retry Client Options Endpoint AcqApi.

(** ** Delivery of an authentic webhook *)

Section Delivers.
Context {W D : Type} `{World W} `{DeduperLaws D} `{Crypto} `{WebhookLib}.

(** Once the signature is accepted, a new state runs the callback once. *)
Lemma acq_delivers (ev : W → list InvoiceStatusResponse) (h : WebhookHandler W D) r w g key c w1 inv :
  AcqObserves ev h → opt_wf (whDedup h) → iMethod r = "POST" → iBodyErr r = None → slen (iBody r) <= whMaxBodyBytes h →
  currentKey (whCache h) = Some (g, key) → acq_verify h g key (iBody r) (iSign r) w = (None, c, w1) →
  ParseWebhook (iBody r) = Ok inv → DedupKey (Some inv) ∉ known_of (whDedup h) →
  let '(rep, h', w') := acq_ServeHTTP h r w in
  ev w' = ev w ++ [inv] ∧ whCache h' = c ∧
  called (whOnEvent h) (DedupKey (Some inv)) inv (known_of (whDedup h)) (bool_decide (is_Some (whDedup h))) rep (whDedup h').
Proof.
  intros Hob Hwf Hm Hbe Hlen Hk Hv Hp Hnew. unfold acq_ServeHTTP.
  assert (intake (whMaxBodyBytes h) r = inr (iBody r)) as ->.
  { unfold intake, read_limited. rewrite Hm, Hbe. cbn. by rewrite (proj2 (Z.ltb_ge _ _)). }
  rewrite Hk, Hv, Hp. cbv zeta. cbn [whOnEvent whDedup whCache acq_set_state].
  pose proof (acq_verify_frame ev _ _ _ _ _ _ _ _ _ Hob Hk Hv) as Hev.
  destruct (deliver _ _ false _ inv (whDedup h) w1) as [[rep d] w2] eqn:Hd.
  destruct (deliver_spec ev (whOnEvent h) (acq_reportError (acq_set_state h c (whDedup h))) false
              (λ e w, acq_reportError_frame ev h e w Hob) (ao_event _ _ Hob) _ _ _ _ _ _ _ Hwf Hd) as [_ [(? & _)|(_ & He & Hc)]]; [done|].
  split; [by rewrite He, Hev|done].
Qed.

Lemma acq_verify_cached (h : WebhookHandler W D) g key body sign w :
  whMaxAge h <= 0 → VerifyWebhook (Some key) body sign = None → acq_verify h g key body sign w = (None, whCache h, w).
Proof. intros Hage Hv. unfold acq_verify. rewrite Hv. cbn. by rewrite (proj2 (Z.ltb_ge _ _)). Qed.

(** The cache keeps its generations apart. *)
Definition cache_wf {K} (c : KeyCache K) : Prop := ∀ g k, kc_key c = Some (g, k) → (g < kc_gen c)%nat.

(** The freshness check under a key that accepts the body: it fails only when the
    payload is stale at the clock it leaves. *)
Lemma VerifyWebhookFresh_signed pub body sign maxAge w (clk : W → Z) :
  VerifyWebhook (Some pub) body sign = None → (∀ w, (now w).1 = clk (now w).2) → 0 < maxAge →
  let '(e, w') := VerifyWebhookFresh (Some pub) body sign maxAge w in
  fresh_at maxAge body (clk w') → e = None.
Proof.
  intros Hv Hnow Hage. unfold VerifyWebhookFresh, fresh_at. rewrite Hv.
  destruct (json_modifiedDate body) as [md|]; [|by intros (? & ? & ? & _)].
  destruct (parseModifiedDate md) as [t|] eqn:Ht; [|intros (md' & t & [= <-] & Ht' & _); congruence].
  rewrite (proj2 (Z.ltb_lt 0 maxAge) Hage). specialize (Hnow w). destruct (now w) as [n w1]. simpl in Hnow. subst n.
  destruct (Z.ltb_spec maxAge (time_Sub (clk w1) t)); [|done].
  intros (md' & t' & [= <-] & Ht' & Hs). rewrite Ht in Ht'. simplify_eq. lia.
Qed.

(** What [verify] does with a stale key: it settles on the key served now. *)
Lemma acq_verify_rotated (h : WebhookHandler W D) body sign w g old pub (clk : W → Z)
    (Hcache : cache_wf (whCache h)) (Hkey : currentKey (whCache h) = Some (g, old))
    (Hold : VerifyWebhook (Some old) body sign = Some (ENew AcqErrBadSignature))
    (Hnow : ∀ w, (now w).1 = clk (now w).2 ∧ clk w <= clk (now w).2)
    (Hidle : minRefreshInterval <= clk w - lastRefreshAt (whCache h))
    (Hserved : ∀ w', clk w <= clk w' → (acq_fetch (whKeys h) w').1 = Ok pub)
    (Hsigned : VerifyWebhook (Some pub) body sign = None) :
  ∃ c w1 g', currentKey c = Some (g', pub) ∧
    acq_verify h g old body sign w = acq_settle h body sign (None, pub, c) w1.
Proof.
  unfold acq_verify, acq_refreshCoalesced, refreshCoalesced. rewrite Hold. cbn [errors_Is]. rewrite String.eqb_refl. cbv zeta.
  assert (Hthrottle : ∀ t, minRefreshInterval <= t - lastRefreshAt (whCache h) → (time_Sub t (lastRefreshAt (whCache h)) <? minRefreshInterval) = false).
  { intros t Ht. apply Z.ltb_ge. unfold time_Sub, minRefreshInterval in *. lia64. }
  pose proof (Hnow w) as [Hn1 Hn2]. destruct (now w) as [t1 w1]. cbn in Hn1, Hn2. rewrite Hthrottle by lia.
  pose proof (Hnow w1) as [Hn3 Hn4]. destruct (now w1) as [t2 w2]. cbn in Hn3, Hn4. rewrite Hthrottle by lia.
  unfold refresh. pose proof (Hserved w2 ltac:(lia)) as Hf. destruct (acq_fetch (whKeys h) w2) as [rk w3]. cbn in Hf. subst rk.
  destruct (now w3) as [t4 w4]. cbn [currentKey kc_key].
  rewrite (proj2 (Nat.eqb_neq _ _)) by (pose proof (Hcache _ _ Hkey); lia). rewrite Hsigned.
  eexists _, w4, _. split; [|done]. done.
Qed.

(** C11: a rotated key does not cost a webhook. Whatever key the handler holds, a new
    state signed by the key the bank serves now is delivered, at once, when the
    last refetch is half a minute old: the handler fetches the key, verifies with
    it, runs the callback once, and from then on holds that key. With [MaxAge] set
    this is so for a state whose date is still within it when the call ends. The
    clock does not go back, and the key provider answers from the call on. *)
Theorem acq_rotation_recovers (ev : W → list InvoiceStatusResponse) (h : WebhookHandler W D) r w g old pub inv
    (Hob : AcqObserves ev h) (Hwf : opt_wf (whDedup h)) (Hcache : cache_wf (whCache h))
    (Hpost : iMethod r = "POST" ∧ iBodyErr r = None ∧ slen (iBody r) <= whMaxBodyBytes h)
    (Hkey : currentKey (whCache h) = Some (g, old))
    (Hold : VerifyWebhook (Some old) (iBody r) (iSign r) = Some (ENew AcqErrBadSignature))
    (clk : W → Z) (Hnow : ∀ w, (now w).1 = clk (now w).2 ∧ clk w <= clk (now w).2)
    (Hidle : minRefreshInterval <= clk w - lastRefreshAt (whCache h))
    (Hserved : ∀ w', clk w <= clk w' → (acq_fetch (whKeys h) w').1 = Ok pub)
    (Hsigned : VerifyWebhook (Some pub) (iBody r) (iSign r) = None)
    (Hparse : ParseWebhook (iBody r) = Ok inv) (Hnew : DedupKey (Some inv) ∉ known_of (whDedup h)) :
  let '(rep, h', w') := acq_ServeHTTP h r w in
  (0 < whMaxAge h → fresh_at (whMaxAge h) (iBody r) (clk w')) →
  ev w' = ev w ++ [inv] ∧ (∃ g', currentKey (whCache h') = Some (g', pub)) ∧
  (rep = ok_reply ∧ (whDedup h ≠ None → DedupKey (Some inv) ≠ "" → DedupKey (Some inv) ∈ known_of (whDedup h')) ∨
   rep = mkReply 500 "callback failed" ∧ known_of (whDedup h') = known_of (whDedup h)).
Proof.
  destruct Hpost as (Hm & Hbe & Hlen).
  destruct (acq_verify_rotated h _ _ w g old pub clk Hcache Hkey Hold Hnow Hidle Hserved Hsigned) as (c & w1 & g' & Hc & Hv).
  assert ((∃ w2, acq_verify h g old (iBody r) (iSign r) w = (None, c, w2)) ∨
          let '(rep, h', w') := acq_ServeHTTP h r w in 0 < whMaxAge h ∧ ¬ fresh_at (whMaxAge h) (iBody r) (clk w')) as [[w2 Hok]|Hstale].
  { unfold acq_settle in Hv. destruct (Z.ltb_spec 0 (whMaxAge h)) as [Hage|]; [|left; by eexists].
    pose proof (VerifyWebhookFresh_signed pub (iBody r) (iSign r) (whMaxAge h) w1 clk Hsigned (λ w, proj1 (Hnow w)) Hage) as Hf.
    destruct (VerifyWebhookFresh _ _ _ _ w1) as [[e|] w2]; [right|left; by eexists].
    unfold acq_ServeHTTP. assert (intake (whMaxBodyBytes h) r = inr (iBody r)) as ->.
    { unfold intake, read_limited. rewrite Hm, Hbe. cbn. by rewrite (proj2 (Z.ltb_ge _ _)). }
    rewrite Hkey, Hv. split; [done|]. intros Hx. by specialize (Hf Hx). }
  2:{ destruct (acq_ServeHTTP h r w) as [[rep h'] w']. intros Hx. destruct Hstale as [Hage Hn]. by destruct Hn; apply Hx. }
  pose proof (acq_delivers ev h r w g old c w2 inv Hob Hwf Hm Hbe Hlen Hkey Hok Hparse Hnew) as Hd.
  destruct (acq_ServeHTTP h r w) as [[rep h'] w']. intros _. destruct Hd as (He & -> & Hcalled).
  split; [done|]. split; [by exists g'|].
  destruct Hcalled as [(e & w0 & _ & -> & Hk)|(w0 & _ & -> & _ & Hin)]; [by right|left].
  split; [done|]. intros Hd Hne. apply Hin; [|done]. apply bool_decide_eq_true. by destruct (whDedup h); [eexists|].
Qed.
End Delivers.

(** The cached key is stale, and a minute old; so is the state, which may be five. *)
#[local] Existing Instances Signature.toy_crypto Webhook.toy_lib.

Definition stale_handler : WebhookHandler Wire (gset string) :=
  mkAcqHandler (λ w, (Ok (mkAcqKey "aw=="), w)) wire_invoice (5 * Minute) None 1024
    (mkCache (Some (0%nat, "old")) 1 (1704067200 * Second)) (Some ∅).

Lemma acq_rotation_recovers_witness :
  let r := mkIncoming "POST" "" "a2U=" "e" None in let w := mkWire [] [] 0 (1704067260 * Second) in
  let '(rep, h', w') := acq_ServeHTTP stale_handler r w in
  length (wl_invoices w') = 1%nat ∧ ∃ g', currentKey (whCache h') = Some (g', "k").
Proof.
  intros r w. destruct (ParseWebhook "e") as [inv|] eqn:Hp; [|discriminate Hp].
  pose proof (acq_rotation_recovers wl_invoices stale_handler r w 0%nat "old" "k" inv) as Hr.
  assert (fresh_at (5 * Minute) "e" (wl_clock (acq_ServeHTTP stale_handler r w).2)) as Hf.
  { exists "2024-01-01T00:00:00Z", (1704067200 * Second). split; [done|]. split; [done|]. by vm_compute. }
  destruct (acq_ServeHTTP stale_handler r w) as [[rep h'] w'].
  destruct Hr with (clk := wl_clock) as (He & Hk & _); try done.
  - intros d [= <-]. cbn. set_solver.
  - intros g k [= <- <-]. cbn. lia.
  - rewrite He. by split.
Defined.

(** ** A client of the fake bank (monobanktest/server.go) *)

(** [Server.Option]: the base URL of the server and its client. *)
Definition optionGroup_apply {W} (g : list (Client W → Client W)) (c : Client W) : Client W :=
  fold_left (λ c o, o c) g c.

Definition Server_Option {W} `{World W, NetLib} (url : string) (http : HTTPDoer W) : Client W → Client W :=
  optionGroup_apply [WithBaseURL url; WithHTTPClient (Some http)].

(** The world of a test: the server, the clock, and what the callback was given. *)
Record bank := mkBank { bk_server : Server; bk_cells : FakeServer.counters; bk_clock : Z; bk_delivered : list InvoiceStatusResponse }.

#[export] Instance bank_world : World bank := {|
  now w := (bk_clock w, w); rand_Int64N _ w := (0, w); ctx_Err _ := None;
  wait d w := (None, mkBank (bk_server w) (bk_cells w) (bk_clock w + d) (bk_delivered w)) |}.

(** The connection to the server; a handler that panics drops it. *)
Definition bank_send (r : Request) (w : bank) : result Response * bank :=
  match handle r (bk_server w, bk_cells w) with
  | None => (Err (EText "EOF"), w)
  | Some (a, (s, i)) =>
      (Ok (mkResponse (a_status a) (list_to_map (a_header a)) (a_body a) None (slen (a_body a))),
       mkBank s i (bk_clock w) (bk_delivered w))
  end.

Section FirstAnswer.
Context {W : Type} `{World W} `{NetLib}.

(** A client without hooks, limiter and logger, and its authorizer. *)
Record plain (c : Client W) (base : URL) (auth : Request → W → option error * Request * W) : Prop := {
  pl_err : c_optErr c = None; pl_base : c_baseURL c = Some base; pl_auth : c_auth c = Some auth;
  pl_limiter : c_limiter c = None; pl_onReq : c_onReq c = None; pl_onResp : c_onResp c = None; pl_logger : c_logger c = None
}.

(** An authorizer that only sets headers. *)
Definition decorates (auth : Request → W → option error * Request * W) : Prop := ∀ r w,
  (auth r w).1.1 = None ∧ (auth r w).2 = w ∧ rMethod (auth r w).1.2 = rMethod r ∧ rURL (auth r w).1.2 = rURL r ∧
  rBody (auth r w).1.2 = rBody r ∧ rGetBody (auth r w).1.2 = rGetBody r.

(** A request whose body can be replayed. *)
Definition buffered (r : Request) : Prop :=
  (rBody r = BNoBody ∧ rGetBody r = None) ∨ ∃ d, rBody r = BReader d None ∧ rGetBody r = Some (Ok d).

(** A path of an endpoint and where the base URL takes it. *)
Record endpoint_ok (base u : URL) (uri path : string) : Prop := {
  ep_parse : url_Parse uri = Some u; ep_print : url_Parse (url_String u) = Some u; ep_rel : IsAbs u = false;
  ep_path : Path (url_ResolveReference base u) = path
}.

(** A call whose first answer is the expected one. *)
Lemma Do_first {A} (c : Client W) ua r (v : target W A) u base auth w resp w1 out :
  plain c base auth → decorates auth → buffered r → url_Parse (url_String (rURL r)) = Some u → IsAbs u = false →
  (∀ q, rMethod q = rMethod r → rURL q = url_ResolveReference base u → http_Do (c_http c) q w = (Ok resp, w1)) →
  sStatusCode resp = 200 → decode_response v resp w1 = (Ok out, w1) →
  Do c ua (Some r) v [200] w = (Ok out, w1).
Proof.
  intros [He Hb Ha Hl Hrq Hrs Hlog] Hauth Hbody Hs Habs Hsend H200 Hdec. unfold Do, resolve. rewrite He, Hb, Hs, Habs, Ha. cbv zeta.
  set (r0 := default_headers c ua _). destruct (Hauth r0 w) as (E1 & E2 & E3 & E4 & E5 & E6).
  assert (rMethod r0 = rMethod r ∧ rURL r0 = url_ResolveReference base u ∧ rBody r0 = rBody r ∧ rGetBody r0 = rGetBody r) as (F1 & F2 & F3 & F4).
  { unfold r0, default_headers. cbv zeta. repeat case_match; done. }
  destruct (auth r0 w) as [[e r1] w0]. cbn [fst snd] in *. subst e w0. rewrite F1 in E3. rewrite F2 in E4. rewrite F3 in E5. rewrite F4 in E6.
  assert (buffer_body r1 = Ok r1) as -> by (unfold buffer_body; destruct Hbody as [[Hb1 Hb2]|(d & Hb1 & Hb2)]; rewrite E5, Hb1; [done|]; by rewrite E6, Hb2).
  assert (∀ q, rMethod q = rMethod r → rURL q = url_ResolveReference base u → attempt_send c v [200] q w = (Ok out, q, w1)) as Hsent.
  { intros q Hq1 Hq2. unfold attempt_send, log. rewrite Hrq, Hlog, (Hsend q Hq1 Hq2), Hrs.
    rewrite bool_decide_eq_true_2 by (rewrite H200; by left). cbn [negb]. by rewrite Hdec. }
  assert (∃ q, attemptFn c v [200] (mkDo r1 ONothing w) = (None, mkDo q out w1)) as [q Hat].
  { unfold attemptFn. rewrite Hl. cbn [d_req d_world d_out]. unfold attempt. rewrite E6.
    destruct Hbody as [[_ ->]|(d & _ & ->)]; rewrite Hsent by done; by eexists. }
  destruct (shouldRetry c r1); [|by rewrite Hat].
  unfold run, attempts_of. destruct (Z.to_nat (if maxAttempts (c_retry c) <? 1 then 1 else maxAttempts (c_retry c))) eqn:Hn.
  { exfalso. destruct (Z.ltb_spec (maxAttempts (c_retry c)) 1); lia. }
  cbn [run_loop]. by rewrite Hat.
Qed.

Lemma get_json_first {A} `{JSON A} (c : Client W) ua uri path u base auth w resp w1 x :
  plain c base auth → decorates auth → endpoint_ok base u uri path →
  (∀ q, rMethod q = "GET" → rURL q = url_ResolveReference base u → http_Do (c_http c) q w = (Ok resp, w1)) →
  sStatusCode resp = 200 → sContentLength resp ≠ 0 → json_Decode (sBody resp) (sBodyErr resp) = Ok x →
  get_json c ua uri w = (Ok x, w1).
Proof.
  intros Hc Hauth [Hp Hs Habs _] Hsend H200 Hlen Hdec. unfold get_json, call, NewRequest. rewrite Hp.
  erewrite (Do_first c ua _ _ u base auth w resp w1 (OJSON x) Hc Hauth); [done|by left|done|done|done|done|].
  unfold decode_response. rewrite H200, (proj2 (Z.eqb_neq _ 0)) by done. cbn. by rewrite Hdec.
Qed.

(** A POST of a JSON body that is only acknowledged. *)
Lemma send_ack_first {B} `{JSON B} (c : Client W) ua uri path u base auth w resp w1 (x : B) d :
  plain c base auth → decorates auth → endpoint_ok base u uri path → json_Marshal x = Ok d → d ≠ "" →
  (∀ q, rMethod q = "POST" → rURL q = url_ResolveReference base u → http_Do (c_http c) q w = (Ok resp, w1)) →
  sStatusCode resp = 200 → send_ack c ua "POST" uri x [200] w = (None, w1).
Proof.
  intros Hc Hauth [Hp Hs Habs _] Hm Hd Hsend H200. unfold send_ack, call, NewJSONRequest, NewRequest. rewrite Hm, Hp.
  destruct d as [|a d]; [done|].
  erewrite (Do_first c ua _ _ u base auth w resp w1 ONothing Hc Hauth); [done|right; by eexists|done|done|done|done|].
  unfold decode_response. by case_match.
Qed.
End FirstAnswer.

(** ** The whole pipeline *)

Section Pipeline.
Context `{NetLib} {TW : Type} `{TestCryptoLaws TW} `{WebhookLib} {D : Type} `{DeduperLaws D}
  `{JSON Acquiring.ServerKey} (Encode : list (string * string) → string).

Definition pubkey_path : string := "/api/merchant/pubkey".

(** What the test relies on of net/url: both base URLs pass the guard (the fake
    bank listens on the loopback), and the path of the endpoint is a path. *)
Record urls_ok (url : string) (base u : URL) : Prop := {
  uo_public : is_Some (url_Parse AcqApi.BaseURL) ∧ isInsecureBaseURL AcqApi.BaseURL = false;
  uo_base : url_Parse url = Some base ∧ isInsecureBaseURL url = false;
  uo_path : endpoint_ok base u pubkey_path pubkey_path
}.

(** The client the test builds. *)
Definition bank_client (http : HTTPDoer bank) (token url : string) : Client bank :=
  AcqApi.New http token [Server_Option url (OtherDoer bank_send)].

Lemma bank_client_plain http token url base u : urls_ok url base u →
  let c := bank_client http token url in c_http c = OtherDoer bank_send ∧ plain c base (TokenAuth_SetAuth token).
Proof.
  intros [([pu Hp] & Hs) (Hb & Hbs) _]. unfold bank_client, AcqApi.New, Options.New, apply_options, Server_Option, optionGroup_apply.
  cbn [fold_left WithAuth WithHTTPClient]. unfold WithBaseURL, SetBaseURL. rewrite Hs, Hbs, Hp, Hb. cbn. done.
Qed.

Lemma token_decorates token : decorates (TokenAuth_SetAuth (W := bank) token).
Proof. intros r w. unfold TokenAuth_SetAuth, set_Header. cbv zeta. repeat case_match; done. Qed.

(** The key provider of the handler: [Client.PubKey]. *)
Definition keys_of (c : Client bank) (ua : string) (w : bank) : result AcqServerKey * bank :=
  project (λ k, mkAcqKey (ServerKey_Key k)) (PubKey c ua w).

Lemma keys_of_delivered http token url base u ua w : urls_ok url base u →
  bk_delivered (keys_of (bank_client http token url) ua w).2 = bk_delivered w.
Proof.
  intros Hok. destruct (bank_client_plain http token url base u Hok) as (E1 & [E2 E3 E4 E5 E6 E7 E8]).
  destruct Hok as [_ _ [Hp _ _ _]]. set (c := bank_client http token url) in *.
  assert (∀ r (v : target bank Acquiring.ServerKey) exp w, (∀ f, v ≠ TWriter f) →
            bk_delivered (Do c ua (Some r) v exp w).2 = bk_delivered w) as Hdo.
  { intros r v exp w0 Hv. apply (Do_guarded (λ w, bk_delivered w = bk_delivered w0) (λ _, True)); [|done| |done].
    - split; intros; try congruence; try done.
      rewrite E1. cbn. unfold bank_send. by destruct (handle _ _) as [[a [s' i]]|].
    - intros a q w' Ha. rewrite E4 in Ha. by injection Ha as <-. }
  unfold keys_of, project, PubKey, get_json, decoded, call, NewRequest. fold pubkey_path. rewrite Hp.
  match goal with |- context [Do c ua (Some ?r) ?v ?e w] => pose proof (Hdo r v e w ltac:(by intros ?)) as Hd; destruct (Do c ua (Some r) v e w) as [[[]|] w1] end; done.
Qed.

(** The fake bank answers with the signer's key. *)
Lemma keys_of_signer http token url base u ua (signer : AcquiringWebhookSigner) s i clk dl :
  urls_ok url base u → closed s = false → Encode [("key", PubKeyField signer)] ≠ "" →
  json_Decode (Encode [("key", PubKeyField signer)]) None = Ok (Acquiring.mkServerKey (PubKeyField signer)) →
  let w := mkBank (WithAcquiringPubKey Encode signer s) i clk dl in
  keys_of (bank_client http token url) ua w = (Ok (mkAcqKey (PubKeyField signer)), w).
Proof.
  intros Hok Hopen Hne Hdec w. destruct (bank_client_plain http token url base u Hok) as (E1 & Hc).
  destruct Hok as [_ _ Hep]. pose proof (ep_path _ _ _ _ Hep) as Hres. unfold keys_of, PubKey.
  rewrite (get_json_first _ ua _ pubkey_path u base (TokenAuth_SetAuth token) w
             (mkResponse 200 (list_to_map json_header) (Encode [("key", PubKeyField signer)]) None (slen (Encode [("key", PubKeyField signer)])))
             w (Acquiring.mkServerKey (PubKeyField signer)) Hc (token_decorates token) Hep); try done.
  - intros r Hm Hu. rewrite E1. cbn [http_Do]. unfold bank_send, handle, w. cbn [bk_server bk_cells bk_clock bk_delivered closed WithAcquiringPubKey Handle].
    rewrite Hopen. unfold lookup_route. rewrite Hm, Hu, Hres. cbn [WithAcquiringPubKey Handle routes]. rewrite lookup_insert_eq. done.
  - cbn. unfold slen. destruct (Encode _); [done|cbn; lia].
Qed.

(** The request the signer builds ([Signer.Request]). *)
Definition Signer_Request (s : AcquiringWebhookSigner) (method body : string) (w : TW) : option Incoming * TW :=
  let '(sig, w) := Signer_Sign s body w in
  ((λ sig, mkIncoming method "" sig body None) <$> sig, w).

(** What the handler is built from. *)
Definition test_options (c : Client bank) (ua : string) (cb : InvoiceStatusResponse → bank → option error * bank)
    (d : option D) (max : Z) : WebhookHandlerOptions (W := bank) (D := D) :=
  mkAcqOptions (Some (keys_of c ua)) (Some cb) d 0 None max.

(** C8: the pieces fit together. For a signer and a fake bank that serves its key, a
    client made with the bank's option fetches that key, so the handler over that
    client, with the default options (no [MaxAge], no [OnError]), can be built; and every body the signer signs that is an invoice state
    the deduper does not know, of any size up to the limit, reaches the callback
    once. When the callback accepts it, it is acknowledged and from then on known;
    when it does not, the answer is 500 and the deduper is as it was. *)
Theorem signed_webhooks_arrive (http : HTTPDoer bank) (token url ua : string) (base u : URL) (tw : TW)
    (signer : AcquiringWebhookSigner) (s : Server) (i : FakeServer.counters) (clk : Z) (dl : list InvoiceStatusResponse)
    (cb : InvoiceStatusResponse → bank → option error * bank) (d : option D) (max : Z)
    (Hurls : urls_ok url base u) (Hsigner : (NewAcquiringWebhookSigner tw).1 = Some signer) (Hopen : closed s = false)
    (Hjson : Encode [("key", PubKeyField signer)] ≠ "" ∧
             json_Decode (Encode [("key", PubKeyField signer)]) None = Ok (Acquiring.mkServerKey (PubKeyField signer)))
    (Hcb : ∀ x w, bk_delivered (cb x w).2 = bk_delivered w ++ [x]) (Hd : opt_wf d) :
  let w := mkBank (WithAcquiringPubKey Encode signer s) i clk dl in
  ∃ h, NewWebhookHandler (test_options (bank_client http token url) ua cb d max) w = (Ok h, w) ∧
    ∀ body tw' r inv w1,
      (Signer_Request signer "POST" body tw').1 = Some r → slen body <= effective_max max →
      ParseWebhook body = Ok inv → DedupKey (Some inv) ∉ known_of d →
      let '(rep, h', w2) := acq_ServeHTTP h r w1 in
      bk_delivered w2 = bk_delivered w1 ++ [inv] ∧ ∃ w0,
      match (cb inv w0).1 with
      | None => rep = ok_reply ∧ (is_Some d → DedupKey (Some inv) ≠ "" → DedupKey (Some inv) ∈ known_of (whDedup h'))
      | Some _ => rep = mkReply 500 "callback failed" ∧ known_of (whDedup h') = known_of d
      end.
Proof.
  intros w. destruct Hjson as [Hne Hdec]. destruct (signer_verifies tw signer Hsigner) as (pub & Hpub & Hver).
  eexists. split.
  { unfold NewWebhookHandler, test_options. cbn [aKeys aOnEvent MaxAge aOnError aMaxBodyBytes aDedup]. unfold acq_refresh, refresh, acq_fetch.
    assert (keys_of (bank_client http token url) ua w = (Ok (mkAcqKey (PubKeyField signer)), w)) as ->
      by exact (keys_of_signer http token url base u ua signer s i clk dl Hurls Hopen Hne Hdec).
    unfold Public. cbn [Key].
    rewrite Hpub. reflexivity. }
  intros body tw' r inv w1 Hr Hlen Hp Hnew.
  unfold Signer_Request in Hr. destruct (Signer_Sign signer body tw') as [[sig|] tw2] eqn:Hs; [|done]. injection Hr as <-.
  assert (VerifyWebhook (Some pub) body sig = None) as Hv by (apply (Hver body sig tw'); by rewrite Hs).
  match goal with |- context [acq_ServeHTTP ?h0 ?r0 w1] => set (h := h0); set (r := r0) end.
  assert (Hob : AcqObserves bk_delivered h).
  { split; [exact Hcb|done| |done]. intros w0. unfold h. cbn [whKeys]. by eapply keys_of_delivered. }
  pose proof (acq_delivers bk_delivered h r w1 0%nat pub (whCache h) w1 inv Hob Hd eq_refl eq_refl Hlen eq_refl
                (acq_verify_cached h 0%nat pub body sig w1 (Z.le_refl 0) Hv) Hp Hnew) as Ha.
  destruct (acq_ServeHTTP h r w1) as [[rep h'] w2]. destruct Ha as (He & _ & Hc). split; [done|].
  destruct Hc as [(e & w0 & Hcb0 & -> & Hk)|(w0 & Hcb0 & -> & _ & Hk)]; exists w0; cbn [whOnEvent] in Hcb0;
    change (whOnEvent h) with cb in Hcb0; rewrite Hcb0; split; try done.
  intros Hs0. apply Hk. by apply bool_decide_eq_true.
Qed.
End Pipeline.

(** A test of the pipeline. *)
#[local] Instance key_json : JSON Acquiring.ServerKey := {|
  json_Marshal k := Ok (ServerKey_Key k);
  json_Decode b e := Ok (Acquiring.mkServerKey b);
  json_zero := Acquiring.mkServerKey "" |}.

Definition key_encode (l : list (string * string)) : string := match l with (_, k) :: _ => k | [] => "" end.

Definition test_callback (x : InvoiceStatusResponse) (w : bank) : option error * bank :=
  (None, mkBank (bk_server w) (bk_cells w) (bk_clock w) (bk_delivered w ++ [x])).

Definition test_signer : @AcquiringWebhookSigner unit FakeServer.toy_crypto FakeServer.toy_signing :=
  mkSigner (H0 := FakeServer.toy_signing) tt (b64_EncodeToString (pem_EncodeToMemory "PUBLIC KEY" "K")).

Lemma signed_webhooks_arrive_witness :
  ∃ h, ∀ body, slen body <= 1024 →
    let '(rep, h', w2) := acq_ServeHTTP (W := bank) (D := gset string) (H1 := FakeServer.toy_crypto) h
        (mkIncoming "POST" "" (b64_EncodeToString body) body None) (mkBank NewServer ∅ 0 []) in
    length (bk_delivered w2) = 1%nat.
Proof.
  assert (Hurls : urls_ok (H := net_netlib) "http://127.0.0.1:4000" (mkURL "" "" "http://127.0.0.1:4000" "") (mkURL "" "" pubkey_path ""))
    by (split; [split; [by eexists|done]|done|by split]).
  assert (Hd : opt_wf (Some (∅ : gset string))) by (intros d [= <-]; cbn; set_solver).
  assert (Hsig : (NewAcquiringWebhookSigner (H0 := FakeServer.toy_signing) tt).1 = Some test_signer) by reflexivity.
  assert (Hjson : key_encode [("key", PubKeyField test_signer)] ≠ "" ∧
            json_Decode (key_encode [("key", PubKeyField test_signer)]) None = Ok (Acquiring.mkServerKey (PubKeyField test_signer)))
    by (split; [vm_compute; discriminate|reflexivity]).
  destruct (signed_webhooks_arrive (H := net_netlib) (H0 := FakeServer.toy_crypto) (H2 := FakeServer.toy_signing_laws) key_encode
              (OtherDoer bank_send) "t" "http://127.0.0.1:4000" "sdk" _ _ tt test_signer NewServer ∅ 0 [] test_callback
              (Some (∅ : gset string)) 1024 Hurls Hsig eq_refl Hjson (λ _ _, eq_refl) Hd)
    as (h & _ & Hh).
  exists h. intros body Hlen. destruct (ParseWebhook body) as [inv|] eqn:Hp; [|discriminate Hp].
  specialize (Hh body tt _ inv (mkBank NewServer ∅ 0 []) eq_refl Hlen Hp ltac:(cbn; set_solver)).
  change (mkIncoming "POST" "" (b64_EncodeToString (sha256 body)) body None)
    with (mkIncoming "POST" "" (b64_EncodeToString body) body None) in Hh.
  destruct (acq_ServeHTTP _ _ _) as [[rep h'] w2]. destruct Hh as [-> _]. done.
Defined.
