(* ===== verification/Scenarios.v ===== *)
(** * The clients against the preset scenarios (monobanktest/builders.go)

    What a test reads back: a fake bank set up by the builders, and the personal and
    the public client made with its option, through their interfaces.  The value
    a builder was given is the value the call returns; a statement scenario
    answers every window, so that a range gets the rows once per window. *)
From S2P Require Import Prelude GoString GoText Errors GoHttp FakeServer Acquiring Retry Client Options Endpoint BankData.
From S2P Require Import Money Statement Keys CorpAuth OpenApi Interfaces EndToEnd.

(** ** Ranges over a bank that always answers the same *)

(** The windows [TransactionsRange] splits an interval into. *)
Definition windows (from to : Z) : nat := Z.to_nat ((to - from) / (MaxStatementWindow + Second) + 1).

Section Constant.
Context {W : Type} (fetch : StatementFetcher W) (txs : list Transaction) (w : W).
Hypothesis Hfetch : ∀ f t, fetch f t w = (Ok txs, w).
Hypothesis Hshort : Z.of_nat (length txs) < StatementMaxRows.

Let collect (tx : Transaction) (s : W * list Transaction) : bool * (W * list Transaction) := (true, (s.1, s.2 ++ [tx])).

Lemma drain_chunk_all chunk k all : drain_chunk collect ∅ chunk k (w, all) = (Some (k + Z.of_nat (length chunk)), (w, all ++ chunk)).
Proof.
  revert k all. induction chunk as [|tx chunk IH]; intros k all; cbn [drain_chunk].
  - by rewrite Z.add_0_r, app_nil_r.
  - rewrite bool_decide_false by set_solver. cbn. rewrite IH, <- app_assoc. do 2 f_equal. cbn. lia.
Qed.

Lemma range_loop_constant fuel drain_fuel to cursor all :
  cursor <= to + (MaxStatementWindow + Second) → (windows cursor to < fuel)%nat → (0 < drain_fuel)%nat →
  range_loop fuel drain_fuel fetch to cursor all w = Some (Ok (all ++ mjoin (replicate (windows cursor to) txs)), w).
Proof.
  intros Hc Hf Hd. revert cursor all Hc Hf. induction fuel as [|fuel IH]; intros cursor all Hc Hf; [lia|]. cbn [range_loop].
  destruct drain_fuel as [|drain_fuel]; [lia|].
  assert (0 < MaxStatementWindow + Second) as Hpos by done. assert (0 < Second) as Hsec by done.
  assert (0 < MaxStatementWindow) as Hm by done.
  destruct (Z.ltb_spec to cursor) as [Hlt|Hge].
  { assert (windows cursor to = 0%nat) as ->; [|cbn; by rewrite app_nil_r].
    unfold windows. enough ((to - cursor) / (MaxStatementWindow + Second) < 0) by lia. apply Z.div_lt_upper_bound; lia. }
  cbv zeta. cbn [drain_loop fst snd]. rewrite Hfetch.
  set (e := if to <? cursor + MaxStatementWindow then to else cursor + MaxStatementWindow).
  assert (windows cursor to = S (windows (e + Second) to)) as Hw.
  { unfold windows, e. destruct (Z.ltb_spec to (cursor + MaxStatementWindow)).
    - rewrite Z.div_small by lia. replace (to - (to + Second)) with (-Second) by lia. by vm_compute.
    - replace (to - (cursor + MaxStatementWindow + Second)) with (to - cursor + -1 * (MaxStatementWindow + Second)) by lia.
      rewrite Z.div_add by lia. pose proof (Z.div_pos (to - cursor) (MaxStatementWindow + Second) ltac:(lia) Hpos). lia. }
  assert (cursor <= e ∧ e <= to) as [He1 He2] by (unfold e; case_match eqn:Hcmp; [apply Z.ltb_lt in Hcmp|apply Z.ltb_ge in Hcmp]; lia).
  assert (∀ all', (if e + Second <=? cursor then Some (Ok all', w) else range_loop fuel (S drain_fuel) fetch to (e + Second) all' w) =
            Some (Ok (all' ++ mjoin (replicate (windows (e + Second) to) txs)), w)) as Hnext.
  { intros all'. rewrite (proj2 (Z.leb_gt _ _)) by lia. apply IH; lia. }
  rewrite Hw. cbn [replicate mjoin list_join foldr]. rewrite app_assoc.
  destruct (last txs) as [x|] eqn:Hl.
  - pose proof (drain_chunk_all txs 0 all) as Hdc. unfold collect in Hdc. rewrite Hdc, (proj2 (Z.ltb_lt _ _)) by done. apply Hnext.
  - apply last_None in Hl as ->. rewrite app_nil_r. apply Hnext.
Qed.

Lemma TransactionsRange_constant fuel drain_fuel from to :
  IsZero to = false → from < to → (windows from to < fuel)%nat → (0 < drain_fuel)%nat →
  TransactionsRange fuel drain_fuel fetch from to w = Some (Ok (mjoin (replicate (windows from to) txs)), w).
Proof.
  intros Hz Hlt Hf Hd. unfold TransactionsRange. rewrite Hz, (proj2 (Z.leb_gt _ _)) by done. cbn [orb].
  assert (0 < MaxStatementWindow + Second) by done. rewrite range_loop_constant; [done|lia|done|done].
Qed.
End Constant.

(** ** The scenario *)

Section Scenario.
Context `{NetLib} `{Endpoint.JSON BankData.ClientInfo, Endpoint.JSON (list Transaction), Endpoint.JSON webhookRequest}
  `{Endpoint.JSON (list Rate), Endpoint.JSON bankSyncResponse, KeyLib}.

(** Every builder, on a new server. *)
Definition scenario (account : string) (info rates key txs : payload) : Server :=
  WithWebHookSubscription (WithStatement account txs (WithServerKey key (WithRates rates (WithClientInfo info NewServer)))).

(** The value a payload decodes to. *)
Definition reads {A} `{Endpoint.JSON A} (b : payload) (x : A) : Prop := writeBody b ≠ "" ∧ json_Decode (writeBody b) None = Ok x.

Definition statement_path (account : string) (from to : Z) : string :=
  "/personal/statement/" +:+ account +:+ "/" +:+ Itoa (Unix from) +:+ "/" +:+ Itoa (Unix to).

(** What is relied on of net/url: the server's URL passes the guard, and the paths of
    the endpoints are paths under it. *)
Record paths_ok (url account : string) (base : URL) : Prop := {
  po_base : url_Parse url = Some base ∧ isInsecureBaseURL url = false;
  po_info : ∃ u, endpoint_ok base u "/personal/client-info" "/personal/client-info";
  po_hook : ∃ u, endpoint_ok base u "/personal/webhook" "/personal/webhook";
  po_rates : ∃ u, endpoint_ok base u "/bank/currency" "/bank/currency";
  po_key : ∃ u, endpoint_ok base u "/bank/sync" "/bank/sync";
  po_statement from to : ∃ u, endpoint_ok base u (Transactions_uri account from to) (statement_path account from to)
}.

Definition personal_client (http : HTTPDoer bank) (token url : string) : Client bank :=
  Personal_New http token [Server_Option url (OtherDoer bank_send)].
Definition public_client (http : HTTPDoer bank) (url : string) : Client bank := Bank_New http [Server_Option url (OtherDoer bank_send)].

Lemma personal_client_plain http token url base : url_Parse url = Some base → isInsecureBaseURL url = false →
  c_http (personal_client http token url) = OtherDoer bank_send ∧ plain (personal_client http token url) base (Personal_SetAuth token).
Proof.
  intros Hb Hs. unfold personal_client, Personal_New, Options.New, apply_options, Server_Option, optionGroup_apply.
  cbn [fold_left WithAuth WithHTTPClient]. unfold WithBaseURL, SetBaseURL. rewrite Hs, Hb. cbn. done.
Qed.

Lemma public_client_plain http url base : url_Parse url = Some base → isInsecureBaseURL url = false →
  c_http (public_client http url) = OtherDoer bank_send ∧ plain (public_client http url) base Public_SetAuth.
Proof.
  intros Hb Hs. unfold public_client, Bank_New, Options.New, apply_options, Server_Option, optionGroup_apply.
  cbn [fold_left WithHTTPClient]. unfold WithBaseURL, SetBaseURL. rewrite Hs, Hb. cbn. done.
Qed.

Lemma personal_decorates token : token ≠ "" → decorates (Personal_SetAuth (W := bank) token).
Proof. intros Hne r w. unfold Personal_SetAuth. by rewrite (proj2 (String.eqb_neq _ _) Hne). Qed.

Lemma public_decorates : decorates (Public_SetAuth (W := bank)).
Proof. done. Qed.

(** The connection to an open server with a route for the request. *)
Lemma bank_send_answer (w : bank) q f :
  closed (bk_server w) = false → lookup_route (bk_server w) (rMethod q) (Path (rURL q)) = Some (ResponderFunc f) →
  bank_send q w = (Ok (mkResponse (a_status (f q)) (list_to_map (a_header (f q))) (a_body (f q)) None (slen (a_body (f q)))), w).
Proof. intros Hc Hl. unfold bank_send, handle. rewrite Hc, Hl. cbn. by destruct w. Qed.

Lemma get_json_served {A} `{Endpoint.JSON A} (c : Client bank) ua uri path u base auth (w : bank) b (x : A) :
  c_http c = OtherDoer bank_send → plain c base auth → decorates auth → endpoint_ok base u uri path →
  closed (bk_server w) = false → lookup_route (bk_server w) "GET" path = Some (FakeServer.JSON b) → reads b x →
  get_json c ua uri w = (Ok x, w).
Proof.
  intros Hh Hc Ha Hep Ho Hl [Hne Hd].
  apply (get_json_first c ua uri path u base auth w (mkResponse 200 (list_to_map json_header) (writeBody b) None (slen (writeBody b)))
           w x Hc Ha Hep); [|done| |done].
  - intros q Hm Hu. rewrite Hh. apply (bank_send_answer w q (λ _, mkAnswer 200 json_header (writeBody b)) Ho).
    by rewrite Hm, Hu, (ep_path _ _ _ _ Hep).
  - cbn. destruct (writeBody b); [done|]. unfold slen. cbn. lia.
Qed.

(** The routes of the scenario. *)
Lemma prefix_append p q : String.prefix p (p +:+ q) = true.
Proof. induction p as [|a p IH]; [by destruct q|]. change (String a p +:+ q) with (String a (p +:+ q)).
  cbn [String.prefix]. by destruct (Ascii.ascii_dec a a). Qed.

Lemma scenario_routes account info rates key txs :
  let s := scenario account info rates key txs in
  closed s = false ∧ lookup_route s "GET" "/personal/client-info" = Some (FakeServer.JSON info) ∧
  lookup_route s "GET" "/bank/currency" = Some (FakeServer.JSON rates) ∧ lookup_route s "GET" "/bank/sync" = Some (FakeServer.JSON key) ∧
  lookup_route s "POST" "/personal/webhook" = Some (Status 200) ∧
  ∀ from to, lookup_route s "GET" (statement_path account from to) = Some (FakeServer.JSON txs).
Proof.
  intros s. split_and!; [done|by vm_compute..|]. intros from to. unfold lookup_route, s, scenario, statement_path. cbn.
  rewrite !lookup_insert_ne by (intros [= ]). rewrite lookup_empty. cbn. unfold serves. cbn.
  assert (HasPrefix ("/personal/statement/" +:+ account +:+ "/" +:+ Itoa (Unix from) +:+ "/" +:+ Itoa (Unix to))
            ("/personal/statement/" +:+ account +:+ "/") = true) as ->; [|done].
  pose proof (prefix_append ("/personal/statement/" +:+ account +:+ "/") (Itoa (Unix from) +:+ "/" +:+ Itoa (Unix to))) as Hp.
  by rewrite !str_app_assoc in Hp.
Qed.

(** ** Properties *)

(** C7: the presets answer what they were given. Against a fake bank on which every
    builder was called, with an account of fewer than 500 rows and payloads the
    client decodes, a personal client with a token that is not empty and a public
    client read back the client info, the rows of the account for every interval,
    the rates and the server key; a subscription is acknowledged; a range comes back
    with the rows of the statement once per window, which is once only for an
    interval of one window; and none of the calls changes the bank or fails the
    test. (The base URL passes the client's guard and the paths resolve as net/url
    documents; one round of fuel per window suffices.) *)
Theorem scenario_reads_back (http : HTTPDoer bank) (token url ua account : string) (base : URL) (fuel drain_fuel : nat)
    (pinfo prates pkey ptxs : payload) (info : BankData.ClientInfo) (rates : list Rate) (key : bankSyncResponse)
    (txs : list Transaction) (cells : FakeServer.counters) (clk : Z) (dl : list InvoiceStatusResponse)
    (Htoken : token ≠ "") (Hpaths : paths_ok url account base)
    (Hinfo : reads pinfo info) (Hrates : reads prates rates) (Hkey : reads pkey key) (Htxs : reads ptxs txs)
    (Hshort : Z.of_nat (length txs) < StatementMaxRows) :
  let w := mkBank (scenario account pinfo prates pkey ptxs) cells clk dl in
  let api := Client_PersonalAPI (personal_client http token url) ua fuel drain_fuel in
  let public := Client_BankAPI (public_client http url) ua in
  ps_ClientInfo _ api w = (Ok info, w) ∧
  (∀ from to, ps_Transactions _ api account from to w = (Ok txs, w)) ∧
  (∀ from to, IsZero to = false → from < to → (windows from to < fuel)%nat → (0 < drain_fuel)%nat →
     ps_TransactionsRange _ api account from to w = Some (Ok (mjoin (replicate (windows from to) txs)), w)) ∧
  (∀ uri d, json_Marshal (mkWebhookRequest uri) = Ok d → d ≠ "" → ps_SetWebHook _ api uri w = (None, w)) ∧
  bk_Rates _ public w = (Ok rates, w) ∧ bk_ServerKey _ public w = (asServerKey key, w).
Proof.
  intros w api public. destruct (scenario_routes account pinfo prates pkey ptxs) as (Ho & R1 & R2 & R3 & R4 & R5).
  destruct Hpaths as [[Hb Hs] [u1 E1] [u2 E2] [u3 E3] [u4 E4] E5].
  destruct (personal_client_plain http token url base Hb Hs) as [Hh Hc]. destruct (public_client_plain http url base Hb Hs) as [Hh' Hc'].
  pose proof (personal_decorates token Htoken) as Hd.
  assert (∀ from to, ps_Transactions _ api account from to w = (Ok txs, w)) as Htx.
  { intros from to. destruct (E5 from to) as [u E]. exact (get_json_served _ _ _ _ _ _ _ w _ _ Hh Hc Hd E Ho (R5 from to) Htxs). }
  split_and!; [|done| | | |].
  - exact (get_json_served _ _ _ _ _ _ _ w _ _ Hh Hc Hd E1 Ho R1 Hinfo).
  - intros from to Hz Hlt Hf Hdf. by apply TransactionsRange_constant.
  - intros uri d Hm Hne.
    unfold api. cbn [Client_PersonalAPI ps_SetWebHook]. unfold Personal_SetWebHook.
    eapply (send_ack_first (personal_client http token url) ua "/personal/webhook" _ u2 base (Personal_SetAuth token) w
              (mkResponse 200 (list_to_map []) "" None 0) w (mkWebhookRequest uri) d Hc Hd E2 Hm Hne); [|done].
    intros q Hq Hu. rewrite Hh. apply (bank_send_answer w q (λ _, mkAnswer 200 [] "") Ho).
    by rewrite Hq, Hu, (ep_path _ _ _ _ E2).
  - exact (get_json_served _ _ _ _ _ _ _ w _ _ Hh' Hc' public_decorates E3 Ho R2 Hrates).
  - unfold public. cbn [Client_BankAPI bk_ServerKey]. unfold OpenApi.ServerKey.
    by rewrite (get_json_served _ _ _ _ _ _ _ w _ _ Hh' Hc' public_decorates E4 Ho R3 Hkey).
Qed.
End Scenario.

(** A month and a half of an account with two rows: each row comes twice. *)
#[local] Existing Instance Keys.toy_keys.
#[local] Instance info_json : Endpoint.JSON BankData.ClientInfo := {|
  json_Marshal _ := Ok ""; json_Decode b e := Ok (mkClientInfo b "" "" "" [] [] []); json_zero := mkClientInfo "" "" "" "" [] [] [] |}.
#[local] Instance rows_json : Endpoint.JSON (list Transaction) := {|
  json_Marshal _ := Ok ""; json_Decode b e := Ok [row 1 10; row 2 5]; json_zero := [] |}.
#[local] Instance hook_json : Endpoint.JSON webhookRequest := {|
  json_Marshal _ := Ok "{}"; json_Decode b e := Err (EText "x"); json_zero := mkWebhookRequest "" |}.
#[local] Instance rates_json : Endpoint.JSON (list Rate) := {|
  json_Marshal _ := Ok ""; json_Decode b e := Ok []; json_zero := [] |}.
#[local] Instance sync_json : Endpoint.JSON bankSyncResponse := {|
  json_Marshal _ := Ok ""; json_Decode b e := Ok (mkSync "k1" "" 7); json_zero := mkSync "" "" 0 |}.

Lemma scenario_reads_back_witness :
  let url := "http://127.0.0.1:4000" in let p := PText "x" in
  let w := mkBank (scenario "0" p p p p) ∅ 0 [] in
  let api := Client_PersonalAPI (H0 := net_netlib) (personal_client (H := net_netlib) (OtherDoer bank_send) "t" url) "sdk" 9 9 in
  ps_TransactionsRange _ api "0" 0 (45 * 24 * Hour) w = Some (Ok [row 1 10; row 2 5; row 1 10; row 2 5], w) ∧
  (ps_ClientInfo _ api w).1 = Ok (mkClientInfo "x" "" "" "" [] [] []).
Proof.
  intros url p w api.
  assert (Hp : paths_ok (H := net_netlib) url "0" (mkURL "" "" url "")) by (split; [done|by eexists..|intros; by eexists]).
  destruct (scenario_reads_back (H := net_netlib) (OtherDoer bank_send) "t" url "sdk" "0" _ 9 9 p p p p
    (mkClientInfo "x" "" "" "" [] [] []) [] (mkSync "k1" "" 7) [row 1 10; row 2 5] ∅ 0 [] ltac:(done) Hp
    ltac:(done) ltac:(done) ltac:(done) ltac:(done) ltac:(done)) as (H1 & _ & H2 & _).
  split; [|exact (f_equal fst H1)]. apply (H2 0 (45 * 24 * Hour)); [done|done|vm_compute; lia|lia].
Defined.
