(* ===== verification/KeyedLimiter.v ===== *)
(** * Calls and sweeps on a keyed limiter that interleave (ratelimit.go)

    [Limiter] models one critical section at a time. Here the calls that wait in a
    [KeyedLimiter] run against its sweeper: a call takes the pointer of its bucket
    once, in [bucket], and goes on using that bucket however long it waits, also
    when the sweeper has dropped it from the table meanwhile. So the buckets are
    objects of a heap, and the table maps a key to one of them. *)
From Stdlib Require Import QArith Qround Lqa.
From S2P Require Import Prelude GoString GoFloat Errors GoHttp Limiter.
#[local] Open Scope Z_scope.

(** ** The context key *)

(** The string values a context carries, under the private types of their keys. *)
Definition limiterKeyType : string := "monobank.limiterKeyType".
Definition WithLimiterKey (ctx : gmap string string) (key : string) : gmap string string :=
  <[limiterKeyType := key]> ctx.
Definition limiterKeyFrom (ctx : gmap string string) : string := default "" (ctx !! limiterKeyType).

(** ** State *)

Section Shared.
Context {R : Type} `{Num R}.

(** [KeyedLimiter], its heap of limiters, the calls inside [WaitKey] with their
    argument and the limiter they hold, and the sweeper goroutine. *)
Record shared := mkShared {
  s_every : Z; s_burst : Z; s_idleTTL : Z;
  heap : gmap Z (Limiter R);
  table : gmap string (Z * Z);          (* the limiter of a key, and lastAccess *)
  next_ref : Z;
  waiting : gmap Z (string * Z);
  stopCh : bool;                        (* closed *)
  sweeping : bool
}.

Definition set_heap h s := mkShared (s_every s) (s_burst s) (s_idleTTL s) h (table s) (next_ref s) (waiting s) (stopCh s) (sweeping s).
Definition set_table m s := mkShared (s_every s) (s_burst s) (s_idleTTL s) (heap s) m (next_ref s) (waiting s) (stopCh s) (sweeping s).
Definition set_waiting m s := mkShared (s_every s) (s_burst s) (s_idleTTL s) (heap s) (table s) (next_ref s) m (stopCh s) (sweeping s).

Definition new_shared (every burst idleTTL : Z) : shared :=
  let '(k, go_sweep) := NewKeyedLimiter (R := R) every burst idleTTL in
  mkShared (k_every k) (k_burst k) idleTTL ∅ ∅ 0 ∅ false go_sweep.

(** ** Operations *)

(** [bucket]: the limiter of the key, made when it is missing. *)
Definition shared_bucket (key : string) (now : Z) (s : shared) : Z * shared :=
  match table s !! key with
  | Some (ref, _) => (ref, set_table (<[key := (ref, now)]> (table s)) s)
  | None =>
      let ref := next_ref s in
      (ref, mkShared (s_every s) (s_burst s) (s_idleTTL s)
              (<[ref := NewLimiter (s_every s) (s_burst s) now]> (heap s))
              (<[key := (ref, now)]> (table s)) (ref + 1) (waiting s) (stopCh s) (sweeping s))
  end.

(** [evictIdle]: the entries of the table go, the limiters stay where they are. *)
Definition shared_evict (now : Z) (s : shared) : shared :=
  set_table (filter (λ '(_, (_, lastAccess)), ¬ s_idleTTL s < time_Sub now lastAccess) (table s)) s.

Inductive kevent :=
| Enter (c : Z) (key : string)     (* WaitKey is called, and takes its bucket *)
| Try (c : Z)                      (* a pass of the loop of Wait *)
| Leave (c : Z)                    (* its context ends *)
| Tick                             (* the ticker of the sweeper *)
| StopCall                         (* Stop *)
| SweeperReturns.                  (* the sweeper sees stopCh *)

(** [Wait], the method a client calls: [WaitKey] under the key of the context. *)
Definition Keyed_Wait (c : Z) (ctx : gmap string string) : kevent := Enter c (limiterKeyFrom ctx).

(** The time of a pass, the key, and whether the pass was granted. *)
Record pass := mkPass { p_time : Z; p_key : string; p_granted : bool }.

(** [None]: the event cannot happen. *)
Definition kstep (now : Z) (e : kevent) (s : shared) : option (list pass * shared) :=
  match e with
  | Enter c key =>
      match waiting s !! c with
      | Some _ => None
      | None => let '(ref, s) := shared_bucket key now s in Some ([], set_waiting (<[c := (key, ref)]> (waiting s)) s)
      end
  | Try c =>
      '(key, ref) ← waiting s !! c; l ← heap s !! ref;
      if every l <=? 0 then Some ([mkPass now key true], set_waiting (delete c (waiting s)) s)
      else match take_token l now with
           | (None, l) => Some ([mkPass now key true], set_waiting (delete c (waiting s)) (set_heap (<[ref := l]> (heap s)) s))
           | (Some _, l) => Some ([mkPass now key false], set_heap (<[ref := l]> (heap s)) s)
           end
  | Leave c => _ ← waiting s !! c; Some ([], set_waiting (delete c (waiting s)) s)
  | Tick => if sweeping s then Some ([], shared_evict now s) else None
  | StopCall => Some ([], mkShared (s_every s) (s_burst s) (s_idleTTL s) (heap s) (table s) (next_ref s) (waiting s) true (sweeping s))
  | SweeperReturns =>
      if stopCh s && sweeping s
      then Some ([], mkShared (s_every s) (s_burst s) (s_idleTTL s) (heap s) (table s) (next_ref s) (waiting s) (stopCh s) false)
      else None
  end.

Fixpoint krun (es : list (Z * kevent)) (s : shared) : option (list pass * shared) :=
  match es with
  | [] => Some ([], s)
  | (t, e) :: es => '(ps, s) ← kstep t e s; '(qs, s) ← krun es s; Some (ps ++ qs, s)
  end.

End Shared.
Arguments shared R : clear implicits.

(** ** What a run is compared with *)

(** The times are in order and stay within the reach of a duration from [t0]. *)
Fixpoint clocked (t0 lo : Z) (es : list (Z * kevent)) : Prop :=
  match es with [] => True | (t, _) :: es => lo <= t ∧ t - t0 <= max_int64 ∧ clocked t0 t es end.

(** No call is still trying [P] after it came. *)
Fixpoint patient (P : Z) (since : gmap Z Z) (es : list (Z * kevent)) : Prop :=
  match es with
  | [] => True
  | (t, e) :: es =>
      match e with
      | Enter c _ => patient P (<[c := t]> since) es
      | Try c => (∀ t0, since !! c = Some t0 → t <= t0 + P) ∧ patient P since es
      | _ => patient P since es
      end
  end.

Definition mine (key : string) (ps : list pass) : list pass := filter (λ p, p_key p = key) ps.

(** ** The level of a bucket *)

(** Two buckets are alike from [t] on when they hold the same number of tokens
    then, refills included. *)
Definition level (l : Limiter Q) (t : Z) : Q :=
  if n_lt (n_of_Z (burst l)) (refill l t) then inject_Z (burst l) else refill l t.

Definition alike (t : Z) (l a : Limiter Q) : Prop :=
  every l = every a ∧ burst l = burst a ∧ (level l t == level a t)%Q.

(** ** Lemmas on one bucket *)

Lemma level_spec l t :
  (level l t == refill l t ∧ refill l t <= inject_Z (burst l))%Q ∨
  (level l t == inject_Z (burst l) ∧ inject_Z (burst l) <= refill l t)%Q.
Proof.
  unfold level. pose proof (n_lt_spec (n_of_Z (burst l)) (refill l t)) as Hl.
  destruct (n_lt _ _); cbn in Hl; [right|left]; (split; [apply Qeq_refl|lra]).
Qed.

Lemma refill_later l t t' : 0 < every l → (refill l t' == refill l t + inject_Z (t' - t) / inject_Z (every l))%Q.
Proof.
  intros He. unfold refill. pose proof (Qdiv_split (t - last_refill l) (t' - t) (every l) He) as Hd.
  replace (t - last_refill l + (t' - t)) with (t' - last_refill l) in Hd by lia. rewrite Hd. ring.
Qed.

(** Alike now is alike later: a refill depends on the level alone. *)
Lemma alike_later t t' l a : 0 < every l → t <= t' → alike t l a → alike t' l a.
Proof.
  intros He Ht (Hev & Hbu & Hle). split_and!; [done..|].
  pose proof (refill_later l t t' He) as Hl. pose proof (refill_later a t t' ltac:(lia)) as Ha.
  pose proof (Qfrac_nonneg (t' - t) (every l) ltac:(lia) He). rewrite <- Hev in Ha.
  pose proof (level_spec l t) as L1. pose proof (level_spec l t') as L2.
  pose proof (level_spec a t) as L3. pose proof (level_spec a t') as L4. rewrite <- Hbu in L3, L4.
  set (d := (inject_Z (t' - t) / inject_Z (every l))%Q) in *. clearbody d. lra.
Qed.

Lemma take_token_level l t : in64 (t - last_refill l) →
  take_token l t =
    if n_le (n_of_Z 1) (level l t)
    then (None, Limiter.mkLimiter (every l) (burst l) (n_sub (level l t) (n_of_Z 1)) t)
    else (Some (n_trunc (n_mul (n_sub (n_of_Z 1) (level l t)) (n_of_Z (every l)))),
          Limiter.mkLimiter (every l) (burst l) (level l t) t).
Proof. intros Hi. unfold take_token, time_Sub. by rewrite sat64_id. Qed.

Lemma level_now e b (x : Q) t : (x <= inject_Z b)%Q → (level (Limiter.mkLimiter e b x t) t == x)%Q.
Proof.
  intros Hx. assert (refill (Limiter.mkLimiter e b x t) t == x)%Q as Hr.
  { unfold refill. cbn [tokens last_refill]. rewrite Z.sub_diag. unfold Qdiv. rewrite Qmult_0_l. ring. }
  destruct (level_spec (Limiter.mkLimiter e b x t) t) as [[H1 H2]|[H1 H2]]; rewrite H1; cbn [burst] in *; lra.
Qed.

(** Buckets that are alike answer alike, and stay so. *)
Lemma take_alike t l a : in64 (t - last_refill l) → in64 (t - last_refill a) → alike t l a →
  isSome (take_token l t).1 = isSome (take_token a t).1 ∧ alike t (take_token l t).2 (take_token a t).2.
Proof.
  intros Hl Ha (He & Hb & Hlv). rewrite !take_token_level by done.
  pose proof (n_le_spec (n_of_Z 1) (level l t)) as N1. pose proof (n_le_spec (n_of_Z 1) (level a t)) as N2.
  assert (level l t <= inject_Z (burst l))%Q as Hc by (destruct (level_spec l t) as [[H1 H2]|[H1 H2]]; lra).
  destruct (n_le (n_of_Z 1) (level l t)), (n_le (n_of_Z 1) (level a t)); change (n_of_Z 1) with 1%Q in *; try lra;
    (split; [done|]); (split_and!; [done..|]); cbn [snd]; rewrite !level_now; try lra.
  - change (n_sub (level l t) 1%Q) with (level l t - 1)%Q. change (n_sub (level a t) 1%Q) with (level a t - 1)%Q. lra.
  - rewrite <- Hb. change (n_sub (level a t) 1%Q) with (level a t - 1)%Q. lra.
  - change (n_sub (level l t) 1%Q) with (level l t - 1)%Q. lra.
  - rewrite <- Hb. lra.
Qed.

(** A bucket left alone for as long as it takes to fill is full. *)
Lemma level_full l t : bucket_ok l → burst l * every l <= t - last_refill l → (level l t == inject_Z (burst l))%Q.
Proof.
  intros (He & _ & H0 & _) Hidle. assert (inject_Z (burst l) <= refill l t)%Q as Hf.
  { unfold refill. assert (inject_Z (burst l) <= inject_Z (t - last_refill l) / inject_Z (every l))%Q; [|lra].
    apply Qle_shift_div_l; [by apply (inj_lt 0)|]. rewrite <- inject_Z_mult. by apply inj_le. }
  destruct (level_spec l t) as [[H1 H2]|[H1 H2]]; lra.
Qed.

Lemma level_New e b t : 1 <= b → (level (NewLimiter (R := Q) e b t) t == inject_Z b)%Q.
Proof.
  intros Hb. unfold NewLimiter. destruct (Z.ltb_spec b 1); [lia|]. cbn zeta. apply level_now. apply Qle_refl.
Qed.

(** ** The invariant *)

Section Refinement.
Context (t0 every_ burst_ ttl P : Z) (K : string).
Context (Hevery : 0 < every_) (Hburst : 1 <= burst_) (HP : 0 <= P) (Httl : P + burst_ * every_ <= ttl).

(** A bucket of this limiter that is not newer than [now]. *)
Record mine_ok (now : Z) (l : Limiter Q) : Prop := {
  mo_ok : bucket_ok l; mo_every : every l = every_; mo_burst : burst l = burst_; mo_last : t0 <= last_refill l <= now
}.

(** At [now], with the times the calls came, the key [K] is served by a bucket
    alike to [a], the one that is never dropped. *)
Record kinv (now : Z) (since : gmap Z Z) (s : shared Q) (a : Limiter Q) : Prop := {
  ki_conf : s_every s = every_ ∧ s_burst s = burst_ ∧ s_idleTTL s = ttl;
  ki_owner : ∃ owner : Z → string,
    (∀ k r la, table s !! k = Some (r, la) → owner r = k ∧ r < next_ref s) ∧
    (∀ c k r, waiting s !! c = Some (k, r) → owner r = k ∧ r < next_ref s);
  ki_a : mine_ok now a;
  ki_in r la : table s !! K = Some (r, la) →
    ∃ l, heap s !! r = Some l ∧ mine_ok now l ∧ alike now l a ∧ t0 <= la <= now ∧ last_refill l <= la + P;
  ki_out : table s !! K = None → (level a now == inject_Z burst_)%Q;
  ki_wait c r : waiting s !! c = Some (K, r) →
    ∃ t, since !! c = Some t ∧ (now <= t + P → ∃ la, table s !! K = Some (r, la) ∧ t <= la)
}.

Lemma mine_ok_later now t l : now <= t → mine_ok now l → mine_ok t l.
Proof. intros Ht []. split; [done..|lia]. Qed.

Lemma level_later now t a : mine_ok now a → now <= t → (level a now == inject_Z burst_)%Q → (level a t == inject_Z burst_)%Q.
Proof.
  intros [(He & _) _ Hb _] Ht Hl. pose proof (refill_later a now t He) as Hr.
  pose proof (Qfrac_nonneg (t - now) (every a) ltac:(lia) He).
  destruct (level_spec a now) as [[]|[]], (level_spec a t) as [[]|[]]; rewrite Hb in *; lra.
Qed.

(** Time passes. *)
Lemma kinv_later now t since s a : now <= t → kinv now since s a → kinv t since s a.
Proof.
  intros Ht [Hc Ho Ha Hin Hout Hw]. split; [done|done| | | |].
  - by eapply mine_ok_later.
  - intros r la Hk. destruct (Hin r la Hk) as (l & Hl & Hok & Hal & Hla & Hr). exists l. split_and!; [done| | |lia|lia|done].
    + by eapply mine_ok_later.
    + destruct Hok as [(He & _) _ _ _]. by eapply alike_later.
  - intros Hk. by eapply level_later; [| |apply Hout].
  - intros c r Hk. destruct (Hw c r Hk) as (t1 & H1 & H2). exists t1. split; [done|]. intros. apply H2. lia.
Qed.

Ltac split_kinv := split; cbn [s_every s_burst s_idleTTL heap table next_ref waiting set_waiting set_table set_heap].

Lemma NewLimiter_mine now : t0 <= now → mine_ok now (NewLimiter (R := Q) every_ burst_ now).
Proof.
  intros Ht. split; [by apply NewLimiter_ok|done| |cbn; lia].
  unfold NewLimiter. destruct (Z.ltb_spec burst_ 1); [lia|done].
Qed.

Lemma kinv_Enter now since s a c key : t0 <= now → kinv now since s a → waiting s !! c = None →
  let '(ref, s1) := shared_bucket key now s in
  kinv now (<[c := now]> since) (set_waiting (<[c := (key, ref)]> (waiting s1)) s1) a.
Proof.
  intros Ht0 [(He & Hb & Ht) (owner & Ho1 & Ho2) Ha Hin Hout Hw] Hc. unfold shared_bucket.
  assert (Hsince : ∀ c' k r, waiting s !! c' = Some (k, r) → (<[c := now]> since) !! c' = since !! c')
    by (intros c' k r Hk; apply lookup_insert_ne; congruence).
  destruct (table s !! key) as [[ref la]|] eqn:Hk.
  - split_kinv; [done| |done| | |].
    + exists owner. split; [intros k r la' [[<- [= <- <-]]|[? Hk']]%lookup_insert_Some; by eapply Ho1|].
      intros c' k r [[<- [= <- <-]]|[? Hk']]%lookup_insert_Some; [by eapply Ho1|by eapply Ho2].
    + intros r la' [[-> [= <- <-]]|[? Hk']]%lookup_insert_Some; [|by apply Hin].
      destruct (Hin ref la Hk) as (l & Hl & Hok & Hal & Hla & Hr). exists l. split_and!; done || lia.
    + intros [? ?]%lookup_insert_None. by apply Hout.
    + intros c' r [[<- [= -> <-]]|[? Hk']]%lookup_insert_Some.
      * exists now. split; [apply lookup_insert_eq|]. intros _. exists now. split; [apply lookup_insert_eq|lia].
      * rewrite (Hsince c' _ _ Hk'). destruct (Hw c' r Hk') as (t & H1 & H2). exists t. split; [done|]. intros (la' & H3 & H4)%H2.
        destruct (decide (key = K)) as [->|]; [|exists la'; by rewrite lookup_insert_ne].
        simplify_eq. exists now. rewrite lookup_insert_eq. split; [done|].
        destruct (Hin _ _ Hk) as (? & _ & _ & _ & ? & _). lia.
  - assert (Hnew : ∀ r, r < next_ref s → <[next_ref s := NewLimiter (R := Q) (s_every s) (s_burst s) now]> (heap s) !! r = heap s !! r)
      by (intros r Hr; apply lookup_insert_ne; lia).
    split_kinv; [done| |done| | |].
    + exists (λ r, if decide (r = next_ref s) then key else owner r). split.
      * intros k r la' [[<- [= <- <-]]|[? Hk']]%lookup_insert_Some; [rewrite decide_True by done; split; [done|lia]|].
        destruct (Ho1 _ _ _ Hk'). rewrite decide_False by lia. split; [done|lia].
      * intros c' k r [[<- [= <- <-]]|[? Hk']]%lookup_insert_Some; [rewrite decide_True by done; split; [done|lia]|].
        destruct (Ho2 _ _ _ Hk'). rewrite decide_False by lia. split; [done|lia].
    + rewrite He, Hb in *. intros r la' [[-> [= <- <-]]|[? Hk']]%lookup_insert_Some.
      * exists (NewLimiter every_ burst_ now). rewrite lookup_insert_eq. split_and!; [done|by apply NewLimiter_mine| |lia|lia|cbn; lia].
        destruct Ha as [_ Hae Hab _]. destruct (NewLimiter_mine now Ht0) as [_ Hne Hnb _].
        split_and!; [by rewrite Hne|by rewrite Hnb|]. rewrite level_New by done. symmetry. by apply Hout.
      * destruct (Ho1 _ _ _ Hk') as [_ Hlt]. rewrite Hnew by done. by apply Hin.
    + intros [? ?]%lookup_insert_None. by apply Hout.
    + intros c' r [[<- [= -> <-]]|[? Hk']]%lookup_insert_Some.
      * exists now. split; [apply lookup_insert_eq|]. intros _. exists now. split; [apply lookup_insert_eq|lia].
      * rewrite (Hsince c' _ _ Hk'). destruct (Hw c' r Hk') as (t & H1 & H2). exists t. split; [done|]. intros (la' & H3 & H4)%H2.
        exists la'. split; [|done]. rewrite lookup_insert_ne; [done|]. congruence.
Qed.

(** Dropping a call from those that wait. *)
Lemma kinv_leave now since s a c : kinv now since s a → kinv now since (set_waiting (delete c (waiting s)) s) a.
Proof.
  intros [Hc (owner & Ho1 & Ho2) Ha Hin Hout Hw]. split_kinv; [done| |done|done|done|].
  - exists owner. split; [done|]. intros c' k r [_ Hk]%lookup_delete_Some. by eapply Ho2.
  - intros c' r [_ Hk]%lookup_delete_Some. by eapply Hw.
Qed.

(** A pass of another key. *)
Lemma kinv_other now since s a c key r l : kinv now since s a → waiting s !! c = Some (key, r) → key ≠ K →
  kinv now since (set_heap (<[r := l]> (heap s)) s) a.
Proof.
  intros [Hc (owner & Ho1 & Ho2) Ha Hin Hout Hw] Hwt Hne. split_kinv; [done|by exists owner|done| |done|done].
  intros r' la Hk. rewrite lookup_insert_ne; [by apply Hin|]. intros ->.
  destruct (Ho1 _ _ _ Hk), (Ho2 _ _ _ Hwt). congruence.
Qed.

(** What a pass does to a bucket of this limiter. *)
Lemma take_mine now l : now - t0 <= max_int64 → mine_ok now l →
  mine_ok now (take_token l now).2 ∧ last_refill (take_token l now).2 = now.
Proof.
  intros Hrange [Hok He Hb Hl]. pose proof (take_token_spec l now Hok ltac:(lia) ltac:(split; unfold min_int64; lia)) as Hs.
  destruct (take_token l now) as [r l']. cbn [snd]. destruct Hs as (He' & Hb' & Hl' & Hok' & _).
  split; [|done]. split; [done|congruence..|lia].
Qed.

(** A pass of this key, by a call still within its patience: it runs on the bucket
    of the table, and is answered as the bucket that is never dropped answers. *)
Lemma kinv_pass now since s a c r : now - t0 <= max_int64 → kinv now since s a → waiting s !! c = Some (K, r) →
  (∀ t, since !! c = Some t → now <= t + P) →
  ∃ l, heap s !! r = Some l ∧ every l = every_ ∧ isSome (take_token l now).1 = isSome (take_token a now).1 ∧
    kinv now since (set_heap (<[r := (take_token l now).2]> (heap s)) s) (take_token a now).2.
Proof.
  intros Hrange [Hc (owner & Ho1 & Ho2) Ha Hin Hout Hw] Hwt Hpat.
  destruct (Hw _ _ Hwt) as (t & Hs & Hk). specialize (Hpat t Hs). destruct (Hk Hpat) as (la & Hkey & Hla).
  destruct (Hin r la Hkey) as (l & Hl & Hok & Hal & Hlar & Hr). exists l. split_and!; [done|apply Hok| |].
  - destruct Ha as [_ _ _ ?], Hok as [_ _ _ ?]. apply (take_alike now l a); [split; unfold min_int64 in *; lia..|done].
  - destruct (take_mine now l Hrange Hok) as [Hok' Hlast]. destruct (take_mine now a Hrange Ha) as [Ha' _].
    split_kinv; [done|by exists owner|done| | |done].
    + intros r' la' Hk'. simplify_eq. rewrite lookup_insert_eq. eexists. split_and!; [done|done| |lia|lia|lia].
      destruct Ha as [_ _ _ ?], Hok as [_ _ _ ?]. apply (take_alike now l a); [split; unfold min_int64 in *; lia..|done].
    + congruence.
Qed.

(** The sweeper drops the bucket of this key only when it is full, and when no
    call within its patience still holds it. *)
Lemma kinv_Tick now since s a : now - t0 <= max_int64 → kinv now since s a → kinv now since (shared_evict now s) a.
Proof.
  intros Hrange [(He & Hb & Ht) (owner & Ho1 & Ho2) Ha Hin Hout Hw].
  assert (Hev : ∀ r la, table s !! K = Some (r, la) → time_Sub now la = now - la).
  { intros r la Hk. destruct (Hin r la Hk) as (l & _ & _ & _ & Hla & _). unfold time_Sub. apply sat64_id. unfold in64, min_int64. lia. }
  unfold shared_evict. rewrite Ht. split_kinv; [done| |done| | |].
  - exists owner. split; [|done]. intros k r la [Hk _]%map_lookup_filter_Some. by eapply Ho1.
  - intros r la [Hk _]%map_lookup_filter_Some. by apply Hin.
  - intros [Hk|Hk]%map_lookup_filter_None; [by apply Hout|].
    destruct (table s !! K) as [[r la]|] eqn:Hkey; [|by apply Hout]. specialize (Hk _ eq_refl). cbn in Hk.
    rewrite (Hev _ _ eq_refl) in Hk. apply dec_stable in Hk.
    destruct (Hin r la eq_refl) as (l & Hl & [Hok Hle Hlb Hll] & (_ & _ & Hlv) & Hla & Hr). rewrite <- Hlv, <- Hlb.
    apply level_full; [done|]. rewrite Hlb, Hle. lia.
  - intros c r Hk. destruct (Hw c r Hk) as (t & H1 & H2). exists t. split; [done|]. intros Hpat.
    destruct (H2 Hpat) as (la & H3 & H4). exists la. split; [|done]. apply map_lookup_filter_Some. split; [done|].
    cbn. rewrite (Hev _ _ H3). nia.
Qed.

Definition since_after (now : Z) (e : kevent) (since : gmap Z Z) : gmap Z Z :=
  match e with Enter c _ => <[c := now]> since | _ => since end.

(** What the passes of the key have to do with the bucket that is never dropped. *)
Definition served (a : Limiter Q) (ps : list pass) (a' : Limiter Q) : Prop :=
  attempts a (p_time <$> mine K ps) = (p_granted <$> mine K ps, a').

Lemma served_nil a : served a [] a.
Proof. done. Qed.

Lemma served_other a key now g : key ≠ K → served a [mkPass now key g] a.
Proof. intros Hk. unfold served, mine. by rewrite filter_cons_False. Qed.

Lemma served_pass a now g : g = negb (isSome (take_token a now).1) → served a [mkPass now K g] (take_token a now).2.
Proof.
  intros ->. unfold served, mine. rewrite filter_cons_True by done. cbn. by destruct (take_token a now).
Qed.

Lemma attempts_app (a : Limiter Q) ts us :
  attempts a (ts ++ us) = let '(rs, a1) := attempts a ts in let '(qs, a2) := attempts a1 us in (rs ++ qs, a2).
Proof.
  revert a. induction ts as [|t ts IH]; intros a; cbn; [by destruct (attempts a us)|].
  destruct (take_token a t) as [r a1]. rewrite IH. destruct (attempts a1 ts) as [rs a2]. by destruct (attempts a2 us).
Qed.

Lemma attempts_length (a : Limiter Q) ts : length (attempts a ts).1 = length ts.
Proof.
  revert a. induction ts as [|t ts IH]; intros a; cbn; [done|]. destruct (take_token a t) as [r a1].
  specialize (IH a1). destruct (attempts a1 ts). cbn in *. by rewrite IH.
Qed.

Lemma attempts_split {A} (f : A → Z) (g : A → bool) (a a' : Limiter Q) (xs ys : list A) :
  attempts a ((f <$> xs) ++ (f <$> ys)) = ((g <$> xs) ++ (g <$> ys), a') →
  (attempts (attempts a (f <$> xs)).2 (f <$> ys)).1 = g <$> ys.
Proof.
  rewrite attempts_app. pose proof (attempts_length a (f <$> xs)) as Hl.
  destruct (attempts a (f <$> xs)) as [rs a1]. cbn [fst snd] in *. destruct (attempts a1 (f <$> ys)) as [qs a2].
  intros [= Happ _]. cbn. apply app_inj_1 in Happ as [_ ?]; [done|]. rewrite Hl. by rewrite !length_fmap.
Qed.

Lemma served_app a ps a1 qs a2 : served a ps a1 → served a1 qs a2 → served a (ps ++ qs) a2.
Proof.
  unfold served, mine. intros H1 H2. by rewrite filter_app, !fmap_app, attempts_app, H1, H2.
Qed.

(** A pass of any call. *)
Lemma kinv_Try now since s a c ps s1 : now - t0 <= max_int64 → kinv now since s a →
  (∀ t, since !! c = Some t → now <= t + P) → kstep now (Try c) s = Some (ps, s1) →
  ∃ a', kinv now since s1 a' ∧ served a ps a'.
Proof.
  intros Hrange Hinv Hpat. cbn [kstep]. destruct (waiting s !! c) as [[key r]|] eqn:Hw; [|done]. cbn [mbind option_bind].
  destruct (decide (key = K)) as [->|Hne].
  - destruct (kinv_pass now since s a c r Hrange Hinv Hw Hpat) as (l & Hl & Hev & Hans & Hinv'). rewrite Hl. cbn.
    rewrite (proj2 (Z.leb_gt _ _)) by lia. intros Hstep. exists (take_token a now).2.
    destruct (take_token l now) as [[d|] l'] eqn:Htk; cbn [fst snd isSome] in *; injection Hstep as <- <-.
    + split; [done|]. apply served_pass. by rewrite <- Hans.
    + split; [by apply (kinv_leave now since _ _ c) in Hinv'|]. apply served_pass. by rewrite <- Hans.
  - destruct (heap s !! r) as [l|]; [|done]. cbn. intros Hstep. exists a.
    assert (Ho : ∀ l', kinv now since (set_heap (<[r := l']> (heap s)) s) a) by (intros l'; by eapply kinv_other).
    destruct (every l <=? 0); [|destruct (take_token l now) as [[d|] l']]; injection Hstep as <- <-;
      (split; [|by apply served_other]).
    + by apply kinv_leave.
    + done.
    + exact (kinv_leave now since _ a c (Ho l')).
Qed.

Lemma kinv_step now e since s a ps s1 : t0 <= now → now - t0 <= max_int64 → kinv now since s a →
  match e with Try c => ∀ t, since !! c = Some t → now <= t + P | _ => True end →
  kstep now e s = Some (ps, s1) →
  ∃ a', kinv now (since_after now e since) s1 a' ∧ served a ps a'.
Proof.
  intros Ht0 Hrange Hinv Hpat. destruct e as [c key|c|c| | |]; [|by apply kinv_Try|..]; cbn [kstep since_after].
  - pose proof (kinv_Enter now since s a c key Ht0 Hinv) as He. destruct (waiting s !! c); [done|].
    destruct (shared_bucket key now s) as [ref s']. intros [= <- <-]. exists a. split; [by apply He|done].
  - destruct (waiting s !! c); [|done]. cbn. intros [= <- <-]. exists a. split; [by apply kinv_leave|done].
  - destruct (sweeping s); [|done]. intros [= <- <-]. exists a. split; [by apply kinv_Tick|done].
  - intros [= <- <-]. exists a. split; [|done]. by destruct Hinv.
  - destruct (stopCh s && sweeping s); [|done]. intros [= <- <-]. exists a. split; [|done]. by destruct Hinv.
Qed.

Lemma krun_served es lo since s a ps s1 : t0 <= lo → kinv lo since s a → clocked t0 lo es → patient P since es →
  krun es s = Some (ps, s1) → ∃ a', served a ps a'.
Proof.
  revert lo since s a ps. induction es as [|[t e] es IH]; intros lo since s a ps Hlo Hinv Hc Hp; cbn [krun].
  { intros [= <- <-]. by exists a. }
  destruct Hc as (Hlt & Hr & Hc). destruct (kstep t e s) as [[p1 s2]|] eqn:Hst; [|done]. cbn.
  destruct (krun es s2) as [[p2 s3]|] eqn:Hrun; [|done]. cbn. intros [= <- <-].
  destruct (kinv_step t e since s a p1 s2) as (a1 & Hinv1 & Hs1); [lia|lia|by eapply kinv_later| |done|].
  { destruct e; try done. by destruct Hp. }
  destruct (IH t (since_after t e since) s2 a1 p2) as (a2 & Hs2); [lia|done|done| |done|].
  { destruct e; try done. by destruct Hp. }
  exists a2. by eapply served_app.
Qed.

Lemma kinv_new : kinv t0 ∅ (new_shared every_ burst_ ttl) (NewLimiter every_ burst_ t0).
Proof.
  unfold new_shared, NewKeyedLimiter. destruct (Z.ltb_spec burst_ 1); [lia|].
  split; cbn [s_every s_burst s_idleTTL heap table next_ref waiting k_every k_burst].
  - done.
  - exists (λ _, ""). by split; intros * ?.
  - by apply NewLimiter_mine.
  - by intros.
  - intros _. by apply level_New.
  - by intros.
Qed.

End Refinement.

Lemma kstep_passes {R} `{Num R} now e (s : shared R) ps s1 : kstep now e s = Some (ps, s1) →
  ps = [] ∨ ∃ key g, ps = [mkPass now key g].
Proof.
  destruct e as [c key|c|c| | |]; cbn [kstep]; intros Hs.
  - destruct (waiting s !! c); [done|]. destruct (shared_bucket key now s). injection Hs as <- <-. by left.
  - destruct (waiting s !! c) as [[key r]|]; [|done]. destruct (heap s !! r) as [l|] eqn:Hh; cbn in Hs; rewrite ?Hh in Hs; [|done].
    cbn in Hs. right. destruct (every l <=? 0); [|destruct (take_token l now) as [[d|] l']]; injection Hs as <- <-; eauto.
  - destruct (waiting s !! c); [|done]. injection Hs as <- <-. by left.
  - destruct (sweeping s); [|done]. injection Hs as <- <-. by left.
  - injection Hs as <- <-. by left.
  - destruct (stopCh s && sweeping s); [|done]. injection Hs as <- <-. by left.
Qed.

Lemma krun_in_order {R} `{Num R} t0 key es lo lo' (s : shared R) ps s1 : t0 <= lo' <= lo → clocked t0 lo es →
  krun es s = Some (ps, s1) → in_order lo' (p_time <$> mine key ps).
Proof.
  revert lo lo' s ps. induction es as [|[t e] es IH]; intros lo lo' s ps Hlo Hc; cbn [krun]; [by intros [= <- <-]|].
  destruct Hc as (Hlt & Hr & Hc). destruct (kstep t e s) as [[p1 s2]|] eqn:Hst; [|done]. cbn.
  destruct (krun es s2) as [[p2 s3]|] eqn:Hrun; [|done]. cbn. intros [= <- <-].
  destruct (kstep_passes _ _ _ _ _ Hst) as [->|(k & g & ->)]; [eapply (IH t); [|done|done]; lia|].
  unfold mine. cbn [app]. destruct (decide (k = key)).
  - rewrite filter_cons_True by done. cbn. split_and!; [lia|unfold in64, min_int64; lia|]. eapply (IH t); [|done|done]. lia.
  - rewrite filter_cons_False by done. eapply (IH t); [|done|done]. lia.
Qed.

(** ** Properties *)

(** C9: in exact token arithmetic (rationals in place of the code's float64) the keyed
    limiter is a family of independent limiters, one per key, that are never
    dropped. Whatever calls on whatever keys interleave with the sweeper, when the
    clock does not go back, [every] is positive, no call keeps trying for longer
    than [P] and the idle time covers [P] and the time a bucket takes to fill, the
    passes of a key are granted exactly as one [NewLimiter] of its own would grant
    them; so in any window that starts at a pass the key is granted at most [burst]
    calls plus one per [every]. ([keyed_float_differs] shows that doubles part from
    this at an [every] of 2^53+3 nanoseconds, 104 days.) *)
Theorem keyed_refines_independent (t0 every burst idleTTL P : Z) (es : list (Z * kevent)) (key : string)
    (ps : list pass) (s : shared Q)
    (Hevery : 0 < every) (HP : 0 <= P) (Hidle : P + Z.max 1 burst * every <= idleTTL)
    (Hclock : clocked t0 t0 es) (Hpatient : patient P ∅ es)
    (Hrun : krun es (new_shared every burst idleTTL) = Some (ps, s)) :
  p_granted <$> mine key ps = (attempts (NewLimiter (R := Q) every burst t0) (p_time <$> mine key ps)).1 ∧
  ∀ before p after, mine key ps = before ++ p :: after →
    Z.of_nat (granted (p_granted <$> p :: after)) * every <=
      Z.max 1 burst * every + (last_instant (p_time p) (p_time <$> after) - p_time p).
Proof.
  assert (Hnew : NewLimiter (R := Q) every burst t0 = NewLimiter every (Z.max 1 burst) t0).
  { unfold NewLimiter. destruct (Z.ltb_spec burst 1), (Z.ltb_spec (Z.max 1 burst) 1); repeat f_equal; lia. }
  assert (Hinit : new_shared (R := Q) every burst idleTTL = new_shared every (Z.max 1 burst) idleTTL).
  { unfold new_shared, NewKeyedLimiter. destruct (Z.ltb_spec burst 1), (Z.ltb_spec (Z.max 1 burst) 1); cbn; repeat f_equal; lia. }
  rewrite Hinit in Hrun.
  destruct (krun_served t0 every (Z.max 1 burst) idleTTL P key Hevery ltac:(lia) HP Hidle es t0 ∅ _ _ _ _ ltac:(lia)
              (kinv_new t0 every (Z.max 1 burst) idleTTL P key Hevery ltac:(lia)) Hclock Hpatient Hrun) as (a' & Hs).
  unfold served in Hs. rewrite Hnew, Hs. split; [done|]. intros before p after Hm.
  pose proof (krun_in_order t0 key es t0 t0 _ _ _ ltac:(lia) Hclock Hrun) as Hord. rewrite Hm in *.
  rewrite fmap_app in Hord. rewrite !fmap_app in Hs. apply attempts_split in Hs.
  pose proof (limiter_rate every burst t0 (fmap (M := list) p_time before) (p_time p) (fmap (M := list) p_time after) Hevery Hord) as Hrate.
  rewrite Hnew in Hrate. cbn [fmap list_fmap] in Hs. cbn zeta in Hrate. by rewrite Hs in Hrate.
Qed.

(** Two keys on the default limits of the bank, with the sweeper at work. *)
Definition busy_day : list (Z * kevent) :=
  [(0, Enter 1 "a"); (0, Try 1); (Second, Enter 2 "a"); (Second, Try 2); (2 * Second, Enter 3 "b"); (2 * Second, Try 3);
   (Minute, Try 2); (5 * Minute, Tick); (10 * Minute, Tick); (15 * Minute, Tick);
   (16 * Minute, Enter 4 "a"); (16 * Minute, Try 4); (16 * Minute, StopCall); (17 * Minute, SweeperReturns)].

Lemma busy_day_ok : clocked 0 0 busy_day ∧ patient (5 * Minute) ∅ busy_day.
Proof.
  split; cbn [clocked patient busy_day].
  - repeat (split; [vm_compute; discriminate|]). done.
  - repeat first [split; [intros t Ht; vm_compute in Ht; injection Ht as <-; vm_compute; discriminate|] | done].
Qed.

Definition busy_passes : list pass :=
  [mkPass 0 "a" true; mkPass Second "a" false; mkPass (2 * Second) "b" true; mkPass Minute "a" true; mkPass (16 * Minute) "a" true].

Lemma busy_day_runs : ∃ s, krun busy_day (new_shared (R := Q) Minute 1 (10 * Minute)) = Some (busy_passes, s).
Proof. eexists. vm_compute. reflexivity. Qed.

Lemma keyed_refines_independent_witness :
  (attempts (NewLimiter (R := Q) Minute 1 0) (p_time <$> mine "a" busy_passes)).1 = [true; false; true; true].
Proof.
  destruct busy_day_runs as [s Hrun]. destruct busy_day_ok as [Hclock Hpatient].
  destruct (keyed_refines_independent 0 Minute 1 (10 * Minute) (5 * Minute) busy_day "a" busy_passes s
    ltac:(vm_compute; reflexivity) ltac:(vm_compute; discriminate) ltac:(vm_compute; discriminate)
    Hclock Hpatient Hrun) as [<- _].
  vm_compute. reflexivity.
Defined.

(** On the machine's doubles an [every] beyond 2^53 nanoseconds is rounded, and a
    bucket left alone for long enough to fill up stays a hair short: a limiter of
    its own denies the last call of a burst that the keyed limiter, whose sweeper
    replaced the bucket by a full one, grants. *)
Definition burst_at (c t : Z) : list (Z * kevent) := [(t, Enter c "acc"); (t, Try c)].
Definition century : list (Z * kevent) :=
  let e := 2 ^ 53 + 3 in let t := 3 * e + 1 in
  burst_at 1 0 ++ burst_at 2 0 ++ burst_at 3 0 ++ [(t, Tick)] ++ burst_at 4 t ++ burst_at 5 t ++ burst_at 6 t.

Theorem keyed_float_differs :
  let e := 2 ^ 53 + 3 in let t := 3 * e + 1 in
  (λ r, fmap (M := list) p_granted r.1) <$> krun (H := @float_num amd64) century (new_shared (R := float64) e 3 (3 * e))
    = Some [true; true; true; true; true; true] ∧
  (attempts (H := @float_num amd64) (NewLimiter (R := float64) (H := @float_num amd64) e 3 0) [0; 0; 0; t; t; t]).1
    = [true; true; true; true; true; false].
Proof. by vm_compute. Qed.

(** Patience is needed. With the idle time the documentation recommends, ten times
    the refill time, thirteen calls that come at once are served one a minute, and
    nobody else enters; the sweeper drops the bucket while two of them still wait
    on it, the next call gets a fresh bucket, and the limit of one a minute is
    exceeded: three grants within a minute of each other where a single bucket
    grants two. *)
Definition crowd : list (Z * kevent) :=
  ((λ c, (0, Enter c "acc")) <$> seqZ 1 13) ++ ((λ c, ((c - 1) * Minute, Try c)) <$> seqZ 1 10) ++
  [(10 * Minute, Try 11); (10 * Minute + 1, Tick); (10 * Minute + Second, Enter 14 "acc"); (10 * Minute + Second, Try 14);
   (11 * Minute, Try 12)].

Theorem waiting_calls_split_the_limit :
  (λ r, drop 10 (p_granted <$> r.1)) <$> krun (H := @float_num amd64) crowd (new_shared (R := float64) Minute 1 (10 * Minute)) = Some [true; true; true] ∧
  drop 10 (attempts (H := @float_num amd64) (NewLimiter (R := float64) (H := @float_num amd64) Minute 1 0)
             (((λ c, (c - 1) * Minute) <$> seqZ 1 10) ++ [10 * Minute; 10 * Minute + Second; 11 * Minute])).1 = [true; false; true].
Proof. by vm_compute. Qed.
