(* ===== verification/Effects.v ===== *)
(** * How often a payment goes out

    The endpoints that move money, seen through the number of requests the
    transport is given: the retry loop of the client must not repeat a payment
    that carries no idempotency key. *)
From S2P Require Import Prelude GoString GoText GoFloat Errors Currency Money GoHttp Retry Client Endpoint.
From S2P Require Import BankData Business BusinessApi Acquiring.
From S2P Require AcqApi.

(** ** Lemmas *)

Section Counts.
Context {W : Type} `{World W} `{NetLib}.
Context (sends : W → Z) (c : Client W) (ua : string).

Lemma NewJSONRequest_ok method uri d r :
  NewJSONRequest method uri d = Ok r → rMethod r = method ∧ rHeader r = ∅.
Proof.
  unfold NewJSONRequest, NewRequest. intros Hr. destruct d as [d|]; [|done].
  destruct (url_Parse uri) as [u|]; [|done]. destruct d as [|a d]; apply Ok_inj in Hr; by subst r.
Qed.

Lemma send_json_count {A B} `{JSON A} `{HB : JSON B} method uri (x : A) headers w (n : Z) :
  Observed sends 1 0 c (TJSON (@json_Decode B HB)) → keeps_retry c →
  (∀ r, rMethod r = method → rHeader r = ∅ →
        (if shouldRetry c (headers r) then Z.max 1 (maxAttempts (c_retry c)) else 1) <= n) → 0 <= n →
  0 <= sends (send_json (B := B) c ua method uri x headers w).2 - sends w <= n.
Proof.
  intros Hobs Hk Hn H0n. unfold send_json, call, decoded.
  destruct (NewJSONRequest method uri (json_Marshal x)) as [r|e] eqn:Hr; cbn; [|lia].
  apply NewJSONRequest_ok in Hr as [Hm Hh].
  pose proof (Do_count sends c ua (headers r) (TJSON (@json_Decode B HB)) [200] w Hobs Hk) as Hd.
  specialize (Hn r Hm Hh).
  destruct (Do c ua (Some (headers r)) (TJSON json_Decode) [200] w) as [[[| |]|] w']; cbn in *; lia.
Qed.

Lemma send_ack_count {A} `{JSON A} method uri (x : A) exp w (n : Z) :
  Observed sends 1 0 c (TNil (A := unit)) → keeps_retry c →
  (∀ r, rMethod r = method → rHeader r = ∅ →
        (if shouldRetry c r then Z.max 1 (maxAttempts (c_retry c)) else 1) <= n) → 0 <= n →
  0 <= sends (send_ack c ua method uri x exp w).2 - sends w <= n.
Proof.
  intros Hobs Hk Hn H0n. unfold send_ack, call, ack.
  destruct (NewJSONRequest method uri (json_Marshal x)) as [r|e] eqn:Hr; cbn; [|lia].
  apply NewJSONRequest_ok in Hr as [Hm Hh].
  pose proof (Do_count sends c ua r (TNil (A := unit)) exp w Hobs Hk) as Hd. specialize (Hn r Hm Hh).
  destruct (Do c ua (Some r) TNil exp w) as [[|] w']; cbn in *; lia.
Qed.

(** A bare POST is sent once unless the caller asked for unsafe retries. *)
Lemma bare_post_once r :
  c_unsafeRetries c = false → rMethod r = "POST" → rHeader r = ∅ →
  (if shouldRetry c r then Z.max 1 (maxAttempts (c_retry c)) else 1) <= 1.
Proof. intros Hu Hm Hh. unfold shouldRetry. rewrite Hm, Hh, Hu. unfold Header_Get. rewrite lookup_empty. cbn. lia. Qed.

Lemma post_opt_once {A B} `{JSON A} `{HB : JSON B} uri (x : option A) w :
  Observed sends 1 0 c (TJSON (@json_Decode B HB)) → keeps_retry c → c_unsafeRetries c = false →
  0 <= sends (AcqApi.post_opt (B := B) c ua uri x w).2 - sends w <= if isSome x then 1 else 0.
Proof.
  intros Hobs Hk Hu. destruct x as [x|]; cbn; [|lia].
  apply send_json_count; [done|done| |lia]. intros r. by apply bare_post_once.
Qed.


(** ** Properties *)

(** A bare POST that is only acknowledged. *)
Lemma post_ack_once {A} `{JSON A} uri (x : A) exp w :
  Observed sends 1 0 c (TNil (A := unit)) → keeps_retry c → c_unsafeRetries c = false →
  0 <= sends (send_ack c ua "POST" uri x exp w).2 - sends w <= 1.
Proof. intros Hobs Hk Hu. apply send_ack_count; [done|done| |lia]. intros r. by apply bare_post_once. Qed.

(** C21: without the opt-in to unsafe retries no acquiring payment is sent
    twice: each of the calls that charge, capture, refund or subscribe, the
    refund of a terminal payment and the edit of a subscription included, gives
    the transport at most one request, whatever the server and the network
    answer, and a nil request (or a refund without its RRN) none.  The
    authorizer leaves the method and the key alone, and [sends] counts the
    calls of the transport. *)
Theorem acquiring_payments_once w :
  keeps_retry c → c_unsafeRetries c = false →
  (∀ B (HB : JSON B), Observed sends 1 0 c (TJSON (@json_Decode B HB))) → Observed sends 1 0 c (TNil (A := unit)) →
  let once {A B} (f : JSON A → JSON B → option A → W → result B * W) :=
    ∀ (JA : JSON A) (JB : JSON B) x, 0 <= sends (f JA JB x w).2 - sends w <= if isSome x then 1 else 0 in
  once (λ JA JB, AcqApi.CreateInvoice c ua) ∧ once (λ JA JB, AcqApi.CancelInvoice c ua) ∧
  once (λ JA JB, AcqApi.FinalizeInvoice c ua) ∧ once (λ JA JB, AcqApi.PaymentDirect c ua) ∧
  once (λ JA JB, AcqApi.SyncPayment c ua) ∧ once (λ JA JB, AcqApi.WalletPayment c ua) ∧
  once (λ JA JB, AcqApi.SubscriptionCreate c ua) ∧
  (∀ (JA : JSON POSTransactionCancelRequest) x, 0 <= sends (AcqApi.POSTransactionCancel c ua x w).2 - sends w <=
     match x with Some x => if String.eqb (POSTransactionCancelRequest_RRN x) "" then 0 else 1 | None => 0 end) ∧
  (∀ (JA : JSON SubscriptionEditRequest) x,
     0 <= sends (AcqApi.SubscriptionEdit c ua x w).2 - sends w <= if isSome x then 1 else 0).
Proof.
  intros Hk Hu Hobs Hack once. split_and!; try (intros JA JB x; by apply post_opt_once).
  - intros JA [x|]; cbn; [|lia]. unfold AcqApi.with_id_ack. destruct (String.eqb _ ""); [cbn; lia|by apply post_ack_once].
  - intros JA [x|]; cbn; [by apply post_ack_once|lia].
Qed.


End Counts.

Definition toy_json {A} (zero : A) : JSON A :=
  {| json_Marshal _ := Ok "{}"; json_Decode _ _ := Ok zero; json_zero := zero |}.

Lemma net_keeps unsafe lim : keeps_retry (net_client unsafe lim).
Proof.
  intros a q w [= <-]. split; [done|]. unfold set_Header, Header_Set, Header_Get. simpl.
  by rewrite lookup_insert_ne.
Qed.

Definition cancel_all : CancelRequest := mkCancelRequest "inv" "" 0 [].
Definition cancelled : CancelResponse := mkCancelResponse "processing" "" "".

Definition refund : POSTransactionCancelRequest := mkPOSTransactionCancelRequest "042" 100.

(** A gateway that fails once and would then answer: one refund went out. *)
Lemma acquiring_payments_once_witness :
  let w := mkNet [bad_gateway; ok_200 ""] [] 0 in
  let r := AcqApi.POSTransactionCancel (H0 := net_netlib) (H24 := toy_json refund) (net_client false None) "sdk" (Some refund) w in
  length (n_seen r.2) = 1%nat ∧ 0 <= Z.of_nat (length (n_seen r.2)) - Z.of_nat (length (n_seen w)) <= 1.
Proof.
  intros w r. split; [reflexivity|].
  destruct (acquiring_payments_once (H0 := net_netlib) (λ w, Z.of_nat (length (n_seen w))) (net_client false None) "sdk" w)
    as (_ & _ & _ & _ & _ & _ & _ & Hc & _); [apply net_keeps|done|intros; by apply net_observed_sends; [|left]|by apply net_observed_sends; [|left]|].
  exact (Hc (toy_json refund) (Some refund)).
Defined.


