(* ===== verification/AcqIter.v ===== *)
(** * Iterating over subscriptions and their charges (acquiring/subscription.go)

    [SubscriptionListAll] and [SubscriptionPaymentsAll] walk numbered pages.
    The loop is driven by fuel, one unit per page. *)
From S2P Require Import Prelude GoString GoText GoFloat Errors Currency Money GoHttp Retry Client Endpoint.
From S2P Require Import BankData Acquiring AcqApi Iter.

(** [cur := opts; cur.Page = page]. *)
Definition list_page (page : Z) (o : SubscriptionListOptions) : SubscriptionListOptions :=
  mkSubscriptionListOptions (SubscriptionListOptions_Status o) (SubscriptionListOptions_Limit o) page
    (SubscriptionListOptions_DateFrom o) (SubscriptionListOptions_DateTo o).
Definition payments_page (page : Z) (o : SubscriptionPaymentsOptions) : SubscriptionPaymentsOptions :=
  mkSubscriptionPaymentsOptions (SubscriptionPaymentsOptions_SubscriptionID o) (SubscriptionPaymentsOptions_Limit o) page
    (SubscriptionPaymentsOptions_DateFrom o) (SubscriptionPaymentsOptions_DateTo o).

(** [page := opts.Page; if page < 1 { page = 1 }]. *)
Definition first_page (page : Z) : Z := if page <? 1 then 1 else page.

Section All.
Context {W : Type} `{World W} `{NetLib}.
Context (c : Client W) (ua : string) (fuel : nat).

Definition SubscriptionListAll `{JSON SubscriptionsListResponse} (yield : result SubscriptionListItem → W → bool * W)
    (opts : SubscriptionListOptions) (w : W) : option W :=
  numbered_loop fuel ctx_Err
    (λ page w, project (λ r, (SubscriptionsListResponse_List r, Pagination_TotalPages (SubscriptionsListResponse_Pagination r)))
                 (SubscriptionList c ua (list_page page opts) w))
    yield (first_page (SubscriptionListOptions_Page opts)) w.

Definition SubscriptionPaymentsAll `{JSON SubscriptionPaymentsResponse} (yield : result SubscriptionPayment → W → bool * W)
    (opts : SubscriptionPaymentsOptions) (w : W) : option W :=
  numbered_loop fuel ctx_Err
    (λ page w, project (λ r, (SubscriptionPaymentsResponse_Payments r,
                              Pagination_TotalPages (SubscriptionPaymentsResponse_Pagination r)))
                 (SubscriptionPayments c ua (payments_page page opts) w))
    yield (first_page (SubscriptionPaymentsOptions_Page opts)) w.

End All.

(** ** The paging contract

    A listing in numbered pages from 1, none of them empty, each answer telling
    how many there are; a page past the end is empty.  [asked] lists the pages
    fetched so far and [out] the rows handed over: a fetch moves the first, the
    consumer, which never stops, the second. *)
Record Walk {W A} (out : W → list A) (asked : W → list Z) (fetch : Z → W → result (list A * Z) * W)
    (yield : result A → W → bool * W) (pages : list (list A)) (first : Z) : Prop := {
  wk_page p w : 1 <= p <= Z.max first (Z.of_nat (length pages)) →
    (fetch p w).1 = Ok (default [] (pages !! Z.to_nat (p - 1)), Z.of_nat (length pages));
  wk_fetch p w : 1 <= p <= Z.max first (Z.of_nat (length pages)) →
    out (fetch p w).2 = out w ∧ asked (fetch p w).2 = asked w ++ [p];
  wk_yield : Collects out yield;
  wk_quiet x w : asked (yield (Ok x) w).2 = asked w;
  wk_full : Forall (λ l, l ≠ []) pages
}.

(** ** Lemmas *)

Lemma yield_all_quiet {W A B} (asked : W → B) (yield : A → W → bool * W) l w :
  (∀ x w, asked (yield x w).2 = asked w) → asked (yield_all yield l w).2 = asked w.
Proof.
  intros Hq. revert w. induction l as [|x l IH]; intros w; [done|]. cbn. specialize (Hq x w).
  destruct (yield x w) as [[|] w1]; cbn in *; [by rewrite IH|done].
Qed.

Section LoopFacts.
Context {W A : Type} (out : W → list A) (asked : W → list Z) (ctx_Err : W → option error)
  (fetch : Z → W → result (list A * Z) * W) (yield : result A → W → bool * W) (pages : list (list A)) (first : Z).
Hypothesis Hwalk : Walk out asked fetch yield pages first.
Hypothesis Hctx : ∀ w, ctx_Err w = None.

(** One turn of the loop. *)
Lemma numbered_turn fuel p w :
  1 <= p <= Z.max first (Z.of_nat (length pages)) →
  ∃ w1, out w1 = out w ++ default [] (pages !! Z.to_nat (p - 1)) ∧ asked w1 = asked w ++ [p] ∧
    numbered_loop (S fuel) ctx_Err fetch yield p w =
      if Z.of_nat (length pages) <=? p then Some w1 else numbered_loop fuel ctx_Err fetch yield (p + 1) w1.
Proof.
  intros Hp. cbn [numbered_loop]. rewrite Hctx.
  pose proof (wk_page _ _ _ _ _ _ Hwalk p w Hp) as Hs. destruct (wk_fetch _ _ _ _ _ _ Hwalk p w Hp) as [Ho Ha].
  destruct (fetch p w) as [r w1]. cbn in Hs, Ho, Ha. subst r. set (l := default [] _).
  destruct (yield_all_spec out yield l w1 (wk_yield _ _ _ _ _ _ Hwalk)) as [Hy1 Hy2].
  pose proof (yield_all_quiet asked (λ x, yield (Ok x)) l w1 (wk_quiet _ _ _ _ _ _ Hwalk)) as Hy3.
  destruct (yield_all _ l w1) as [more w2]. cbn in Hy1, Hy2, Hy3. subst more. cbn [negb].
  exists w2. rewrite Hy2, Hy3, Ho, Ha. split; [done|]. split; [done|].
  destruct (Z.leb_spec (Z.of_nat (length pages)) p) as [Hle|Hgt]; [by rewrite orb_true_r|]. rewrite orb_false_r.
  rewrite bool_decide_false; [done|]. unfold l.
  destruct (lookup_lt_is_Some_2 pages (Z.to_nat (p - 1)) ltac:(lia)) as [k Hk]. rewrite Hk.
  apply (Forall_lookup_1 _ _ _ _ (wk_full _ _ _ _ _ _ Hwalk) Hk).
Qed.

Lemma numbered_loop_spec fuel p w :
  1 <= p <= Z.max first (Z.of_nat (length pages)) → Z.of_nat (length pages) - p < Z.of_nat fuel - 1 → (0 < fuel)%nat →
  ∃ w', numbered_loop fuel ctx_Err fetch yield p w = Some w' ∧
    out w' = out w ++ mjoin (drop (Z.to_nat (p - 1)) pages) ∧
    asked w' = asked w ++ seqZ p (Z.max 1 (Z.of_nat (length pages) + 1 - p)).
Proof.
  revert p w. induction fuel as [|fuel IH]; intros p w Hp Hf H0; [lia|].
  destruct (numbered_turn fuel p w Hp) as (w1 & Ho & Ha & ->).
  destruct (Z.leb_spec (Z.of_nat (length pages)) p) as [Hle|Hgt].
  - exists w1. split; [done|]. rewrite Ho, Ha. rewrite Z.max_l by lia. split; [|done]. f_equal.
    destruct (decide (p = Z.of_nat (length pages))) as [->|Hne].
    + destruct (lookup_lt_is_Some_2 pages (Z.to_nat (Z.of_nat (length pages) - 1)) ltac:(lia)) as [l Hl].
      rewrite (drop_S _ _ _ Hl), Hl, drop_ge by lia. cbn. by rewrite app_nil_r.
    + rewrite lookup_ge_None_2, drop_ge by lia. done.
  - destruct (IH (p + 1) w1 ltac:(lia) ltac:(lia) ltac:(lia)) as (w' & -> & Ho' & Ha'). exists w'. split; [done|].
    rewrite Ho', Ha', Ho, Ha, <- !app_assoc.
    destruct (lookup_lt_is_Some_2 pages (Z.to_nat (p - 1)) ltac:(lia)) as [l Hl].
    rewrite (drop_S _ _ _ Hl), Hl. replace (Z.to_nat (p + 1 - 1)) with (S (Z.to_nat (p - 1))) by lia. split; [done|].
    f_equal. rewrite (seqZ_cons p) by lia. cbn. unfold Z.succ. by replace (Z.max 1 (Z.of_nat (length pages) + 1 - (p + 1)))
      with (Z.pred (Z.max 1 (Z.of_nat (length pages) + 1 - p))) by lia.
Qed.

End LoopFacts.

(** ** Properties *)

(** C33: against a listing in numbered pages none of which is empty, while the
    context is alive and the consumer goes on, both iterators hand over every
    row from the requested page on (the first one when it is below 1), in order
    and once each, and fetch each of those pages exactly once, in order; from a
    page past the end, or on an empty listing, they fetch that page alone and
    hand over nothing. (One unit of fuel per page and one more are enough.) *)
Theorem subscriptions_paging_complete {W} `{World W} `{NetLib} `{JSON SubscriptionsListResponse}
    `{JSON SubscriptionPaymentsResponse} (c : Client W) ua fuel out1 out2 asked1 asked2 yield1 yield2 pages1 pages2 opts1 opts2 w :
  let fetch1 := λ page w, project (λ r, (SubscriptionsListResponse_List r, Pagination_TotalPages (SubscriptionsListResponse_Pagination r)))
                  (SubscriptionList c ua (list_page page opts1) w) in
  let fetch2 := λ page w, project (λ r, (SubscriptionPaymentsResponse_Payments r, Pagination_TotalPages (SubscriptionPaymentsResponse_Pagination r)))
                  (SubscriptionPayments c ua (payments_page page opts2) w) in
  let first1 := Z.max 1 (SubscriptionListOptions_Page opts1) in
  let first2 := Z.max 1 (SubscriptionPaymentsOptions_Page opts2) in
  (∀ w : W, ctx_Err w = None) →
  Walk out1 asked1 fetch1 yield1 pages1 first1 → Walk out2 asked2 fetch2 yield2 pages2 first2 →
  (length pages1 < fuel)%nat → (length pages2 < fuel)%nat →
  (∃ w', SubscriptionListAll c ua fuel yield1 opts1 w = Some w' ∧
     out1 w' = out1 w ++ mjoin (drop (Z.to_nat (first1 - 1)) pages1) ∧
     asked1 w' = asked1 w ++ seqZ first1 (Z.max 1 (Z.of_nat (length pages1) + 1 - first1))) ∧
  (∃ w', SubscriptionPaymentsAll c ua fuel yield2 opts2 w = Some w' ∧
     out2 w' = out2 w ++ mjoin (drop (Z.to_nat (first2 - 1)) pages2) ∧
     asked2 w' = asked2 w ++ seqZ first2 (Z.max 1 (Z.of_nat (length pages2) + 1 - first2))).
Proof.
  intros fetch1 fetch2 first1 first2 Hctx Hw1 Hw2 Hf1 Hf2.
  assert (∀ p, first_page p = Z.max 1 p) as Hp by (intros p; unfold first_page; destruct (Z.ltb_spec p 1); lia).
  unfold SubscriptionListAll, SubscriptionPaymentsAll. rewrite !Hp. fold first1 first2 fetch1 fetch2.
  split; eapply numbered_loop_spec; try done; unfold first1, first2; lia.
Qed.

(** A merchant with one subscription and two charges: the rows handed over and
    the pages fetched. *)
Abbreviation Seen := (list SubscriptionListItem * list SubscriptionPayment * list Z)%type.

#[export] Instance seen_world : World Seen := {|
  now w := (0, w); rand_Int64N n w := (0, w); ctx_Err w := None; wait d w := (None, w)
|}.

(** Every call is for the only page. *)
Definition seen_client : Client Seen :=
  mkClient (OtherDoer (λ _ w, (ok_200 "{}", (w.1, w.2 ++ [1])))) None (Some (mkURL "https" "api.monobank.ua" "" "")) defaultRetry None ""
    false false None None None None.

Definition one_sub : SubscriptionsListResponse :=
  mkSubscriptionsListResponse [mkSubscriptionListItem "s1" 100 "1m" "" "" "" "" "active"] (mkPagination 1 20 1 1).
Definition two_charges : SubscriptionPaymentsResponse :=
  mkSubscriptionPaymentsResponse [mkSubscriptionPayment 100 980 "success" "a"; mkSubscriptionPayment 100 980 "failed" "b"]
    (mkPagination 2 20 1 1).

Definition sub_json : JSON SubscriptionsListResponse :=
  {| json_Marshal _ := Ok ""; json_Decode _ _ := Ok one_sub; json_zero := one_sub |}.
Definition charge_json : JSON SubscriptionPaymentsResponse :=
  {| json_Marshal _ := Ok ""; json_Decode _ _ := Ok two_charges; json_zero := two_charges |}.

Definition sub_opts : SubscriptionListOptions := mkSubscriptionListOptions "" 20 0 0 zero_time.
Definition charge_opts : SubscriptionPaymentsOptions := mkSubscriptionPaymentsOptions "s1" 20 1 0 zero_time.

Definition see_sub (r : result SubscriptionListItem) (w : Seen) : bool * Seen :=
  match r with Ok x => (true, (w.1.1 ++ [x], w.1.2, w.2)) | Err _ => (true, w) end.
Definition see_charge (r : result SubscriptionPayment) (w : Seen) : bool * Seen :=
  match r with Ok x => (true, (w.1.1, w.1.2 ++ [x], w.2)) | Err _ => (true, w) end.

Lemma subscriptions_paging_complete_witness :
  (∃ w', SubscriptionListAll (H0 := net_netlib) (H1 := sub_json) seen_client "sdk" 5 see_sub sub_opts ([], [], []) = Some w' ∧
         w'.1.1 = SubscriptionsListResponse_List one_sub ∧ w'.2 = [1]) ∧
  (∃ w', SubscriptionPaymentsAll (H0 := net_netlib) (H1 := charge_json) seen_client "sdk" 5 see_charge charge_opts ([], [], []) = Some w' ∧
         w'.1.2 = SubscriptionPaymentsResponse_Payments two_charges ∧ w'.2 = [1]).
Proof.
  apply (subscriptions_paging_complete (H0 := net_netlib) (H1 := sub_json) (H2 := charge_json) seen_client "sdk" 5
    (λ w, w.1.1) (λ w, w.1.2) snd snd see_sub see_charge [SubscriptionsListResponse_List one_sub]
    [SubscriptionPaymentsResponse_Payments two_charges] sub_opts charge_opts ([], [], [])); [done|..].
  - split; [| |by split|done|by repeat constructor];
      intros p w0 Hp; cbn in Hp; assert (p = 1) as -> by lia; [reflexivity|by split].
  - split; [| |by split|done|by repeat constructor];
      intros p w0 Hp; cbn in Hp; assert (p = 1) as -> by lia; [reflexivity|by split].
  - cbn. lia.
  - cbn. lia.
Defined.
