(* ===== verification/Reconcile.v ===== *)
(** * Reconciliation (acquiring/reconcile.go)

    [PollInvoice] asks for the status of an invoice until it is final or the
    context ends; [ReconcileStatement] compares a statement with local records.
    Ranging over a Go map visits its keys in an arbitrary order, which is a
    parameter here; the result does not depend on it. *)
From stdpp Require Import sorting.
From S2P Require Import Prelude GoString GoText Errors Currency Money GoHttp Retry Client Endpoint.
From S2P Require Import BankData Acquiring AcqApi.
#[local] Open Scope Z_scope.

(** ** PollInvoice *)





(** [context.WithTimeout] on the context of the call. *)
Class Deadline (W : Type) := { WithTimeout : Z → W → W }.

Section Poll.
Context {W : Type} `{World W} `{Deadline W}.
Context (InvoiceStatus : string → W → result InvoiceStatusResponse * W).

(** What the call returns: a state, an error, both or neither. *)
Abbreviation answer := (option InvoiceStatusResponse * option error)%type.




(** ** Lemmas *)










(** ** Properties *)


End Poll.

(** A clock counting down, and an invoice paid after a few polls. *)
#[local] Instance countdown : World Z := {|
  now w := (w, w); rand_Int64N n w := (0, w); ctx_Err w := None;
  wait d w := if w <? d then (Some (ENew DeadlineExceeded), w) else (None, w - d)
|}.
#[local] Instance countdown_deadline : Deadline Z := {| WithTimeout t w := Z.min t w |}.





(** ** ReconcileStatement *)

Record LocalPayment := mkLocalPayment { LocalPayment_Amount : Money; LocalPayment_Status : string }.

Record Mismatch := mkMismatch {
  Mismatch_InvoiceID : string; Mismatch_Reason : string; LocalAmount : Money; RemoteAmount : Money;
  LocalStatus : string; RemoteStatus : string
}.

Record Reconciliation := mkReconciliation {
  OnlyRemote : list StatementInvoice; OnlyLocal : list string; Mismatches : list Mismatch
}.

Definition Reconciliation_Clean (r : Reconciliation) : bool :=
  bool_decide (OnlyRemote r = []) && bool_decide (OnlyLocal r = []) && bool_decide (Mismatches r = []).

Definition no_money : Money := mkMoney 0 0.

(** What one row adds to the mismatches. *)
Definition row_mismatches (lp : LocalPayment) (row : StatementInvoice) : list Mismatch :=
  (if negb (Minor (LocalPayment_Amount lp) =? Minor (StatementInvoice_Amount row))
   then [mkMismatch (StatementInvoice_InvoiceID row) "amount" (LocalPayment_Amount lp) (StatementInvoice_Amount row) "" ""]
   else []) ++
  (if negb (String.eqb (LocalPayment_Status lp) "") && negb (String.eqb (LocalPayment_Status lp) (StatementInvoice_Status row))
   then [mkMismatch (StatementInvoice_InvoiceID row) "status" no_money no_money (LocalPayment_Status lp) (StatementInvoice_Status row)]
   else []).

(** The loop over the statement: the rows seen, the result so far. *)
Fixpoint reconcile_rows (statement : list StatementInvoice) (loc : gmap string LocalPayment)
    (seen : gset string) (rec : Reconciliation) : gset string * Reconciliation :=
  match statement with
  | [] => (seen, rec)
  | row :: statement =>
      let seen := {[StatementInvoice_InvoiceID row]} ∪ seen in
      match loc !! StatementInvoice_InvoiceID row with
      | None => reconcile_rows statement loc seen (mkReconciliation (OnlyRemote rec ++ [row]) (OnlyLocal rec) (Mismatches rec))
      | Some lp => reconcile_rows statement loc seen
                     (mkReconciliation (OnlyRemote rec) (OnlyLocal rec) (Mismatches rec ++ row_mismatches lp row))
      end
  end.

(** [keys]: the order in which ranging over the map visits its keys. *)
Definition ReconcileStatement (keys : list string) (statement : list StatementInvoice) (loc : gmap string LocalPayment)
    : Reconciliation :=
  let '(seen, rec) := reconcile_rows statement loc ∅ (mkReconciliation [] [] []) in
  let only := foldl (λ acc id, if bool_decide (id ∈ seen) then acc else acc ++ [id]) [] keys in
  mkReconciliation (OnlyRemote rec) (merge_sort String.le only) (Mismatches rec).

(** ** Lemmas *)

Definition row_id (r : StatementInvoice) : string := StatementInvoice_InvoiceID r.

Lemma reconcile_rows_spec statement loc seen rec :
  reconcile_rows statement loc seen rec =
  (list_to_set (row_id <$> statement) ∪ seen,
   mkReconciliation (OnlyRemote rec ++ filter (λ r, loc !! row_id r = None) statement) (OnlyLocal rec)
     (Mismatches rec ++ (statement ≫= λ r, match loc !! row_id r with Some lp => row_mismatches lp r | None => [] end))).
Proof.
  revert seen rec. induction statement as [|row statement IH]; intros seen rec; cbn [reconcile_rows].
  - cbn. rewrite !app_nil_r. f_equal; [set_solver|by destruct rec].
  - rewrite bind_cons, fmap_cons. cbv zeta. fold (row_id row).
    destruct (loc !! row_id row) as [lp|] eqn:Hl; rewrite IH; cbn [OnlyRemote OnlyLocal Mismatches].
    + rewrite filter_cons_False by (by rewrite Hl). rewrite <- (assoc_L app). f_equal. set_solver.
    + rewrite filter_cons_True by done. rewrite <- (assoc_L app). f_equal. set_solver.
Qed.

Lemma keys_filter (seen : gset string) keys acc :
  foldl (λ acc id, if bool_decide (id ∈ seen) then acc else acc ++ [id]) acc keys = acc ++ filter (λ id, id ∉ seen) keys.
Proof.
  revert acc. induction keys as [|k keys IH]; intros acc; cbn [foldl]; [by rewrite app_nil_r|].
  case_bool_decide.
  - rewrite filter_cons_False by (intros Hn; by apply Hn). apply IH.
  - rewrite filter_cons_True by done. rewrite IH. by rewrite <- (assoc_L app).
Qed.

Lemma merge_sort_perm l1 l2 : l1 ≡ₚ l2 → merge_sort String.le l1 = merge_sort String.le l2.
Proof.
  intros Hp. apply (StronglySorted_unique String.le).
  - apply StronglySorted_merge_sort; apply _.
  - apply StronglySorted_merge_sort; apply _.
  - by rewrite !merge_sort_Permutation.
Qed.

(** The two sides agree on a row. *)
Definition agrees (lp : LocalPayment) (row : StatementInvoice) : Prop :=
  Minor (LocalPayment_Amount lp) = Minor (StatementInvoice_Amount row) ∧
  (LocalPayment_Status lp = "" ∨ LocalPayment_Status lp = StatementInvoice_Status row).

Lemma row_mismatches_nil lp row : row_mismatches lp row = [] ↔ agrees lp row.
Proof.
  unfold row_mismatches, agrees. rewrite app_nil.
  destruct (Z.eqb_spec (Minor (LocalPayment_Amount lp)) (Minor (StatementInvoice_Amount row)));
  destruct (String.eqb_spec (LocalPayment_Status lp) "");
  destruct (String.eqb_spec (LocalPayment_Status lp) (StatementInvoice_Status row)); cbn; naive_solver.
Qed.

Lemma bind_nil {A B} (f : A → list B) l : l ≫= f = [] ↔ Forall (λ x, f x = []) l.
Proof.
  induction l as [|x l IH]; [done|]. rewrite bind_cons, app_nil, IH. by rewrite Forall_cons.
Qed.

Lemma filter_nil {A} (P : A → Prop) `{!∀ x, Decision (P x)} l : filter P l = [] ↔ Forall (λ x, ¬ P x) l.
Proof.
  induction l as [|x l IH]; [done|]. rewrite Forall_cons. destruct (decide (P x)).
  - rewrite filter_cons_True by done. naive_solver.
  - rewrite filter_cons_False by done. naive_solver.
Qed.

(** The identifiers with a local record and no row. *)
Definition unseen (statement : list StatementInvoice) (id : string) : Prop :=
  id ∉ (list_to_set (row_id <$> statement) ∪ ∅ : gset string).

#[global] Instance unseen_dec statement id : Decision (unseen statement id).
Proof. unfold unseen. apply _. Defined.

Lemma ReconcileStatement_eq keys statement loc :
  ReconcileStatement keys statement loc =
  mkReconciliation (filter (λ r, loc !! row_id r = None) statement)
    (merge_sort String.le (filter (unseen statement) keys))
    (statement ≫= λ r, match loc !! row_id r with Some lp => row_mismatches lp r | None => [] end).
Proof.
  unfold ReconcileStatement. rewrite reconcile_rows_spec. cbn [OnlyRemote OnlyLocal Mismatches]. rewrite keys_filter.
  cbn [app]. do 2 f_equal.
Qed.

Lemma unseen_iff statement id : ¬ unseen statement id ↔ ∃ r, r ∈ statement ∧ row_id r = id.
Proof.
  unfold unseen. split.
  - intros Hn. apply dec_stable in Hn. set_solver.
  - intros (r & Hr & <-) Hn. set_solver.
Qed.

Lemma only_local_iff keys statement (loc : gmap string LocalPayment) id :
  keys ≡ₚ (map_to_list loc).*1 →
  id ∈ merge_sort String.le (filter (unseen statement) keys) ↔ is_Some (loc !! id) ∧ unseen statement id.
Proof.
  intros Hkeys. rewrite merge_sort_Permutation, list_elem_of_filter, Hkeys, list_elem_of_fmap. split.
  - intros (Hu & [k v] & -> & Hin). apply elem_of_map_to_list in Hin. split; [by exists v|done].
  - intros [[v Hv] Hu]. split; [done|]. exists (id, v). split; [done|]. by apply elem_of_map_to_list.
Qed.

(** ** Properties *)

(** C19: the comparison does not depend on the order the map is visited in; it
    reports exactly the rows without a local record, in their order, exactly the
    local records without a row, sorted and once each, and for each common row
    what differs; and it is clean exactly when every row has a local record with
    the same amount and, when it has one, the same status, and every local
    record has a row. *)
Theorem ReconcileStatement_spec keys keys' statement (loc : gmap string LocalPayment)
    (Hkeys : keys ≡ₚ (map_to_list loc).*1) (Hkeys' : keys' ≡ₚ (map_to_list loc).*1) :
  let rec := ReconcileStatement keys statement loc in
  rec = ReconcileStatement keys' statement loc ∧
  OnlyRemote rec = filter (λ r, loc !! row_id r = None) statement ∧
  (∀ id, id ∈ OnlyLocal rec ↔ is_Some (loc !! id) ∧ ¬ ∃ r, r ∈ statement ∧ row_id r = id) ∧
  NoDup (OnlyLocal rec) ∧ StronglySorted String.le (OnlyLocal rec) ∧
  (∀ m, m ∈ Mismatches rec ↔ ∃ r lp, r ∈ statement ∧ loc !! row_id r = Some lp ∧ m ∈ row_mismatches lp r) ∧
  (Reconciliation_Clean rec = true ↔
     Forall (λ r, ∃ lp, loc !! row_id r = Some lp ∧ agrees lp r) statement ∧
     ∀ id, is_Some (loc !! id) → ∃ r, r ∈ statement ∧ row_id r = id).
Proof.
  intros rec. unfold rec. rewrite !ReconcileStatement_eq. cbn [OnlyRemote OnlyLocal Mismatches].
  assert (∀ id, id ∈ merge_sort String.le (filter (unseen statement) keys) ↔
                is_Some (loc !! id) ∧ ¬ ∃ r, r ∈ statement ∧ row_id r = id) as Hin.
  { intros id. rewrite only_local_iff by done. rewrite <- unseen_iff. split; [naive_solver|].
    intros [? Hn]. split; [done|]. by apply dec_stable. }
  split_and!; [|done|done| | | |].
  - f_equal. apply merge_sort_perm. by rewrite Hkeys, Hkeys'.
  - rewrite merge_sort_Permutation. apply NoDup_filter. rewrite Hkeys. apply NoDup_fst_map_to_list.
  - apply StronglySorted_merge_sort; apply _.
  - intros m. rewrite list_elem_of_bind. split.
    + intros (r & Hm & Hr). destruct (loc !! row_id r) as [lp|] eqn:Hl; [|by apply not_elem_of_nil in Hm]. by exists r, lp.
    + intros (r & lp & Hr & Hl & Hm). exists r. by rewrite Hl.
  - unfold Reconciliation_Clean. cbn [OnlyRemote OnlyLocal Mismatches].
    rewrite !andb_true_iff, !bool_decide_eq_true, filter_nil, bind_nil, !Forall_forall. split.
    + intros [[Hr Ho] Hm]. split.
      * intros r Hin'. specialize (Hr r Hin'). specialize (Hm r Hin'). cbn in Hm.
        destruct (loc !! row_id r) as [lp|]; [|done]. exists lp. split; [done|]. by apply row_mismatches_nil.
      * intros id Hid. apply unseen_iff. intros Hu. rewrite Ho in Hin.
        apply (not_elem_of_nil id), Hin. split; [done|]. rewrite <- unseen_iff. naive_solver.
    + intros [Hr Ho]. split; [split|].
      * intros r Hin' Hl. destruct (Hr r Hin') as (lp & Hlp & _). congruence.
      * destruct (merge_sort String.le (filter (unseen statement) keys)) as [|id l]; [done|]. exfalso.
        destruct (proj1 (Hin id) ltac:(by left)) as [Hid Hn]. by destruct Hn; apply Ho.
      * intros r Hin'. destruct (Hr r Hin') as (lp & Hlp & Ha). rewrite Hlp. by apply row_mismatches_nil.
Qed.

Definition paid (id : string) (amount : Z) : StatementInvoice :=
  mkStatementInvoice id "success" "" "" "full" (mkMoney amount 980) (mkMoney amount 980) 980 "" "" "" "" "" [] ∅.

Definition books : gmap string LocalPayment :=
  list_to_map [("inv-1", mkLocalPayment (mkMoney 100 980) "success"); ("inv-2", mkLocalPayment (mkMoney 200 980) "");
               ("inv-9", mkLocalPayment (mkMoney 900 980) "")].

Lemma ReconcileStatement_spec_witness :
  let rec := ReconcileStatement ["inv-9"; "inv-2"; "inv-1"] [paid "inv-1" 100; paid "inv-2" 250; paid "inv-3" 1] books in
  Reconciliation_Clean rec = false ∧ OnlyRemote rec = [paid "inv-3" 1] ∧ OnlyLocal rec = ["inv-9"] ∧
  length (Mismatches rec) = 1%nat.
Proof.
  intros rec. assert (["inv-9"; "inv-2"; "inv-1"] ≡ₚ (map_to_list books).*1) as Hk by (apply (bool_decide_unpack _); by vm_compute).
  destruct (ReconcileStatement_spec ["inv-9"; "inv-2"; "inv-1"] ["inv-9"; "inv-2"; "inv-1"]
    [paid "inv-1" 100; paid "inv-2" 250; paid "inv-3" 1] books Hk Hk) as (_ & Hr & _).
  split_and!; [by vm_compute|exact (eq_trans Hr ltac:(by vm_compute))|by vm_compute|by vm_compute].
Defined.
